(** * TimeTable: a shallow embedding of the timetable front end and of the
    scheduling engine it drives.

    The file has two halves.  The first holds the definitions: the JavaScript
    helpers the components rely on, then one module per source file
    ([DepartmentConfig], [AddTeacher], [PdfGenerator], [ConstraintTesting],
    [Timetable]) and the scheduling engine.  The second half holds the
    lemmas and theorems, again one module per component. *)

From Stdlib Require Import Ascii.
From Stdlib Require QArith.QArith_base QArith.Qcanon QArith.Qround.
From stdpp Require Import base option list strings pretty gmap sorting.


(* ================================================================== *)
(** * Part I: definitions                                              *)
(* ================================================================== *)

(** ** JavaScript primitives used by the components *)

Module Js.

(** A JavaScript number restricted to the naturals the components compute
    with; [None] stands for [NaN]. *)
Definition num := option nat.

(** [s.split(c)] for a one-character separator. *)
Fixpoint split (c : ascii) (s : string) : list string :=
  match s with
  | EmptyString => [""]
  | String a s' =>
      if decide (a = c) then "" :: split c s'
      else match split c s' with
           | [] => [String a ""]
           | w :: ws => String a w :: ws
           end
  end.

(** [Number(s)] on the strings the components feed it: a run of decimal
    digits is its value, the empty string is [0], anything else is [NaN]. *)
Fixpoint digits (acc : nat) (s : string) : num :=
  match s with
  | EmptyString => Some acc
  | String a s' => d ← Ascii.is_nat a; digits (10 * acc + d) s'
  end.

Definition Number (s : string) : num := digits 0 s.

(** [Number(a[i])]: a missing array element is [undefined], whose number
    is [NaN]. *)
Definition NumberAt (a : list string) (i : nat) : num :=
  s ← a !! i; Number s.

(** [String(n)] and template interpolation of a number. *)
Definition String_ (n : num) : string :=
  match n with
  | Some k => pretty k
  | None => "NaN"
  end.

Fixpoint replicate_char (n : nat) (c : ascii) : string :=
  match n with
  | 0 => ""
  | S n' => String c (replicate_char n' c)
  end.

(** [s.padStart(len, c)] for a one-character filler. *)
Definition padStart (len : nat) (c : ascii) (s : string) : string :=
  replicate_char (len - String.length s) c +:+ s.

(** The white space and the line terminators of JavaScript.  A string is
    the UTF-8 text of the JavaScript one; six of these characters are one
    byte long (tab, line feed, vertical tab, form feed, carriage return and
    space), the no-break space U+00A0 is two bytes long and the others
    three: U+1680, U+2000 to U+200A, U+2028, U+2029, U+202F, U+205F, U+3000
    and U+FEFF. *)
Definition white_space2 (a b : ascii) : bool :=
  bool_decide (a = "194"%char ∧ b = "160"%char).

Definition white_space3 (a b c : ascii) : bool :=
  bool_decide (a = "225"%char ∧ b = "154"%char ∧ c = "128"%char)
  || bool_decide (a = "226"%char ∧ b = "128"%char
                  ∧ (128 ≤ nat_of_ascii c ≤ 138
                     ∨ c = "168"%char ∨ c = "169"%char ∨ c = "175"%char))
  || bool_decide (a = "226"%char ∧ b = "129"%char ∧ c = "159"%char)
  || bool_decide (a = "227"%char ∧ b = "128"%char ∧ c = "128"%char)
  || bool_decide (a = "239"%char ∧ b = "187"%char ∧ c = "191"%char).

(** The string without the white space it starts with, for a reading
    [two], [three] of the characters that are two and three bytes long. *)
Fixpoint strip (two : ascii → ascii → bool) (three : ascii → ascii → ascii → bool)
    (s : string) : string :=
  match s with
  | EmptyString => ""
  | String a s1 =>
      if Ascii.is_space a then strip two three s1
      else match s1 with
           | EmptyString => s
           | String b s2 =>
               if two a b then strip two three s2
               else match s2 with
                    | EmptyString => s
                    | String c s3 => if three a b c then strip two three s3 else s
                    end
           end
  end.

(** [s.trimStart()], and [s.trimEnd()] on the reversed bytes. *)
Definition trimStart (s : string) : string := strip white_space2 white_space3 s.

Definition trimEnd (s : string) : string :=
  String.rev (strip (λ b a, white_space2 a b) (λ c b a, white_space3 a b c)
                    (String.rev s)).

(** [s.trim()] *)
Definition trim (s : string) : string := trimEnd (trimStart s).

(** [s.length]: the UTF-16 code units of a text given by its UTF-8 bytes.
    A continuation byte adds nothing, the first byte of a character of four
    bytes stands for two units, any other first byte for one. *)
Fixpoint utf16_length (s : string) : nat :=
  match s with
  | EmptyString => 0
  | String a s' =>
      (if bool_decide (128 ≤ nat_of_ascii a < 192) then 0
       else if bool_decide (240 ≤ nat_of_ascii a) then 2 else 1)
      + utf16_length s'
  end.

(** The decimal digits a text starts with, and what follows them. *)
Fixpoint span_digits (s : string) : string * string :=
  match s with
  | EmptyString => ("", "")
  | String a s' =>
      if Ascii.is_nat a is Some _ then
        let '(d, rest) := span_digits s' in (String a d, rest)
      else ("", s)
  end.

(** The value of a run of decimal digits. *)
Fixpoint digits_value (acc : Z) (s : string) : Z :=
  match s with
  | EmptyString => acc
  | String a s' => digits_value (10 * acc + Z.of_nat (default 0 (Ascii.is_nat a))) s'
  end.

(** The value of a digit in a radix of 16 at most. *)
Definition digit_in (radix : nat) (c : ascii) : option nat :=
  let n := nat_of_ascii c in
  let v := if bool_decide (48 ≤ n ≤ 57) then Some (n - 48)
           else if bool_decide (97 ≤ n ≤ 102) then Some (n - 87)
           else if bool_decide (65 ≤ n ≤ 70) then Some (n - 55)
           else None in
  v ≫= λ d, if bool_decide (d < radix) then Some d else None.

(** A run of digits in a radix is above zero: every character is a digit
    and one of them is not [0]; [seen] says that a digit other than [0] was
    met. *)
Fixpoint radix_positive (radix : nat) (seen : bool) (s : string) : bool :=
  match s with
  | EmptyString => seen
  | String a s' =>
      match digit_in radix a with
      | Some d => radix_positive radix (seen || negb (bool_decide (d = 0))) s'
      | None => false
      end
  end.

(** The exponent part of a decimal literal, [e] or [E], a sign if any and
    digits: its value, [0] when there is no exponent part, [None] when what
    follows the digits is no exponent part. *)
Definition exponent (s : string) : option Z :=
  match s with
  | EmptyString => Some 0%Z
  | String c s' =>
      if bool_decide (c = "e"%char ∨ c = "E"%char) then
        let '(negative, s'') :=
          match s' with
          | String "-" r => (true, r)
          | String "+" r => (false, r)
          | _ => (false, s')
          end in
        match span_digits s'' with
        | (String a d, EmptyString) =>
            let v := digits_value 0 (String a d) in
            Some (if negative then (- v)%Z else v)
        | _ => None
        end
      else None
  end.

(** An unsigned decimal literal is above zero as a number: it is
    [Infinity], or it has digits, one of them not [0], and is above half of
    the least number above zero, [2^-1075], below which a literal is read
    as zero.  With the digits [m] of the integer and fraction parts, [f]
    digits in the fraction and the exponent [e], its value is
    [m * 10^(e - f)]. *)
Definition decimal_positive (s : string) : bool :=
  if bool_decide (s = "Infinity") then true
  else
    let '(int, rest) := span_digits s in
    let '(frac, rest) :=
      match rest with
      | String "." r => span_digits r
      | _ => ("", rest)
      end in
    if bool_decide (int = "" ∧ frac = "") then false
    else
      match exponent rest with
      | None => false
      | Some e =>
          let m := digits_value 0 (int +:+ frac) in
          let k := (e - Z.of_nat (String.length frac))%Z in
          bool_decide (0 < m)%Z
          && (bool_decide (0 ≤ k)%Z
              || bool_decide (10 ^ (- k) < m * 2 ^ 1075)%Z)
      end.

(** [Number(s) > 0] for a text: without the white space around it, the
    text is a literal above zero, which is a run of digits after [0x], [0o]
    or [0b], or a decimal literal with no sign or after [+]. *)
Definition positive_text (s : string) : bool :=
  match trim s with
  | String "0" (String c r) =>
      if bool_decide (c = "x"%char ∨ c = "X"%char) then radix_positive 16 false r
      else if bool_decide (c = "o"%char ∨ c = "O"%char) then radix_positive 8 false r
      else if bool_decide (c = "b"%char ∨ c = "B"%char) then radix_positive 2 false r
      else decimal_positive (trim s)
  | String "+" r => decimal_positive r
  | t => decimal_positive t
  end.

(** [hay.includes(needle)]. *)
Fixpoint includes (needle hay : string) : bool :=
  String.prefix needle hay ||
  match hay with
  | EmptyString => false
  | String _ hay' => includes needle hay'
  end.

(** [a.join(sep)]. *)
Fixpoint join (sep : string) (a : list string) : string :=
  match a with
  | [] => ""
  | [x] => x
  | x :: rest => x +:+ sep +:+ join sep rest
  end.

(** [a.findIndex(p)]; [None] stands for [-1]. *)
Fixpoint findIndex {A} (p : A → bool) (a : list A) : option nat :=
  match a with
  | [] => None
  | x :: rest => if p x then Some 0 else S <$> findIndex p rest
  end.

(** Comparisons and arithmetic on numbers: every comparison with [NaN]
    is false, every operation on [NaN] is [NaN]. *)
Definition geb (a : num) (k : nat) : bool :=
  match a with Some x => k <=? x | None => false end.

(** [a % k || d]: the remainder, or [d] when the remainder is [0] or
    [NaN]. *)
Definition mod_or (a : num) (k d : nat) : nat :=
  match a with
  | Some x => if x mod k =? 0 then d else x mod k
  | None => d
  end.

(** [s.substring(n)] *)
Fixpoint substring_from (n : nat) (s : string) : string :=
  match n, s with
  | S n', String _ s' => substring_from n' s'
  | _, _ => s
  end.

(** [s.replace(pat, rep)] for a string pattern: the first occurrence
    only. *)
Fixpoint replace (pat rep s : string) : string :=
  if String.prefix pat s then rep +:+ substring_from (String.length pat) s
  else match s with
       | EmptyString => ""
       | String a s' => String a (replace pat rep s')
       end.

(** A JavaScript object with string keys, as the list of its entries in
    the order in which the keys were first set. *)
Abbreviation Obj A := (list (string * A)).

(** The property [k] that [o] has of its own. *)
Definition get {A} (k : string) (o : Obj A) : option A :=
  snd <$> head (filter (λ kv, kv.1 = k) o).

(** The properties every object has from [Object.prototype]: [o[k]] finds
    one of them when [o] has no property [k] of its own. *)
Definition inherited : list string :=
  [ "constructor"; "__defineGetter__"; "__defineSetter__"; "hasOwnProperty";
    "__lookupGetter__"; "__lookupSetter__"; "isPrototypeOf";
    "propertyIsEnumerable"; "toString"; "valueOf"; "__proto__";
    "toLocaleString" ].

(** [o[k]] on an object made by a literal: the property of its own, else
    the inherited one, which is a function or, for [__proto__], the
    prototype itself, and truthy in both cases. *)
Inductive Property (A : Type) :=
| Own (v : A)
| Inherited
| Missing.

Arguments Own {A} _.
Arguments Inherited {A}.
Arguments Missing {A}.

Definition lookup_ {A} (k : string) (o : Obj A) : Property A :=
  match get k o with
  | Some v => Own v
  | None => if decide (k ∈ inherited) then Inherited else Missing
  end.

(** [o[k] = v] *)
Definition set {A} (k : string) (v : A) (o : Obj A) : Obj A :=
  match get k o with
  | Some _ => (λ kv, if decide (kv.1 = k) then (k, v) else kv) <$> o
  | None => o ++ [(k, v)]
  end.

(** A key that is an array index: the canonical decimal text of an
    integer below [2^32 - 1]. *)
Fixpoint digitsN (acc : N) (s : string) : option N :=
  match s with
  | EmptyString => Some acc
  | String a s' => d ← Ascii.is_nat a; digitsN (10 * acc + N.of_nat d)%N s'
  end.

Definition array_index (k : string) : option N :=
  n ← digitsN 0 k;
  if bool_decide (pretty n = k ∧ (n < 4294967295)%N) then Some n else None.

Definition indexN_le {A} (x y : N * A) : Prop := (x.1 ≤ y.1)%N.

Global Instance indexN_le_dec {A} : RelDecision (@indexN_le A).
Proof. intros x y. unfold indexN_le. apply _. Defined.

(** [Object.values(o)]: the values under array-index keys come first, in
    ascending order of the index, then the others in insertion order. *)
Definition values {A} (o : Obj A) : list A :=
  (snd <$> merge_sort indexN_le
             (omap (λ kv, (λ n, (n, kv.2)) <$> array_index kv.1) o))
  ++ (snd <$> filter (λ kv, array_index kv.1 = None) o).

(** A [Set] of strings in insertion order, and [set.add(x)]. *)
Definition set_add (x : string) (l : list string) : list string :=
  if decide (x ∈ l) then l else l ++ [x].

(** [a || b] on strings: the empty string is the only falsy one. *)
Definition or_else (a b : string) : string :=
  if decide (a = "") then b else a.

(** What a number field holds, [Number(e.target.value)]: a natural, or
    another number (one below zero, or one with a fraction) given by its
    value.  Of a number of the second kind the components ask how it
    compares with a natural and what its integer part is. *)
Inductive entered :=
| whole (n : nat)
| other (q : Qcanon.Qc).

(** [x < k] *)
Definition below (x : entered) (k : nat) : bool :=
  match x with
  | whole n => bool_decide (n < k)
  | other q =>
      bool_decide (Qcanon.Qclt q (Qcanon.Q2Qc (QArith_base.inject_Z (Z.of_nat k))))
  end.

(** [!x]: zero is the falsy number. *)
Definition no_number (x : entered) : bool :=
  match x with
  | whole n => bool_decide (n = 0)
  | other q => bool_decide (q = Qcanon.Q2Qc (QArith_base.inject_Z 0))
  end.

(** The turns of [for (let i = 0; i < x; i++)]: the naturals below [x]. *)
Definition turns (x : entered) : nat :=
  match x with
  | whole n => n
  | other q => Z.to_nat (Qround.Qceiling (Qcanon.this q))
  end.

(** [Array.from({ length: x }, ...)]: the length is [x] without its
    fraction, and zero when [x] is below zero. *)
Definition toLength (x : entered) : nat :=
  match x with
  | whole n => n
  | other q => Z.to_nat (Qround.Qfloor (Qcanon.this q))
  end.

(** A [Date] on the first of January 2000, as the minutes since that
    day's local midnight; [None] is the invalid date.  The seconds are left
    out: no operation of the components changes or shows them. *)
Definition Date := option nat.

(** Two decimal digits. *)
Definition two_digits (s : string) : option nat :=
  match s with
  | String a (String b EmptyString) =>
      x ← Ascii.is_nat a; y ← Ascii.is_nat b; Some (10 * x + y)
  | _ => None
  end.

(** [new Date(`2000-01-01T${time}`)] for a time [HH:mm] or [HH:mm:ss]. *)
Definition Date_at (time : string) : Date :=
  match split ":"%char time with
  | [h; m] =>
      h ← two_digits h; m ← two_digits m;
      if bool_decide (h < 24 ∧ m < 60) then Some (60 * h + m) else None
  | [h; m; sec] =>
      h ← two_digits h; m ← two_digits m; sec ← two_digits sec;
      if bool_decide (h < 24 ∧ m < 60 ∧ sec < 60) then Some (60 * h + m) else None
  | _ => None
  end.

(** [d.setMinutes(d.getMinutes() + k)] *)
Definition addMinutes (d : Date) (k : nat) : Date := (λ t, t + k) <$> d.

(** [d.toLocaleTimeString('en-US', { hour: 'numeric', minute: '2-digit',
    hour12: true })], with a plain space before the day period. *)
Definition toLocaleTimeString (d : Date) : string :=
  match d with
  | None => "Invalid Date"
  | Some t =>
      let h := (t / 60) mod 24 in
      pretty (if h mod 12 =? 0 then 12 else h mod 12) +:+ ":"
        +:+ padStart 2 "0"%char (pretty (t mod 60)) +:+ " "
        +:+ (if 12 <=? h then "PM" else "AM")
  end.

(** [Object.entries(o)] of an object whose keys are array indices: the
    entries come in ascending order of the index. *)
Definition index_le {A} (x y : nat * A) : Prop := x.1 ≤ y.1.

Global Instance index_le_dec {A} : RelDecision (@index_le A).
Proof. intros x y. unfold index_le. apply _. Defined.

Definition entries {A} (o : gmap nat A) : list (nat * A) :=
  merge_sort index_le (map_to_list o).

End Js.

(** ** Event handlers as state transformers

    A React event handler reads the component state, calls the server and
    sets state variables.  It is modelled as a function from the state
    before the event to a result and the state after it; the requests it
    sends are logged in the state. *)

Module Handler.

Definition M (S A : Type) : Type := S → A * S.

Global Instance M_ret {S} : MRet (M S) := λ A a s, (a, s).
Global Instance M_bind {S} : MBind (M S) :=
  λ A B f m s, let '(a, s') := m s in f a s'.

Definition modify {S} (f : S → S) : M S unit := λ s, (tt, f s).
Definition exec {S A} (m : M S A) (s : S) : S := snd (m s).
Definition eval {S A} (m : M S A) (s : S) : A := fst (m s).

End Handler.

(** ** The records the REST interface exchanges *)

Module Api.

(** A JSON value in a field that may hold several types. *)
Inductive JsValue :=
| JNull
| JStr (s : string)
| JNum (n : nat).

(** [!v] *)
Definition falsy (v : JsValue) : bool :=
  match v with
  | JNull => true
  | JStr s => bool_decide (s = "")
  | JNum n => bool_decide (n = 0)
  end.

(** A schedule configuration as [/api/timetable/schedule-configs/] returns
    it.  An empty [start_time] stands for a missing one; [days] and
    [periods] are [None] when the field is null or missing. *)
Record ScheduleConfig := {
  config_id : nat;
  config_name : string;
  days : option (list string);
  periods : option (list string);
  start_time : string;
  class_duration : nat
}.

Record Subject := {
  subject_id : nat;
  subject_name : string;
  batch : JsValue
}.

(** [unavailable_periods] is the JSON object
    [{ mandatory: { day: [time, ...] } }], or null. *)
Record Teacher := {
  teacher_id : nat;
  teacher_name : string;
  max_classes_per_day : nat;
  unavailable_periods : option (gmap string (gmap string (list string)))
}.

Record Classroom := {
  classroom_id : nat;
  classroom_name : string;
  building : string
}.

Record Batch := {
  batch_id : nat;
  batch_name : string
}.

Record TeacherAssignment := {
  assignment_teacher : nat;
  assignment_subject : nat;
  assignment_batch : nat;
  assignment_sections : list string
}.

(** A timetable entry as [/api/timetable/latest/] returns it.  A missing
    string field is the empty string, a missing flag is [false]; [entry_id]
    and [credits] are [None] when missing or null. *)
Record Entry := {
  entry_id : option nat;
  day : string;
  period : nat;
  subject : string;
  subject_short_name : string;
  subject_code : string;
  teacher : string;
  classroom : string;
  class_group : string;
  is_practical : bool;
  is_extra_class : bool;
  credits : option nat
}.

(** The body of a successful [generate-timetable] answer;
    [entries_count] is [0] when the field is missing. *)
Record Generated := {
  generated_message : string;
  entries_count : nat
}.

(** What a failed request throws: [error.response.status],
    [error.response.data.error], [error.response.data.detail],
    [error.code] and [error.message]; a missing string is empty, a missing
    response has no status. *)
Record Error := {
  status : option nat;
  data_error : string;
  data_detail : string;
  code : string;
  message : string
}.

Definition Response (A : Type) : Type := Error + A.

Definition succeeded {A} (r : Response A) : bool :=
  match r with inr _ => true | inl _ => false end.

Inductive Request :=
| GET (url : string)
| POST (url : string).

Global Instance Request_eq_dec : EqDecision Request.
Proof. solve_decision. Defined.

End Api.

(** ** frontend/pages/components/DepartmentConfig.js *)

Module DepartmentConfig.
Import Js Handler Api.

(** *** Time formatting helpers *)

(** [incrementTime(time, duration)]. *)
Definition incrementTime (time : string) (duration : nat) : string :=
  let parts := split ":"%char time in
  let hours := NumberAt parts 0 in
  let minutes := NumberAt parts 1 in
  let minutes := (λ m, m + duration) <$> minutes in
  let hours := h ← hours; m ← minutes; Some (h + m / 60) in
  let minutes := (λ m, m mod 60) <$> minutes in
  let hours := (λ h, h mod 24) <$> hours in
  padStart 2 "0"%char (String_ hours) +:+ ":" +:+ padStart 2 "0"%char (String_ minutes).

(** The loop [while (endMinutes >= 60) { endHours += 1; endMinutes -= 60 }];
    on [NaN] the test is false and the body never runs.  Every turn takes
    sixty minutes off, so [m] turns are always enough. *)
Fixpoint carry_loop (fuel h m : nat) : nat * nat :=
  match fuel with
  | 0 => (h, m)
  | S fuel' => if 60 <=? m then carry_loop fuel' (h + 1) (m - 60) else (h, m)
  end.

Definition carry (hours minutes : num) : num * num :=
  match minutes with
  | None => (hours, None)
  | Some m =>
      match hours with
      | None => (None, Some (snd (carry_loop m 0 m)))
      | Some h => let '(h', m') := carry_loop m h m in (Some h', Some m')
      end
  end.

(** [`${h % 12 || 12}:${String(m).padStart(2, "0")} ${h >= 12 ? "PM" : "AM"}`] *)
Definition format12 (hours minutes : num) : string :=
  let period := if geb hours 12 then "PM" else "AM" in
  pretty (mod_or hours 12 12) +:+ ":" +:+ padStart 2 "0"%char (String_ minutes)
    +:+ " " +:+ period.

(** [formatTime(timeString)]. *)
Definition formatTime (timeString : string) : string :=
  let parts := split ":"%char timeString in
  format12 (NumberAt parts 0) (NumberAt parts 1).

(** [formatTimeRange(startTime, duration)]. *)
Definition formatTimeRange (startTime : string) (duration : nat) : string :=
  let parts := split ":"%char startTime in
  let hours := NumberAt parts 0 in
  let minutes := NumberAt parts 1 in
  let '(endHours, endMinutes) := carry hours ((λ m, m + duration) <$> minutes) in
  let endHours := (λ h, h mod 24) <$> endHours in
  format12 hours minutes +:+ " - " +:+ format12 endHours endMinutes.


(** *** Component state *)

(** [numPeriods] and [classDuration] hold what their number fields were
    given.  The class duration is taken whole: with a fraction the labels
    are made by floating-point arithmetic, which this embedding leaves
    out. *)
Record State := {
  departmentName : string;
  numPeriods : entered;
  startTime : string;
  classDuration : nat;
  periods_ : gmap string (list string);
  error : option string;
  genLoading : bool;
  genError : string;
  genSuccess : string;
  sent : list Request;          (* requests issued so far, oldest first *)
  redirect : option string      (* page the router was told to open *)
}.

(** [const [days] = useState(["Mon", "Tue", "Wed", "Thu", "Fri"])] *)
Definition days_ : list string := ["Mon"; "Tue"; "Wed"; "Thu"; "Fri"].

(** The setters take the state apart once and rebuild it with one field
    changed. *)
Definition setPeriods (p : gmap string (list string)) : M State unit :=
  modify (λ '(Build_State name n start d _ e gl ge gs log r),
            Build_State name n start d p e gl ge gs log r).

Definition setError (e : option string) : M State unit :=
  modify (λ '(Build_State name n start d p _ gl ge gs log r),
            Build_State name n start d p e gl ge gs log r).

Definition setGenLoading (gl : bool) : M State unit :=
  modify (λ '(Build_State name n start d p e _ ge gs log r),
            Build_State name n start d p e gl ge gs log r).

Definition setGenError (ge : string) : M State unit :=
  modify (λ '(Build_State name n start d p e gl _ gs log r),
            Build_State name n start d p e gl ge gs log r).

Definition setGenSuccess (gs : string) : M State unit :=
  modify (λ '(Build_State name n start d p e gl ge _ log r),
            Build_State name n start d p e gl ge gs log r).

(** [api.get(url)] and [api.post(url, ...)] leave a trace in the log. *)
Definition send (q : Request) : M State unit :=
  modify (λ '(Build_State name n start d p e gl ge gs log r),
            Build_State name n start d p e gl ge gs (log ++ [q]) r).

(** [router.push(url)] *)
Definition router_push (url : string) : M State unit :=
  modify (λ '(Build_State name n start d p e gl ge gs log _),
            Build_State name n start d p e gl ge gs log (Some url)).

(** *** Period generation *)

(** [validateConfiguration()]: the answer, with the error it sets. *)
Definition validateConfiguration : M State bool :=
  λ s,
    if bool_decide (trim (departmentName s) = "") then
      (setError (Some "Department name is required.");; mret false) s
    else if below (numPeriods s) 1 then
      (setError (Some "Number of periods must be at least 1.");; mret false) s
    else if bool_decide (classDuration s < 30) then
      (setError (Some "Class duration should be at least 30 minutes.");; mret false) s
    else (true, s).

(** The body of [for (let i = 0; i < numPeriods; i++)]: the labels pushed
    from [dayTime] on. *)
Fixpoint dayPeriods (n : nat) (dayTime : string) (duration : nat) : list string :=
  match n with
  | 0 => []
  | S n' =>
      formatTimeRange dayTime duration
        :: dayPeriods n' (incrementTime dayTime duration) duration
  end.

(** [days.forEach(day => { newPeriods[day] = []; ... })] *)
Definition newPeriods (n : nat) (start : string) (duration : nat)
    : gmap string (list string) :=
  foldl (λ acc day, <[day := dayPeriods n start duration]> acc) ∅ days_.

(** [generatePeriods()] *)
Definition generatePeriods : M State unit :=
  ok ← validateConfiguration;
  if negb ok then mret tt
  else λ s,
    if no_number (numPeriods s) || bool_decide (startTime s = "")
       || bool_decide (classDuration s = 0) then
      setError (Some "Please fill all required fields before generating periods.") s
    else
      (setPeriods (newPeriods (turns (numPeriods s)) (startTime s) (classDuration s));;
       setError None) s.

(** *** Timetable generation *)

(** What the server answers to each request of this page. *)
Record Server := {
  schedule_configs : Response (list ScheduleConfig);
  subjects : Response (list Subject);
  teachers : Response (list Teacher);
  classrooms : Response (list Classroom);
  batches : Response (list Batch);
  teacher_assignments : Response (list TeacherAssignment);
  generate_timetable : Response Generated
}.

Definition url_schedule_configs := "/api/timetable/schedule-configs/".
Definition url_subjects := "/api/timetable/subjects/".
Definition url_teachers := "/api/timetable/teachers/".
Definition url_classrooms := "/api/timetable/classrooms/".
Definition url_batches := "/api/timetable/batches/".
Definition url_teacher_assignments := "/api/timetable/teacher-assignments/".
Definition url_generate := "/api/timetable/generate-timetable/".

Definition issue_config :=
  "⚙️ Department Configuration: Set up working days, periods, and times".
Definition issue_batches := "🎓 Batches: Add at least one batch (class)".
Definition issue_subjects := "📚 Subjects: Add at least one subject".
Definition issue_subjects_batch (k : nat) :=
  "📚 Subjects: " +:+ pretty k +:+ " subjects need batch assignment".
Definition issue_teachers := "👨‍🏫 Teachers: Add at least one teacher".
Definition issue_assignments :=
  "👨‍🏫 Teacher Assignments: Create teacher-subject-section assignments".
Definition issue_classrooms := "🏫 Classrooms: Add at least one classroom".
Definition issue_unable :=
  "❌ Unable to validate prerequisites. Please check your connection.".

(** [!data.length || !data[0].start_time || !data[0].days?.length
     || !data[0].periods?.length] *)
Definition config_missing (data : list ScheduleConfig) : bool :=
  match data with
  | [] => true
  | c :: _ =>
      bool_decide (start_time c = "")
      || bool_decide (length (default [] (days c)) = 0)
      || bool_decide (length (default [] (periods c)) = 0)
  end.

(** [s => !s.batch || (typeof s.batch === 'string' && s.batch.trim() === '')] *)
Definition without_batch (s : Subject) : bool :=
  falsy (batch s)
  || match batch s with
     | JStr b => bool_decide (trim b = "")
     | _ => false
     end.

(** The checks of [validatePrerequisites] once the six answers are in. *)
Definition prerequisite_issues
    (configData : list ScheduleConfig) (subjectsData : list Subject)
    (teachersData : list Teacher) (classroomsData : list Classroom)
    (batchesData : list Batch) (assignmentsData : list TeacherAssignment)
    : list string :=
  let issues : list string := [] in
  let issues := if config_missing configData then issues ++ [issue_config] else issues in
  let issues := if bool_decide (length batchesData = 0)
                then issues ++ [issue_batches] else issues in
  let issues :=
    if bool_decide (length subjectsData = 0) then issues ++ [issue_subjects]
    else
      let subjectsWithoutBatch := filter (λ s, without_batch s = true) subjectsData in
      if bool_decide (0 < length subjectsWithoutBatch)
      then issues ++ [issue_subjects_batch (length subjectsWithoutBatch)]
      else issues in
  let issues := if bool_decide (length teachersData = 0)
                then issues ++ [issue_teachers] else issues in
  let issues := if bool_decide (length assignmentsData = 0)
                then issues ++ [issue_assignments] else issues in
  let issues := if bool_decide (length classroomsData = 0)
                then issues ++ [issue_classrooms] else issues in
  issues.

(** What [validatePrerequisites] answers: the issues found in the six
    answers, or the single connection issue of its [catch] when any of the
    requests failed. *)
Definition found_issues (srv : Server) : list string :=
  match schedule_configs srv, subjects srv, teachers srv,
        classrooms srv, batches srv, teacher_assignments srv with
  | inr configData, inr subjectsData, inr teachersData,
    inr classroomsData, inr batchesData, inr assignmentsData =>
      prerequisite_issues configData subjectsData teachersData
        classroomsData batchesData assignmentsData
  | _, _, _, _, _, _ => [issue_unable]
  end.

(** [validatePrerequisites()]: the six requests go out together. *)
Definition validatePrerequisites (srv : Server) : M State (list string) :=
  send (GET url_schedule_configs);;
  send (GET url_subjects);;
  send (GET url_teachers);;
  send (GET url_classrooms);;
  send (GET url_batches);;
  send (GET url_teacher_assignments);;
  mret (found_issues srv).

(** [handleTimetableError(error)] *)
Definition timetableErrorMessage (err : Error) : string :=
  let apiError := data_error err in
  if negb (bool_decide (apiError = "")) then
    if includes "No valid schedule configuration found" apiError then
      "⚠️ Missing Department Configuration: Please set up your schedule (working days, periods, times) before generating timetables."
    else if includes "Teacher" apiError && includes "returned more than one" apiError then
      "⚠️ Duplicate Teacher Found: Remove duplicates in Teachers section."
    else if includes "Subject" apiError && includes "returned more than one" apiError then
      "⚠️ Duplicate Subject Found: Remove duplicates in Subjects section."
    else if includes "Classroom" apiError && includes "returned more than one" apiError then
      "⚠️ Duplicate Classroom Found: Remove duplicates in Classrooms section."
    else if includes "No subjects found" apiError then
      "⚠️ No Subjects Added: Add subjects before generating timetables."
    else if includes "No teachers found" apiError then
      "⚠️ No Teachers Added: Add teachers before generating timetables."
    else if includes "No classrooms found" apiError then
      "⚠️ No Classrooms Added: Add classrooms before generating timetables."
    else if includes "No class groups found" apiError then
      "⚠️ No Classes Added: Add class groups before generating timetables."
    else if includes "batch" apiError then
      "⚠️ Batch Assignment Issue: Some subjects may not be assigned to batches."
    else if includes "constraint" apiError then
      "⚠️ Constraint Conflict: Current data cannot satisfy constraints."
    else if includes "schedule" apiError then
      "⚠️ Scheduling Conflict: Check teacher availability, classroom capacity, or time slots."
    else "⚠️ Generation Error: " +:+ apiError
  else if bool_decide (code err = "NETWORK_ERROR") || includes "Network Error" (message err) then
    "🌐 Network Error: Cannot connect to the server. Ensure backend is running."
  else
    "⚠️ Unexpected Error: "
      +:+ (if bool_decide (message err = "") then "Unknown error" else message err).

Definition handleTimetableError (err : Error) : M State unit :=
  setGenError (timetableErrorMessage err).

(** [new Error('Failed to generate timetable')] *)
Definition failed_to_generate : Error :=
  {| status := None; data_error := ""; data_detail := ""; code := "";
     message := "Failed to generate timetable" |}.

(** [issues.map(issue => `• ${issue}`).join('\n')] under its heading. *)
Definition newline : string := String "010" "".

Definition issuesMessage (issues : list string) : string :=
  "⚠️ Please fix the following issues before generating timetables:"
    +:+ newline +:+ newline
    +:+ join newline ((λ issue, "• " +:+ issue) <$> issues).

(** [handleCheckPrerequisites()] *)
Definition handleCheckPrerequisites (srv : Server) : M State unit :=
  setGenLoading true;;
  setGenError "";;
  setGenSuccess "";;
  issues ← validatePrerequisites srv;
  (if bool_decide (length issues = 0) then
     setGenSuccess "✅ All prerequisites are met! You can now generate the timetable."
   else setGenError (issuesMessage issues));;
  setGenLoading false.

(** [handleGenerateTimetable()]: the [try] block, then the [finally]. *)
Definition handleGenerateTimetable (srv : Server) : M State unit :=
  setGenLoading true;;
  setGenError "";;
  setGenSuccess "";;
  validationIssues ← validatePrerequisites srv;
  (if bool_decide (0 < length validationIssues) then
     setGenError (issuesMessage validationIssues);;
     setGenLoading false
   else
     send (POST url_generate);;
     match generate_timetable srv with
     | inr response =>
         if bool_decide (generated_message response = "Timetable generated successfully") then
           let entriesCount :=
             if bool_decide (entries_count response = 0) then "multiple"
             else pretty (entries_count response) in
           setGenSuccess ("🎉 Timetable generated successfully! Created "
                          +:+ entriesCount
                          +:+ " schedule entries. Redirecting to view timetable...");;
           router_push "/components/Timetable"
         else handleTimetableError failed_to_generate
     | inl err => handleTimetableError err
     end);;
  setGenLoading false.

(** *** Reading the generated labels

    The statements about the generated periods speak of minutes since
    midnight.  [hhmm t] is the [HH:MM] text a time input holds for minute
    [t] of the day, [clock12 t] the twelve-hour text the page shows for
    it, and [parse_range] reads a period label back. *)

Definition hhmm (t : nat) : string :=
  padStart 2 "0"%char (pretty ((t / 60) mod 24)) +:+ ":"
    +:+ padStart 2 "0"%char (pretty (t mod 60)).

Definition clock12 (t : nat) : string :=
  format12 (Some ((t / 60) mod 24)) (Some (t mod 60)).

Definition range (a b : nat) : string := clock12 a +:+ " - " +:+ clock12 b.

Definition parse_clock12 (s : string) : option nat :=
  match split ":"%char s with
  | [h; rest] =>
      match split " "%char rest with
      | [m; period] =>
          h ← Number h; m ← Number m;
          if bool_decide (period = "AM") then Some (60 * (h mod 12) + m)
          else if bool_decide (period = "PM") then Some (60 * (h mod 12 + 12) + m)
          else None
      | _ => None
      end
  | _ => None
  end.

Definition parse_range (label : string) : option (nat * nat) :=
  match split "-"%char label with
  | [a; b] => a ← parse_clock12 (trim a); b ← parse_clock12 (trim b); Some (a, b)
  | _ => None
  end.


(** *** Sample form contents *)

(** Six one-hour periods from 08:00. *)
Definition morning : State :=
  {| departmentName := "Software Engineering"; numPeriods := whole 6;
     startTime := "08:00"; classDuration := 60; periods_ := ∅;
     error := None; genLoading := false; genError := ""; genSuccess := "";
     sent := []; redirect := None |}.


(** Two periods and a half, typed into the field and generated without
    the form being submitted. *)
Definition two_and_a_half : State :=
  {| departmentName := "Software Engineering";
     numPeriods := other (Qcanon.Q2Qc (QArith_base.Qmake 5 2));
     startTime := "08:00"; classDuration := 60; periods_ := ∅;
     error := None; genLoading := false; genError := ""; genSuccess := "";
     sent := []; redirect := None |}.

(** *** Sample servers *)

Definition refused : Error :=
  {| status := Some 400; data_error := "No valid schedule configuration found";
     data_detail := ""; code := ""; message := "Request failed" |}.

(** A department in which nothing has been set up yet. *)
Definition empty_department : Server :=
  {| schedule_configs := inr []; subjects := inr []; teachers := inr [];
     classrooms := inr []; batches := inr []; teacher_assignments := inr [];
     generate_timetable := inl refused |}.

(** *** What is checked on each minute of a day

    The hours and the minutes read back from [hhmm], a clock time read back
    from its text, and a clock time as a piece of a range. *)
Definition minute_ok (t : nat) : Prop :=
  NumberAt (split ":"%char (hhmm t)) 0 = Some (t / 60)
  ∧ NumberAt (split ":"%char (hhmm t)) 1 = Some (t mod 60)
  ∧ parse_clock12 (clock12 t) = Some t
  ∧ split "-"%char (clock12 t) = [clock12 t]
  ∧ trim (clock12 t +:+ " ") = clock12 t
  ∧ trim (" " +:+ clock12 t) = clock12 t.

Global Instance minute_ok_dec t : Decision (minute_ok t).
Proof. unfold minute_ok. apply _. Defined.

(** The requests of [validatePrerequisites], in the order of the code. *)
Definition six_requests : list Request :=
  [GET url_schedule_configs; GET url_subjects; GET url_teachers;
   GET url_classrooms; GET url_batches; GET url_teacher_assignments].

End DepartmentConfig.


(** ** The teacher form ([AddTeacher], src/unnamed/part_009) *)

Module AddTeacher.
Import Js Api.

(** The mode of a marked cell.  The page has one mode only,
    ["mandatory"], the times at which the teacher is unavailable. *)
Inductive Mode := mandatory.

Global Instance Mode_eq_dec : EqDecision Mode.
Proof. solve_decision. Defined.

(** [const [activeMode, setActiveMode] = useState("mandatory")] *)
Definition activeMode : Mode := mandatory.

(** The internal availability state [{ day: { periodIndex: mode } }]. *)
Abbreviation Availability := (gmap string (gmap nat Mode)).

(** The body of [for (let i = 0; i < config.periods.length; i++)]. *)
Fixpoint daySlots (n : nat) (currentTime : Date) (duration : nat) : list string :=
  match n with
  | 0 => []
  | S n' =>
      let startTimeString := toLocaleTimeString currentTime in
      let endTime := addMinutes currentTime duration in
      let endTimeString := toLocaleTimeString endTime in
      (startTimeString +:+ " - " +:+ endTimeString)
        :: daySlots n' (addMinutes currentTime duration) duration
  end.

(** [generateTimeSlots(config)] *)
Definition generateTimeSlots (config : option ScheduleConfig)
    : gmap string (list string) :=
  match config with
  | None => ∅
  | Some config =>
      if bool_decide (start_time config = "")
         || bool_decide (class_duration config = 0) then ∅
      else match periods config with
           | None => ∅
           | Some periods =>
               let days := default ["Mon"; "Tue"; "Wed"; "Thu"; "Fri"] (days config) in
               foldl (λ timeSlots day,
                        <[day := daySlots (length periods)
                                   (Date_at (start_time config))
                                   (class_duration config)]> timeSlots)
                     ∅ days
           end
  end.

(** [toggleTimeSlot(day, periodIndex)] *)
Definition toggleTimeSlot (day : string) (periodIndex : nat)
    (prev : Availability) : Availability :=
  let dayState := default ∅ (prev !! day) in
  let dayState :=
    if bool_decide (dayState !! periodIndex = Some activeMode)
    then delete periodIndex dayState
    else <[periodIndex := activeMode]> dayState in
  <[day := dayState]> prev.

(** [availabilityState[day]?.[periodIndex]], the mode the grid shows. *)
Definition cell (st : Availability) (day : string) (periodIndex : nat)
    : option Mode :=
  st !! day ≫= (λ dayState, dayState !! periodIndex).

(** The inner loop of [convertAvailability]: the times pushed for one
    day, in the order of [Object.entries]. *)
Definition dayTimes (dayPeriods : list string) (periodsObj : gmap nat Mode)
    : list string :=
  omap (λ '(periodIndex, cellMode),
          time ← dayPeriods !! periodIndex;
          if bool_decide (time = "") then None else Some time)
       (entries periodsObj).

(** [convertAvailability()]: every day of the state is visited once, and
    [result[day]] comes into being with the first time pushed for it. *)
Definition convertAvailability (timetableConfig : option ScheduleConfig)
    (availabilityState : Availability) : gmap string (list string) :=
  match timetableConfig with
  | None => ∅
  | Some _ =>
      let timeSlots := generateTimeSlots timetableConfig in
      map_imap (λ day periodsObj,
                  let dayPeriods := default [] (timeSlots !! day) in
                  match dayTimes dayPeriods periodsObj with
                  | [] => None
                  | times => Some times
                  end)
               availabilityState
  end.

(** The [unavailable_periods] that [handleSubmit] sends. *)
Definition saved (timetableConfig : option ScheduleConfig)
    (availabilityState : Availability)
    : gmap string (gmap string (list string)) :=
  {[ "mandatory" := convertAvailability timetableConfig availabilityState ]}.

(** The body of [times.forEach(time => ...)] in [fetchTeacher]: the
    period whose label is [time], if the day has one, is marked. *)
Definition mark (slots : option (list string)) (dayState : gmap nat Mode)
    (time : string) : gmap nat Mode :=
  match slots ≫= findIndex (λ p, bool_decide (p = time)) with
  | Some periodIndex => <[periodIndex := mandatory]> dayState
  | None => dayState
  end.

Definition dayState_of (slots : option (list string)) (times : list string)
    : gmap nat Mode :=
  foldl (mark slots) ∅ times.

(** The conversion of [fetchTeacher]: from the stored
    [unavailable_periods] to the internal state. *)
Definition loadAvailability (timetableConfig : option ScheduleConfig)
    (unavailable_periods : option (gmap string (gmap string (list string))))
    : Availability :=
  match unavailable_periods with
  | None => ∅
  | Some unavailable =>
      let timeSlots := generateTimeSlots timetableConfig in
      let dayData := default ∅ (unavailable !! "mandatory") in
      map_imap (λ day times, Some (dayState_of (timeSlots !! day) times)) dayData
  end.

(** *** Conditions on a selection

    The labels of every day of the grid are pairwise distinct, and every
    marked cell is a cell of the grid. *)
Definition distinct_labels (timeSlots : gmap string (list string)) : Prop :=
  map_Forall (λ _ dayPeriods, NoDup dayPeriods) timeSlots.

Definition on_grid (timeSlots : gmap string (list string))
    (availabilityState : Availability) : Prop :=
  map_Forall (λ day dayState,
                map_Forall (λ periodIndex _,
                              periodIndex < length (default [] (timeSlots !! day)))
                           dayState)
             availabilityState.

(** Every marked period index is below the configured number of
    periods. *)
Definition within_periods (config : ScheduleConfig)
    (availabilityState : Availability) : Prop :=
  map_Forall (λ _ dayState,
                map_Forall (λ periodIndex _,
                              periodIndex < length (default [] (periods config)))
                           dayState)
             availabilityState.

(** *** Sample configurations and selections *)

Definition monday_third : Availability := {[ "Mon" := {[ 2 := mandatory ]} ]}.

Definition two_days : Availability :=
  {[ "Mon" := {[ 0 := mandatory; 2 := mandatory; 3 := mandatory ]};
     "Thu" := {[ 5 := mandatory ]} ]}.

(** Six one-hour periods from 08:00 on the five default days. *)
Definition six_hours : ScheduleConfig :=
  {| config_id := 1; config_name := "Software Engineering"; days := None;
     periods := Some ["1"; "2"; "3"; "4"; "5"; "6"];
     start_time := "08:00:00"; class_duration := 60 |}.

(** Three twelve-hour periods from 08:00: the third starts at 08:00
    again, a full day after the first. *)
Definition round_the_clock : ScheduleConfig :=
  {| config_id := 2; config_name := "Software Engineering"; days := None;
     periods := Some ["1"; "2"; "3"];
     start_time := "08:00:00"; class_duration := 720 |}.

End AddTeacher.

(** ** frontend/utils/pdfGenerator.js: the Subject and Teacher Details table *)

Module PdfGenerator.
Import Js Api.

(** An entry as pushed into a group: [{ ...entry, sectionName }]. *)
Record SectionEntry := {
  entry : Entry;
  sectionName : string
}.

Record Group := {
  theory : list SectionEntry;
  practical : list SectionEntry;
  subjectName : string;
  subjectCode : string;
  allSubjectCodes : list string
}.

(** [subjectName.replace(' (PR)', '').replace('(PR)', '').trim()] *)
Definition cleanSubjectName (subjectName : string) : string :=
  trim (replace "(PR)" "" (replace " (PR)" "" subjectName)).

(** [entry.class_group.split('-')[1] || 'MAIN'] *)
Definition sectionName_of (e : Entry) : string :=
  or_else (default "" (split "-"%char (class_group e) !! 1)) "MAIN".

Definition with_section (e : Entry) : SectionEntry :=
  {| entry := e; sectionName := sectionName_of e |}.

Definition push_theory (x : SectionEntry) (g : Group) : Group :=
  {| theory := theory g ++ [x]; practical := practical g;
     subjectName := subjectName g; subjectCode := subjectCode g;
     allSubjectCodes := allSubjectCodes g |}.

Definition push_practical (x : SectionEntry) (g : Group) : Group :=
  {| theory := theory g; practical := practical g ++ [x];
     subjectName := subjectName g; subjectCode := subjectCode g;
     allSubjectCodes := allSubjectCodes g |}.

Definition add_code (c : string) (g : Group) : Group :=
  {| theory := theory g; practical := practical g;
     subjectName := subjectName g; subjectCode := subjectCode g;
     allSubjectCodes := set_add c (allSubjectCodes g) |}.

(** The body of [allBatchEntries.forEach(entry => ...)]; [None] when it
    throws.  A clean subject name that no group has yet and that every
    object has as a property finds the inherited property, which is
    truthy: no group is made, and [.allSubjectCodes.add] throws a
    [TypeError], for [allSubjectCodes] is undefined there. *)
Definition addEntry (subjectGroups : Obj Group) (e : Entry) : option (Obj Group) :=
  if is_extra_class e then Some subjectGroups
  else
    let subjectCode := or_else (subject_short_name e) (or_else (subject e) "") in
    let subjectName := or_else (subject e) "" in
    let cleanSubjectName := cleanSubjectName subjectName in
    group ←
      match lookup_ cleanSubjectName subjectGroups with
      | Missing =>
          Some {| theory := []; practical := []; subjectName := cleanSubjectName;
                  subjectCode := subjectCode; allSubjectCodes := [subjectCode] |}
      | Own g => Some (add_code subjectCode g)
      | Inherited => None
      end;
    let group :=
      if is_practical e then push_practical (with_section e) group
      else push_theory (with_section e) group in
    Some (set cleanSubjectName group subjectGroups).

(** [allBatchEntries.forEach(...)] from the empty [subjectGroups]. *)
Definition groupEntries (allBatchEntries : list Entry) : option (Obj Group) :=
  foldl (λ subjectGroups e, subjectGroups ≫= λ o, addEntry o e) (Some [])
        allBatchEntries.

(** [entries[0].credits || 3] *)
Definition theoryCredits (entries : list SectionEntry) : nat :=
  match entries with
  | x :: _ =>
      match credits (entry x) with
      | Some 0 | None => 3
      | Some c => c
      end
  | [] => 3
  end.

(** The credit-hours cell of a group. *)
Definition creditHours (group : Group) : string :=
  match theory group, practical group with
  | _ :: _, _ :: _ => pretty (theoryCredits (theory group)) +:+ "+1"
  | _ :: _, [] => pretty (theoryCredits (theory group)) +:+ "+0"
  | [], _ :: _ => "0+1"
  | [], [] => ""
  end.

(** [`${group.subjectName} - ${firstEntry.subject_code}`] when the first
    entry has a code that is not blank. *)
Definition formattedSubjectName (group : Group) : string :=
  match (theory group ++ practical group)%list with
  | firstEntry :: _ =>
      if bool_decide (subject_code (entry firstEntry) ≠ "")
         && bool_decide (trim (subject_code (entry firstEntry)) ≠ "")
      then subjectName group +:+ " - " +:+ subject_code (entry firstEntry)
      else subjectName group
  | [] => subjectName group
  end.

(** The members of [new Set(l)], in the order in which they come first. *)
Definition distinct (l : list string) : list string :=
  foldl (λ acc x, set_add x acc) [] l.

(** [[...new Set(entries.map(e => e.teacher))].filter(t => t && t !== '--')] *)
Definition teachers_of (entries : list SectionEntry) : list string :=
  filter (λ t, t ≠ "" ∧ t ≠ "--") (distinct (teacher ∘ entry <$> entries)).

(** [new Set(entries.map(e => e.sectionName)).size] *)
Definition sections_of (entries : list SectionEntry) : nat :=
  length (distinct (sectionName <$> entries)).

(** [groupTeachersBySections(entries)] keeps its sets in an object made by
    a literal, under the teacher of the entry, [--] for none.  A teacher
    whose name every object has as a property finds the inherited
    property: no set is made, and [.add] throws a [TypeError]. *)
Definition groupTeachersBySections_throws (entries : list SectionEntry) : bool :=
  bool_decide (Exists (λ x, or_else (teacher (entry x)) "--" ∈ inherited) entries).

(** Whether the making of the teacher cell of a group throws: the cell
    goes through [groupTeachersBySections] unless the group has theory and
    practical entries and one teacher for both, or each of the two kinds
    in every section of the batch. *)
Definition teacherNames_throws (batchSections : nat) (group : Group) : bool :=
  match theory group, practical group with
  | _ :: _, _ :: _ =>
      let theoryTeachers := teachers_of (theory group) in
      let practicalTeachers := teachers_of (practical group) in
      if bool_decide (length theoryTeachers = 1 ∧ length practicalTeachers = 1
                      ∧ head theoryTeachers = head practicalTeachers) then false
      else if bool_decide (sections_of (theory group) = batchSections
                           ∧ sections_of (practical group) = batchSections) then false
      else groupTeachersBySections_throws (theory group)
           || groupTeachersBySections_throws (practical group)
  | _ :: _, [] => groupTeachersBySections_throws (theory group)
  | [], _ :: _ => groupTeachersBySections_throws (practical group)
  | [], [] => false
  end.

(** A row of the table, without its teacher cell. *)
Record Row := {
  row_number : nat;
  row_subject : string;
  row_creditHours : string;
  row_group : Group
}.

(** The rows of [teacherData] for the sections of a batch, each section
    given by its entries: [batchSections.flatMap(section => section.entries)]
    is grouped, then
    [Object.values(subjectGroups).forEach((group, index) => ...)] makes a
    row of each group.  [None] when one of the two throws: the error leaves
    [generateTimetablePDF], and no table is made. *)
Definition teacherData (batchSections : list (list Entry)) : option (list Row) :=
  subjectGroups ← groupEntries (concat batchSections);
  if existsb (teacherNames_throws (length batchSections)) (values subjectGroups)
  then None
  else
    Some (imap (λ index group,
                  {| row_number := index + 1;
                     row_subject := formattedSubjectName group;
                     row_creditHours := creditHours group;
                     row_group := group |})
               (values subjectGroups)).

(** *** The entries of a subject

    The entries of the batch that count for the subject called [name]:
    those that are no extra class and whose cleaned subject name is
    [name], split by [is_practical]. *)
Definition counted (e : Entry) : bool := negb (is_extra_class e).

Definition name_of (e : Entry) : string := cleanSubjectName (or_else (subject e) "").

Definition theory_of (name : string) (entries : list Entry) : list Entry :=
  filter (λ e, counted e = true ∧ is_practical e = false ∧ name_of e = name) entries.

Definition practical_of (name : string) (entries : list Entry) : list Entry :=
  filter (λ e, counted e = true ∧ is_practical e = true ∧ name_of e = name) entries.

(** The credits of a theory entry when 3 stands in for an absent field
    only, and when it stands in for a zero as well. *)
Definition credits_or_3 (e : Entry) : nat := default 3 (credits e).

Definition positive_credits_or_3 (e : Entry) : nat :=
  match credits e with
  | Some 0 | None => 3
  | Some c => c
  end.

(** The credit-hours cell of a subject with the theory entries [th] and
    the practical entries [pr], for a given reading [T] of the credits of
    a theory entry. *)
Definition cell_of (T : Entry → nat) (th pr : list Entry) : string :=
  match th, pr with
  | t :: _, _ :: _ => pretty (T t) +:+ "+1"
  | t :: _, [] => pretty (T t) +:+ "+0"
  | [], _ :: _ => "0+1"
  | [], [] => ""
  end.

(** *** Sample entries *)

Definition lecture (name : string) (c : option nat) : Entry :=
  {| entry_id := Some 1; day := "Mon"; period := 1; subject := name;
     subject_short_name := ""; subject_code := ""; teacher := "Dr. A";
     classroom := "Room 1"; class_group := "22SW-A"; is_practical := false;
     is_extra_class := false; credits := c |}.

Definition lab (name : string) : Entry :=
  {| entry_id := Some 2; day := "Tue"; period := 2; subject := name;
     subject_short_name := ""; subject_code := ""; teacher := "Dr. B";
     classroom := "Lab 1"; class_group := "22SW-A"; is_practical := true;
     is_extra_class := false; credits := Some 1 |}.

Definition extra (e : Entry) : Entry :=
  {| entry_id := entry_id e; day := day e; period := period e;
     subject := subject e; subject_short_name := subject_short_name e;
     subject_code := subject_code e; teacher := teacher e;
     classroom := classroom e; class_group := class_group e;
     is_practical := is_practical e; is_extra_class := true;
     credits := credits e |}.

(** *** The groups of a list of entries *)

(** What the groups hold once [entries] have been gone through. *)
Record grouped (entries : list Entry) (o : Obj Group) : Prop := {
  grouped_NoDup : NoDup o.*1;
  grouped_keys : ∀ name, name ∈ o.*1 ↔ ∃ e, e ∈ entries ∧ counted e = true ∧ name_of e = name;
  grouped_name : ∀ name g, (name, g) ∈ o → subjectName g = name;
  grouped_theory : ∀ name g, (name, g) ∈ o →
    theory g = with_section <$> theory_of name entries;
  grouped_practical : ∀ name g, (name, g) ∈ o →
    practical g = with_section <$> practical_of name entries
}.

End PdfGenerator.

(** ** The scheduling engine

    The engine itself (the Django back end: the schedulers, the constraint
    validator and the slot-move view) is not among the sources of the front
    end.  This module models it from the specification, section by section:
    the data model (§3), the Demand Expander (§4.1), the Availability Index
    (§4.2), the Candidate Generator (§4.3), the Placement Engine (§4.4), the
    Compactor (§4.5), the Validator (§4.6) and the three operations of §6. *)

Module Engine.

(** *** Data model (§3) *)

(** Modelled from the spec: the days of a calendar, "an ordered set of
    working days (e.g. Mon–Fri)"; the Friday and Wednesday rules of §4.3
    name weekdays. *)
Inductive Weekday := Mon | Tue | Wed | Thu | Fri | Sat | Sun.

Global Instance Weekday_eq_dec : EqDecision Weekday.
Proof. solve_decision. Defined.

(** Modelled from the spec: the place of a day in the week, by which the days are ordered. *)
Definition Weekday_to_nat (d : Weekday) : nat :=
  match d with
  | Mon => 0 | Tue => 1 | Wed => 2 | Thu => 3 | Fri => 4 | Sat => 5 | Sun => 6
  end.

(** Modelled from the spec: the day at a place in the week. *)
Definition Weekday_of_nat (n : nat) : option Weekday :=
  match n with
  | 0 => Some Mon | 1 => Some Tue | 2 => Some Wed | 3 => Some Thu
  | 4 => Some Fri | 5 => Some Sat | 6 => Some Sun | _ => None
  end.

Global Instance Weekday_countable : Countable Weekday.
Proof.
  apply (inj_countable Weekday_to_nat Weekday_of_nat). by intros [].
Defined.

(** Modelled from the spec: the Calendar, "working days × ordered set of
    periods, each period having a start/end time derived from a configured
    start time and fixed class duration", with the "working-hours bounds"
    of §6.  Times are minutes since midnight; periods are numbered from 1. *)
Record Calendar := {
  working_days : list Weekday;
  periods_per_day : nat;
  first_period_start : nat;
  class_duration : nat;
  working_from : nat;
  working_until : nat
}.

(** Modelled from the spec: the start of period [p], "derived from a configured start
    time and fixed class duration". *)
Definition period_start (cal : Calendar) (p : nat) : nat :=
  first_period_start cal + (p - 1) * class_duration cal.

(** Modelled from the spec: the end of period [p], one class duration after its start. *)
Definition period_end (cal : Calendar) (p : nat) : nat :=
  first_period_start cal + p * class_duration cal.

(** Modelled from the spec: "Room: identity, type (regular | lab | hall),
    capacity, building". *)
Inductive RoomType := regular | lab | hall.

Global Instance RoomType_eq_dec : EqDecision RoomType.
Proof. solve_decision. Defined.

(** Modelled from the spec: the Room record of §3. *)
Record Room := {
  room_name : string;
  room_type : RoomType;
  capacity : nat;
  building : string
}.

(** Modelled from the spec: "Teacher: identity, maximum sessions per day,
    set of unavailable (day, period) pairs". *)
Record Teacher := {
  teacher_name : string;
  max_sessions_per_day : nat;
  unavailable : list (Weekday * nat)
}.

(** Modelled from the spec: "Section (batch + section label, e.g.
    22SW-B)". *)
Record Section := {
  batch : string;
  label : string
}.

Global Instance Section_eq_dec : EqDecision Section.
Proof. solve_decision. Defined.

Global Instance Section_countable : Countable Section.
Proof.
  apply (inj_countable' (λ s, (batch s, label s))
                        (λ p, {| batch := p.1; label := p.2 |})).
  by intros [].
Defined.

(** Modelled from the spec: "SubjectDemand: subject × section, with credit
    hours, practical flag, and the owning teacher assignment"; the thesis
    flag serves the Wednesday rule. *)
Record SubjectDemand := {
  subject : string;
  demand_section : Section;
  credit_hours : nat;
  practical : bool;
  thesis : bool;
  responsible_teacher : option string
}.

(** Modelled from the spec: the read-only snapshots of §6 that a run
    consumes, with the switch of §4.3 that lets theory fall back on lab
    rooms "only if explicitly allowed". *)
Record Input := {
  calendar : Calendar;
  teachers : list Teacher;
  rooms : list Room;
  demands : list SubjectDemand;
  final_year_batches : list string;
  labs_for_theory : bool
}.

(** Modelled from the spec: "Session: one unit of demand — either a
    1-period theory session or a 3-consecutive-period practical block —
    tagged with its subject, teacher, section, and week-occurrence index
    (1..N)". *)
Record Session := {
  session_subject : string;
  session_teacher : string;
  session_section : Section;
  occurrence : nat;
  session_practical : bool;
  session_thesis : bool
}.

Global Instance Session_eq_dec : EqDecision Session.
Proof. solve_decision. Defined.

(** Modelled from the spec: "TimetableEntry: the committed output —
    session reference + (day, period, room)"; a practical block is three
    entries, one for each of its periods. *)
Record TimetableEntry := {
  entry_session : Session;
  entry_day : Weekday;
  entry_period : nat;
  entry_room : string
}.

Global Instance TimetableEntry_eq_dec : EqDecision TimetableEntry.
Proof. solve_decision. Defined.

(** Modelled from the spec: a slot, "a (day, period, room) triple
    considered for placement"; for a practical block the period is the
    first of its three. *)
Record Slot := {
  slot_day : Weekday;
  slot_period : nat;
  slot_room : string
}.

Global Instance Slot_eq_dec : EqDecision Slot.
Proof. solve_decision. Defined.

(** *** Demand Expander (§4.1) *)

(** Modelled from the spec: "N theory credits → N single-period sessions
    per week ... or, if practical, exactly one 3-consecutive-period block
    per week". *)
Definition weekly_sessions (d : SubjectDemand) : nat :=
  if practical d then 1 else credit_hours d.

(** Modelled from the spec: the sessions of one record, with occurrence
    indices 1..N; a record without a responsible teacher gives none. *)
Definition expand_demand (d : SubjectDemand) : list Session :=
  match responsible_teacher d with
  | None => []
  | Some t =>
      (λ i, {| session_subject := subject d; session_teacher := t;
               session_section := demand_section d; occurrence := i;
               session_practical := practical d; session_thesis := thesis d |})
        <$> seq 1 (weekly_sessions d)
  end.

(** Modelled from the spec: "Output: the full Session list for the run". *)
Definition expand (input : Input) : list Session :=
  d ← demands input; expand_demand d.

(** Modelled from the spec: the configuration errors of §7 and §4.1:
    "missing calendar, no subjects/teachers/rooms, subject without a
    responsible teacher", and "a subject with zero computed sessions". *)
Inductive ConfigError :=
| MissingCalendar
| NoSubjects
| NoTeachers
| NoRooms
| NoResponsibleTeacher (subject : string) (section : Section)
| NoSessions (subject : string) (section : Section).

(** Modelled from the spec: the configuration errors of one SubjectDemand record. *)
Definition demand_errors (d : SubjectDemand) : list ConfigError :=
  (if responsible_teacher d is None
   then [NoResponsibleTeacher (subject d) (demand_section d)] else [])
  ++ (if weekly_sessions d is 0
      then [NoSessions (subject d) (demand_section d)] else []).

(** Modelled from the spec: the configuration errors of an input, those of the
    calendar and of the empty lists first. *)
Definition config_errors (input : Input) : list ConfigError :=
  (if bool_decide (working_days (calendar input) = []
                   ∨ periods_per_day (calendar input) = 0)
   then [MissingCalendar] else [])
  ++ (if demands input is [] then [NoSubjects] else [])
  ++ (if teachers input is [] then [NoTeachers] else [])
  ++ (if rooms input is [] then [NoRooms] else [])
  ++ (d ← demands input; demand_errors d).

(** *** Availability Index (§4.2) *)

(** Modelled from the spec: the keys of the "per-run occupancy map ...
    (teacher/day/period → busy; room/day/period → busy)".  A section
    occupies its periods as well: §8 asks that the entries of a section do
    not overlap. *)
Inductive Resource :=
| OfTeacher (name : string)
| OfRoom (name : string)
| OfSection (section : Section).

Global Instance Resource_eq_dec : EqDecision Resource.
Proof. solve_decision. Defined.

Global Instance Resource_countable : Countable Resource.
Proof.
  apply (inj_countable'
    (λ r, match r with
          | OfTeacher n => inl n
          | OfRoom n => inr (inl n)
          | OfSection s => inr (inr s)
          end)
    (λ x, match x with
          | inl n => OfTeacher n
          | inr (inl n) => OfRoom n
          | inr (inr s) => OfSection s
          end)).
  by intros [].
Defined.

(** Modelled from the spec: a key of the occupancy map: who or what is busy, on which
    day, at which period. *)
Abbreviation Key := (Resource * Weekday * nat)%type.

(** Modelled from the spec: a session takes one period, a practical block
    three consecutive ones. *)
Definition session_length (s : Session) : nat :=
  if session_practical s then 3 else 1.

(** Modelled from the spec: the periods a session takes when it starts at the
    period of the slot. *)
Definition session_periods (s : Session) (slot : Slot) : list nat :=
  seq (slot_period slot) (session_length s).

(** Modelled from the spec: what a session placed in a slot occupies: its
    teacher, its room and its section at each of its periods. *)
Definition keys_of (s : Session) (slot : Slot) : list Key :=
  q ← session_periods s slot;
  [(OfTeacher (session_teacher s), slot_day slot, q);
   (OfRoom (slot_room slot), slot_day slot, q);
   (OfSection (session_section s), slot_day slot, q)].

(** Modelled from the spec: the timetable entries a placed session
    becomes. *)
Definition entries_of (placement : Session * Slot) : list TimetableEntry :=
  (λ q, {| entry_session := placement.1; entry_day := slot_day placement.2;
           entry_period := q; entry_room := slot_room placement.2 |})
    <$> session_periods placement.1 placement.2.

(** Modelled from the spec: the state of a run: the sessions placed so
    far with their slots (the most recent first), the failed sessions, the
    occupancy map and what is left of the backtracking budget. *)
Record State := {
  placed : list (Session * Slot);
  failed : list Session;
  busy : gset Key;
  retries : nat
}.

(** Modelled from the spec: the state at the start of a run: nothing placed, nothing
    busy, the whole budget left. *)
Definition initial (budget : nat) : State :=
  {| placed := []; failed := []; busy := ∅; retries := budget |}.

(** Modelled from the spec: "isTeacherFree(teacher, day, period)" and
    "isRoomFree(room, day, period)". *)
Definition isTeacherFree (st : State) (teacher : string) (day : Weekday)
    (period : nat) : bool :=
  bool_decide ((OfTeacher teacher, day, period) ∉ busy st).

(** Modelled from the spec: "isRoomFree(room, day, period)". *)
Definition isRoomFree (st : State) (room : string) (day : Weekday)
    (period : nat) : bool :=
  bool_decide ((OfRoom room, day, period) ∉ busy st).

(** Modelled from the spec: "roomsOfType(type)". *)
Definition roomsOfType (input : Input) (type : RoomType) : list Room :=
  filter (λ r, room_type r = type) (rooms input).

(** Modelled from the spec: commit, which marks the session placed and
    updates the index with it, and its rollback.  Undoing a placement that
    is not there changes nothing. *)
Definition commit (st : State) (s : Session) (slot : Slot) : State :=
  {| placed := (s, slot) :: placed st;
     failed := failed st;
     busy := list_to_set (keys_of s slot) ∪ busy st;
     retries := retries st |}.

(** Modelled from the spec: the rollback of a commit. *)
Definition undo (st : State) (placement : Session * Slot) : State :=
  if decide (placement ∈ placed st) then
    {| placed := filter (λ x, x ≠ placement) (placed st);
       failed := failed st;
       busy := busy st ∖ list_to_set (keys_of placement.1 placement.2);
       retries := retries st |}
  else st.

(** *** Candidate Generator (§4.3) *)

(** Modelled from the spec: "room type matches subject type (lab for
    practicals, any non-lab-required room for theory, with lab rooms usable
    as fallback only if explicitly allowed)". *)
Definition room_suits (input : Input) (s : Session) (room : Room) : bool :=
  if session_practical s then bool_decide (room_type room = lab)
  else bool_decide (room_type room ≠ lab) || labs_for_theory input.

(** Modelled from the spec: the room of the slot is a room of the input that suits the
    session. *)
Definition room_ok (input : Input) (s : Session) (slot : Slot) : bool :=
  existsb (λ room, bool_decide (room_name room = slot_room slot)
                   && room_suits input s room)
          (rooms input).

(** Modelled from the spec: the teacher is not unavailable at any of the
    periods (the "unavailable (day, period) pairs" of §3). *)
Definition teacher_available (input : Input) (s : Session) (slot : Slot) : bool :=
  forallb (λ t, negb (bool_decide (teacher_name t = session_teacher s))
                || forallb (λ q, bool_decide ((slot_day slot, q) ∉ unavailable t))
                           (session_periods s slot))
          (teachers input).

(** Modelled from the spec: "slot(s) within working hours"; for a
    practical block "all 3 periods consecutive on the same day", so the
    last period is still one of the day's. *)
Definition last_period (s : Session) (slot : Slot) : nat :=
  slot_period slot + session_length s - 1.

(** Modelled from the spec: "slot(s) within working hours": a working day, the
    periods among those of the day, between the bounds of the working hours. *)
Definition within_working_hours (input : Input) (s : Session) (slot : Slot) : bool :=
  let cal := calendar input in
  bool_decide (slot_day slot ∈ working_days cal)
  && (1 <=? slot_period slot)
  && (last_period s slot <=? periods_per_day cal)
  && (working_from cal <=? period_start cal (slot_period slot))
  && (period_end cal (last_period s slot) <=? working_until cal).

(** Modelled from the spec: "Friday slots bounded — end-by-noon if the
    section has any practical that week, else end-by-11:00". *)
Definition has_practical (input : Input) (section : Section) : bool :=
  existsb (λ d, bool_decide (demand_section d = section) && practical d)
          (demands input).

(** Modelled from the spec: the time by which the Friday classes of a section end:
    noon, or 11:00. *)
Definition friday_limit (input : Input) (section : Section) : nat :=
  if has_practical input section then 12 * 60 else 11 * 60.

(** Modelled from the spec: a Friday slot ends by the limit of its section. *)
Definition friday_ok (input : Input) (s : Session) (slot : Slot) : bool :=
  negb (bool_decide (slot_day slot = Fri))
  || (period_end (calendar input) (last_period s slot)
      <=? friday_limit input (session_section s)).

(** Modelled from the spec: "Wednesday excluded for non-thesis subjects of
    final-year batches (reserved exclusively for thesis)". *)
Definition final_year (input : Input) (section : Section) : bool :=
  bool_decide (batch section ∈ final_year_batches input).

(** Modelled from the spec: on Wednesday a final-year section has thesis sessions
    only. *)
Definition wednesday_ok (input : Input) (s : Session) (slot : Slot) : bool :=
  negb (bool_decide (slot_day slot = Wed))
  || negb (final_year input (session_section s))
  || session_thesis s.

(** Modelled from the spec: the hard constraints that do not depend on
    what is already placed. *)
Definition fits (input : Input) (s : Session) (slot : Slot) : bool :=
  room_ok input s slot && teacher_available input s slot
  && within_working_hours input s slot && friday_ok input s slot
  && wednesday_ok input s slot.

(** Modelled from the spec: "teacher free at all required periods", the
    room free throughout, "no cross-batch/cross-semester double-booking of
    the same teacher": nothing the session would occupy is busy. *)
Definition free (st : State) (s : Session) (slot : Slot) : bool :=
  forallb (λ k, bool_decide (k ∉ busy st)) (keys_of s slot).

(** Modelled from the spec: a legal candidate: it fits, and what it would occupy is free. *)
Definition legal (input : Input) (st : State) (s : Session) (slot : Slot) : bool :=
  fits input s slot && free st s slot.

(** Modelled from the spec: all (day, period, room) combinations, in the
    order of the calendar. *)
Definition all_slots (input : Input) : list Slot :=
  d ← working_days (calendar input);
  p ← seq 1 (periods_per_day (calendar input));
  r ← rooms input;
  [{| slot_day := d; slot_period := p; slot_room := room_name r |}].

(** Modelled from the spec: "the ordered set of legal (day, period-range,
    room) candidates"; "candidates violating any of these are never
    generated". *)
Definition candidates (input : Input) (st : State) (s : Session) : list Slot :=
  filter (λ slot, legal input st s slot = true) (all_slots input).

(** *** Placement Engine (§4.4) *)

(** Modelled from the spec: the order of the sessions, "by decreasing
    constrainedness — practicals before theory ..., sessions whose teacher
    has the most unavailable periods first, final-year thesis sessions first
    ..., then by a stable deterministic tie-break (subject code, section,
    occurrence index)". *)
Definition and_then (c c' : comparison) : comparison :=
  match c with
  | Eq => c'
  | _ => c
  end.

(** Modelled from the spec: the order in which what has the property comes first. *)
Definition true_first (a b : bool) : comparison :=
  match a, b with
  | true, false => Lt
  | false, true => Gt
  | _, _ => Eq
  end.

(** Modelled from the spec: how many periods the teacher of a session is
    unavailable for ("sessions whose teacher has the most unavailable periods
    first"). *)
Definition unavailable_periods (input : Input) (s : Session) : nat :=
  sum_list ((λ t, if bool_decide (teacher_name t = session_teacher s)
                  then length (unavailable t) else 0) <$> teachers input).

(** Modelled from the spec: "final-year thesis sessions". *)
Definition thesis_of_final_year (input : Input) (s : Session) : bool :=
  session_thesis s && final_year input (session_section s).

(** Modelled from the spec: the comparison of two sessions by the criteria of the
    ordering, one after the other. *)
Definition compare_sessions (input : Input) (a b : Session) : comparison :=
  and_then (true_first (session_practical a) (session_practical b))
  (and_then (Nat.compare (unavailable_periods input b) (unavailable_periods input a))
  (and_then (true_first (thesis_of_final_year input a) (thesis_of_final_year input b))
  (and_then (String.compare (session_subject a) (session_subject b))
  (and_then (String.compare (batch (session_section a)) (batch (session_section b)))
  (and_then (String.compare (label (session_section a)) (label (session_section b)))
            (Nat.compare (occurrence a) (occurrence b))))))).

(** Modelled from the spec: a session that is not after another in the ordering. *)
Definition precedes (input : Input) (a b : Session) : Prop :=
  compare_sessions input a b ≠ Gt.

Global Instance precedes_dec input : RelDecision (precedes input).
Proof. intros a b. unfold precedes. apply _. Defined.

(** Modelled from the spec: "sessions are sorted once per run", by a stable sort. *)
Definition order (input : Input) (sessions : list Session) : list Session :=
  merge_sort (precedes input) sessions.

(** Modelled from the spec: the pluggable strategy of §9, which "var[ies]
    §4.4's scoring function and retry budget only": the score of a candidate
    by the soft heuristics, the "deterministic hash of (subject, section,
    day, period) seeded by a run identifier" that breaks ties, and the retry
    budget as a function of the session count. *)
Record Strategy := {
  score : State → Session → Slot → nat;
  hash : nat → string → Section → Weekday → nat → nat;
  retry_budget : nat → nat
}.

(** Modelled from the spec: the rank of a candidate: its score, and its hash for the
    ties. *)
Definition rank (strategy : Strategy) (seed : nat) (st : State) (s : Session)
    (slot : Slot) : nat * nat :=
  (score strategy st s slot,
   hash strategy seed (session_subject s) (session_section s)
     (slot_day slot) (slot_period slot)).

(** Modelled from the spec: [y] ranks above [x]: a higher score, or the same score and a higher
    hash. *)
Definition above (x y : nat * nat) : bool :=
  (x.1 <? y.1) || ((x.1 =? y.1) && (x.2 <? y.2)).

(** Modelled from the spec: the candidate of the highest rank among [current] and
    [rest], the earliest of them on equal ranks. *)
Fixpoint best_from (rank : Slot → nat * nat) (current : Slot) (rest : list Slot)
    : Slot :=
  match rest with
  | [] => current
  | c :: rest' =>
      if above (rank current) (rank c) then best_from rank c rest'
      else best_from rank current rest'
  end.

(** Modelled from the spec: "the highest-scoring candidate", none when
    the candidate set is empty. *)
Definition best (rank : Slot → nat * nat) (cands : list Slot) : option Slot :=
  match cands with
  | [] => None
  | c :: rest => Some (best_from rank c rest)
  end.

(** Modelled from the spec: "call Candidate Generator; if the candidate
    set is non-empty ... commit the highest-scoring candidate". *)
Definition place_directly (strategy : Strategy) (seed : nat) (input : Input)
    (st : State) (s : Session) : option State :=
  slot ← best (rank strategy seed st s) (candidates input st s);
  Some (commit st s slot).

(** Modelled from the spec: the sets of already-placed sessions tried by
    the backtracking, "the smallest set ... (scanning most recently placed
    first ...)": the sets of one placement, then of two, and so on, each
    size in the order of [placed]. *)
Fixpoint choose {A} (k : nat) (l : list A) : list (list A) :=
  match k, l with
  | 0, _ => [[]]
  | S _, [] => []
  | S k', x :: l' => ((λ c, x :: c) <$> choose k' l') ++ choose k l'
  end.

(** Modelled from the spec: the sets of placed sessions to undo, the smallest first. *)
Definition victim_sets (st : State) : list (list (Session * Slot)) :=
  k ← seq 1 (length (placed st)); choose k (placed st).

(** Modelled from the spec: "undo and re-place them": the set is taken
    out, the stuck session placed, then every session of the set placed
    again; when one of them finds no slot the attempt comes to nothing and
    the state it started from stands. *)
Fixpoint replace_all (strategy : Strategy) (seed : nat) (input : Input)
    (st : State) (victims : list (Session * Slot)) : option State :=
  match victims with
  | [] => Some st
  | v :: rest =>
      st' ← place_directly strategy seed input st v.1;
      replace_all strategy seed input st' rest
  end.

(** Modelled from the spec: one attempt of the backtracking on a set of placed
    sessions. *)
Definition attempt (strategy : Strategy) (seed : nat) (input : Input)
    (st : State) (s : Session) (victims : list (Session * Slot)) : option State :=
  st' ← place_directly strategy seed input (foldl undo st victims) s;
  replace_all strategy seed input st' victims.

(** Modelled from the spec: an attempt takes one retry from the budget. *)
Definition spend (st : State) : State :=
  {| placed := placed st; failed := failed st; busy := busy st;
     retries := retries st - 1 |}.

(** Modelled from the spec: "mark the session failed and continue". *)
Definition mark_failed (st : State) (s : Session) : State :=
  {| placed := placed st; failed := s :: failed st; busy := busy st;
     retries := retries st |}.

(** Modelled from the spec: "cap retries ... to guarantee termination.  If
    backtracking budget is exhausted, mark the session failed and continue":
    every attempt takes one retry from the budget of the run. *)
Fixpoint backtrack (strategy : Strategy) (seed : nat) (input : Input)
    (st : State) (s : Session) (sets : list (list (Session * Slot))) : State :=
  match sets with
  | [] => mark_failed st s
  | victims :: rest =>
      if retries st is 0 then mark_failed st s
      else match attempt strategy seed input (spend st) s victims with
           | Some st' => st'
           | None => backtrack strategy seed input (spend st) s rest
           end
  end.

(** Modelled from the spec: the step of the state machine
    "pending → placed or pending → failed" for one session. *)
Definition place (strategy : Strategy) (seed : nat) (input : Input)
    (st : State) (s : Session) : State :=
  match place_directly strategy seed input st s with
  | Some st' => st'
  | None => backtrack strategy seed input st s (victim_sets st)
  end.

(** *** Compactor (§4.5) *)

(** Modelled from the spec: the slots a placed session may be shifted to:
    candidates "with the entry's own teacher/room fixed", earlier on the
    same day. *)
Definition earlier_slots (input : Input) (st : State) (s : Session) (now : Slot)
    : list Slot :=
  filter (λ c, slot_day c = slot_day now ∧ slot_room c = slot_room now
               ∧ slot_period c < slot_period now)
         (candidates input st s).

(** Modelled from the spec: "attempts to shift each entry to the earliest
    free legal slot for it". *)
Definition shift (input : Input) (st : State) (placement : Session * Slot) : State :=
  if decide (placement ∈ placed st) then
    let st' := undo st placement in
    match earlier_slots input st' placement.1 placement.2 with
    | earliest :: _ => commit st' placement.1 earliest
    | [] => st
    end
  else st.

(** Modelled from the spec: "single pass over placed entries per section
    per day". *)
Definition compare_placements (a b : Session * Slot) : comparison :=
  and_then (String.compare (batch (session_section a.1)) (batch (session_section b.1)))
  (and_then (String.compare (label (session_section a.1)) (label (session_section b.1)))
  (and_then (Nat.compare (Weekday_to_nat (slot_day a.2)) (Weekday_to_nat (slot_day b.2)))
            (Nat.compare (slot_period a.2) (slot_period b.2)))).

(** Modelled from the spec: a placement that is not after another in the order of
    the pass. *)
Definition reads_before (a b : Session * Slot) : Prop :=
  compare_placements a b ≠ Gt.

Global Instance reads_before_dec : RelDecision reads_before.
Proof. intros a b. unfold reads_before. apply _. Defined.

(** Modelled from the spec: one pass of the compactor over the placed sessions. *)
Definition compact_pass (input : Input) (st : State) : State :=
  foldl (shift input) st (merge_sort reads_before (placed st)).

(** Modelled from the spec: "runs to a fixed-point or a bounded iteration
    count". *)
Fixpoint compact (input : Input) (rounds : nat) (st : State) : State :=
  match rounds with
  | 0 => st
  | S rounds' =>
      let st' := compact_pass input st in
      if decide (placed st' = placed st) then st
      else compact input rounds' st'
  end.

(** *** The run and its operations (§6) *)

(** Modelled from the spec: the result of [generate], "{entries, failedSessions}". *)
Record Output := {
  entries : list TimetableEntry;
  failedSessions : list Session
}.

(** Modelled from the spec: the pipeline "Demand Expander → Placement
    Engine ... → Compactor". *)
Definition run (strategy : Strategy) (seed : nat) (input : Input) : State :=
  let sessions := order input (expand input) in
  let st := foldl (place strategy seed input)
                  (initial (retry_budget strategy (length sessions))) sessions in
  compact input (periods_per_day (calendar input)) st.

(** Modelled from the spec: the entries of the sessions placed, in the order in
    which they were placed. *)
Definition entries_of_state (st : State) : list TimetableEntry :=
  placement ← reverse (placed st); entries_of placement.

(** Modelled from the spec: the seed of a run that was not asked for new randomness. *)
Definition default_seed : nat := 0.

(** Modelled from the spec: "generate(configId, regenerate: bool) →
    {entries, failedSessions}" on the snapshot [input] of the configuration;
    [fresh] is the randomness at hand, used as the tie-break seed on "an
    explicit regenerate with new randomness request" only.  Configuration
    errors are "fatal, reported before any placement attempt". *)
Definition generate (strategy : Strategy) (input : Input) (regenerate : bool)
    (fresh : nat) : list ConfigError + Output :=
  match config_errors input with
  | [] =>
      let seed := if regenerate then fresh else default_seed in
      let st := run strategy seed input in
      inr {| entries := entries_of_state st; failedSessions := failed st |}
  | errors => inl errors
  end.

(** *** Validator/Reporter (§4.6) *)

(** Modelled from the spec: what the validator "emits" for a constraint:
    "status (PASS/FAIL), a list of violation records ... and a count/sample
    of compliant items".  The constraint passes when nothing violates it. *)
Inductive Status := PASS | FAIL.

Global Instance Status_eq_dec : EqDecision Status.
Proof. solve_decision. Defined.

(** Modelled from the spec: the report of one constraint. *)
Record Report (V C : Type) := {
  status : Status;
  violations : list V;
  compliant : list C
}.

Arguments status {V C} _.
Arguments violations {V C} _.
Arguments compliant {V C} _.

(** Modelled from the spec: a report passes when it has no violation. *)
Definition report {V C} (violations : list V) (compliant : list C) : Report V C :=
  {| status := if violations is [] then PASS else FAIL;
     violations := violations; compliant := compliant |}.

(** Modelled from the spec: the count of the violations of a report, which the
    page reads as [total_violations]. *)
Definition total_violations {V C} (r : Report V C) : nat := length (violations r).

(** Modelled from the spec: a conflict record with "the concrete
    offending fields (teacher/room/subject/section/day/period and ... the
    other conflicting entries)".  The page reads [teacher_name] or
    [classroom_name], [day], [period], [conflict_count] and
    [conflicting_assignments] from it, and [subject], [class_group],
    [classroom] and [teacher] from an assignment. *)
Record Assignment := {
  assignment_subject : string;
  assignment_class_group : Section;
  assignment_classroom : string;
  assignment_teacher : string
}.

(** Modelled from the spec: the assignment of an entry, as a conflict record lists
    it. *)
Definition assignment_of (e : TimetableEntry) : Assignment :=
  {| assignment_subject := session_subject (entry_session e);
     assignment_class_group := session_section (entry_session e);
     assignment_classroom := entry_room e;
     assignment_teacher := session_teacher (entry_session e) |}.

(** Modelled from the spec: a record of the teacher_conflicts or room_conflicts
    report. *)
Record Conflict := {
  conflict_name : string;
  conflict_day : Weekday;
  conflict_period : nat;
  conflict_count : nat;
  conflicting_assignments : list Assignment
}.

(** Modelled from the spec: the teacher of an entry, who is the one of its
    session. *)
Definition entry_teacher (e : TimetableEntry) : string :=
  session_teacher (entry_session e).

(** Modelled from the spec: the entries that hold [name] at a (day, period), for a way [who] of
    naming the teacher or the room of an entry. *)
Definition holders (who : TimetableEntry → string) (name : string)
    (day : Weekday) (period : nat) (entries : list TimetableEntry)
    : list TimetableEntry :=
  filter (λ e, who e = name ∧ entry_day e = day ∧ entry_period e = period) entries.

(** Modelled from the spec: the (name, day, period) triples that the entries hold,
    each once. *)
Definition held_slots (who : TimetableEntry → string)
    (entries : list TimetableEntry) : list (string * Weekday * nat) :=
  remove_dups ((λ e, (who e, entry_day e, entry_period e)) <$> entries).

(** Modelled from the spec: every (name, day, period) held by two entries
    or more is a violation that lists the assignments in conflict; the
    entries that hold their slot alone are the compliant ones. *)
Definition conflicts (who : TimetableEntry → string)
    (entries : list TimetableEntry) : Report Conflict TimetableEntry :=
  report
    (omap (λ '(name, day, period),
             let group := holders who name day period entries in
             if bool_decide (2 ≤ length group) then
               Some {| conflict_name := name; conflict_day := day;
                       conflict_period := period;
                       conflict_count := length group;
                       conflicting_assignments := assignment_of <$> group |}
             else None)
          (held_slots who entries))
    (filter (λ e, length (holders who (who e) (entry_day e) (entry_period e) entries) = 1)
            entries).

(** Modelled from the spec: the teacher_conflicts report: "no two entries share
    (teacher, day, period)". *)
Definition teacher_conflicts (entries : list TimetableEntry)
    : Report Conflict TimetableEntry :=
  conflicts entry_teacher entries.

(** Modelled from the spec: the room_conflicts report: "no two entries share (room,
    day, period)". *)
Definition room_conflicts (entries : list TimetableEntry)
    : Report Conflict TimetableEntry :=
  conflicts entry_room entries.

(** Modelled from the spec: a practical block as the validator finds it:
    the practical entries of a subject and section on a day.  The page
    reads [subject_name], [class_group], [day], [violation_type],
    [block_length], [is_consecutive] and [periods] from it. *)
Record Block := {
  block_subject : string;
  block_class_group : Section;
  block_day : Weekday;
  violation_type : string;
  block_length : nat;
  is_consecutive : bool;
  block_periods : list nat
}.

(** Modelled from the spec: periods that follow one another without a gap. *)
Definition consecutive (periods : list nat) : bool :=
  match periods with
  | [] => true
  | first :: _ => bool_decide (periods = seq first (length periods))
  end.

(** Modelled from the spec: the practical entries of a subject and section on a
    day. *)
Definition practical_entries (subject : string) (section : Section)
    (day : Weekday) (entries : list TimetableEntry) : list TimetableEntry :=
  filter (λ e, session_practical (entry_session e) = true
               ∧ session_subject (entry_session e) = subject
               ∧ session_section (entry_session e) = section
               ∧ entry_day e = day)
         entries.

(** Modelled from the spec: the block of a subject and section on a day, with its
    periods in ascending order. *)
Definition block_of (subject : string) (section : Section) (day : Weekday)
    (entries : list TimetableEntry) : Block :=
  let periods :=
    merge_sort (≤) (entry_period <$> practical_entries subject section day entries) in
  {| block_subject := subject; block_class_group := section; block_day := day;
     violation_type :=
       if bool_decide (length periods ≠ 3) then "wrong_block_length"
       else if consecutive periods then "" else "not_consecutive";
     block_length := length periods;
     is_consecutive := consecutive periods;
     block_periods := periods |}.

(** Modelled from the spec: the blocks of a timetable: one for each subject, section and
    day with a practical entry. *)
Definition blocks (entries : list TimetableEntry) : list Block :=
  (λ '(subject, section, day), block_of subject section day entries)
    <$> remove_dups
          ((λ e, (session_subject (entry_session e),
                  session_section (entry_session e), entry_day e))
             <$> filter (λ e, session_practical (entry_session e) = true) entries).

(** Modelled from the spec: a block of "exactly 3 consecutive periods". *)
Definition block_ok (b : Block) : bool :=
  bool_decide (block_length b = 3) && is_consecutive b.

(** Modelled from the spec: the practical_blocks report: a block is a
    violation when it is not "exactly 3 consecutive periods". *)
Definition practical_blocks (entries : list TimetableEntry) : Report Block Block :=
  report (filter (λ b, block_ok b = false) (blocks entries))
         (filter (λ b, block_ok b = true) (blocks entries)).

(** Modelled from the spec: an item of the subject_frequency report.  The
    page reads [subject_name], [class_group], [expected_count],
    [actual_count], [is_practical] and [violation_type] from it. *)
Record Frequency := {
  frequency_subject : string;
  frequency_class_group : Section;
  expected_count : nat;
  actual_count : nat;
  frequency_is_practical : bool;
  frequency_violation_type : string
}.

(** Modelled from the spec: the entries of a subject and section in a
    timetable that are practical, or that are not. *)
Definition classes_of (subject : string) (section : Section) (is_practical : bool)
    (entries : list TimetableEntry) : list TimetableEntry :=
  filter (λ e, session_subject (entry_session e) = subject
               ∧ session_section (entry_session e) = section
               ∧ session_practical (entry_session e) = is_practical)
         entries.

(** Modelled from the spec: the "weekly placed-session count" of a subject
    and section as a timetable shows it: every theory entry is a session,
    and every three practical entries are one, a practical session being a
    block of three periods. *)
Definition sessions_held (subject : string) (section : Section)
    (entries : list TimetableEntry) : nat :=
  length (classes_of subject section false entries)
  + length (classes_of subject section true entries) / 3.

(** Modelled from the spec: the item of the subject_frequency report for a
    SubjectDemand record. *)
Definition frequency_of (entries : list TimetableEntry) (d : SubjectDemand)
    : Frequency :=
  let actual := sessions_held (subject d) (demand_section d) entries in
  {| frequency_subject := subject d;
     frequency_class_group := demand_section d;
     expected_count := weekly_sessions d;
     actual_count := actual;
     frequency_is_practical := practical d;
     frequency_violation_type :=
       if bool_decide (actual < weekly_sessions d) then "too_few_classes"
       else if bool_decide (weekly_sessions d < actual) then "too_many_classes"
       else "" |}.

(** Modelled from the spec: the subject_frequency report: a subject of a
    section is a violation when the count of its classes in the week is not
    "the value derived from credit hours". *)
Definition subject_frequency (input : Input) (entries : list TimetableEntry)
    : Report Frequency Frequency :=
  let items := frequency_of entries <$> demands input in
  report (filter (λ f, expected_count f ≠ actual_count f) items)
         (filter (λ f, expected_count f = actual_count f) items).

(** *** Moving an entry (§6, §7) *)

(** Modelled from the spec: "moveEntry(entryId, newDay, newPeriod) →
    {success | rejectedReason}".  An entry is known by its place in the
    stored list. *)
Inductive MoveResult :=
| Moved (stored : list TimetableEntry)
| Rejected (reason : string).

(** Modelled from the spec: an entry with a new day and period; its session and its room
    stay. *)
Definition moved (e : TimetableEntry) (day : Weekday) (period : nat)
    : TimetableEntry :=
  {| entry_session := entry_session e; entry_day := day;
     entry_period := period; entry_room := entry_room e |}.

(** Modelled from the spec: the other stored entries that share what [key] names with the moved
    entry at its new (day, period). *)
Definition clashes {K} `{EqDecision K} (key : TimetableEntry → K)
    (others : list TimetableEntry) (e : TimetableEntry) : bool :=
  bool_decide (Exists (λ o, key o = key e ∧ entry_day o = entry_day e
                            ∧ entry_period o = entry_period e) others).

(** Modelled from the spec: the periods the block of a practical entry has on the day of the
    entry once the entry is where it is. *)
Definition block_after (stored : list TimetableEntry) (e : TimetableEntry)
    : list nat :=
  merge_sort (≤)
    (entry_period <$> filter (λ o, entry_session o = entry_session e) stored).

(** Modelled from the spec: "the local hard-constraint checks touching
    that entry", each with the name of its constraint and whether the moved
    entry [e] violates it among the [others]; the first is the
    "teacher_conflict" of the example of §8. *)
Definition local_checks (input : Input) (others : list TimetableEntry)
    (e : TimetableEntry) : list (string * bool) :=
  let cal := calendar input in
  let s := entry_session e in
  [ ("teacher_conflict", clashes entry_teacher others e);
    ("room_conflict", clashes entry_room others e);
    ("section_conflict", clashes (session_section ∘ entry_session) others e);
    ("teacher_unavailable",
     existsb (λ t, bool_decide (teacher_name t = session_teacher s)
                   && bool_decide ((entry_day e, entry_period e) ∈ unavailable t))
             (teachers input));
    ("working_hours",
     negb (bool_decide (entry_day e ∈ working_days cal)
           && (1 <=? entry_period e)
           && (entry_period e <=? periods_per_day cal)
           && (working_from cal <=? period_start cal (entry_period e))
           && (period_end cal (entry_period e) <=? working_until cal)));
    ("friday_time_limit",
     bool_decide (entry_day e = Fri)
     && negb (period_end cal (entry_period e)
              <=? friday_limit input (session_section s)));
    ("thesis_day",
     bool_decide (entry_day e = Wed) && final_year input (session_section s)
     && negb (session_thesis s));
    ("practical_block",
     session_practical s
     && negb (bool_decide (Forall (λ o, entry_session o = s → entry_day o = entry_day e)
                                  others)
              && consecutive (block_after (e :: others) e))) ].

(** Modelled from the spec: the name of the first local check that is violated, if
    there is one. *)
Definition violated (checks : list (string * bool)) : option string :=
  fst <$> head (filter (λ c, c.2 = true) checks).

(** Modelled from the spec: an "edit-time error" is "rejected ... with the
    violated constraint named, leaving the timetable unchanged"; a legal
    move changes the day and the period of the one entry. *)
Definition moveEntry (input : Input) (stored : list TimetableEntry)
    (entryId : nat) (newDay : Weekday) (newPeriod : nat) : MoveResult :=
  match stored !! entryId with
  | None => Rejected "unknown_entry"
  | Some e =>
      let e' := moved e newDay newPeriod in
      match violated (local_checks input (delete entryId stored) e') with
      | Some constraint => Rejected constraint
      | None => Moved (<[entryId := e']> stored)
      end
  end.

(** Modelled from the spec: the stored entries once [moveEntry] has
    answered: those of the move when it is legal, and on a rejection the
    ones there were ("leaving the timetable unchanged"). *)
Definition store_after (stored : list TimetableEntry) (result : MoveResult)
    : list TimetableEntry :=
  match result with
  | Moved stored' => stored'
  | Rejected _ => stored
  end.

(** Modelled from the spec: the names of the local checks. *)
Definition check_names : list string :=
  [ "teacher_conflict"; "room_conflict"; "section_conflict";
    "teacher_unavailable"; "working_hours"; "friday_time_limit"; "thesis_day";
    "practical_block" ].

(** Modelled from the spec: "validate(entries) → {perConstraintReport}",
    for the constraints whose reports the claims speak of. *)
Record ValidationReport := {
  report_subject_frequency : Report Frequency Frequency;
  report_teacher_conflicts : Report Conflict TimetableEntry;
  report_room_conflicts : Report Conflict TimetableEntry;
  report_practical_blocks : Report Block Block
}.

(** Modelled from the spec: the reports of [validate]. *)
Definition validate (input : Input) (entries : list TimetableEntry)
    : ValidationReport :=
  {| report_subject_frequency := subject_frequency input entries;
     report_teacher_conflicts := teacher_conflicts entries;
     report_room_conflicts := room_conflicts entries;
     report_practical_blocks := practical_blocks entries |}.

(** *** What a run keeps true

    "The full set of entries for a run must, by construction, violate no
    hard constraint", and the index "must be ... always consistent with
    already-placed sessions" (§3, §4.2). *)

(** Modelled from the spec: everything the placed sessions occupy. *)
Definition all_keys (placements : list (Session * Slot)) : list Key :=
  placement ← placements; keys_of placement.1 placement.2.

(** Modelled from the spec: the placed sessions fit their slots, nothing is occupied twice, and the
    index holds exactly what the placed sessions occupy. *)
Record consistent (input : Input) (st : State) : Prop := {
  placed_fit : ∀ s slot, (s, slot) ∈ placed st → fits input s slot = true;
  keys_NoDup : NoDup (all_keys (placed st));
  busy_keys : busy st = list_to_set (all_keys (placed st))
}.

(** Modelled from the spec: the sessions a state accounts for, placed or failed. *)
Definition sessions_of (st : State) : list Session :=
  (fst <$> placed st) ++ failed st.



(** Modelled from the spec: the keys under which the entries of a timetable hold their teacher,
    their room and their section. *)
Definition teacher_key (e : TimetableEntry) : Key :=
  (OfTeacher (entry_teacher e), entry_day e, entry_period e).

(** Modelled from the spec: the key under which an entry holds its room. *)
Definition room_key (e : TimetableEntry) : Key :=
  (OfRoom (entry_room e), entry_day e, entry_period e).

(** Modelled from the spec: the key under which an entry holds its section. *)
Definition section_key (e : TimetableEntry) : Key :=
  (OfSection (session_section (entry_session e)), entry_day e, entry_period e).

(** Modelled from the spec: no two entries of a timetable share what [key] gives. *)
Definition no_two_share {K} (key : TimetableEntry → K)
    (timetable : list TimetableEntry) : Prop :=
  ∀ i j e1 e2,
    timetable !! i = Some e1 → timetable !! j = Some e2 →
    key e1 = key e2 → i = j.

(** Modelled from the spec: a conflict report lists the entries [e1] and [e2] as two of the
    assignments in conflict at their (day, period). *)
Definition listed_together (who : TimetableEntry → string)
    (r : Report Conflict TimetableEntry) (e1 e2 : TimetableEntry) : Prop :=
  ∃ c, c ∈ violations r
       ∧ conflict_name c = who e1
       ∧ conflict_day c = entry_day e1 ∧ conflict_period c = entry_period e1
       ∧ assignment_of e1 ∈ conflicting_assignments c
       ∧ assignment_of e2 ∈ conflicting_assignments c
       ∧ conflict_count c = length (conflicting_assignments c)
       ∧ 2 ≤ conflict_count c.

(** Modelled from the spec: "SubjectDemand: subject × section": a subject
    is demanded for a section by one record. *)
Definition demanded_once (input : Input) : Prop :=
  NoDup ((λ d, (subject d, demand_section d)) <$> demands input).

Global Instance demanded_once_dec input : Decision (demanded_once input).
Proof. unfold demanded_once. apply _. Defined.



(** Modelled from the spec: the state after a step holds the sessions of the state before it and
    the sessions [added]; the failed ones are those of [failed']. *)
Record step (input : Input) (st st' : State) (added : list Session) : Prop := {
  step_consistent : consistent input st';
  step_placed : fst <$> placed st' ≡ₚ added ++ (fst <$> placed st);
  step_failed : failed st' = failed st
}.

(** Modelled from the spec: a session that has been through [place] is placed or failed. *)
Record placed_or_failed (input : Input) (st st' : State) (s : Session) : Prop := {
  after_consistent : consistent input st';
  after_sessions : sessions_of st' ≡ₚ s :: sessions_of st
}.

(** *** Sample run: the examples of §8 *)

(** Modelled from the spec: five days of six one-hour periods from 08:00, working hours 08:00 to
    15:00. *)
Definition week : Calendar :=
  {| working_days := [Mon; Tue; Wed; Thu; Fri]; periods_per_day := 6;
     first_period_start := 8 * 60; class_duration := 60;
     working_from := 8 * 60; working_until := 15 * 60 |}.

(** Modelled from the spec: a section of the examples of §8. *)
Definition section_24SW_A : Section := {| batch := "24SW"; label := "A" |}.

(** Modelled from the spec: a section named as in §3, "22SW-B". *)
Definition section_22SW_B : Section := {| batch := "22SW"; label := "B" |}.

(** Modelled from the spec: "DBS" with 3 credits for 24SW-A, and a practical with 1 credit for
    22SW-B. *)
Definition dbs_theory : SubjectDemand :=
  {| subject := "DBS"; demand_section := section_24SW_A;
     credit_hours := 3; practical := false; thesis := false;
     responsible_teacher := Some "Dr. Naeem" |}.

(** Modelled from the spec: a practical record of the sample department. *)
Definition dbs_practical : SubjectDemand :=
  {| subject := "DBS (PR)"; demand_section := section_22SW_B;
     credit_hours := 1; practical := true; thesis := false;
     responsible_teacher := Some "Ms. Sana" |}.

(** Modelled from the spec: the input of the sample run: two teachers, a room and a
    lab, one theory subject and one practical. *)
Definition department : Input :=
  {| calendar := week;
     teachers := [ {| teacher_name := "Dr. Naeem"; max_sessions_per_day := 4;
                      unavailable := [(Mon, 1)] |};
                   {| teacher_name := "Ms. Sana"; max_sessions_per_day := 4;
                      unavailable := [] |} ];
     rooms := [ {| room_name := "Room-1"; room_type := regular; capacity := 40;
                   building := "Main Block" |};
                {| room_name := "Lab-1"; room_type := lab; capacity := 30;
                   building := "Lab Block" |} ];
     demands := [dbs_theory; dbs_practical];
     final_year_batches := ["21SW"];
     labs_for_theory := false |}.

(** Modelled from the spec: a strategy that likes early periods and days without the subject. *)
Definition early_first : Strategy :=
  {| score := λ st s slot,
       (10 - slot_period slot)
       + (if bool_decide (Exists (λ x, session_subject x.1 = session_subject s
                                        ∧ session_section x.1 = session_section s
                                        ∧ slot_day x.2 = slot_day slot)
                                 (placed st))
          then 0 else 100);
     hash := λ seed subject section day period,
       (seed + String.length subject + Weekday_to_nat day * 7 + period) mod 13;
     retry_budget := λ sessions, 3 * sessions |}.

(** Modelled from the spec: the timetable of the sample department, with the default seed. *)
Definition department_timetable : Output :=
  Eval vm_compute in
    match generate early_first department false 0 with
    | inr out => out
    | inl _ => {| entries := []; failedSessions := [] |}
    end.

End Engine.
(** ** ConstraintTesting.js: the page that shows the validator's report *)

Module ConstraintTesting.
Import Js.

(** *** The values of the report

    What [response.data] holds once parsed: the page reads fields that may
    be missing, null or of any type.  Numbers are the naturals, the counts
    and periods of a report; objects have no key twice. *)
#[warnings="-register-all"]
Inductive Json :=
| undefined
| null
| boolean (b : bool)
| number (n : nat)
| text (s : string)
| array (items : list Json)
| object (fields : list (string * Json)).

(** [v.k] and [v?.k]: the page reads the fields of the report through
    [?.], and the fields of a record of a list directly. *)
Definition field (k : string) (v : Json) : Json :=
  match v with
  | object fields => default undefined (get k fields)
  | _ => undefined
  end.

Definition truthy (v : Json) : bool :=
  match v with
  | undefined | null => false
  | boolean b => b
  | number n => bool_decide (n ≠ 0)
  | text s => bool_decide (s ≠ "")
  | array _ | object _ => true
  end.

(** [a || b] *)
Definition or_ (a b : Json) : Json := if truthy a then a else b.

(** [String(v)], the text of [v] in a template literal; an element of an
    array that is null or undefined is left empty by [join]. *)
Fixpoint toString (v : Json) : string :=
  match v with
  | undefined => "undefined"
  | null => "null"
  | boolean b => if b then "true" else "false"
  | number n => pretty n
  | text s => s
  | array items =>
      join ","
        ((fix elements (l : list Json) : list string :=
            match l with
            | [] => []
            | x :: rest =>
                match x with
                | undefined | null => ""
                | _ => toString x
                end :: elements rest
            end) items)
  | object _ => "[object Object]"
  end.

Definition element (v : Json) : string :=
  match v with
  | undefined | null => ""
  | _ => toString v
  end.

(** [v?.length]: an array has its length and a text the count of its
    UTF-16 code units; an object has the [length] it holds, if any. *)
Definition length_ (v : Json) : Json :=
  match v with
  | array items => number (length items)
  | text s => number (utf16_length s)
  | object _ => field "length" v
  | _ => undefined
  end.

(** [v > 0]: [true] counts as 1 and null as 0, undefined is no number, a
    text is the number it spells, if any, and an array or an object the
    one its text spells. *)
Definition positive (v : Json) : bool :=
  match v with
  | number n => bool_decide (0 < n)
  | boolean b => b
  | undefined | null => false
  | text s => positive_text s
  | array _ | object _ => positive_text (toString v)
  end.

(** [v === 0] *)
Definition is_zero (v : Json) : bool :=
  match v with
  | number n => bool_decide (n = 0)
  | _ => false
  end.

(** [v === s] for a string literal [s] *)
Definition is_text (s : string) (v : Json) : bool :=
  match v with
  | text s' => bool_decide (s' = s)
  | _ => false
  end.

(** *** What a render can do

    A render that throws is [None]: a [TypeError] of the code, or React
    refusing a child. *)

(** A value whose properties are read by [v.k]: the read throws on null
    and on undefined. *)
Definition record (v : Json) : option Json :=
  match v with
  | undefined | null => None
  | _ => Some v
  end.

(** [v?.join(sep)]: nothing for null and undefined; a value that is no
    array has no [join], and calling it throws. *)
Definition join_ (sep : string) (v : Json) : option Json :=
  match v with
  | array items => Some (text (join sep (element <$> items)))
  | undefined | null => Some undefined
  | _ => None
  end.

(** [v.map(f)]: what [f] makes of the elements of an array; a value that
    is no array has no [map], and calling it throws. *)
Definition map_ {B} (f : Json → option B) (v : Json) : option (list B) :=
  match v with
  | array items => mapM f items
  | _ => None
  end.

(** [v?.map(f)] *)
Definition map_opt {B} (f : Json → option B) (v : Json) : option (list B) :=
  match v with
  | undefined | null => Some []
  | _ => map_ f v
  end.

(** What [{v}] shows in JSX: text and numbers; undefined, null and
    booleans show nothing, an array shows its elements one after the other.
    React does not take an object as a child, and throws. *)
Fixpoint child (v : Json) : option string :=
  match v with
  | text s => Some s
  | number n => Some (pretty n)
  | array items =>
      (fix children (l : list Json) : option string :=
         match l with
         | [] => Some ""
         | x :: rest => a ← child x; b ← children rest; Some (a +:+ b)
         end) items
  | object _ => None
  | undefined | null | boolean _ => Some ""
  end.

(** [c && element] in JSX: the element when [c] is truthy; a falsy [c]
    is the child itself, which shows nothing unless it is the number 0. *)
Definition when {A} (c : Json) (element : option A) : option (A + string) :=
  if truthy c then inl <$> element else inr <$> child c.

(** *** The constraints the page names *)

Record ConstraintType := {
  id : string;
  name : string;
  description : string;
  icon : string;
  color : string
}.

(** [constraintTypes]: "Constraint definitions with user-friendly names
    and descriptions". *)
Definition constraintTypes : list ConstraintType := [
  {| id := "cross_semester_conflicts";
     name := "Cross-Semester Conflicts";
     description := "Teachers cannot be scheduled in multiple semesters at the same time";
     icon := "🔄"; color := "bg-red-500" |};
  {| id := "subject_frequency";
     name := "Subject Frequency";
     description := "Correct number of classes per week based on credit hours";
     icon := "📊"; color := "bg-blue-500" |};
  {| id := "teacher_conflicts";
     name := "Teacher Conflicts";
     description := "Teachers cannot be in multiple places at the same time";
     icon := "👨‍🏫"; color := "bg-yellow-500" |};
  {| id := "room_conflicts";
     name := "Room Conflicts";
     description := "Classrooms cannot be double-booked";
     icon := "🏫"; color := "bg-green-500" |};
  {| id := "practical_blocks";
     name := "Practical Blocks";
     description := "3-hour consecutive blocks for practical subjects";
     icon := "🔬"; color := "bg-purple-500" |};
  {| id := "friday_time_limits";
     name := "Friday Time Limits";
     description := "Classes must end by 12:00/1:00 PM on Friday";
     icon := "📅"; color := "bg-indigo-500" |};
  {| id := "thesis_day_constraint";
     name := "Thesis Day Constraint";
     description := "Wednesday exclusive for thesis subjects";
     icon := "📝"; color := "bg-pink-500" |};
  {| id := "teacher_assignments";
     name := "Teacher Assignments";
     description := "Teachers assigned to correct subjects and sections";
     icon := "📋"; color := "bg-teal-500" |};
  {| id := "minimum_daily_classes";
     name := "Minimum Daily Classes";
     description := "No day with only practical or only one class";
     icon := "📚"; color := "bg-orange-500" |};
  {| id := "compact_scheduling";
     name := "Compact Scheduling";
     description := "Classes scheduled without gaps and reasonable end times";
     icon := "⏰"; color := "bg-cyan-500" |};
  {| id := "friday_aware_scheduling";
     name := "Friday-Aware Scheduling";
     description := "Monday-Thursday scheduling considers Friday constraints";
     icon := "🗓️"; color := "bg-emerald-500" |} ].

(** [getConstraintInfo]: the constraint of that id; for an id the page
    does not know, the id as the name.  The object for an unknown
    constraint has no [id] of its own: nothing reads it. *)
Definition getConstraintInfo (constraintId : string) : ConstraintType :=
  default {| id := ""; name := constraintId; description := "Unknown constraint";
             icon := "❓"; color := "bg-gray-500" |}
          (head (filter (λ c, id c = constraintId) constraintTypes)).

Definition getStatusIcon (status : Json) : string :=
  if is_text "PASS" status then "✅" else "❌".

Definition getStatusColor (status : Json) : string :=
  if is_text "PASS" status then "text-green-400" else "text-red-400".

(** *** The grid of constraints

    One card for each of [constraintTypes]: the status and the count of
    violations come from [constraint_analysis] under the id of the
    constraint, else from [validation_results.constraint_results] under its
    name.  The card shows both as children. *)
Record Card := {
  card_constraint : ConstraintType;
  card_status : Json;
  card_status_icon : string;
  card_status_color : string;
  card_status_shown : string;
  card_violations : Json;
  card_violations_shown : string;
  card_violations_color : string
}.

Definition card (constraintData : Json) (constraint : ConstraintType) : option Card :=
  let analysisData := field (id constraint) (field "constraint_analysis" constraintData) in
  let validationResult :=
    field (name constraint)
          (field "constraint_results" (field "validation_results" constraintData)) in
  let status :=
    or_ (or_ (field "status" analysisData) (field "status" validationResult))
        (text "UNKNOWN") in
  let violations :=
    or_ (or_ (or_ (field "total_violations" analysisData)
                  (field "total_conflicts" analysisData))
             (field "violations" validationResult))
        (number 0) in
  status_shown ← child status;
  violations_shown ← child violations;
  Some {| card_constraint := constraint;
          card_status := status;
          card_status_icon := getStatusIcon status;
          card_status_color := getStatusColor status;
          card_status_shown := status_shown;
          card_violations := violations;
          card_violations_shown := violations_shown +:+ " violations";
          card_violations_color :=
            if positive violations then "text-red-400" else "text-green-400" |}.

(** [constraintTypes.map((constraint) => ...)] *)
Definition cards (constraintData : Json) : option (list Card) :=
  mapM (card constraintData) constraintTypes.

(** *** The detailed analysis of a constraint

    What the page shows is taken as lines of text, one for each element
    that holds text.  [JSON.stringify] is left to the caller: [stringify v]
    stands for [JSON.stringify(v, null, 2)] and [excerpt v] for
    [JSON.stringify(v).substring(0, 50)]. *)
Section rendering.
Variable stringify : Json → string.
Variable excerpt : Json → string.

Definition renderViolationDetails (constraintType : string) (violation : Json)
    : option (list string) :=
  if decide (constraintType = "cross_semester_conflicts") then
    violation ← record violation;
    teacher ← child (field "teacher" violation);
    subject ← child (field "subject" violation);
    class_group ← child (field "class_group" violation);
    day ← child (field "day" violation);
    period ← child (field "period" violation);
    time ← child (field "time" violation);
    conflicts ← join_ ", " (field "conflicts" violation) ≫= child;
    Some [ "Teacher: " +:+ teacher +:+ " - " +:+ subject;
           "Class: " +:+ class_group;
           "Time: " +:+ day +:+ " Period " +:+ period;
           "Schedule: " +:+ time;
           "Conflicts: " +:+ conflicts ]
  else if decide (constraintType = "subject_frequency") then
    violation ← record violation;
    subject_name ← child (field "subject_name" violation);
    subject_code ← child (field "subject_code" violation);
    class_group ← child (field "class_group" violation);
    expected_count ← child (field "expected_count" violation);
    actual_count ← child (field "actual_count" violation);
    violation_type ← child (field "violation_type" violation);
    schedule ←
      when (field "schedule_details" violation)
        (details ←
           map_ (λ detail,
                   detail ← record detail;
                   day ← child (field "day" detail);
                   period ← child (field "period" detail);
                   time ← child (field "time" detail);
                   teacher ← child (field "teacher" detail);
                   Some (day +:+ " P" +:+ period +:+ " (" +:+ time +:+ ") - "
                         +:+ teacher))
                (field "schedule_details" violation);
         Some ("Current Schedule:" :: details));
    Some ([ subject_name +:+ " (" +:+ subject_code +:+ ") - " +:+ class_group;
            "Expected: " +:+ expected_count +:+ " classes/week";
            "Actual: " +:+ actual_count +:+ " classes/week";
            "Type: " +:+ (if truthy (field "is_practical" violation)
                          then "Practical" else "Theory");
            "Issue: " +:+ violation_type ]
          ++ match schedule with
             | inl lines => lines
             | inr shown => if decide (shown = "") then [] else [shown]
             end)
  else if decide (constraintType = "teacher_conflicts"
                  ∨ constraintType = "room_conflicts") then
    violation ← record violation;
    who ← child (or_ (field "teacher_name" violation)
                     (field "classroom_name" violation));
    day ← child (field "day" violation);
    period ← child (field "period" violation);
    conflict_count ← child (field "conflict_count" violation);
    assignments ←
      map_opt (λ assignment,
                 assignment ← record assignment;
                 subject ← child (field "subject" assignment);
                 class_group ← child (field "class_group" assignment);
                 place ← child (or_ (field "classroom" assignment)
                                    (field "teacher" assignment));
                 Some (subject +:+ " - " +:+ class_group +:+ " (" +:+ place +:+ ")"))
              (field "conflicting_assignments" violation);
    Some ([ (if decide (constraintType = "teacher_conflicts")
             then "Teacher" else "Room") +:+ ": " +:+ who;
            "Time: " +:+ day +:+ " Period " +:+ period;
            "Conflicts: " +:+ conflict_count;
            "Conflicting Assignments:" ]
          ++ assignments)
  else if decide (constraintType = "practical_blocks") then
    violation ← record violation;
    subject_name ← child (field "subject_name" violation);
    class_group ← child (field "class_group" violation);
    day ← child (field "day" violation);
    violation_type ← child (field "violation_type" violation);
    block_length ← child (field "block_length" violation);
    periods ← join_ ", " (field "periods" violation) ≫= child;
    Some [ subject_name +:+ " - " +:+ class_group;
           "Day: " +:+ day;
           "Issue: " +:+ violation_type;
           "Block Length: " +:+ block_length +:+ " periods";
           "Consecutive: " +:+ (if truthy (field "is_consecutive" violation)
                                then "Yes" else "No");
           "Periods: " +:+ periods ]
  else Some [stringify violation].

Definition renderCompliantItemSummary (constraintType : string) (item : Json)
    : option string :=
  if decide (constraintType = "subject_frequency") then
    item ← record item;
    Some (toString (field "subject_name" item) +:+ " - "
          +:+ toString (field "class_group" item) +:+ " ("
          +:+ toString (field "actual_count" item) +:+ "/"
          +:+ toString (field "expected_count" item) +:+ ")")
  else if decide (constraintType = "teacher_assignments") then
    item ← record item;
    Some (toString (field "teacher" item) +:+ " → "
          +:+ toString (field "subject" item)
          +:+ " (" +:+ toString (field "class_group" item) +:+ ")")
  else if decide (constraintType = "practical_blocks") then
    item ← record item;
    Some (toString (field "subject_name" item) +:+ " - "
          +:+ toString (field "class_group" item) +:+ " ("
          +:+ toString (field "day" item) +:+ ")")
  else Some (excerpt item +:+ "...").

(** The list of compliant items of an analysis: the first of the six
    fields that holds anything, an empty array as well. *)
Definition compliantData (analysis : Json) : Json :=
  or_ (or_ (or_ (or_ (or_ (or_ (field "compliant_subjects" analysis)
                               (field "compliant_assignments" analysis))
                          (field "compliant_entries" analysis))
                     (field "compliant_blocks" analysis))
                (field "compliant_schedules" analysis))
           (field "compliant_days" analysis))
      (array []).

Record CompliantItems := {
  compliant_heading : string;
  compliant_shown : list string;
  compliant_more : option string
}.

(** [renderCompliantItems]: nothing when the length of the data is 0;
    else the first twelve items, which only an array has: a text has a
    [slice] but its result has no [map], and any other value has no
    [slice]. *)
Definition renderCompliantItems (constraintType : string) (analysis : Json)
    : option (option CompliantItems) :=
  let data := compliantData analysis in
  if is_zero (length_ data) then Some None
  else
    match data with
    | array items =>
        shown ← mapM (renderCompliantItemSummary constraintType) (take 12 items);
        Some (Some {| compliant_heading :=
                        "Compliant Items (" +:+ pretty (length items) +:+ ")";
                      compliant_shown := shown;
                      compliant_more :=
                        if bool_decide (12 < length items)
                        then Some ("... and " +:+ pretty (length items - 12)
                                   +:+ " more compliant items")
                        else None |})
    | _ => None
    end.

(** [renderDetailedAnalysis]: the summary (status, total issues, compliant
    items), the violations when there are any, the compliant items and the
    raw data.  The block of the violations is there when [violations] or
    [conflicts] holds anything and one of the two is not empty; its records
    are those of the first of the two that holds anything.  When neither
    holds anything, the second of them is the child: it shows as [0] when
    it is that number. *)
Record DetailedAnalysis := {
  detail_constraint : ConstraintType;
  detail_status : string;
  detail_status_color : string;
  detail_total_issues : string;
  detail_total_issues_color : string;
  detail_compliant_count : string;
  detail_violations : list (list string) + string;
  detail_compliant : option CompliantItems;
  detail_raw : string
}.

Definition totalIssues (analysis : Json) : Json :=
  or_ (or_ (field "total_violations" analysis) (field "total_conflicts" analysis))
      (number 0).

Definition compliantCount (analysis : Json) : Json :=
  or_ (or_ (or_ (or_ (or_ (or_ (length_ (field "compliant_subjects" analysis))
                               (length_ (field "compliant_assignments" analysis)))
                          (length_ (field "compliant_entries" analysis)))
                     (length_ (field "compliant_blocks" analysis)))
                (length_ (field "compliant_schedules" analysis)))
           (length_ (field "compliant_days" analysis)))
      (number 0).

Definition violationsShown (constraintType : string) (analysis : Json)
    : option (list (list string) + string) :=
  let violations := field "violations" analysis in
  let conflicts := field "conflicts" analysis in
  if truthy (or_ violations conflicts) then
    if positive (length_ violations) || positive (length_ conflicts) then
      inl <$> map_ (renderViolationDetails constraintType)
                   (or_ (or_ violations conflicts) (array []))
    else Some (inr "")
  else inr <$> child (or_ violations conflicts).

Definition renderDetailedAnalysis (constraintType : string) (analysis : Json)
    : option (option DetailedAnalysis) :=
  if truthy analysis then
    status ← child (field "status" analysis);
    total_issues ← child (totalIssues analysis);
    compliant_count ← child (compliantCount analysis);
    violations ← violationsShown constraintType analysis;
    compliant ← renderCompliantItems constraintType analysis;
    Some (Some {| detail_constraint := getConstraintInfo constraintType;
                  detail_status :=
                    getStatusIcon (field "status" analysis) +:+ " " +:+ status;
                  detail_status_color := getStatusColor (field "status" analysis);
                  detail_total_issues := total_issues;
                  detail_total_issues_color :=
                    if is_zero (totalIssues analysis) then "text-green-400"
                    else "text-red-400";
                  detail_compliant_count := compliant_count;
                  detail_violations := violations;
                  detail_compliant := compliant;
                  detail_raw := stringify analysis |})
  else Some None.

End rendering.

(** *** Sample report

    A report whose only analysis is the one of the working hours, with two
    violations. *)
Definition working_hours_report : Json :=
  object [ ("total_entries", number 40);
           ("total_violations", number 2);
           ("overall_compliance", boolean false);
           ("constraint_analysis",
            object [ ("working_hours",
                      object [ ("status", text "FAIL");
                               ("total_violations", number 2) ]) ]) ].

End ConstraintTesting.

(** ** The report of the validator as the page receives it *)

Module ReportJson.
Import Engine ConstraintTesting.

(** Modelled from the spec: a day as the calendar of the front end names
    it ("Mon–Fri"). *)
Definition day_name (d : Weekday) : string :=
  match d with
  | Mon => "Mon" | Tue => "Tue" | Wed => "Wed" | Thu => "Thu"
  | Fri => "Fri" | Sat => "Sat" | Sun => "Sun"
  end.

(** Modelled from the spec: a section as "batch + section label, e.g.
    22SW-B". *)
Definition class_group (s : Section) : string := batch s +:+ "-" +:+ label s.

(** Modelled from the spec: "status (PASS/FAIL)". *)
Definition status_json (s : Status) : Json :=
  text (match s with PASS => "PASS" | FAIL => "FAIL" end).

(** Modelled from the spec: the two conflict reports, the one that names
    teachers and the one that names rooms. *)
Inductive Kind := of_teachers | of_rooms.

(** Modelled from the spec: a conflicting assignment with "the concrete
    offending fields": the subject and the section, and the room where a
    teacher is in conflict, the teacher where a room is. *)
Definition assignment_json (kind : Kind) (a : Assignment) : Json :=
  object [ ("subject", text (assignment_subject a));
           ("class_group", text (class_group (assignment_class_group a)));
           match kind with
           | of_teachers => ("classroom", text (assignment_classroom a))
           | of_rooms => ("teacher", text (assignment_teacher a))
           end ].

(** Modelled from the spec: a conflict record: "teacher/room ...
    day/period and ... the other conflicting entries", under the names the
    page reads. *)
Definition conflict_json (kind : Kind) (c : Conflict) : Json :=
  object [ (match kind with
            | of_teachers => "teacher_name"
            | of_rooms => "classroom_name"
            end, text (conflict_name c));
           ("day", text (day_name (conflict_day c)));
           ("period", number (conflict_period c));
           ("conflict_count", number (conflict_count c));
           ("conflicting_assignments",
            array (assignment_json kind <$> conflicting_assignments c)) ].

(** Modelled from the spec: a compliant entry of a conflict report, with
    the fields of a TimetableEntry. *)
Definition entry_json (e : TimetableEntry) : Json :=
  object [ ("subject", text (session_subject (entry_session e)));
           ("class_group", text (class_group (session_section (entry_session e))));
           ("teacher", text (entry_teacher e));
           ("classroom", text (entry_room e));
           ("day", text (day_name (entry_day e)));
           ("period", number (entry_period e)) ].

(** Modelled from the spec: a block of the practical_blocks report. *)
Definition block_json (b : Block) : Json :=
  object [ ("subject_name", text (block_subject b));
           ("class_group", text (class_group (block_class_group b)));
           ("day", text (day_name (block_day b)));
           ("violation_type", text (violation_type b));
           ("block_length", number (block_length b));
           ("is_consecutive", boolean (is_consecutive b));
           ("periods", array (number <$> block_periods b)) ].

(** Modelled from the spec: an item of the subject_frequency report; the
    subject is known by its code. *)
Definition frequency_json (f : Frequency) : Json :=
  object [ ("subject_name", text (frequency_subject f));
           ("subject_code", text (frequency_subject f));
           ("class_group", text (class_group (frequency_class_group f)));
           ("expected_count", number (expected_count f));
           ("actual_count", number (actual_count f));
           ("is_practical", boolean (frequency_is_practical f));
           ("violation_type", text (frequency_violation_type f)) ].

(** Modelled from the spec: the report of one constraint: "status
    (PASS/FAIL), a list of violation records ..., and a count/sample of
    compliant items", the compliant items under [compliant]. *)
Definition analysis_json {V C} (violation : V → Json) (compliant : string)
    (item : C → Json) (r : Report V C) : Json :=
  object [ ("status", status_json (status r));
           ("total_violations", number (total_violations r));
           ("violations", array (violation <$> violations r));
           (compliant, array (item <$> Engine.compliant r)) ].

(** Modelled from the spec: "validate(entries) → {perConstraintReport}"
    as the answer of [/api/timetable/constraint-testing/], each report
    under the id of its constraint. *)
Definition constraint_analysis (v : ValidationReport) : Json :=
  object [ ("subject_frequency",
            analysis_json frequency_json "compliant_subjects" frequency_json
                          (report_subject_frequency v));
           ("teacher_conflicts",
            analysis_json (conflict_json of_teachers) "compliant_entries" entry_json
                          (report_teacher_conflicts v));
           ("room_conflicts",
            analysis_json (conflict_json of_rooms) "compliant_entries" entry_json
                          (report_room_conflicts v));
           ("practical_blocks",
            analysis_json block_json "compliant_blocks" block_json
                          (report_practical_blocks v)) ].

(** Modelled from the spec: the totals over the reports, which the page
    reads as [total_entries], [total_violations] and [overall_compliance]. *)
Definition all_violations (v : ValidationReport) : nat :=
  total_violations (report_subject_frequency v)
  + total_violations (report_teacher_conflicts v)
  + total_violations (report_room_conflicts v)
  + total_violations (report_practical_blocks v).

(** Modelled from the spec: the answer of [/api/timetable/constraint-testing/]
    for a timetable: the totals and the reports. *)
Definition constraintData (input : Input) (timetable : list TimetableEntry) : Json :=
  let v := validate input timetable in
  object [ ("total_entries", number (length timetable));
           ("total_violations", number (all_violations v));
           ("overall_compliance", boolean (bool_decide (all_violations v = 0)));
           ("constraint_analysis", constraint_analysis v) ].

(** *** The text of a record

    What the page is to show of a record of the validator: the lines of a
    conflict with those of its assignments, of a block, of a subject whose
    count is wrong, and the line of a status. *)
Definition assignment_line (kind : Kind) (a : Assignment) : string :=
  assignment_subject a +:+ " - " +:+ class_group (assignment_class_group a)
  +:+ " ("
  +:+ match kind with
      | of_teachers => assignment_classroom a
      | of_rooms => assignment_teacher a
      end
  +:+ ")".

(** Modelled from the spec: the id of the conflict report of a kind. *)
Definition kind_id (kind : Kind) : string :=
  match kind with
  | of_teachers => "teacher_conflicts"
  | of_rooms => "room_conflicts"
  end.

(** Modelled from the spec: the lines of a conflict record. *)
Definition conflict_lines (kind : Kind) (c : Conflict) : list string :=
  [ match kind with of_teachers => "Teacher" | of_rooms => "Room" end
      +:+ ": " +:+ conflict_name c;
    "Time: " +:+ day_name (conflict_day c) +:+ " Period "
      +:+ pretty (conflict_period c);
    "Conflicts: " +:+ pretty (conflict_count c);
    "Conflicting Assignments:" ]
  ++ (assignment_line kind <$> conflicting_assignments c).



(** Modelled from the spec: the line of a status, with its mark. *)
Definition status_line (s : Status) : string :=
  match s with
  | PASS => "✅ PASS"
  | FAIL => "❌ FAIL"
  end.

(** Modelled from the spec: the conflict report of a kind. *)
Definition conflicts_of (kind : Kind) (timetable : list TimetableEntry)
    : Report Conflict TimetableEntry :=
  match kind with
  | of_teachers => teacher_conflicts timetable
  | of_rooms => room_conflicts timetable
  end.

(** Modelled from the spec: what the panel of a constraint is to show for a report: the status,
    the count of the violations, and the lines of each violation. *)
Definition shows {V C} (d : DetailedAnalysis) (r : Report V C)
    (lines : V → list string) : Prop :=
  detail_status d = status_line (status r)
  ∧ detail_total_issues d = pretty (total_violations r)
  ∧ detail_compliant_count d = pretty (length (Engine.compliant r))
  ∧ detail_violations d
    = if violations r is [] then inr "" else inl (lines <$> violations r).

(** Modelled from the spec: the fields under which the page looks for the compliant items. *)
Definition compliant_fields : list string :=
  [ "compliant_subjects"; "compliant_assignments"; "compliant_entries";
    "compliant_blocks"; "compliant_schedules"; "compliant_days" ].

End ReportJson.

(** ** Timetable.js: moving an entry by drag and drop *)

Module Timetable.
Import Js Handler Api.

(** *** What the page sends and receives *)

(** The body of the move request: [{ day: day, period: index + 1 }]. *)
Record MoveBody := {
  body_day : string;
  body_period : nat
}.

Inductive Call :=
| Post (url : string) (body : MoveBody)
| Get (url : string).

(** [response.data] of [/api/timetable/latest/], as far as the grid reads
    it; [data_entries] is [None] when the field is missing. *)
Record TimetableData := {
  data_days : list string;
  data_timeSlots : list string;
  data_entries : option (list Entry)
}.

(** The answers of the server to the two requests of a drop. *)
Record Server := {
  move : string → MoveBody → Response unit;
  latest : string → Response (option TimetableData)
}.

(** [`${params}`] for [URLSearchParams]: a value is written as in a form:
    letters, digits and [*-._] as they are, a space as [+], any other byte
    as [%] and its two hexadecimal digits. *)
Definition hexDigit (n : nat) : ascii :=
  default "0"%char (String.get n "0123456789ABCDEF").

Definition unreserved (c : ascii) : bool :=
  let n := nat_of_ascii c in
  ((48 <=? n) && (n <=? 57)) || ((65 <=? n) && (n <=? 90))
  || ((97 <=? n) && (n <=? 122))
  || bool_decide (n ∈ [42; 45; 46; 95]).

Fixpoint formEncode (s : string) : string :=
  match s with
  | EmptyString => ""
  | String c rest =>
      (if unreserved c then String c ""
       else if decide (c = " "%char) then "+"
       else String "%" (String (hexDigit (nat_of_ascii c / 16))
                          (String (hexDigit (nat_of_ascii c mod 16)) "")))
      +:+ formEncode rest
  end.

Definition moveUrl (entry : Entry) : string :=
  "/api/timetable/slots/"
  +:+ (if entry_id entry is Some i then pretty i else "undefined")
  +:+ "/move/".

Definition latestUrl (selectedClassGroup : string) : string :=
  "/api/timetable/latest/?"
  +:+ (if decide (selectedClassGroup = "") then ""
       else "class_group=" +:+ formEncode selectedClassGroup).

(** *** Component state *)

Record Message := {
  message_type : string;
  message_text : string
}.

Record State := {
  timetableData : option TimetableData;
  selectedClassGroup : string;
  editMode : bool;
  draggingEntry : option Entry;
  message : option Message;
  sent : list Call;             (* requests issued so far, oldest first *)
  timers : nat                  (* [setTimeout] calls that will clear the message *)
}.

Definition setTimetableData (f : option TimetableData → option TimetableData)
    : M State unit :=
  modify (λ '(Build_State data group edit dragging msg log t),
            Build_State (f data) group edit dragging msg log t).

Definition setDraggingEntry (dragging : option Entry) : M State unit :=
  modify (λ '(Build_State data group edit _ msg log t),
            Build_State data group edit dragging msg log t).

Definition setMessage (msg : option Message) : M State unit :=
  modify (λ '(Build_State data group edit dragging _ log t),
            Build_State data group edit dragging msg log t).

Definition send (q : Call) : M State unit :=
  modify (λ '(Build_State data group edit dragging msg log t),
            Build_State data group edit dragging msg (log ++ [q]) t).

(** [setTimeout(() => setMessage(null), 2500)] *)
Definition setTimeout : M State unit :=
  modify (λ '(Build_State data group edit dragging msg log t),
            Build_State data group edit dragging msg log (S t)).

(** The values of the render in which the handler was made. *)
Definition rendered : M State State := λ s, (s, s).

(** *** Dropping the dragged entry on a cell *)

(** [{ ...updated.entries[idx], day, period: index + 1 }] *)
Definition dropped (day : string) (period : nat) (en : Entry) : Entry :=
  {| entry_id := entry_id en; Api.day := day; Api.period := period;
     subject := subject en; subject_short_name := subject_short_name en;
     subject_code := subject_code en; teacher := teacher en;
     classroom := classroom en; class_group := class_group en;
     is_practical := is_practical en; is_extra_class := is_extra_class en;
     credits := credits en |}.

(** [en.id === draggingEntry.id] *)
Definition same_id (dragging en : Entry) : bool :=
  bool_decide (entry_id en = entry_id dragging).

(** "Optimistically update UI to clear old slot": the entry with the id of
    the dragged one gets the day and the period of the cell. *)
Definition optimistic (dragging : Entry) (day : string) (index : nat)
    (prev : option TimetableData) : option TimetableData :=
  match prev with
  | None => None
  | Some prev =>
      let entries := default [] (data_entries prev) in
      let idx := findIndex (same_id dragging) entries in
      Some {| data_days := data_days prev;
              data_timeSlots := data_timeSlots prev;
              data_entries :=
                Some (match idx with
                      | Some i => alter (dropped day (index + 1)) i entries
                      | None => entries
                      end) |}
  end.

(** The [catch] of the handler: nothing is shown for a 401; else the
    detail of the answer, or a general text when there is none. *)
Definition caught (err : Error) : M State unit :=
  if decide (status err = Some 401) then mret tt
  else
    let msg := or_else (data_detail err) "Move failed due to constraints" in
    setMessage (Some {| message_type := "error"; message_text := msg |}).

(** [onDrop] of the cell of [day] and of the time slot at [index]. *)
Definition onDrop (srv : Server) (day : string) (index : nat) : M State unit :=
  now ← rendered;
  match draggingEntry now with
  | Some dragging =>
      if editMode now then
        (send (Post (moveUrl dragging)
                    {| body_day := day; body_period := index + 1 |});;
         match move srv (moveUrl dragging)
                    {| body_day := day; body_period := index + 1 |} with
         | inr _ =>
             setTimetableData (optimistic dragging day index);;
             send (Get (latestUrl (selectedClassGroup now)));;
             match latest srv (latestUrl (selectedClassGroup now)) with
             | inr data =>
                 setTimetableData (λ _, data);;
                 setMessage (Some {| message_type := "success";
                                     message_text := "Slot moved successfully" |})
             | inl err => caught err
             end
         | inl err => caught err
         end);;
        setDraggingEntry None;;
        setTimeout
      else mret tt
  | None => mret tt
  end.

(** Modelled from the spec: the answer that carries the "rejectedReason"
    of [moveEntry] to the page, as the detail of a refused request. *)
Definition rejection (reason : string) : Error :=
  {| status := Some 400; data_error := ""; data_detail := reason;
     code := ""; Api.message := "" |}.

(** *** The request and the answer of a drop *)

(** The request of a drop. *)
Definition move_request (dragging : Entry) (day : string) (index : nat) : Call :=
  Post (moveUrl dragging) {| body_day := day; body_period := index + 1 |}.

Definition move_answer (srv : Server) (dragging : Entry) (day : string)
    (index : nat) : Response unit :=
  move srv (moveUrl dragging) {| body_day := day; body_period := index + 1 |}.

(** What is shown for an answer that is an error. *)
Definition message_after (err : Error) (before : option Message) : option Message :=
  if decide (status err = Some 401) then before
  else Some {| message_type := "error";
               message_text := or_else (data_detail err)
                                       "Move failed due to constraints" |}.

(** *** Sample state *)

Definition dbs_on_thursday : Entry :=
  {| entry_id := Some 4; Api.day := "Thu"; Api.period := 1; subject := "DBS";
     subject_short_name := "DBS"; subject_code := "SW215";
     teacher := "Dr. Naeem"; classroom := "Room-1"; class_group := "24SW-A";
     is_practical := false; is_extra_class := false; credits := Some 3 |}.

Definition dbs_on_tuesday : Entry :=
  {| entry_id := Some 5; Api.day := "Tue"; Api.period := 1; subject := "DBS";
     subject_short_name := "DBS"; subject_code := "SW215";
     teacher := "Dr. Naeem"; classroom := "Room-1"; class_group := "24SW-A";
     is_practical := false; is_extra_class := false; credits := Some 3 |}.

(** The page in edit mode, with the Thursday class being dragged. *)
Definition dragging_thursday : State :=
  {| timetableData :=
       Some {| data_days := ["Mon"; "Tue"; "Wed"; "Thu"; "Fri"];
               data_timeSlots := ["8:00 AM - 9:00 AM"; "9:00 AM - 10:00 AM"];
               data_entries := Some [dbs_on_thursday; dbs_on_tuesday] |};
     selectedClassGroup := "24SW-A";
     editMode := true;
     draggingEntry := Some dbs_on_thursday;
     message := None;
     sent := [];
     timers := 0 |}.

(** A server that refuses every move with [reason]. *)
Definition refusing (reason : string) : Server :=
  {| move := λ _ _, inl (rejection reason);
     latest := λ _, inr None |}.

End Timetable.

(** ** More JavaScript primitives *)

Module JsText.
Import Js.

(** [s.split(sep)] for a separator of one character or more.  [skip]
    counts the characters of a separator just matched that are still to be
    passed over. *)
Fixpoint splitOn (sep : string) (skip : nat) (s : string) : list string :=
  match s with
  | EmptyString => [""]
  | String a s' =>
      match skip with
      | S k => splitOn sep k s'
      | 0 =>
          if String.prefix sep s then "" :: splitOn sep (String.length sep - 1) s'
          else match splitOn sep 0 s' with
               | [] => [String a ""]
               | w :: ws => String a w :: ws
               end
      end
  end.

Definition splitStr (sep s : string) : list string := splitOn sep 0 s.

(** [s.substring(0, n)] *)
Fixpoint substring_to (n : nat) (s : string) : string :=
  match n, s with
  | S n', String a s' => String a (substring_to n' s')
  | _, _ => ""
  end.

(** [c.toUpperCase()] on ASCII letters. *)
Definition upper (c : ascii) : ascii :=
  let n := nat_of_ascii c in
  if bool_decide (97 ≤ n ≤ 122) then ascii_of_nat (n - 32) else c.

(** [s.toUpperCase()] on ASCII text. *)
Fixpoint toUpperCase (s : string) : string :=
  match s with
  | EmptyString => ""
  | String a s' => String (upper a) (toUpperCase s')
  end.

(** [a.find(p)]; [None] stands for [undefined]. *)
Definition find {A} (p : A → bool) (a : list A) : option A :=
  head (filter (λ x, p x = true) a).

(** The character [c] occurs in the text [s]. *)
Fixpoint occurs (c : ascii) (s : string) : Prop :=
  match s with
  | EmptyString => False
  | String a s' => a = c ∨ occurs c s'
  end.

Global Instance occurs_dec c s : Decision (occurs c s).
Proof. induction s; simpl; apply _. Defined.

End JsText.

(** ** frontend/pages/components/DepartmentConfig.js: editing and saving
    a configuration *)

Module ConfigForm.
Import Js JsText Handler Api DepartmentConfig.

(** How a handler ends: it returns, or one of its property reads throws a
    [TypeError] on [undefined] or [null]. *)
Inductive Outcome := Done | TypeError.

Global Instance Outcome_eq_dec : EqDecision Outcome.
Proof. solve_decision. Defined.

(** *** The setters of the form fields *)

Definition setDepartmentName (name : string) : M State unit :=
  modify (λ '(Build_State _ n start d p e gl ge gs log r),
            Build_State name n start d p e gl ge gs log r).

Definition setNumPeriods (n : entered) : M State unit :=
  modify (λ '(Build_State name _ start d p e gl ge gs log r),
            Build_State name n start d p e gl ge gs log r).

Definition setStartTime (start : string) : M State unit :=
  modify (λ '(Build_State name n _ d p e gl ge gs log r),
            Build_State name n start d p e gl ge gs log r).

Definition setClassDuration (d : nat) : M State unit :=
  modify (λ '(Build_State name n start _ p e gl ge gs log r),
            Build_State name n start d p e gl ge gs log r).

(** *** Editing the generated periods by hand *)

(** [removePeriod(day, index)]: [splice(index, 1)] takes the label at
    [index] out, and nothing when the day has no such index. *)
Definition removePeriod (day : string) (index : nat) : M State Outcome :=
  λ s,
    match periods_ s !! day with
    | None => (TypeError, s)
    | Some l => (Done, exec (setPeriods (<[day := delete index l]> (periods_ s))) s)
    end.

(** The new start time [addPeriod] reads off the end of the last label:
    [`${String(lastEndHours24).padStart(2, "0")}:${String(lastEndMinutes).padStart(2, "0")}`]. *)
Definition newStartTime (lastEndTime : string) : string :=
  let parts := split " "%char lastEndTime in
  let lastEndTimePart := default "" (parts !! 0) in
  let lastEndPeriod := parts !! 1 in
  let hm := split ":"%char lastEndTimePart in
  let lastEndHours := NumberAt hm 0 in
  let lastEndMinutes := NumberAt hm 1 in
  let lastEndHours24 :=
    if bool_decide (lastEndPeriod = Some "PM") && negb (bool_decide (lastEndHours = Some 12))
    then (λ h, h + 12) <$> lastEndHours
    else if bool_decide (lastEndPeriod = Some "AM") && bool_decide (lastEndHours = Some 12)
    then Some 0
    else lastEndHours in
  padStart 2 "0"%char (String_ lastEndHours24) +:+ ":"
    +:+ padStart 2 "0"%char (String_ lastEndMinutes).

(** [addPeriod(day)] *)
Definition addPeriod (day : string) : M State Outcome :=
  λ s,
    match periods_ s !! day with
    | None => (TypeError, s)
    | Some l =>
        let lastPeriod := default "" (last l) in
        if bool_decide (lastPeriod = "") then
          let newTime := incrementTime (startTime s) (classDuration s) in
          (Done,
           exec (setPeriods
                   (<[day := l ++ [formatTimeRange newTime (classDuration s)]]>
                      (periods_ s))) s)
        else
          match splitStr " - " lastPeriod with
          | [_; lastEndTime] =>
              (Done,
               exec (setPeriods
                       (<[day := l ++ [formatTimeRange (newStartTime lastEndTime)
                                         (classDuration s)]]>
                          (periods_ s))) s)
          | _ => (Done, s)
          end
    end.

(** *** The whole form *)

(** The body of the request that saves a configuration.  Its [constraints]
    field is always the empty object. *)
Record Payload := {
  payload_name : string;
  payload_days : list string;
  payload_periods : list string;
  payload_start_time : string;
  payload_class_duration : nat;
  payload_semester : string;
  payload_academic_year : string
}.

Global Instance Payload_eq_dec : EqDecision Payload.
Proof. solve_decision. Defined.

(** The requests that change the stored configurations. *)
Inductive Call :=
| Put (id : nat) (body : Payload)
| Post (body : Payload)
| Delete (id : nat).

Global Instance Call_eq_dec : EqDecision Call.
Proof. solve_decision. Defined.

(** What the [catch] of [handleSubmit] tells apart: an answer with its
    [detail] (empty when there is none), a request that got no answer, and
    an error raised before anything was sent. *)
Inductive Failure :=
| Answered (detail : string)
| Unanswered
| NotSent.

Record Server := {
  put : nat → Payload → Failure + ScheduleConfig;
  post : Payload → Failure + ScheduleConfig;
  delete_ : nat → Failure + unit
}.

Record Form := {
  fields : State;
  loading : bool;
  existingConfigs : list ScheduleConfig;
  editingConfig : option ScheduleConfig;
  showDeleteConfirm : option nat;
  success : string;
  calls : list Call;            (* requests issued so far, oldest first *)
  timers : nat                  (* [setTimeout(() => setSuccess(''), 3000)] pending *)
}.

(** A handler of the fields run on the form. *)
Definition zoom {A} (m : M State A) : M Form A :=
  λ '(Build_Form s l cs ed del ok log t),
    let '(a, s') := m s in (a, Build_Form s' l cs ed del ok log t).

Definition setLoading (l : bool) : M Form unit :=
  modify (λ '(Build_Form s _ cs ed del ok log t), Build_Form s l cs ed del ok log t).

Definition setExistingConfigs (cs : list ScheduleConfig) : M Form unit :=
  modify (λ '(Build_Form s l _ ed del ok log t), Build_Form s l cs ed del ok log t).

Definition setEditingConfig (ed : option ScheduleConfig) : M Form unit :=
  modify (λ '(Build_Form s l cs _ del ok log t), Build_Form s l cs ed del ok log t).

Definition setShowDeleteConfirm (del : option nat) : M Form unit :=
  modify (λ '(Build_Form s l cs ed _ ok log t), Build_Form s l cs ed del ok log t).

Definition setSuccess (ok : string) : M Form unit :=
  modify (λ '(Build_Form s l cs ed del _ log t), Build_Form s l cs ed del ok log t).

Definition call (c : Call) : M Form unit :=
  modify (λ '(Build_Form s l cs ed del ok log t),
            Build_Form s l cs ed del ok (log ++ [c]) t).

Definition setTimeout : M Form unit :=
  modify (λ '(Build_Form s l cs ed del ok log t),
            Build_Form s l cs ed del ok log (S t)).

(** [loadConfigForEditing(config)].  The setters called before a throwing
    read have taken effect. *)
Definition loadConfigForEditing (config : ScheduleConfig) : M Form Outcome :=
  setEditingConfig (Some config);;
  zoom (setDepartmentName (config_name config));;
  match periods config with
  | None => mret TypeError
  | Some ps =>
      zoom (setNumPeriods (whole (length ps)));;
      if bool_decide (start_time config = "") then mret TypeError
      else
        let start := substring_to 5 (start_time config) in
        zoom (setStartTime start);;
        zoom (setClassDuration (class_duration config));;
        zoom (setPeriods (newPeriods (length ps) start (class_duration config)));;
        mret Done
  end.

(** [clearForm()] *)
Definition clearForm : M Form unit :=
  setEditingConfig None;;
  zoom (setDepartmentName "");;
  zoom (setNumPeriods (whole 0));;
  zoom (setStartTime "08:00");;
  zoom (setClassDuration 60);;
  zoom (setPeriods ∅);;
  zoom (setError None);;
  setSuccess "".

(** [handleDeleteConfig(configId)] *)
Definition handleDeleteConfig (srv : Server) (configId : nat) : M Form unit :=
  call (Delete configId);;
  match delete_ srv configId with
  | inr _ =>
      f ← (λ f, (f, f));
      setExistingConfigs
        (filter (λ config, config_id config ≠ configId) (existingConfigs f));;
      setSuccess "Configuration deleted successfully!";;
      setTimeout;;
      setShowDeleteConfirm None
  | inl _ =>
      zoom (setError (Some "Failed to delete configuration"));;
      setShowDeleteConfirm None
  end.

(** The [payload] of [handleSubmit]. *)
Definition payload (s : State) : Payload :=
  {| payload_name := departmentName s;
     payload_days := days_;
     payload_periods := (λ i, pretty (i + 1)) <$> seq 0 (toLength (numPeriods s));
     payload_start_time := startTime s +:+ ":00";
     payload_class_duration := classDuration s;
     payload_semester := "Fall 2024";
     payload_academic_year := "2024-2025" |}.

(** The message of the [catch] of [handleSubmit]. *)
Definition failureMessage (err : Failure) : string :=
  match err with
  | Answered detail => "Error: " +:+ or_else detail "Failed to save configuration"
  | Unanswered => "No response from server. Please check your connection."
  | NotSent => "An unexpected error occurred. Please try again."
  end.

(** [handleSubmit(e)] *)
Definition handleSubmit (srv : Server) : M Form unit :=
  ok ← zoom validateConfiguration;
  if negb ok then mret tt
  else
    setLoading true;;
    zoom (setError None);;
    f ← (λ f, (f, f));
    if bool_decide (size (periods_ (fields f)) = 0) then
      zoom (setError (Some "Please generate periods before saving."));;
      setLoading false
    else
      let payload := payload (fields f) in
      (match editingConfig f with
       | Some editing =>
           call (Put (config_id editing) payload);;
           match put srv (config_id editing) payload with
           | inr data =>
               setExistingConfigs
                 ((λ config, if bool_decide (config_id config = config_id editing)
                             then data else config) <$> existingConfigs f);;
               setSuccess "Configuration updated successfully!";;
               clearForm;;
               setTimeout
           | inl err => zoom (setError (Some (failureMessage err)))
           end
       | None =>
           call (Post payload);;
           match post srv payload with
           | inr data =>
               setExistingConfigs (existingConfigs f ++ [data]);;
               setSuccess "Configuration created successfully!";;
               clearForm;;
               setTimeout
           | inl err => zoom (setError (Some (failureMessage err)))
           end
       end);;
      setLoading false.

(** *** Edits made by hand, one after the other *)

Inductive Edit :=
| Add (day : string)
| Remove (day : string) (index : nat).

Definition edit (e : Edit) : M State Outcome :=
  match e with
  | Add day => addPeriod day
  | Remove day index => removePeriod day index
  end.


(** *** Reading a save

    The form passes [validateConfiguration]; the request [handleSubmit]
    sends for a form, and the server's answer to it. *)
Definition acceptable (s : State) : Prop :=
  trim (departmentName s) ≠ "" ∧ below (numPeriods s) 1 = false
  ∧ 30 ≤ classDuration s.

Definition request_of (f : Form) : Call :=
  match editingConfig f with
  | Some editing => Put (config_id editing) (payload (fields f))
  | None => Post (payload (fields f))
  end.

Definition answer_of (srv : Server) (f : Form) : Failure + ScheduleConfig :=
  match editingConfig f with
  | Some editing => put srv (config_id editing) (payload (fields f))
  | None => post srv (payload (fields f))
  end.

(** *** What is checked on each minute of a day: the start time
    [addPeriod] reads off a clock time is that minute, and the first five
    characters of a saved start time are the start time. *)
Definition end_ok (t : nat) : Prop :=
  newStartTime (clock12 t) = hhmm t
  ∧ substring_to 5 (hhmm t +:+ ":00") = hhmm t.

Global Instance end_ok_dec t : Decision (end_ok t).
Proof. unfold end_ok. apply _. Defined.

(** *** Sample forms and servers *)

Definition blank : Form :=
  {| fields := morning; loading := false; existingConfigs := [];
     editingConfig := None; showDeleteConfirm := None; success := "";
     calls := []; timers := 0 |}.

(** A server that stores what it is sent under the id [7], or under the
    id of the request. *)
Definition kept (id : nat) (p : Payload) : ScheduleConfig :=
  {| config_id := id; config_name := payload_name p;
     days := Some (payload_days p); periods := Some (payload_periods p);
     start_time := payload_start_time p;
     class_duration := payload_class_duration p |}.

Definition keeping : Server :=
  {| put := λ id p, inr (kept id p);
     post := λ p, inr (kept 7 p);
     delete_ := λ _, inr tt |}.


End ConfigForm.

(** ** The teacher form ([AddTeacher], src/unnamed/part_009): loading the
    configuration and saving the teacher *)

Module TeacherForm.
Import Js JsText Handler Api AddTeacher.
Import ConfigForm(Outcome, Done, TypeError).

(** [a.sort(cmp)]: the sort is stable, so an element stays before the
    later elements it compares equal to. *)
Fixpoint insertBy {A} (cmp : A → A → Z) (x : A) (l : list A) : list A :=
  match l with
  | [] => [x]
  | y :: l' => if bool_decide (cmp x y ≤ 0)%Z then x :: l else y :: insertBy cmp x l'
  end.

Definition sortBy {A} (cmp : A → A → Z) (l : list A) : list A :=
  foldr (insertBy cmp) [] l.

(** [(a, b) => b.id - a.id] *)
Definition newest_first (a b : ScheduleConfig) : Z :=
  (Z.of_nat (config_id b) - Z.of_nat (config_id a))%Z.

(** [configRes.data.sort((a, b) => b.id - a.id)[0]] *)
Definition latestConfig (data : list ScheduleConfig) : option ScheduleConfig :=
  head (sortBy newest_first data).

(** *** What the page sends and receives *)

(** [teacherData], the body of the request. *)
Record TeacherData := {
  body_name : string;
  body_max_classes_per_day : nat;
  body_unavailable_periods : gmap string (gmap string (list string))
}.

Inductive Call :=
| Put (url : string) (body : TeacherData)
| Post (url : string) (body : TeacherData).

(** [err.response.data] of a refused save.  Its [name] is missing, an
    array (of texts, of objects with a [string] field, or holding a null)
    or a text; its [detail] is missing, a text or some other value, taken
    with the text it is shown as; a missing [error] is the empty text. *)
Inductive NameItem :=
| ItemNull
| ItemObject (string_ : string)
| ItemText (s : string).

Inductive NameField :=
| NameMissing
| NameArray (items : list NameItem)
| NameString (s : string).

Inductive Detail :=
| DetailMissing
| DetailText (s : string)
| DetailOther (shown : string).

Record ErrorData := {
  data_name : NameField;
  data_detail : Detail;
  data_error : string
}.

(** What a failed request throws: the status and the data of the answer,
    when there is one. *)
Record Failure := {
  failure_status : option nat;
  failure_data : option ErrorData
}.

Record Server := {
  schedule_configs : Failure + list ScheduleConfig;
  save : Call → Failure + unit
}.

(** *** Component state *)

(** [formErrors]: the messages under the two inputs. *)
Record FormErrors := {
  errors_name : option string;
  errors_maxClasses : option string
}.

Record Form := {
  id : string;                  (* [router.query.id]; empty when there is none *)
  name : string;
  maxClasses : nat;
  availabilityState : Availability;
  timetableConfig : option ScheduleConfig;
  configLoading : bool;
  teacherLoading : bool;
  error : string;
  formErrors : FormErrors;
  calls : list Call;            (* save requests issued so far, oldest first *)
  redirect : option string;     (* page the router was told to open *)
  scrolled : nat                (* calls of [window.scrollTo(0, 0)] *)
}.

Definition setTimetableConfig (c : option ScheduleConfig) : M Form unit :=
  modify (λ '(Build_Form i n m a _ cl tl e fe log r sc),
            Build_Form i n m a c cl tl e fe log r sc).

Definition setConfigLoading (cl : bool) : M Form unit :=
  modify (λ '(Build_Form i n m a c _ tl e fe log r sc),
            Build_Form i n m a c cl tl e fe log r sc).

Definition setTeacherLoading (tl : bool) : M Form unit :=
  modify (λ '(Build_Form i n m a c cl _ e fe log r sc),
            Build_Form i n m a c cl tl e fe log r sc).

Definition setError (e : string) : M Form unit :=
  modify (λ '(Build_Form i n m a c cl tl _ fe log r sc),
            Build_Form i n m a c cl tl e fe log r sc).

Definition setFormErrors (fe : FormErrors) : M Form unit :=
  modify (λ '(Build_Form i n m a c cl tl e _ log r sc),
            Build_Form i n m a c cl tl e fe log r sc).

Definition setAvailabilityState (f : Availability → Availability) : M Form unit :=
  modify (λ '(Build_Form i n m a c cl tl e fe log r sc),
            Build_Form i n m (f a) c cl tl e fe log r sc).

Definition call (q : Call) : M Form unit :=
  modify (λ '(Build_Form i n m a c cl tl e fe log r sc),
            Build_Form i n m a c cl tl e fe (log ++ [q]) r sc).

Definition router_push (url : string) : M Form unit :=
  modify (λ '(Build_Form i n m a c cl tl e fe log _ sc),
            Build_Form i n m a c cl tl e fe log (Some url) sc).

Definition scrollTo : M Form unit :=
  modify (λ '(Build_Form i n m a c cl tl e fe log r sc),
            Build_Form i n m a c cl tl e fe log r (S sc)).

(** *** Loading the configuration *)

Definition no_configuration : string :=
  "No timetable configuration found. Please complete Department Configuration first.".

(** [fetchConfig()] *)
Definition fetchConfig (srv : Server) : M Form unit :=
  (match schedule_configs srv with
   | inr data =>
       if bool_decide (0 < length data) then
         match latestConfig data with
         | Some latest => setTimetableConfig (Some latest)
         | None => setError no_configuration
         end
       else setError no_configuration
   | inl err =>
       if bool_decide (failure_status err = Some 401) then mret tt
       else setError "Failed to load configuration."
   end);;
  setConfigLoading false.

(** *** The grid *)

(** [getTimeSlotClass(day, periodIndex)] *)
Definition getTimeSlotClass (st : Availability) (day : string) (periodIndex : nat)
    : string :=
  match cell st day periodIndex with
  | None => "bg-background/80 border border-border hover:border-accent-cyan/30"
  | Some mandatory => "bg-red-500/20 border border-red-500/30 text-red-500"
  end.

(** *** Saving the teacher *)

(** [validateForm()] *)
Definition validateForm : M Form bool :=
  λ f,
    let errors :=
      {| errors_name :=
           if bool_decide (trim (name f) = "") then Some "Teacher name is required"
           else None;
         errors_maxClasses :=
           if bool_decide (maxClasses f < 1) then Some "Must be at least 1 class per day"
           else None |} in
    (bool_decide (errors_name errors = None ∧ errors_maxClasses errors = None),
     exec (setFormErrors errors) f).

(** The message the [catch] of [handleSubmit] ends with; [None] when
    reading the answer throws. *)
Definition errorMessage (err : Failure) : option string :=
  match failure_data err with
  | None => Some "Failed to save teacher."
  | Some errorData =>
      let hasNameError :=
        match data_name errorData with
        | NameMissing => Some false
        | NameArray (ItemNull :: _) => None
        | NameArray _ => Some true
        | NameString s => Some (negb (bool_decide (s = "")))
        end in
      hasNameError ← hasNameError;
      Some (if (hasNameError : bool) then "Teacher name already exists"
            else match data_detail errorData with
                 | DetailText s =>
                     if bool_decide (s = "") then
                       or_else (data_error errorData) "Failed to save teacher."
                     else if includes "already exists" s then "Teacher already exists"
                     else s
                 | DetailOther shown => shown
                 | DetailMissing =>
                     or_else (data_error errorData) "Failed to save teacher."
                 end)
  end.

(** The request of [handleSubmit] for a form. *)
Definition request_of (f : Form) : Call :=
  let teacherData :=
    {| body_name := name f;
       body_max_classes_per_day := maxClasses f;
       body_unavailable_periods := saved (timetableConfig f) (availabilityState f) |} in
  if bool_decide (id f = "") then Post "/api/timetable/teachers/" teacherData
  else Put ("/api/timetable/teachers/" +:+ id f +:+ "/") teacherData.

(** [handleSubmit(e)] *)
Definition handleSubmit (srv : Server) : M Form Outcome :=
  setError "";;
  ok ← validateForm;
  if negb ok then scrollTo;; mret Done
  else
    setTeacherLoading true;;
    f ← (λ f, (f, f));
    call (request_of f);;
    match save srv (request_of f) with
    | inr _ =>
        router_push "/components/Teachers";;
        setTeacherLoading false;;
        mret Done
    | inl err =>
        match errorMessage err with
        | Some msg =>
            setError msg;; scrollTo;; setTeacherLoading false;; mret Done
        | None => setTeacherLoading false;; mret TypeError
        end
    end.

(** *** What is checked on each minute of a day: the date made of a saved
    start time is that minute. *)
Definition slot_ok (t : nat) : Prop :=
  Date_at (DepartmentConfig.hhmm t +:+ ":00") = Some t.

Global Instance slot_ok_dec t : Decision (slot_ok t).
Proof. unfold slot_ok. apply _. Defined.

(** *** Sample form and servers *)

Definition new_teacher : Form :=
  {| id := ""; name := "Dr. Naeem"; maxClasses := 3;
     availabilityState := two_days; timetableConfig := Some six_hours;
     configLoading := false; teacherLoading := false; error := "";
     formErrors := {| errors_name := None; errors_maxClasses := None |};
     calls := []; redirect := None; scrolled := 0 |}.

Definition nameless : Form :=
  {| id := ""; name := "  "; maxClasses := 3;
     availabilityState := ∅; timetableConfig := Some six_hours;
     configLoading := false; teacherLoading := false; error := "";
     formErrors := {| errors_name := None; errors_maxClasses := None |};
     calls := []; redirect := None; scrolled := 0 |}.

Definition accepting : Server :=
  {| schedule_configs := inr [round_the_clock; six_hours];
     save := λ _, inr tt |}.

End TeacherForm.

(** ** frontend/pages/components/Timetable.js: loading the timetable,
    the screens of the page and the cells of the grid *)

Module TimetablePage.
Import Js JsText Handler Api.
Import ConfigForm(Outcome, Done, TypeError).

Global Instance Entry_eq_dec : EqDecision Entry.
Proof. solve_decision. Defined.

(** *** The cells of the grid *)

(** [normalizeDay(dayName)], on ASCII text. *)
Definition normalizeDay (dayName : string) : string :=
  substring_to 3 (toUpperCase dayName).

(** [e => normalizeDay(e.day) === normalizeDay(day) && e.period === index + 1] *)
Definition in_cell (day : string) (index : nat) (e : Entry) : bool :=
  bool_decide (normalizeDay (Api.day e) = normalizeDay day)
  && bool_decide (period e = index + 1).

(** The entry a cell of the grid shows:
    [(timetableData.entries || []).find(...)]. *)
Definition cellEntry (entries : list Entry) (day : string) (index : nat)
    : option Entry :=
  find (in_cell day index) entries.

(** [entry.subject_short_name || entry.subject_code || entry.subject] *)
Definition cellText (e : Entry) : string :=
  or_else (subject_short_name e) (or_else (subject_code e) (subject e)).

(** The normalized day and the period of an entry. *)
Definition slot (e : Entry) : string * nat := (normalizeDay (Api.day e), period e).

(** *** What the page receives *)

(** The [entries] of an answer: missing (or null), a value that is no
    array, or an array of entries. *)
Inductive Entries :=
| Missing
| NotArray
| Array (l : list Entry).

(** [response.data] of [/api/timetable/latest/]; [grid_days] and
    [grid_timeSlots] are [None] when the field is missing or null. *)
Record Data := {
  grid_days : option (list string);
  grid_timeSlots : option (list string);
  grid_entries : Entries
}.

(** The answer of a refused request: its status and the [error],
    [detail] and [message] of its data, empty when missing. *)
Record Answered := {
  status : nat;
  data_error : string;
  data_detail : string;
  data_message : string
}.

(** What a failed request throws: an answer, a request that got no
    answer, or another error with its message. *)
Inductive Failure :=
| Response (a : Answered)
| NoResponse
| Thrown (message : string).

Inductive Request :=
| Get (url : string)
| Post (url : string)
| Delete (url : string).

Record Server := {
  latest : string → Failure + option Data;
  delete_ : string → Failure + unit
}.

(** *** Component state *)

Record Page := {
  timetableData : option Data;
  loading : bool;
  error : string;
  selectedClassGroup : string;
  message : option Timetable.Message;
  requests : list Request;      (* requests issued so far, oldest first *)
  timers : nat                  (* [setTimeout] calls that will clear the message *)
}.

Definition setTimetableData (d : option Data) : M Page unit :=
  modify (λ '(Build_Page _ l e g m log t), Build_Page d l e g m log t).

Definition setLoading (l : bool) : M Page unit :=
  modify (λ '(Build_Page d _ e g m log t), Build_Page d l e g m log t).

Definition setError (e : string) : M Page unit :=
  modify (λ '(Build_Page d l _ g m log t), Build_Page d l e g m log t).

Definition setMessage (m : option Timetable.Message) : M Page unit :=
  modify (λ '(Build_Page d l e g _ log t), Build_Page d l e g m log t).

Definition send (q : Request) : M Page unit :=
  modify (λ '(Build_Page d l e g m log t), Build_Page d l e g m (log ++ [q]) t).

Definition setTimeout : M Page unit :=
  modify (λ '(Build_Page d l e g m log t), Build_Page d l e g m log (S t)).

(** *** Loading the timetable *)

(** The two checks of [fetchTimetable] on the data it received. *)
Definition validated (data : option Data) : Failure + Data :=
  match data with
  | None => inl (Thrown "Invalid timetable data received")
  | Some d =>
      match grid_entries d with
      | Array _ =>
          match grid_days d, grid_timeSlots d with
          | Some _, Some _ => inr d
          | _, _ =>
              inl (Thrown "Missing required timetable structure (days or timeSlots)")
          end
      | _ => inl (Thrown "Invalid timetable data received")
      end
  end.

(** What the [try] block ends with: the data that passed the checks, or
    what was thrown. *)
Definition received (answer : Failure + option Data) : Failure + Data :=
  match answer with
  | inr data => validated data
  | inl err => inl err
  end.

(** [responseData?.error || responseData?.detail || responseData?.message || ""] *)
Definition backendError (a : Answered) : string :=
  or_else (data_error a) (or_else (data_detail a) (or_else (data_message a) "")).

(** The message the [catch] of [fetchTimetable] shows. *)
Definition loadErrorMessage (err : Failure) : string :=
  match err with
  | Response a =>
      if bool_decide (status a = 400) then
        if includes "No valid schedule configuration" (backendError a)
           || includes "No schedule configuration" (backendError a)
           || includes "schedule configuration" (backendError a)
        then "No schedule configuration found. Please set up Department Configuration first."
        else "Configuration error. Please check your Department Configuration settings."
      else if bool_decide (status a = 404) then
        "No schedule configuration found. Please set up Department Configuration first."
      else if bool_decide (status a = 500) then
        "Server error occurred while loading timetable. Please try again later."
      else "Server returned error " +:+ pretty (status a) +:+ ". Please try again."
  | NoResponse => "Network error. Please check your connection and try again."
  | Thrown message =>
      if bool_decide (message = "") then "Failed to load timetable. Please try again."
      else if includes "Invalid timetable data" message
              || includes "Missing required" message
      then message
      else "An unexpected error occurred. Please try again."
  end.

(** [err.response?.status === 401] *)
Definition unauthorized (err : Failure) : bool :=
  match err with
  | Response a => bool_decide (status a = 401)
  | _ => false
  end.

(** [fetchTimetable()], once the page is mounted. *)
Definition fetchTimetable (srv : Server) : M Page unit :=
  setLoading true;;
  setError "";;
  p ← (λ p, (p, p));
  send (Get (Timetable.latestUrl (selectedClassGroup p)));;
  (match received (latest srv (Timetable.latestUrl (selectedClassGroup p))) with
   | inr data => setTimetableData (Some data);; setError ""
   | inl err =>
       if unauthorized err then mret tt
       else setError (loadErrorMessage err);; setTimetableData None
   end);;
  setLoading false.

(** *** The screens of the page *)

Inductive Screen :=
| LoadingScreen                 (* "Loading Timetable" *)
| NoConfigurationScreen         (* "No Timetable Configuration Found" *)
| ErrorScreen (text : string)   (* "Error Loading Timetable", with a retry *)
| Blank                         (* the component renders nothing *)
| IncompleteScreen              (* "Incomplete Timetable Data" *)
| EmptyScreen                   (* "No Timetable Entries Found" *)
| GridScreen.                   (* the grid *)

Global Instance Screen_eq_dec : EqDecision Screen.
Proof. solve_decision. Defined.

(** [error.includes("No schedule configuration found")
     || error.includes("Department Configuration")] *)
Definition isNoConfig (error : string) : bool :=
  includes "No schedule configuration found" error
  || includes "Department Configuration" error.

(** What the mounted component renders. *)
Definition screen (p : Page) : Screen :=
  if loading p then LoadingScreen
  else if negb (bool_decide (error p = "")) then
    if isNoConfig (error p) then NoConfigurationScreen else ErrorScreen (error p)
  else
    match timetableData p with
    | None => Blank
    | Some d =>
        match grid_days d, grid_timeSlots d, grid_entries d with
        | Some _, Some _, Array [] => EmptyScreen
        | Some _, Some _, Array _ => GridScreen
        | Some _, Some _, NotArray => GridScreen
        | _, _, _ => IncompleteScreen
        end
    end.

(** *** Deleting a slot *)

Definition slotUrl (entry : Entry) : string :=
  "/api/timetable/slots/"
  +:+ (if entry_id entry is Some i then pretty i else "undefined")
  +:+ "/".

(** The [onClick] of the Delete button of an entry; [confirmed] is the
    answer of the user to [confirm('Delete this slot?')].  The update of
    the entries throws when there are no entries to filter. *)
Definition deleteSlot (srv : Server) (confirmed : bool) (entry : Entry)
    : M Page Outcome :=
  if negb confirmed then mret Done
  else
    send (Delete (slotUrl entry));;
    match delete_ srv (slotUrl entry) with
    | inr _ =>
        p ← (λ p, (p, p));
        match timetableData p with
        | Some d =>
            match grid_entries d with
            | Array l =>
                setTimetableData
                  (Some {| grid_days := grid_days d;
                           grid_timeSlots := grid_timeSlots d;
                           grid_entries :=
                             Array (filter (λ en, entry_id en ≠ entry_id entry) l) |});;
                setMessage (Some {| Timetable.message_type := "success";
                                    Timetable.message_text := "Slot deleted" |});;
                setTimeout;;
                mret Done
            | _ => mret TypeError
            end
        | None => mret TypeError
        end
    | inl err =>
        (if unauthorized err then mret tt
         else
           let detail := match err with Response a => data_detail a | _ => "" end in
           setMessage (Some {| Timetable.message_type := "error";
                               Timetable.message_text := or_else detail "Delete failed" |}));;
        setTimeout;;
        mret Done
    end.

(** The entries the grid reads. *)
Definition shown_entries (p : Page) : list Entry :=
  match timetableData p with
  | Some d => match grid_entries d with Array l => l | _ => [] end
  | None => []
  end.

(** *** Sample page *)

Definition monday_first : Entry :=
  {| entry_id := Some 1; Api.day := "Monday"; period := 1; subject := "Data Structures";
     subject_short_name := "DS"; subject_code := "SW212"; teacher := "Dr. A";
     classroom := "Room 1"; class_group := "23SW-A"; is_practical := false;
     is_extra_class := false; credits := Some 3 |}.

Definition tuesday_second : Entry :=
  {| entry_id := Some 2; Api.day := "TUE"; period := 2; subject := "Databases";
     subject_short_name := ""; subject_code := "SW215"; teacher := "Dr. B";
     classroom := "Lab. No. 2"; class_group := "23SW-A"; is_practical := true;
     is_extra_class := true; credits := Some 1 |}.

(** A second class on Monday's first period. *)
Definition monday_again : Entry :=
  {| entry_id := Some 3; Api.day := "MON"; period := 1; subject := "Operating Systems";
     subject_short_name := "OS"; subject_code := "SW225"; teacher := "Dr. C";
     classroom := "Room 2"; class_group := "23SW-A"; is_practical := false;
     is_extra_class := false; credits := Some 3 |}.

Definition week : Data :=
  {| grid_days := Some ["Mon"; "Tue"; "Wed"; "Thu"; "Fri"];
     grid_timeSlots := Some ["8:00 AM - 9:00 AM"; "9:00 AM - 10:00 AM"];
     grid_entries := Array [monday_first; tuesday_second] |}.

Definition showing_week : Page :=
  {| timetableData := Some week; loading := false; error := "";
     selectedClassGroup := "23SW-A"; message := None; requests := []; timers := 0 |}.

Definition bad_request : Failure :=
  Response {| status := 400; data_error := "Teacher matching query does not exist";
              data_detail := ""; data_message := "" |}.

(** A server that accepts every move and then cannot be reached. *)
Definition gone_after_the_move : Timetable.Server :=
  {| Timetable.move := λ _ _, inr tt;
     Timetable.latest := λ _, inl {| Api.status := None; Api.data_error := "";
                                     Api.data_detail := ""; code := "ERR_NETWORK";
                                     Api.message := "Network Error" |} |}.

Definition answering (r : Failure + option Data) : Server :=
  {| latest := λ _, r; delete_ := λ _, inr tt |}.

End TimetablePage.

(** ** frontend/pages/components/Timetable.js: regenerating and deleting
    the timetable *)

Module TimetableManage.
Import Js JsText Handler Api TimetablePage.

(** [response.data] of the request that deletes the timetable;
    [deleted_count] is [None] when the field is missing. *)
Record Deleted := {
  success : bool;
  deleted_count : option nat
}.

(** The answers of the server to the requests of the two handlers. *)
Record Server := {
  regenerate : Failure + unit;
  delete_timetable : Failure + option Deleted;
  latest : string → Failure + option Data
}.

Record State := {
  page : Page;
  regenerating : bool;
  deleteTimetableLoading : bool;
  showDeleteTimetableConfirm : bool
}.

(** A handler of the page run on the whole state. *)
Definition zoom {A} (m : M Page A) : M State A :=
  λ '(Build_State p r dl c),
    let '(a, p') := m p in (a, Build_State p' r dl c).

Definition setRegenerating (r : bool) : M State unit :=
  modify (λ '(Build_State p _ dl c), Build_State p r dl c).

Definition setDeleteTimetableLoading (dl : bool) : M State unit :=
  modify (λ '(Build_State p r _ c), Build_State p r dl c).

Definition setShowDeleteTimetableConfirm (c : bool) : M State unit :=
  modify (λ '(Build_State p r dl _), Build_State p r dl c).

Definition url_regenerate : string := "/api/timetable/regenerate/".
Definition url_delete_timetable : string := "/api/timetable/data-management/timetable/".

(** *** Regenerating *)

(** The check of [handleRegenerateTimetable] on the data it received. *)
Definition regenerated (answer : Failure + option Data) : Failure + Data :=
  match answer with
  | inl err => inl err
  | inr None => inl (Thrown "Invalid timetable data received after regeneration")
  | inr (Some d) =>
      match grid_entries d with
      | Array _ => inr d
      | _ => inl (Thrown "Invalid timetable data received after regeneration")
      end
  end.

(** The message the [catch] of [handleRegenerateTimetable] shows. *)
Definition regenerateErrorMessage (err : Failure) : string :=
  match err with
  | Response a =>
      if bool_decide (status a = 400) then
        if includes "No valid schedule configuration" (backendError a)
           || includes "No schedule configuration" (backendError a)
           || includes "schedule configuration" (backendError a)
        then "Cannot regenerate: No schedule configuration found. Please set up Department Configuration first."
        else "Cannot regenerate: Configuration error. Please check your Department Configuration settings."
      else if bool_decide (status a = 404) then
        "Cannot regenerate: No schedule configuration found. Please set up Department Configuration first."
      else if bool_decide (status a = 500) then
        "Server error occurred during timetable generation. Please try again later."
      else "Regeneration failed with error " +:+ pretty (status a) +:+ ". Please try again."
  | NoResponse =>
      "Network error during regeneration. Please check your connection and try again."
  | Thrown message =>
      if bool_decide (message = "") then
        "Failed to regenerate timetable. Please try again."
      else if includes "Invalid timetable data" message then message
      else "An unexpected error occurred during regeneration. Please try again."
  end.

(** The [catch] of [handleRegenerateTimetable]. *)
Definition regenerate_caught (err : Failure) : M State unit :=
  if unauthorized err then mret tt
  else
    zoom (TimetablePage.setError (regenerateErrorMessage err));;
    zoom (setLoading false).

(** [handleRegenerateTimetable()] *)
Definition handleRegenerateTimetable (srv : Server) : M State unit :=
  setRegenerating true;;
  zoom (TimetablePage.setError "");;
  zoom (send (Post url_regenerate));;
  (match regenerate srv with
   | inr _ =>
       zoom (setTimetableData None);;
       zoom (setLoading true);;
       s ← (λ s, (s, s));
       zoom (send (Get (Timetable.latestUrl (selectedClassGroup (page s)))));;
       match regenerated (latest srv (Timetable.latestUrl (selectedClassGroup (page s)))) with
       | inr data =>
           zoom (setTimetableData (Some data));;
           zoom (setLoading false)
       | inl err => regenerate_caught err
       end
   | inl err => regenerate_caught err
   end);;
  setRegenerating false.

(** *** Deleting *)

(** [{ entries: [], days: timetableData?.days || [],
       timeSlots: timetableData?.timeSlots || [], ... }] *)
Definition emptied (timetableData : option Data) : Data :=
  {| grid_days := Some (default [] (timetableData ≫= grid_days));
     grid_timeSlots := Some (default [] (timetableData ≫= grid_timeSlots));
     grid_entries := Array [] |}.

(** [`Successfully deleted ${response.data.deleted_count} timetable entries.`] *)
Definition deletedMessage (d : Deleted) : Timetable.Message :=
  {| Timetable.message_type := "success";
     Timetable.message_text :=
       "Successfully deleted "
       +:+ (if deleted_count d is Some n then pretty n else "undefined")
       +:+ " timetable entries." |}.

(** The inner [try] of [handleDeleteTimetable]: the timetable is fetched
    again, and an error of that request is ignored. *)
Definition refetch (srv : Server) (rendered : option Data) : M State unit :=
  s ← (λ s, (s, s));
  zoom (send (Get (Timetable.latestUrl (selectedClassGroup (page s)))));;
  match latest srv (Timetable.latestUrl (selectedClassGroup (page s))) with
  | inr (Some data) =>
      match grid_entries data with
      | Array _ => zoom (setTimetableData (Some data))
      | _ => zoom (setTimetableData (Some (emptied rendered)))
      end
  | inr None => zoom (setTimetableData (Some (emptied rendered)))
  | inl _ => mret tt
  end.

(** [handleDeleteTimetable()] *)
Definition handleDeleteTimetable (srv : Server) : M State unit :=
  setDeleteTimetableLoading true;;
  now ← (λ s, (s, s));
  zoom (send (Delete url_delete_timetable));;
  (match delete_timetable srv with
   | inr (Some d) =>
       if success d then
         zoom (setTimetableData (Some (emptied (timetableData (page now)))));;
         zoom (TimetablePage.setError "");;
         setShowDeleteTimetableConfirm false;;
         zoom (setMessage (Some (deletedMessage d)));;
         zoom setTimeout;;
         refetch srv (timetableData (page now))
       else zoom (TimetablePage.setError "Failed to delete timetable")
   | inr None => zoom (TimetablePage.setError "Failed to delete timetable")
   | inl err =>
       if unauthorized err then mret tt
       else zoom (TimetablePage.setError "Failed to delete timetable")
   end);;
  setDeleteTimetableLoading false.

(** The page after the confirmation dialogue was opened on the sample
    week. *)
Definition confirming : State :=
  {| page := showing_week; regenerating := false;
     deleteTimetableLoading := false; showDeleteTimetableConfirm := true |}.

(** A server that deletes two entries and is then out of reach, and one
    that refuses everything with status 500. *)
Definition deleting : Server :=
  {| regenerate := inr tt;
     delete_timetable := inr (Some {| success := true; deleted_count := Some 2 |});
     latest := λ _, inl NoResponse |}.

Definition failing : Server :=
  let err := Response {| status := 500; data_error := ""; data_detail := "";
                         data_message := "" |} in
  {| regenerate := inl err; delete_timetable := inl err; latest := λ _, inl err |}.

End TimetableManage.

(** ** frontend/utils/pdfGenerator.js: the grid of a section *)

Module PdfTable.
Import Js JsText Api.

(** The entry of a cell: the first whose day is the day of the column as
    it is written, else the first whose normalized day is. *)
Definition exact_cell (day : string) (index : nat) (e : Entry) : bool :=
  bool_decide (Api.day e = day) && bool_decide (period e = index + 1).

Definition pdfEntry (classGroupEntries : list Entry) (day : string) (index : nat)
    : option Entry :=
  match find (exact_cell day index) classGroupEntries with
  | Some entry => Some entry
  | None => find (TimetablePage.in_cell day index) classGroupEntries
  end.

(** [cellContent] of an entry. *)
Definition cellContent (entry : Entry) : string :=
  let cellContent := or_else (or_else (subject_short_name entry) "") "" in
  let cellContent := if is_extra_class entry then cellContent +:+ "*" else cellContent in
  if negb (bool_decide (classroom entry = ""))
     && negb (includes "Lab. No." (classroom entry))
  then cellContent +:+ " [" +:+ classroom entry +:+ "]"
  else cellContent.

(** The cells pushed after the time slot into the row of the slot at
    [index]: [allSectionsData.days.forEach(day => ...)]. *)
Definition dayCells (classGroupEntries : list Entry) (days : list string)
    (index : nat) : list string :=
  (λ day, match pdfEntry classGroupEntries day index with
          | Some entry => cellContent entry
          | None => ""
          end) <$> days.

End PdfTable.

(** ** ConstraintTesting.js: fetching the report and what the page shows *)

Module ConstraintPage.
Import Js Handler ConstraintTesting.

(** What a failed request throws, as far as the page reads it:
    [err.response?.status] and [err.response?.data?.error], which is taken
    to be a text, empty when missing. *)
Record Failure := {
  status : option nat;
  data_error : string
}.

Inductive Request :=
| Get
| Post (constraint_type : string).

(** The answers of [/api/timetable/constraint-testing/] to the two
    requests: [response.data]. *)
Record Server := {
  overview : Failure + Json;
  analysis : string → Failure + Json
}.

Record State := {
  loading : bool;
  constraintData : Json;
  selectedConstraint : option string;
  detailedAnalysis : Json;
  error : string;
  requests : list Request       (* requests issued so far, oldest first *)
}.

Definition setLoading (l : bool) : M State unit :=
  modify (λ '(Build_State _ d sel a e log), Build_State l d sel a e log).

Definition setConstraintData (d : Json) : M State unit :=
  modify (λ '(Build_State l _ sel a e log), Build_State l d sel a e log).

Definition setSelectedConstraint (sel : option string) : M State unit :=
  modify (λ '(Build_State l d _ a e log), Build_State l d sel a e log).

Definition setDetailedAnalysis (a : Json) : M State unit :=
  modify (λ '(Build_State l d sel _ e log), Build_State l d sel a e log).

Definition setError (e : string) : M State unit :=
  modify (λ '(Build_State l d sel a _ log), Build_State l d sel a e log).

Definition send (q : Request) : M State unit :=
  modify (λ '(Build_State l d sel a e log), Build_State l d sel a e (log ++ [q])).

(** [fetchConstraintData()] *)
Definition fetchConstraintData (srv : Server) : M State unit :=
  setLoading true;;
  setError "";;
  send Get;;
  (match overview srv with
   | inr data => setConstraintData data
   | inl err =>
       if bool_decide (status err = Some 401) then mret tt
       else setError (or_else (data_error err) "Failed to fetch constraint data")
   end);;
  setLoading false.

(** [fetchDetailedAnalysis(constraintType)]; reading [analysis] off an
    answer that is null or undefined throws, which the [catch] turns into
    its general message. *)
Definition fetchDetailedAnalysis (srv : Server) (constraintType : string)
    : M State unit :=
  setLoading true;;
  setError "";;
  send (Post constraintType);;
  (match analysis srv constraintType with
   | inr null | inr undefined => setError "Failed to fetch detailed analysis"
   | inr data =>
       setDetailedAnalysis (field "analysis" data);;
       setSelectedConstraint (Some constraintType)
   | inl err => setError (or_else (data_error err) "Failed to fetch detailed analysis")
   end);;
  setLoading false.

(** The [onClick] of the button that closes the panel. *)
Definition closePanel : M State unit :=
  setSelectedConstraint None;;
  setDetailedAnalysis null.

(** *** What the page shows *)

(** The three tiles over the grid. *)
Record Summary := {
  total_entries : string;
  total_violations : string;
  total_violations_color : string;
  overall_compliance : string;
  overall_compliance_color : string
}.

Definition summary_of (constraintData : Json) : option Summary :=
  total_entries ← child (field "total_entries" constraintData);
  total_violations ← child (field "total_violations" constraintData);
  Some {| total_entries := total_entries;
          total_violations := total_violations;
          total_violations_color :=
            if is_zero (field "total_violations" constraintData) then "text-green-400"
            else "text-red-400";
          overall_compliance :=
            if truthy (field "overall_compliance" constraintData) then "100%"
            else "FAILED";
          overall_compliance_color :=
            if truthy (field "overall_compliance" constraintData) then "text-green-400"
            else "text-red-400" |}.

(** The panel: its heading and its body. *)
Record Panel := {
  panel_heading : string;
  panel_body : option DetailedAnalysis
}.

(** What the component renders.  Where the page has [c && element], a
    falsy [c] is there in place of the element, as the text it shows.
    [Crashed]: the render throws, and React takes the page down. *)
Inductive View :=
| Spinner                        (* "Loading constraint analysis..." *)
| ErrorOnly (error : string)     (* the error and the way back *)
| Main (summary : Summary + string) (grid : list Card)
       (refreshing : bool)       (* the button reads "Refreshing..." and is disabled *)
       (panel : Panel + string)
| Crashed.

Section view.
Variable stringify : Json → string.
Variable excerpt : Json → string.

(** [selectedConstraint && detailedAnalysis && (...)] *)
Definition panel_of (selectedConstraint : option string) (detailedAnalysis : Json)
    : option (Panel + string) :=
  match selectedConstraint with
  | Some constraintType =>
      if bool_decide (constraintType = "") then Some (inr "")
      else
        when detailedAnalysis
          (body ← renderDetailedAnalysis stringify excerpt constraintType
                    detailedAnalysis;
           Some {| panel_heading :=
                     name (getConstraintInfo constraintType)
                     +:+ " - Detailed Analysis";
                   panel_body := body |})
  | None => Some (inr "")
  end.

Definition view (s : State) : View :=
  if loading s && negb (truthy (constraintData s)) then Spinner
  else if negb (bool_decide (error s = "")) && negb (truthy (constraintData s)) then
    ErrorOnly (error s)
  else
    default Crashed
      (summary ← when (constraintData s) (summary_of (constraintData s));
       grid ← cards (constraintData s);
       panel ← panel_of (selectedConstraint s) (detailedAnalysis s);
       Some (Main summary grid (loading s) panel)).

End view.

(** *** The shape of a report

    A value that shows as a child whatever it is: no object and no
    array. *)
Definition plain (v : Json) : bool :=
  match v with
  | array _ | object _ => false
  | _ => true
  end.

(** A report whose totals, statuses and counts of violations are plain,
    where they are there at all. *)
Definition plain_report (constraintData : Json) : Prop :=
  plain (field "total_entries" constraintData) = true
  ∧ plain (field "total_violations" constraintData) = true
  ∧ Forall
      (λ constraint,
         let analysisData :=
           field (id constraint) (field "constraint_analysis" constraintData) in
         let validationResult :=
           field (name constraint)
                 (field "constraint_results"
                        (field "validation_results" constraintData)) in
         plain (field "status" analysisData) = true
         ∧ plain (field "status" validationResult) = true
         ∧ plain (field "total_violations" analysisData) = true
         ∧ plain (field "total_conflicts" analysisData) = true
         ∧ plain (field "violations" validationResult) = true)
      constraintTypes.

Global Instance plain_report_dec constraintData : Decision (plain_report constraintData).
Proof. unfold plain_report. apply _. Defined.

(** *** The requests that fail *)

(** The detail request fails: the server refuses it, or its answer has
    nothing to read [analysis] from. *)
Definition detail_fails (srv : Server) (constraintType : string) : Prop :=
  match analysis srv constraintType with
  | inl _ | inr null | inr undefined => True
  | inr _ => False
  end.

(** *** Sample page and servers *)

(** The component before its first request. *)
Definition mounted : State :=
  {| loading := false; constraintData := null; selectedConstraint := None;
     detailedAnalysis := null; error := ""; requests := [] |}.

(** The page once the sample report is loaded. *)
Definition loaded : State :=
  {| loading := false; constraintData := working_hours_report;
     selectedConstraint := None; detailedAnalysis := null; error := "";
     requests := [] |}.

Definition unreachable : Server :=
  {| overview := inl {| status := None; data_error := "" |};
     analysis := λ _, inl {| status := Some 500; data_error := "Analysis failed" |} |}.

Definition answering : Server :=
  {| overview := inr working_hours_report;
     analysis := λ _, inr (object [ ("analysis",
                                     object [ ("status", text "FAIL");
                                              ("total_violations", number 2) ]) ]) |}.

End ConstraintPage.

(* ================================================================== *)
(** * Part II: lemmas and theorems                                     *)
(* ================================================================== *)

(** ** Facts about the JavaScript primitives *)

Module JsFacts.
Import Js.

Lemma split_nonempty c s : split c s ≠ [].
Proof. destruct s as [|a s]; simpl; [done|]. case_decide; [done|]. by destruct (split c s). Qed.

Lemma split_nosep_app c x y :
  split c x = [x] →
  split c (x +:+ y) = match split c y with
                      | [] => [x]
                      | w :: ws => (x +:+ w) :: ws
                      end.
Proof.
  induction x as [|a x IH].
  - intros _. change ("" +:+ y) with y.
    pose proof (split_nonempty c y). by destruct (split c y).
  - change (String a x +:+ y) with (String a (x +:+ y)). cbn [split].
    destruct (decide (a = c)) as [->|Hne]; [done|].
    destruct (split c x) as [|w ws] eqn:Hx; intros Heq; simplify_eq.
    rewrite IH by done. by destruct (split c y).
Qed.


Lemma prefix_nil y : String.prefix "" y = true.
Proof. by destruct y. Qed.

Lemma prefix_cons a x b y :
  String.prefix (String a x) (String b y)
  = if decide (a = b) then String.prefix x y else false.
Proof. simpl. destruct (ascii_dec a b); by case_decide. Qed.

Lemma prefix_app x y : String.prefix x (x +:+ y) = true.
Proof.
  induction x as [|a x IH]; [apply prefix_nil|].
  change (String a x +:+ y) with (String a (x +:+ y)).
  by rewrite prefix_cons, decide_True.
Qed.

Lemma prefix_app_l x hay post :
  String.prefix x hay = true → String.prefix x (hay +:+ post) = true.
Proof.
  revert hay. induction x as [|a x IH]; intros hay; [by rewrite !prefix_nil|].
  destruct hay as [|b hay]; [done|].
  change (String b hay +:+ post) with (String b (hay +:+ post)).
  rewrite !prefix_cons. case_decide; [apply IH|done].
Qed.

Lemma includes_prefix x hay : String.prefix x hay = true → includes x hay = true.
Proof. intros H. destruct hay; cbn [includes]; by rewrite H. Qed.

Lemma includes_app_r x pre hay :
  includes x hay = true → includes x (pre +:+ hay) = true.
Proof.
  intros H. induction pre as [|a pre IH]; [done|].
  change (String a pre +:+ hay) with (String a (pre +:+ hay)).
  cbn [includes]. rewrite IH. apply orb_true_r.
Qed.

Lemma includes_app_l x hay post :
  includes x hay = true → includes x (hay +:+ post) = true.
Proof.
  induction hay as [|a hay IH].
  - cbn [includes]. rewrite orb_false_r. intros H.
    apply includes_prefix. by apply (prefix_app_l x "" post).
  - change (String a hay +:+ post) with (String a (hay +:+ post)).
    cbn [includes]. intros [H|H]%orb_true_iff.
    + apply orb_true_iff. left. by apply (prefix_app_l x (String a hay) post).
    + apply orb_true_iff. right. by apply IH.
Qed.

Lemma includes_refl x : includes x x = true.
Proof.
  apply includes_prefix. rewrite <-(prefix_app x "") at 1. f_equal.
  induction x as [|a x IH]; [done|].
  change (String a x +:+ "") with (String a (x +:+ "")). by rewrite <-IH.
Qed.

Lemma includes_infix x pre post : includes x (pre +:+ x +:+ post) = true.
Proof. apply includes_app_r, includes_app_l, includes_refl. Qed.

(** Every element of a joined list can be found in the result, whatever
    is put in front of each element. *)
Lemma includes_join x pre sep l :
  x ∈ l → includes x (join sep ((λ y, pre +:+ y) <$> l)) = true.
Proof.
  induction l as [|y l IH]; [by intros ?%elem_of_nil|].
  intros [->|Hx]%elem_of_cons.
  - destruct l as [|z l]; cbn [fmap list_fmap join].
    + apply includes_app_r, includes_refl.
    + apply includes_app_l, includes_app_r, includes_refl.
  - specialize (IH Hx). destruct l as [|z l]; [by apply elem_of_nil in Hx|].
    cbn [fmap list_fmap join] in IH |- *.
    by do 2 apply includes_app_r.
Qed.

Lemma app_nonempty_r x y : y ≠ "" → x +:+ y ≠ "".
Proof. by destruct x. Qed.

End JsFacts.

(** ** DepartmentConfig.js *)

Module DepartmentConfigFacts.
Import Js Handler Api DepartmentConfig JsFacts.

(** ** Arithmetic of the wall clock *)

Lemma day_minutes t :
  t mod 1440 = t mod 60 + 60 * ((t / 60) mod 24).
Proof. change 1440 with (60 * 24). by rewrite Nat.Div0.mod_mul_r. Qed.

Lemma day_minutes_mod t : (t mod 1440) mod 60 = t mod 60.
Proof.
  rewrite day_minutes, (Nat.mul_comm 60), Nat.Div0.mod_add.
  apply Nat.Div0.mod_mod.
Qed.

Lemma day_minutes_div t : (t mod 1440) / 60 = (t / 60) mod 24.
Proof.
  rewrite day_minutes, (Nat.mul_comm 60), Nat.div_add by lia.
  rewrite (Nat.div_small (t mod 60)); [lia|]. apply Nat.mod_upper_bound; lia.
Qed.

Lemma clock12_mod t : clock12 (t mod 1440) = clock12 t.
Proof.
  unfold clock12. by rewrite day_minutes_mod, day_minutes_div, Nat.Div0.mod_mod.
Qed.

Lemma hhmm_mod t : hhmm (t mod 1440) = hhmm t.
Proof.
  unfold hhmm. by rewrite day_minutes_mod, day_minutes_div, Nat.Div0.mod_mod.
Qed.

(** ** Facts checked on each of the 1440 minutes of a day *)


Lemma minutes_checked : Forall minute_ok (seq 0 1440).
Proof. apply (bool_decide_unpack _). vm_compute. exact I. Qed.

Lemma minute_checked t : t < 1440 → minute_ok t.
Proof.
  intros Ht. eapply Forall_forall; [apply minutes_checked|].
  apply elem_of_seq. lia.
Qed.

Lemma parse_clock12_clock12 t : parse_clock12 (clock12 t) = Some (t mod 1440).
Proof.
  rewrite <-clock12_mod. apply minute_checked. apply Nat.mod_upper_bound. lia.
Qed.

Lemma clock12_inj a b : clock12 a = clock12 b → a mod 1440 = b mod 1440.
Proof.
  intros Heq. apply (inj Some). by rewrite <-!parse_clock12_clock12, Heq.
Qed.

Lemma parse_range_app x y a b :
  split "-"%char x = [x] → split "-"%char y = [y] →
  trim (x +:+ " ") = x → trim (" " +:+ y) = y →
  parse_clock12 x = Some a → parse_clock12 y = Some b →
  parse_range (x +:+ " - " +:+ y) = Some (a, b).
Proof.
  intros Hsx Hsy Htx Hty Hx Hy. unfold parse_range.
  rewrite split_nosep_app by done.
  change (" - " +:+ y) with (String " " (String "-" (String " " y))).
  cbn [split]. rewrite decide_False by done. rewrite decide_True by done.
  rewrite decide_False by done. rewrite Hsy.
  change (x +:+ String " " "") with (x +:+ " ").
  change (String " " y) with (" " +:+ y).
  by rewrite Htx, Hty, Hx, Hy.
Qed.

Lemma parse_range_range a b :
  parse_range (range a b) = Some (a mod 1440, b mod 1440).
Proof.
  unfold range. rewrite <-(clock12_mod a), <-(clock12_mod b).
  destruct (minute_checked (a mod 1440)) as (_ & _ & Ha & Hsa & Hta & _);
    [apply Nat.mod_upper_bound; lia|].
  destruct (minute_checked (b mod 1440)) as (_ & _ & Hb & Hsb & _ & Htb);
    [apply Nat.mod_upper_bound; lia|].
  by apply parse_range_app.
Qed.


(** ** The time helpers on well-formed times *)

Lemma carry_loop_spec fuel h m :
  m / 60 ≤ fuel → carry_loop fuel h m = (h + m / 60, m mod 60).
Proof.
  revert h m. induction fuel as [|fuel IH]; intros h m Hfuel; cbn [carry_loop].
  - assert (m / 60 = 0) as Hdiv by lia. rewrite Hdiv.
    apply Nat.div_small_iff in Hdiv; [|done].
    by rewrite Nat.mod_small, Nat.add_0_r.
  - destruct (Nat.leb_spec 60 m) as [Hle|Hlt].
    + assert (m = (m - 60) + 1 * 60) as Hm by lia.
      rewrite Hm in Hfuel |- * at 2 3. clear Hm.
      rewrite Nat.div_add in Hfuel |- * by done. rewrite Nat.Div0.mod_add.
      rewrite IH by lia. f_equal. lia.
    + by rewrite Nat.div_small, Nat.mod_small, Nat.add_0_r.
Qed.

Lemma split_minutes t d :
  (t + d) / 60 = t / 60 + (t mod 60 + d) / 60
  ∧ (t + d) mod 60 = (t mod 60 + d) mod 60.
Proof.
  pose proof (Nat.div_mod_eq t 60) as Ht.
  replace (t + d) with ((t mod 60 + d) + t / 60 * 60) by lia.
  rewrite Nat.div_add, Nat.Div0.mod_add by done. lia.
Qed.

Lemma hours_of_day t : t < 1440 → (t / 60) mod 24 = t / 60.
Proof.
  intros Ht. apply Nat.mod_small. apply Nat.Div0.div_lt_upper_bound. lia.
Qed.

Lemma hhmm_shift t d : hhmm (t mod 1440 + d) = hhmm (t + d).
Proof.
  by rewrite <-(hhmm_mod (_ + d)), Nat.Div0.add_mod_idemp_l, hhmm_mod.
Qed.

Lemma clock12_shift t d : clock12 (t mod 1440 + d) = clock12 (t + d).
Proof.
  by rewrite <-(clock12_mod (_ + d)), Nat.Div0.add_mod_idemp_l, clock12_mod.
Qed.

Lemma incrementTime_hhmm_day t d :
  t < 1440 → incrementTime (hhmm t) d = hhmm (t + d).
Proof.
  intros Ht. destruct (minute_checked t Ht) as (Hh & Hm & _).
  unfold incrementTime. rewrite Hh, Hm. cbn [fmap option_fmap option_map mbind option_bind].
  unfold hhmm.
  destruct (split_minutes t d) as [-> ->]. done.
Qed.

Lemma incrementTime_hhmm t d : incrementTime (hhmm t) d = hhmm (t + d).
Proof.
  transitivity (incrementTime (hhmm (t mod 1440)) d); [by rewrite hhmm_mod|].
  rewrite incrementTime_hhmm_day by (apply Nat.mod_upper_bound; lia).
  apply hhmm_shift.
Qed.

Lemma formatTimeRange_hhmm_day t d :
  t < 1440 → formatTimeRange (hhmm t) d = range t (t + d).
Proof.
  intros Ht. destruct (minute_checked t Ht) as (Hh & Hm & _).
  unfold formatTimeRange. rewrite Hh, Hm.
  cbn [fmap option_fmap option_map carry].
  rewrite carry_loop_spec by (pose proof (Nat.Div0.div_le_upper_bound (t mod 60 + d) 60 (t mod 60 + d)); lia).
  cbn [option_map]. unfold range, clock12. rewrite hours_of_day by done.
  destruct (split_minutes t d) as [-> ->]. done.
Qed.

Lemma formatTimeRange_hhmm t d : formatTimeRange (hhmm t) d = range t (t + d).
Proof.
  transitivity (formatTimeRange (hhmm (t mod 1440)) d); [by rewrite hhmm_mod|].
  rewrite formatTimeRange_hhmm_day by (apply Nat.mod_upper_bound; lia).
  unfold range. by rewrite clock12_mod, clock12_shift.
Qed.


(** ** The periods of a day *)



Lemma newPeriods_lookup n start d day :
  day ∈ days_ → newPeriods n start d !! day = Some (dayPeriods n start d).
Proof.
  unfold newPeriods, days_. simpl. intros Hday.
  repeat (apply elem_of_cons in Hday as [->|Hday]; [by simplify_map_eq|]).
  by apply elem_of_nil in Hday.
Qed.




(** When the configuration is refused nothing is generated: the periods
    stay as they were and an error is shown. *)
Lemma generatePeriods_refuses s :
  trim (departmentName s) = "" ∨ below (numPeriods s) 1 = true
  ∨ classDuration s < 30 →
  let s' := exec generatePeriods s in
  periods_ s' = periods_ s ∧ is_Some (error s').
Proof.
  destruct s as [name n start d p e gl ge gs log r]. cbn [departmentName numPeriods classDuration periods_].
  intros H. unfold exec, generatePeriods, validateConfiguration, mbind, M_bind.
  cbn [departmentName numPeriods classDuration].
  case_bool_decide; [by eauto|].
  destruct (below n 1) eqn:Hn; [by eauto|].
  case_bool_decide; [by eauto|].
  exfalso. destruct H as [?|[?|?]]; done.
Qed.

(** A name of blanks that are not ASCII is refused like an empty one. *)
Lemma no_break_space_is_blank :
  trim (String "194" (String "160" (String "227" (String "128" (String "128" ""))))) = "".
Proof. by vm_compute. Qed.

(** ** The generated periods (claim C6) *)



(** Two periods and a half are three periods. *)
Lemma a_fraction_of_a_period_is_a_period :
  periods_ (exec generatePeriods two_and_a_half) !! "Mon"
  = Some ["8:00 AM - 9:00 AM"; "9:00 AM - 10:00 AM"; "10:00 AM - 11:00 AM"].
Proof. by vm_compute. Qed.


(** ** The prerequisite gate (claim C7) *)


Lemma validatePrerequisites_run srv name n start d p e gl ge gs log r :
  validatePrerequisites srv (Build_State name n start d p e gl ge gs log r)
  = (found_issues srv,
     Build_State name n start d p e gl ge gs (log ++ six_requests) r).
Proof.
  unfold validatePrerequisites, send, modify, mbind, M_bind, mret, M_ret.
  cbv beta iota. by rewrite <-!app_assoc.
Qed.

(** What the checks put in the list, issue by issue. *)
Lemma elem_of_optional (b : bool) (l : list string) y x :
  x ∈ (if b then l ++ [y] else l) ↔ x ∈ l ∨ (b = true ∧ x = y).
Proof.
  destruct b.
  - rewrite elem_of_app, list_elem_of_singleton. tauto.
  - split; [by left|]. by intros [?|[? _]].
Qed.

Lemma prerequisite_issues_spec configData subjectsData teachersData
    classroomsData batchesData assignmentsData issue :
  issue ∈ prerequisite_issues configData subjectsData teachersData
            classroomsData batchesData assignmentsData
  ↔ (config_missing configData = true ∧ issue = issue_config)
    ∨ (batchesData = [] ∧ issue = issue_batches)
    ∨ (subjectsData = [] ∧ issue = issue_subjects)
    ∨ (subjectsData ≠ []
       ∧ 0 < length (filter (λ s, without_batch s = true) subjectsData)
       ∧ issue = issue_subjects_batch
                   (length (filter (λ s, without_batch s = true) subjectsData)))
    ∨ (teachersData = [] ∧ issue = issue_teachers)
    ∨ (assignmentsData = [] ∧ issue = issue_assignments)
    ∨ (classroomsData = [] ∧ issue = issue_classrooms).
Proof.
  unfold prerequisite_issues. cbv zeta.
  rewrite !elem_of_optional.
  assert (∀ A (l : list A), bool_decide (length l = 0) = true ↔ l = []) as Hnil.
  { intros A l. rewrite bool_decide_eq_true. by destruct l. }
  rewrite !Hnil.
  destruct (bool_decide (length subjectsData = 0)) eqn:Hsubjects; cbv iota.
  - apply Hnil in Hsubjects. subst subjectsData.
    rewrite elem_of_app, list_elem_of_singleton, !elem_of_optional, elem_of_nil,
      !Hnil.
    cbn [filter list_filter length]. split.
    + intros H. repeat (destruct H as [H|H]); try done; tauto.
    + intros H. repeat (destruct H as [H|H]); try tauto.
  - assert (subjectsData ≠ []) as Hsome.
    { intros Heq. apply Hnil in Heq. congruence. }
    rewrite !elem_of_optional, elem_of_nil, !Hnil, bool_decide_eq_true. split.
    + intros H. repeat (destruct H as [H|H]); try done; tauto.
    + intros H. repeat (destruct H as [H|H]); try tauto.
Qed.

(** No two checks share their issue. *)
Lemma string_length_app a b :
  String.length (a +:+ b) = String.length a + String.length b.
Proof.
  induction a as [|x a IH]; [done|].
  change (String x a +:+ b) with (String x (a +:+ b)). cbn [String.length].
  by rewrite IH.
Qed.

Lemma issue_subjects_batch_other k :
  issue_subjects_batch k ≠ issue_config
  ∧ issue_subjects_batch k ≠ issue_batches
  ∧ issue_subjects_batch k ≠ issue_subjects
  ∧ issue_subjects_batch k ≠ issue_teachers
  ∧ issue_subjects_batch k ≠ issue_assignments
  ∧ issue_subjects_batch k ≠ issue_classrooms.
Proof.
  unfold issue_subjects_batch.
  split; [done|]. split; [done|]. split; [|done].
  intros Heq. apply (f_equal String.length) in Heq.
  rewrite !string_length_app in Heq.
  revert Heq. generalize (String.length (pretty k)). intros n Heq.
  cbn in Heq. lia.
Qed.

(** What the check of the configuration reads: no configuration, or a
    first one without start time, days or periods. *)
Lemma config_missing_spec configData :
  config_missing configData = true
  ↔ configData = []
    ∨ ∃ c rest, configData = (c :: rest)
        ∧ (start_time c = "" ∨ days c = None ∨ days c = Some []
           ∨ periods c = None ∨ periods c = Some []).
Proof.
  destruct configData as [|c rest]; cbn [config_missing].
  - split; [by left|done].
  - rewrite !orb_true_iff, !bool_decide_eq_true. split.
    + intros H. right. exists c, rest. split; [done|].
      destruct H as [[H|H]|H]; [by left|right|do 3 right].
      * destruct (days c) as [[|??]|]; [right; by left|by cbn in H|by left].
      * destruct (periods c) as [[|??]|]; [by right|by cbn in H|by left].
    + intros [?|(c' & rest' & Heq & H)]; [done|].
      injection Heq as <- <-.
      destruct H as [?|[H|[H|[H|H]]]]; rewrite ?H; cbn; tauto.
Qed.

(** The state a blocked generation ends in. *)
Lemma handleGenerateTimetable_blocked srv name n start d p e gl ge gs log r :
  found_issues srv ≠ [] →
  exec (handleGenerateTimetable srv) (Build_State name n start d p e gl ge gs log r)
  = Build_State name n start d p e false (issuesMessage (found_issues srv)) ""
      (log ++ six_requests) r.
Proof.
  intros Hissues. unfold exec, handleGenerateTimetable.
  unfold mbind at 1 2 3 4.
  unfold M_bind, setGenLoading, setGenError, setGenSuccess, modify.
  cbv beta iota. rewrite validatePrerequisites_run. cbv beta iota.
  rewrite bool_decide_eq_true_2
    by (destruct (found_issues srv); [done|cbn [length]; lia]).
  done.
Qed.

(** C7.  Once the six answers are in, the check puts an issue in its
    list for a missing configuration (no configuration at all, or a first
    one without start time, days or periods) and for an empty list of
    batches, subjects, teachers, teacher assignments or classrooms: each of
    the six issues is in the list exactly when its prerequisite is missing,
    and a failed request is an issue of its own.  Whenever the list holds
    an issue, [handleGenerateTimetable] sends its six read requests and
    nothing else, so the generate request never goes out; it shows every
    issue found, shows no success and schedules no redirect. *)
Theorem handleGenerateTimetable_gate srv s :
  let s' := exec (handleGenerateTimetable srv) s in
  (∀ configData subjectsData teachersData classroomsData batchesData
     assignmentsData,
     schedule_configs srv = inr configData → subjects srv = inr subjectsData →
     teachers srv = inr teachersData → classrooms srv = inr classroomsData →
     batches srv = inr batchesData →
     teacher_assignments srv = inr assignmentsData →
     (issue_config ∈ found_issues srv
      ↔ configData = []
        ∨ ∃ c rest, configData = (c :: rest)
            ∧ (start_time c = "" ∨ days c = None ∨ days c = Some []
               ∨ periods c = None ∨ periods c = Some []))
     ∧ (issue_batches ∈ found_issues srv ↔ batchesData = [])
     ∧ (issue_subjects ∈ found_issues srv ↔ subjectsData = [])
     ∧ (issue_teachers ∈ found_issues srv ↔ teachersData = [])
     ∧ (issue_assignments ∈ found_issues srv ↔ assignmentsData = [])
     ∧ (issue_classrooms ∈ found_issues srv ↔ classroomsData = []))
  ∧ (succeeded (schedule_configs srv) && succeeded (subjects srv)
       && succeeded (teachers srv) && succeeded (classrooms srv)
       && succeeded (batches srv) && succeeded (teacher_assignments srv) = false →
     found_issues srv = [issue_unable])
  ∧ (found_issues srv ≠ [] →
     sent s' = sent s ++ six_requests
     ∧ (POST url_generate ∉ six_requests)
     ∧ genError s' = issuesMessage (found_issues srv)
     ∧ (∀ issue, issue ∈ found_issues srv → includes issue (genError s') = true)
     ∧ genSuccess s' = "" ∧ genLoading s' = false ∧ redirect s' = redirect s).
Proof.
  intros s'. split; [|split].
  - intros configData subjectsData teachersData classroomsData batchesData
      assignmentsData Hc Hs Ht Hr Hb Ha.
    unfold found_issues. rewrite Hc, Hs, Ht, Hr, Hb, Ha.
    rewrite !prerequisite_issues_spec, <-config_missing_spec.
    pose proof (issue_subjects_batch_other
                  (length (filter (λ s, without_batch s = true) subjectsData)))
      as (? & ? & ? & ? & ? & ?).
    unfold issue_config, issue_batches, issue_subjects, issue_teachers,
      issue_assignments, issue_classrooms in *.
    repeat split; intros Hd; try tauto;
      repeat (destruct Hd as [Hd|Hd]); destruct Hd as [Hx Hy]; try done;
      destruct Hy as [_ Hy]; by symmetry in Hy.
  - unfold found_issues.
    destruct (schedule_configs srv), (subjects srv), (teachers srv),
      (classrooms srv), (batches srv), (teacher_assignments srv); done.
  - intros Hissues. subst s'.
    destruct s as [name n start d p e gl ge gs log r].
    rewrite handleGenerateTimetable_blocked by done.
    cbn [sent genError genSuccess genLoading redirect].
    split; [done|]. split.
    { unfold six_requests. rewrite !elem_of_cons, elem_of_nil.
      intros [?|[?|[?|[?|[?|[?|[]]]]]]]; done. }
    split; [done|]. split; [|done].
    intros issue Hin. unfold issuesMessage.
    do 3 apply includes_app_r. by apply includes_join.
Qed.

(** In a department where nothing is set up the six issues are found and
    the generate request stays unsent. *)
Lemma handleGenerateTimetable_gate_witness :
  let s' := exec (handleGenerateTimetable empty_department) morning in
  sent s' = six_requests
  ∧ genError s' = issuesMessage (found_issues empty_department)
  ∧ issue_config ∈ found_issues empty_department
  ∧ issue_batches ∈ found_issues empty_department.
Proof.
  destruct (handleGenerateTimetable_gate empty_department morning)
    as (Hall & _ & Hgate).
  destruct Hgate as (Hsent & _ & Herr & _); [by vm_compute|].
  destruct (Hall [] [] [] [] [] []) as (Hconfig & Hbatches & _); try done.
  split; [exact Hsent|]. split; [exact Herr|].
  split; [apply Hconfig; by left|by apply Hbatches].
Defined.

(** A failed request alone stops the generation. *)
Lemma failed_request_is_an_issue srv :
  succeeded (schedule_configs srv) && succeeded (subjects srv)
    && succeeded (teachers srv) && succeeded (classrooms srv)
    && succeeded (batches srv) && succeeded (teacher_assignments srv) = false →
  found_issues srv = [issue_unable].
Proof.
  unfold found_issues.
  destruct (schedule_configs srv), (subjects srv), (teachers srv),
    (classrooms srv), (batches srv), (teacher_assignments srv); done.
Qed.

(** With every prerequisite in place the request does go out. *)
Lemma handleGenerateTimetable_sends srv s :
  found_issues srv = [] →
  sent (exec (handleGenerateTimetable srv) s)
  = sent s ++ six_requests ++ [POST url_generate].
Proof.
  intros Hissues.
  destruct s as [name n start d p e gl ge gs log r].
  unfold exec, handleGenerateTimetable.
  unfold mbind at 1 2 3 4. unfold M_bind, setGenLoading, setGenError, setGenSuccess, modify.
  cbv beta iota. rewrite validatePrerequisites_run. cbv beta iota.
  rewrite Hissues. cbn [length]. rewrite bool_decide_eq_false_2 by lia.
  unfold handleTimetableError, mbind, M_bind, send, setGenLoading, setGenError,
    setGenSuccess, router_push, modify.
  cbv beta iota.
  destruct (generate_timetable srv) as [err|response];
    [|case_bool_decide]; cbn [snd sent]; by rewrite <-app_assoc.
Qed.

End DepartmentConfigFacts.

(** ** The teacher form *)

Module AddTeacherFacts.
Import Js Api AddTeacher JsFacts.

(** *** [Object.entries] and [findIndex] *)

Lemma elem_of_entries {A} (o : gmap nat A) i x :
  (i, x) ∈ entries o ↔ o !! i = Some x.
Proof.
  unfold entries. rewrite merge_sort_Permutation. apply elem_of_map_to_list.
Qed.

Lemma findIndex_Some {A} (p : A → bool) l i :
  findIndex p l = Some i → ∃ x, l !! i = Some x ∧ p x = true.
Proof.
  revert i. induction l as [|y l IH]; intros i; simpl; [done|].
  destruct (p y) eqn:Hy.
  - intros [= <-]. eauto.
  - destruct (findIndex p l) as [j|]; intros [= <-]. by apply IH.
Qed.

Lemma findIndex_NoDup (l : list string) i x :
  NoDup l → l !! i = Some x →
  findIndex (λ y, bool_decide (y = x)) l = Some i.
Proof.
  intros Hnd. revert i. induction Hnd as [|y l Hy Hnd IH]; intros i; [done|].
  destruct i as [|i]; simpl.
  - intros [= ->]. by rewrite bool_decide_eq_true_2.
  - intros Hi. rewrite bool_decide_eq_false_2.
    + by rewrite (IH i Hi).
    + intros ->. apply Hy. by eapply list_elem_of_lookup_2.
Qed.

(** *** One day of the conversion *)

Lemma elem_of_dayTimes dayPeriods periodsObj time :
  time ∈ dayTimes dayPeriods periodsObj
  ↔ ∃ i, is_Some (periodsObj !! i) ∧ dayPeriods !! i = Some time ∧ time ≠ "".
Proof.
  unfold dayTimes. rewrite list_elem_of_omap. split.
  - intros ([i m] & Hin%elem_of_entries & Htime).
    destruct (dayPeriods !! i) as [t|] eqn:Hi; simpl in Htime; [|done].
    case_bool_decide; simplify_eq. exists i. eauto.
  - intros (i & [m Hm] & Hi & Hne). exists (i, m).
    split; [by apply elem_of_entries|].
    rewrite Hi. simpl. by rewrite bool_decide_eq_false_2.
Qed.

Lemma mark_lookup slots acc time i :
  is_Some (mark slots acc time !! i)
  ↔ is_Some (acc !! i)
    ∨ ∃ ps, slots = Some ps ∧ findIndex (λ p, bool_decide (p = time)) ps = Some i.
Proof.
  unfold mark. destruct slots as [ps|]; simpl.
  - destruct (findIndex _ ps) as [j|] eqn:Hj.
    + destruct (decide (j = i)) as [->|Hne].
      * rewrite lookup_insert_eq. split; [|by eauto]. intros _. right. eauto.
      * rewrite lookup_insert_ne by done. split; [by left|].
        intros [?|(? & [= <-] & ?)]; [done|congruence].
    + split; [by left|]. intros [?|(? & [= <-] & ?)]; [done|congruence].
  - split; [by left|]. by intros [?|(? & [=] & _)].
Qed.

Lemma dayState_of_lookup slots times i :
  is_Some (dayState_of slots times !! i)
  ↔ ∃ ps time, slots = Some ps ∧ time ∈ times
      ∧ findIndex (λ p, bool_decide (p = time)) ps = Some i.
Proof.
  unfold dayState_of.
  assert (∀ acc : gmap nat Mode,
    is_Some (foldl (mark slots) acc times !! i)
    ↔ is_Some (acc !! i)
      ∨ ∃ ps time, slots = Some ps ∧ time ∈ times
          ∧ findIndex (λ p, bool_decide (p = time)) ps = Some i) as Hgen.
  { induction times as [|t times IH]; intros acc; simpl.
    - split; [by left|]. by intros [?|(? & ? & _ & []%elem_of_nil & _)].
    - rewrite IH, mark_lookup. clear IH. split.
      + intros [[?|(ps & -> & Hfind)]|(ps & time & -> & Hin & Hfind)].
        * by left.
        * right. exists ps, t. split; [done|]. split; [apply elem_of_cons; by left|done].
        * right. exists ps, time. split; [done|].
          split; [apply elem_of_cons; by right|done].
      + intros [Hacc|(ps & time & -> & [->|Hin]%elem_of_cons & Hfind)].
        * left. by left.
        * left. right. eauto.
        * right. eauto. }
  rewrite Hgen, lookup_empty. split; [|by right].
  by intros [[? [=]]|?].
Qed.

(** *** The labels of the grid *)

Lemma daySlots_nonempty n t d label : label ∈ daySlots n t d → label ≠ "".
Proof.
  revert t. induction n as [|n IH]; intros t; simpl; [by intros ?%elem_of_nil|].
  intros [->|Hin]%elem_of_cons; [|by eapply IH].
  by apply app_nonempty_r.
Qed.

Lemma generateTimeSlots_day config day ps :
  generateTimeSlots config !! day = Some ps →
  ∃ n t d, ps = daySlots n t d.
Proof.
  unfold generateTimeSlots. destruct config as [c|]; [|done].
  destruct (_ || _); [done|]. destruct (periods c) as [per|]; [|done].
  generalize (default ["Mon"; "Tue"; "Wed"; "Thu"; "Fri"] (days c)).
  intros ds.
  assert (∀ acc : gmap string (list string),
    (∀ v, acc !! day = Some v → ∃ n t d, v = daySlots n t d) →
    foldl (λ timeSlots day0,
             <[day0 := daySlots (length per) (Date_at (start_time c))
                         (class_duration c)]> timeSlots) acc ds !! day = Some ps →
    ∃ n t d, ps = daySlots n t d) as Hgen.
  { induction ds as [|d0 ds IH]; intros acc Hacc; simpl; [by apply Hacc|].
    apply IH. intros v. destruct (decide (d0 = day)) as [->|Hne].
    - rewrite lookup_insert_eq. intros [= <-]. eauto.
    - rewrite lookup_insert_ne by done. apply Hacc. }
  apply Hgen. by intros v.
Qed.

Lemma grid_label_nonempty config day ps i label :
  generateTimeSlots config !! day = Some ps → ps !! i = Some label → label ≠ "".
Proof.
  intros (n & t & d & ->)%generateTimeSlots_day Hi.
  eapply daySlots_nonempty, list_elem_of_lookup_2, Hi.
Qed.


(** *** Saving and loading *)

Local Arguments generateTimeSlots : simpl never.
Local Arguments dayTimes : simpl never.
Local Arguments convertAvailability : simpl never.
Local Arguments loadAvailability : simpl never.
Local Arguments saved : simpl never.

Lemma convertAvailability_lookup config st day :
  convertAvailability (Some config) st !! day
  = st !! day ≫= λ periodsObj,
      match dayTimes (default [] (generateTimeSlots (Some config) !! day)) periodsObj with
      | [] => None
      | times => Some times
      end.
Proof. unfold convertAvailability. by rewrite map_lookup_imap. Qed.

Lemma loadAvailability_saved_lookup config st day :
  loadAvailability (Some config) (Some (saved (Some config) st)) !! day
  = dayState_of (generateTimeSlots (Some config) !! day)
      <$> convertAvailability (Some config) st !! day.
Proof.
  unfold loadAvailability, saved. rewrite lookup_singleton_eq.
  cbn [from_option]. unfold Datatypes.id. rewrite map_lookup_imap.
  by destruct (convertAvailability (Some config) st !! day).
Qed.

(** A cell is marked after saving and loading exactly when one of the
    saved times of its day is first found at its index. *)
Lemma reloaded_cell config st day i :
  is_Some (cell (loadAvailability (Some config) (Some (saved (Some config) st))) day i)
  ↔ ∃ ps periodsObj time j,
      generateTimeSlots (Some config) !! day = Some ps
      ∧ st !! day = Some periodsObj ∧ is_Some (periodsObj !! j)
      ∧ ps !! j = Some time
      ∧ findIndex (λ p, bool_decide (p = time)) ps = Some i.
Proof.
  unfold cell. rewrite loadAvailability_saved_lookup, convertAvailability_lookup.
  destruct (st !! day) as [periodsObj|] eqn:Hday; simpl.
  2: { split; [by intros [? [=]]|]. by intros (? & ? & ? & ? & _ & [=] & _). }
  destruct (dayTimes _ periodsObj) as [|t0 times] eqn:Htimes; simpl.
  - split; [by intros [? [=]]|].
    intros (ps & o & time & j & Hps & [= <-] & Hj & Htime & _).
    assert (time ∈ dayTimes (default [] (generateTimeSlots (Some config) !! day)) periodsObj) as Hin.
    { apply elem_of_dayTimes. exists j. rewrite Hps. simpl.
      split; [done|]. split; [done|]. by eapply grid_label_nonempty. }
    rewrite Htimes in Hin. by apply elem_of_nil in Hin.
  - rewrite dayState_of_lookup. rewrite <-Htimes. clear Htimes. split.
    + intros (ps & time & Hps & (j & Hj & Htime & _)%elem_of_dayTimes & Hfind).
      rewrite Hps in Htime. simpl in Htime.
      exists ps, periodsObj, time, j. eauto.
    + intros (ps & o & time & j & Hps & [= <-] & Hj & Htime & Hfind).
      exists ps, time. split; [done|]. split; [|done].
      apply elem_of_dayTimes. exists j. rewrite Hps. simpl.
      split; [done|]. split; [done|]. by eapply grid_label_nonempty.
Qed.

Lemma Mode_option_eq (a b : option Mode) : (is_Some a ↔ is_Some b) → a = b.
Proof.
  destruct a as [[]|], b as [[]|]; try done.
  - intros [H _]. by destruct H as [? [=]].
  - intros [_ H]. by destruct H as [? [=]].
Qed.

(** C9, as the code has it.  Take a configuration whose grid has
    pairwise distinct labels on every day, and a selection of cells of that
    grid.  Saving gives the JSON object [{ mandatory: { day: [time, ...] } }]
    in which a day's times are the labels of its marked periods, and
    loading that object under the same configuration marks exactly the
    cells that were marked. *)
Theorem availability_roundtrip config st :
  let timeSlots := generateTimeSlots (Some config) in
  distinct_labels timeSlots → on_grid timeSlots st →
  saved (Some config) st !! "mandatory" = Some (convertAvailability (Some config) st)
  ∧ (∀ day times, convertAvailability (Some config) st !! day = Some times →
       ∀ time, time ∈ times
               ↔ ∃ i, is_Some (cell st day i)
                      ∧ default [] (timeSlots !! day) !! i = Some time)
  ∧ ∀ day i,
      cell (loadAvailability (Some config) (Some (saved (Some config) st))) day i
      = cell st day i.
Proof.
  intros timeSlots Hdistinct Hgrid.
  split; [by unfold saved; rewrite lookup_singleton_eq|]. split.
  - intros day times. rewrite convertAvailability_lookup.
    destruct (st !! day) as [periodsObj|] eqn:Hday; simpl; [|done].
    intros Htimes time.
    assert (times = dayTimes (default [] (timeSlots !! day)) periodsObj) as ->.
    { fold timeSlots in Htimes. by destruct (dayTimes _ periodsObj); simplify_eq. }
    rewrite elem_of_dayTimes. unfold cell. rewrite Hday. simpl. split.
    + intros (i & ? & ? & ?). eauto.
    + intros (i & Hi & Htime). exists i. split; [done|]. split; [done|].
      destruct (timeSlots !! day) as [ps|] eqn:Hps; [|done].
      by eapply grid_label_nonempty.
  - intros day i. apply Mode_option_eq. rewrite reloaded_cell. split.
    + intros (ps & periodsObj & time & j & Hps & Hday & Hj & Htime & Hfind).
      apply findIndex_Some in Hfind as (x & Hi & Hx).
      apply bool_decide_eq_true in Hx as ->.
      assert (i = j) as ->.
      { eapply NoDup_lookup; [|done..]. by apply (Hdistinct day). }
      unfold cell. by rewrite Hday.
    + unfold cell. destruct (st !! day) as [periodsObj|] eqn:Hday; simpl;
        [|by intros [? [=]]].
      intros [m Hi].
      pose proof (Hgrid day periodsObj Hday i m Hi) as Hlt. simpl in Hlt.
      destruct (timeSlots !! day) as [ps|] eqn:Hps; simpl in Hlt; [|lia].
      destruct (lookup_lt_is_Some_2 ps i Hlt) as [time Htime].
      exists ps, periodsObj, time, i. repeat split; [done..|].
      apply findIndex_NoDup; [|done]. by apply (Hdistinct day).
Qed.

Lemma availability_roundtrip_witness :
  distinct_labels (generateTimeSlots (Some six_hours))
  ∧ on_grid (generateTimeSlots (Some six_hours)) two_days
  ∧ cell (loadAvailability (Some six_hours) (Some (saved (Some six_hours) two_days)))
         "Mon" 2
    = cell two_days "Mon" 2.
Proof.
  assert (distinct_labels (generateTimeSlots (Some six_hours))) as Hdistinct.
  { apply (bool_decide_unpack _). by vm_compute. }
  assert (on_grid (generateTimeSlots (Some six_hours)) two_days) as Hgrid.
  { apply (bool_decide_unpack _). by vm_compute. }
  split; [exact Hdistinct|]. split; [exact Hgrid|].
  apply (availability_roundtrip six_hours two_days Hdistinct Hgrid).
Defined.

(** When, besides, no day of the selection is left with an empty object,
    loading gives back the very state that was saved. *)
Lemma availability_roundtrip_exact config st :
  let timeSlots := generateTimeSlots (Some config) in
  distinct_labels timeSlots → on_grid timeSlots st →
  map_Forall (λ _ dayState, dayState ≠ ∅) st →
  loadAvailability (Some config) (Some (saved (Some config) st)) = st.
Proof.
  intros timeSlots Hdistinct Hgrid Hfull.
  destruct (availability_roundtrip config st Hdistinct Hgrid) as (_ & _ & Hcell).
  apply map_eq. intros day.
  destruct (st !! day) as [periodsObj|] eqn:Hday.
  - destruct (map_choose periodsObj) as (j & m & Hj); [by eapply Hfull|].
    pose proof (Hcell day j) as Hj'. unfold cell in Hj'. rewrite Hday in Hj'.
    simpl in Hj'. rewrite Hj in Hj'.
    destruct (loadAvailability _ _ !! day) as [o|] eqn:Hload; [|done].
    f_equal. apply map_eq. intros i.
    pose proof (Hcell day i) as Hi. unfold cell in Hi.
    by rewrite Hload, Hday in Hi.
  - rewrite loadAvailability_saved_lookup, convertAvailability_lookup.
    by rewrite Hday.
Qed.

(** C9 as stated fails: period indices within the configured number of
    periods are not enough.  With three twelve-hour periods the first and
    the third carry the same label, and the third period of Monday, once
    saved, comes back as the first. *)
Lemma availability_roundtrip_needs_distinct_labels :
  within_periods round_the_clock monday_third
  ∧ convertAvailability (Some round_the_clock) monday_third
    = {[ "Mon" := ["8:00 AM - 8:00 PM"] ]}
  ∧ cell monday_third "Mon" 2 = Some mandatory
  ∧ cell (loadAvailability (Some round_the_clock)
            (Some (saved (Some round_the_clock) monday_third))) "Mon" 2 = None
  ∧ cell (loadAvailability (Some round_the_clock)
            (Some (saved (Some round_the_clock) monday_third))) "Mon" 0
    = Some mandatory.
Proof.
  split; [apply (bool_decide_unpack _); by vm_compute|].
  repeat split; by vm_compute.
Qed.

(** *** The labels of a grid that ends within the day *)

Lemma toLocaleTimeString_clock12 t :
  toLocaleTimeString (Some t) = DepartmentConfig.clock12 t.
Proof.
  unfold toLocaleTimeString, DepartmentConfig.clock12, DepartmentConfig.format12.
  cbv zeta. unfold mod_or, geb, String_.
  destruct (((t / 60) mod 24) mod 12 =? 0); reflexivity.
Qed.

Lemma daySlots_ranges n t d :
  daySlots n (Some t) d
  = (λ i, DepartmentConfig.range (t + i * d) (t + (i + 1) * d)) <$> seq 0 n.
Proof.
  revert t. induction n as [|n IH]; intros t; [done|].
  cbn [daySlots seq fmap list_fmap]. cbv zeta.
  change (addMinutes (Some t) d) with (Some (t + d)).
  rewrite IH, !toLocaleTimeString_clock12. unfold DepartmentConfig.range at 1.
  f_equal.
  - replace (t + 0 * d) with t by lia.
    by replace (t + (0 + 1) * d) with (t + d) by lia.
  - rewrite <-fmap_S_seq, <-list_fmap_compose. apply list_fmap_ext.
    intros _ i _. unfold compose, DepartmentConfig.range.
    replace (t + d + i * d) with (t + S i * d) by nia.
    by replace (t + d + (i + 1) * d) with (t + (S i + 1) * d) by nia.
Qed.

Lemma daySlots_NoDup n t d :
  0 < d → t + n * d ≤ 1440 → NoDup (daySlots n (Some t) d).
Proof.
  intros Hd Hday. rewrite daySlots_ranges.
  apply NoDup_fmap_2_strong; [|apply NoDup_seq].
  intros i j Hi%elem_of_seq Hj%elem_of_seq Heq.
  pose proof (DepartmentConfigFacts.parse_range_range
                (t + i * d) (t + (i + 1) * d)) as Hpi.
  pose proof (DepartmentConfigFacts.parse_range_range
                (t + j * d) (t + (j + 1) * d)) as Hpj.
  assert ((t + i * d) mod 1440 = (t + j * d) mod 1440) as Hstart
    by (rewrite Heq in Hpi; congruence).
  assert (t + i * d < 1440 ∧ t + j * d < 1440) as [??] by nia.
  rewrite !Nat.mod_small in Hstart by done. nia.
Qed.

Lemma generateTimeSlots_lookup c per day ps :
  periods c = Some per →
  generateTimeSlots (Some c) !! day = Some ps →
  0 < class_duration c
  ∧ ps = daySlots (length per) (Date_at (start_time c)) (class_duration c).
Proof.
  intros Hper. unfold generateTimeSlots.
  destruct (bool_decide (start_time c = "")); [done|]. cbn [orb].
  case_bool_decide as Hd; [done|]. rewrite Hper. cbv zeta.
  generalize (default ["Mon"; "Tue"; "Wed"; "Thu"; "Fri"] (days c)). intros ds.
  intros Hps. split; [lia|]. revert Hps.
  assert (∀ acc : gmap string (list string),
    (∀ v, acc !! day = Some v →
          v = daySlots (length per) (Date_at (start_time c)) (class_duration c)) →
    foldl (λ timeSlots day0,
             <[day0 := daySlots (length per) (Date_at (start_time c))
                         (class_duration c)]> timeSlots) acc ds !! day = Some ps →
    ps = daySlots (length per) (Date_at (start_time c)) (class_duration c)) as Hgen.
  { induction ds as [|d0 ds IH]; intros acc Hacc; simpl; [by apply Hacc|].
    apply IH. intros v. destruct (decide (d0 = day)) as [->|Hne].
    - rewrite lookup_insert_eq. by intros [= <-].
    - rewrite lookup_insert_ne by done. apply Hacc. }
  apply Hgen. by intros v.
Qed.

(** The labels of a day are pairwise distinct when the last period ends by
    midnight: the condition of the round trip holds for every grid that
    fits in one day. *)
Lemma distinct_labels_within_a_day c per t :
  periods c = Some per → Date_at (start_time c) = Some t →
  t + length per * class_duration c ≤ 1440 →
  distinct_labels (generateTimeSlots (Some c)).
Proof.
  intros Hper Hstart Hday day ps Hps.
  apply (generateTimeSlots_lookup c per) in Hps as [Hd ->]; [|done].
  rewrite Hstart. by apply daySlots_NoDup.
Qed.

End AddTeacherFacts.

(** ** pdfGenerator.js *)

Module PdfGeneratorFacts.
Import Js Api PdfGenerator.

(** *** Objects as entry lists *)

Section obj.
Context {A : Type}.
Implicit Types (o : Obj A) (k : string) (v : A).

Lemma get_None k o : get k o = None ↔ k ∉ o.*1.
Proof.
  unfold get. induction o as [|[k' v'] o IH].
  - split; [intros _; apply not_elem_of_nil|done].
  - rewrite filter_cons, fmap_cons, not_elem_of_cons. cbn [fst].
    case_decide as Hk.
    + subst. split; [done|]. by intros [? _].
    + rewrite IH. split; [intros ?; split; [by intros ->|done]|by intros [_ ?]].
Qed.

Lemma get_Some k v o : NoDup o.*1 → get k o = Some v ↔ (k, v) ∈ o.
Proof.
  unfold get. induction o as [|[k' v'] o IH]; intros Hnd.
  - split; [done|by intros ?%elem_of_nil].
  - rewrite fmap_cons in Hnd. apply NoDup_cons in Hnd as [Hk' Hnd].
    rewrite filter_cons, elem_of_cons. cbn [fst]. case_decide as Hk.
    + subst. split; [intros [= ->]; by left|].
      intros [[= ->]|Hin]; [done|]. destruct Hk'.
      apply list_elem_of_fmap. by exists (k, v).
    + rewrite IH by done. split; [by right|]. by intros [[= -> ->]|?].
Qed.

Lemma elem_of_set k v o k' v' :
  (k', v') ∈ set k v o ↔ (k' = k ∧ v' = v) ∨ (k' ≠ k ∧ (k', v') ∈ o).
Proof.
  unfold set. destruct (get k o) as [w|] eqn:Hget.
  - assert (k ∈ o.*1) as Hk.
    { destruct (decide (k ∈ o.*1)) as [|Hn]; [done|].
      apply get_None in Hn. congruence. }
    rewrite list_elem_of_fmap. split.
    + intros ([k0 v0] & Heq & Hin). simpl in Heq.
      case_decide; simplify_eq; [by left|by right].
    + intros [[-> ->]|[Hne Hin]].
      * apply list_elem_of_fmap in Hk as ([k0 v0] & -> & Hin).
        exists (k0, v0). simpl. by rewrite decide_True.
      * exists (k', v'). simpl. by rewrite decide_False.
  - apply get_None in Hget. rewrite elem_of_app, list_elem_of_singleton. split.
    + intros [Hin|[= -> ->]]; [|by left]. right. split; [|done].
      intros ->. apply Hget. apply list_elem_of_fmap. by exists (k, v').
    + intros [[-> ->]|[_ ?]]; [by right|by left].
Qed.

Lemma keys_set k v o :
  (set k v o).*1 = if decide (k ∈ o.*1) then o.*1 else o.*1 ++ [k].
Proof.
  unfold set. destruct (get k o) as [w|] eqn:Hget.
  - rewrite decide_True.
    2: { destruct (decide (k ∈ o.*1)) as [|Hn]; [done|].
         apply get_None in Hn. congruence. }
    rewrite <-list_fmap_compose. apply list_fmap_ext.
    intros i [k0 v0] _. simpl. by case_decide.
  - apply get_None in Hget. rewrite decide_False by done.
    by rewrite fmap_app.
Qed.

Lemma NoDup_set k v o : NoDup o.*1 → NoDup (set k v o).*1.
Proof.
  intros Hnd. rewrite keys_set. case_decide; [done|].
  apply NoDup_app. split; [done|]. split; [|apply NoDup_singleton].
  intros x Hx ->%list_elem_of_singleton. done.
Qed.

(** [Object.values] lists every value once. *)
Lemma values_Permutation o : values o ≡ₚ o.*2.
Proof.
  unfold values. rewrite merge_sort_Permutation.
  induction o as [|[k v] o IH]; [done|].
  rewrite filter_cons, fmap_cons. cbn [omap list_omap fst snd].
  destruct (array_index k) as [n|] eqn:Hk; cbn [fmap option_fmap option_map].
  - rewrite decide_False by done. rewrite fmap_cons. cbn [snd].
    simpl. by rewrite IH.
  - rewrite decide_True by done. rewrite fmap_cons. cbn [snd].
    by rewrite <-Permutation_middle, IH.
Qed.
End obj.


(** *** Grouping *)

Lemma filter_none {A} (P : A → Prop) `{∀ x, Decision (P x)} (l : list A) :
  (∀ x, x ∈ l → ¬ P x) → filter P l = [].
Proof.
  intros Hno. apply elem_of_nil_inv. intros x [??]%list_elem_of_filter.
  by eapply Hno.
Qed.

Lemma groupEntries_snoc entries e :
  groupEntries (entries ++ [e]) = groupEntries entries ≫= λ o, addEntry o e.
Proof. unfold groupEntries. by rewrite foldl_app. Qed.

(** What [addEntry] does with an entry that counts, when it does not
    throw. *)
Lemma addEntry_counted o e o' :
  is_extra_class e = false → addEntry o e = Some o' →
  name_of e ∉ inherited ∨ name_of e ∈ o.*1
  ∧ o' = set (name_of e)
           (let code := or_else (subject_short_name e) (or_else (subject e) "") in
            let g0 := match get (name_of e) o with
                      | Some g => add_code code g
                      | None =>
                          {| theory := []; practical := []; subjectName := name_of e;
                             subjectCode := code; allSubjectCodes := [code] |}
                      end in
            if is_practical e then push_practical (with_section e) g0
            else push_theory (with_section e) g0) o.
Proof.
  intros Hextra. unfold addEntry. rewrite Hextra. fold (name_of e).
  unfold lookup_. cbv zeta.
  destruct (get (name_of e) o) as [g|] eqn:Hget.
  - cbn. intros [= <-]. right. split; [|done].
    destruct (decide (name_of e ∈ o.*1)) as [|Hno]; [done|].
    apply get_None in Hno. congruence.
  - case_decide as Hin; [done|]. cbn. intros [= <-]. by left.
Qed.

Lemma theory_of_snoc name entries e :
  theory_of name (entries ++ [e])
  = theory_of name entries
    ++ (if decide (counted e = true ∧ is_practical e = false ∧ name_of e = name)
        then [e] else []).
Proof.
  unfold theory_of. by rewrite filter_app.
Qed.

Lemma practical_of_snoc name entries e :
  practical_of name (entries ++ [e])
  = practical_of name entries
    ++ (if decide (counted e = true ∧ is_practical e = true ∧ name_of e = name)
        then [e] else []).
Proof.
  unfold practical_of. by rewrite filter_app.
Qed.


Lemma theory_of_nil_practical_of_nil name entries e :
  e ∈ entries → counted e = true → name_of e = name →
  theory_of name entries ≠ [] ∨ practical_of name entries ≠ [].
Proof.
  intros Hin Hc Hn. destruct (is_practical e) eqn:Hp; [right|left];
    intros Hnil; eapply (not_elem_of_nil e); rewrite <-Hnil;
    apply list_elem_of_filter; done.
Qed.

(** The groups hold the entries that count, by subject; no group is
    under a name that every object has as a property. *)
Lemma groupEntries_grouped entries o :
  groupEntries entries = Some o →
  grouped entries o ∧ ∀ name, name ∈ o.*1 → name ∉ inherited.
Proof.
  revert o. induction entries as [|e entries IH] using rev_ind; intros o.
  { intros [= <-]. split; [|by intros ? ?%elem_of_nil].
    split; try by intros ?? ?%elem_of_nil.
    - apply NoDup_nil_2.
    - intros name. split; [by intros ?%elem_of_nil|].
      by intros (? & ?%elem_of_nil & _). }
  rewrite groupEntries_snoc.
  destruct (groupEntries entries) as [o0|] eqn:Hgroups; [|done].
  cbn [mbind option_bind]. intros Hadd.
  destruct (IH o0 eq_refl) as [[Hnd Hkeys Hname Hth Hpr] Hsafe].
  destruct (is_extra_class e) eqn:Hextra.
  { unfold addEntry in Hadd. rewrite Hextra in Hadd. injection Hadd as <-.
    split; [|done]. split; [done|..].
    - intros name. rewrite Hkeys. split.
      + intros (x & ? & ? & ?). exists x. rewrite elem_of_app. eauto.
      + intros (x & [?|Hx%list_elem_of_singleton]%elem_of_app & Hc & ?); [eauto|].
        subst x. unfold counted in Hc. by rewrite Hextra in Hc.
    - done.
    - intros name g Hg. rewrite theory_of_snoc, decide_False, app_nil_r; [by apply Hth|].
      unfold counted. rewrite Hextra. by intros [? _].
    - intros name g Hg. rewrite practical_of_snoc, decide_False, app_nil_r; [by apply Hpr|].
      unfold counted. rewrite Hextra. by intros [? _]. }
  assert (counted e = true) as Hc by (unfold counted; by rewrite Hextra).
  assert (name_of e ∉ inherited) as Hnew.
  { destruct (addEntry_counted _ _ _ Hextra Hadd) as [?|[? _]]; [done|by apply Hsafe]. }
  assert (o = set (name_of e)
                (let code := or_else (subject_short_name e) (or_else (subject e) "") in
                 let g0 := match get (name_of e) o0 with
                           | Some g => add_code code g
                           | None =>
                               {| theory := []; practical := [];
                                  subjectName := name_of e;
                                  subjectCode := code; allSubjectCodes := [code] |}
                           end in
                 if is_practical e then push_practical (with_section e) g0
                 else push_theory (with_section e) g0) o0) as ->.
  { revert Hadd. unfold addEntry. rewrite Hextra. fold (name_of e).
    unfold lookup_. cbv zeta.
    destruct (get (name_of e) o0) as [g|] eqn:Hget; [by intros [= <-]|].
    rewrite decide_False by done. by intros [= <-]. }
  cbv zeta.
  set (code := or_else (subject_short_name e) (or_else (subject e) "")).
  set (g0 := match get (name_of e) o0 with
             | Some g => add_code code g
             | None => {| theory := []; practical := []; subjectName := name_of e;
                          subjectCode := code; allSubjectCodes := [code] |}
             end).
  assert (subjectName g0 = name_of e
          ∧ theory g0 = with_section <$> theory_of (name_of e) entries
          ∧ practical g0 = with_section <$> practical_of (name_of e) entries)
    as (Hg0n & Hg0t & Hg0p).
  { subst g0. destruct (get _ _) as [g|] eqn:Hget.
    - apply get_Some in Hget; [|done]. cbn [add_code subjectName theory practical].
      split; [by eapply Hname|]. split; [by eapply Hth|by eapply Hpr].
    - apply get_None in Hget. cbn [subjectName theory practical].
      split; [done|].
      assert (∀ x, x ∈ entries → ¬ (counted x = true ∧ name_of x = name_of e)) as Hno.
      { intros x Hx [??]. apply Hget, Hkeys. eauto. }
      split.
      + unfold theory_of. rewrite filter_none; [done|].
        intros x Hx (? & _ & ?). by eapply Hno.
      + unfold practical_of. rewrite filter_none; [done|].
        intros x Hx (? & _ & ?). by eapply Hno. }
  set (g1 := if is_practical e then push_practical (with_section e) g0
             else push_theory (with_section e) g0).
  assert (subjectName g1 = name_of e
          ∧ theory g1 = with_section <$> theory_of (name_of e) (entries ++ [e])
          ∧ practical g1 = with_section <$> practical_of (name_of e) (entries ++ [e]))
    as (Hg1n & Hg1t & Hg1p).
  { subst g1. rewrite theory_of_snoc, practical_of_snoc, !fmap_app.
    destruct (is_practical e) eqn:Hp;
      cbn [push_practical push_theory subjectName theory practical].
    - rewrite decide_False by (by intros (_ & ? & _)).
      rewrite decide_True by done. rewrite Hg0t, Hg0p, app_nil_r. done.
    - rewrite decide_True by done.
      rewrite decide_False by (by intros (_ & ? & _)).
      rewrite Hg0t, Hg0p, app_nil_r. done. }
  split; [split|].
  - by apply NoDup_set.
  - intros name. rewrite keys_set. split.
    + case_decide as Hk.
      * intros (x & ? & ? & ?)%Hkeys. exists x. rewrite elem_of_app. eauto.
      * intros [(x & ? & ? & ?)%Hkeys|Hx%list_elem_of_singleton]%elem_of_app.
        -- exists x. rewrite elem_of_app. eauto.
        -- subst name. exists e. rewrite elem_of_app, list_elem_of_singleton. eauto.
    + intros (x & [Hx|Hx%list_elem_of_singleton]%elem_of_app & Hcx & Hnx).
      * assert (name ∈ o0.*1) by (apply Hkeys; eauto).
        case_decide; [done|]. apply elem_of_app. by left.
      * subst x name. case_decide; [done|].
        apply elem_of_app. right. by apply list_elem_of_singleton.
  - intros name g [[-> ->]|[Hne Hin]]%elem_of_set; [done|by apply Hname].
  - intros name g [[-> ->]|[Hne Hin]]%elem_of_set; [done|].
    rewrite theory_of_snoc, decide_False, app_nil_r; [by apply Hth|].
    by intros (_ & _ & ?).
  - intros name g [[-> ->]|[Hne Hin]]%elem_of_set; [done|].
    rewrite practical_of_snoc, decide_False, app_nil_r; [by apply Hpr|].
    by intros (_ & _ & ?).
  - intros name. rewrite keys_set. case_decide; [by apply Hsafe|].
    intros [?|Hx%list_elem_of_singleton]%elem_of_app; [by apply Hsafe|].
    by subst name.
Qed.

(** The grouping throws exactly when an entry that counts has a name
    that every object has as a property. *)
Lemma groupEntries_throws entries :
  groupEntries entries = None
  ↔ ∃ e, e ∈ entries ∧ counted e = true ∧ name_of e ∈ inherited.
Proof.
  induction entries as [|e entries IH] using rev_ind.
  { split; [done|]. by intros (? & ?%elem_of_nil & _). }
  rewrite groupEntries_snoc.
  destruct (groupEntries entries) as [o|] eqn:Hgroups; cbn [mbind option_bind].
  - destruct (groupEntries_grouped _ _ Hgroups) as [[_ Hkeys _ _ _] Hsafe].
    assert (¬ ∃ x, x ∈ entries ∧ counted x = true ∧ name_of x ∈ inherited) as Hnone.
    { intros Hex. apply IH in Hex. done. }
    unfold addEntry, counted. fold (name_of e). unfold lookup_.
    destruct (is_extra_class e) eqn:Hextra.
    + split; [done|].
      intros (x & [?|Hx%list_elem_of_singleton]%elem_of_app & Hc & ?).
      * destruct Hnone. by exists x.
      * subst x. by rewrite Hextra in Hc.
    + destruct (get (name_of e) o) as [g|] eqn:Hget.
      * split; [done|].
        intros (x & [?|Hx%list_elem_of_singleton]%elem_of_app & Hc & Hin).
        -- destruct Hnone. by exists x.
        -- subst x. exfalso. apply (Hsafe (name_of e)); [|done].
           destruct (decide (name_of e ∈ o.*1)) as [|Hno]; [done|].
           apply get_None in Hno. congruence.
      * case_decide as Hin; cbn.
        -- split; [|done]. intros _. exists e.
           rewrite elem_of_app, list_elem_of_singleton, Hextra.
           split; [by right|done].
        -- split; [done|].
           intros (x & [?|Hx%list_elem_of_singleton]%elem_of_app & Hc & ?).
           ++ destruct Hnone. by exists x.
           ++ by subst x.
  - split; [|done]. intros _.
    destruct (proj1 IH eq_refl) as (x & ? & ? & ?).
    exists x. rewrite elem_of_app. eauto.
Qed.

Lemma groupEntries_counted entries :
  groupEntries (filter (λ e, counted e = true) entries) = groupEntries entries.
Proof.
  induction entries as [|e entries IH] using rev_ind; [done|].
  rewrite filter_app, filter_cons, filter_nil.
  case_decide as Hc.
  - by rewrite !groupEntries_snoc, IH.
  - rewrite app_nil_r, groupEntries_snoc, IH. unfold addEntry.
    unfold counted in Hc. destruct (is_extra_class e); [|done].
    by destruct (groupEntries entries).
Qed.

Lemma filter_concat {A} (P : A → Prop) `{!∀ x, Decision (P x)} (l : list (list A)) :
  filter P (concat l) = concat (filter P <$> l).
Proof.
  induction l as [|x l IH]; [done|].
  cbn [concat fmap list_fmap]. by rewrite filter_app, IH.
Qed.

(** *** The rows of the table (claim C10) *)

Lemma creditHours_cell_of g th pr :
  theory g = with_section <$> th → practical g = with_section <$> pr →
  creditHours g = cell_of positive_credits_or_3 th pr.
Proof.
  unfold creditHours, cell_of. intros -> ->.
  destruct th as [|t th], pr as [|p pr]; done.
Qed.

Lemma cell_of_positive th pr :
  (∀ e, e ∈ th → credits e ≠ Some 0) →
  cell_of positive_credits_or_3 th pr = cell_of credits_or_3 th pr.
Proof.
  intros Hcredits.
  assert (∀ e, e ∈ th → positive_credits_or_3 e = credits_or_3 e) as Heq.
  { intros e He. apply Hcredits in He. unfold positive_credits_or_3, credits_or_3.
    by destruct (credits e) as [[|?]|]. }
  unfold cell_of. destruct th as [|t th]; [done|].
  rewrite Heq by left. done.
Qed.

(** The rows, once the table is made: one for each group. *)
Lemma teacherData_Some sections rows :
  teacherData sections = Some rows →
  ∃ o, groupEntries (concat sections) = Some o
       ∧ rows = imap (λ index group,
                        {| row_number := index + 1;
                           row_subject := formattedSubjectName group;
                           row_creditHours := creditHours group;
                           row_group := group |})
                     (values o).
Proof.
  unfold teacherData.
  destruct (groupEntries (concat sections)) as [o|]; [|done].
  cbn [mbind option_bind]. case_match; [done|]. intros [= <-]. by exists o.
Qed.

Lemma elem_of_teacherData row sections rows :
  teacherData sections = Some rows → row ∈ rows →
  ∃ o name, groupEntries (concat sections) = Some o ∧ (name, row_group row) ∈ o
            ∧ row_creditHours row = creditHours (row_group row).
Proof.
  intros (o & Hgroups & ->)%teacherData_Some (i & g & -> & Hg)%elem_of_lookup_imap.
  apply list_elem_of_lookup_2 in Hg. rewrite values_Permutation in Hg.
  apply list_elem_of_fmap in Hg as ([name g'] & -> & Hin). eauto.
Qed.

Lemma teacherData_names sections rows o :
  teacherData sections = Some rows → groupEntries (concat sections) = Some o →
  (subjectName ∘ row_group) <$> rows ≡ₚ o.*1.
Proof.
  intros (o' & Hgroups & ->)%teacherData_Some Ho.
  assert (o' = o) as -> by congruence.
  destruct (groupEntries_grouped _ _ Hgroups) as [[_ _ Hname _ _] _].
  assert (∀ l : list Group,
    (subjectName ∘ row_group) <$>
      imap (λ index group,
              {| row_number := index + 1; row_subject := formattedSubjectName group;
                 row_creditHours := creditHours group; row_group := group |}) l
    = subjectName <$> l) as ->.
  { intros l. apply list_eq. intros i.
    rewrite !list_lookup_fmap, list_lookup_imap. by destruct (l !! i). }
  rewrite values_Permutation, <-list_fmap_compose.
  assert (subjectName ∘ snd <$> o = o.*1) as ->; [|done].
  apply list_fmap_ext. intros i [name g] Hi. simpl.
  eapply Hname, list_elem_of_lookup_2, Hi.
Qed.

(** *** When the table is made *)

Lemma groupTeachersBySections_safe l :
  (∀ e, e ∈ l → or_else (teacher e) "--" ∉ inherited) →
  groupTeachersBySections_throws (with_section <$> l) = false.
Proof.
  intros Hsafe. apply bool_decide_eq_false. rewrite Exists_exists.
  intros (x & (e & -> & He)%list_elem_of_fmap & Hin). by apply (Hsafe e).
Qed.

Lemma teacherNames_safe n g :
  groupTeachersBySections_throws (theory g) = false →
  groupTeachersBySections_throws (practical g) = false →
  teacherNames_throws n g = false.
Proof.
  unfold teacherNames_throws. intros Hth Hpr.
  destruct (theory g), (practical g); try done.
  cbv zeta. repeat case_bool_decide; try done. by rewrite Hth, Hpr.
Qed.

(** The table is made when no entry that counts has, as the name of its
    subject or of its teacher, a name that every object has as a
    property. *)
Lemma teacherData_made sections :
  (∀ e, e ∈ concat sections → counted e = true →
        (name_of e ∉ inherited) ∧ (or_else (teacher e) "--" ∉ inherited)) →
  is_Some (teacherData sections).
Proof.
  intros Hsafe. unfold teacherData.
  destruct (groupEntries (concat sections)) as [o|] eqn:Hgroups.
  2:{ apply groupEntries_throws in Hgroups as (e & He & Hc & Hin).
      by destruct (Hsafe e He Hc). }
  cbn [mbind option_bind].
  destruct (groupEntries_grouped _ _ Hgroups) as [[_ _ _ Hth Hpr] _].
  assert (existsb (teacherNames_throws (length sections)) (values o) = false)
    as ->; [|by eexists].
  apply not_true_is_false. intros (g & Hg%list_elem_of_In & Hthrows)%existsb_exists.
  rewrite values_Permutation in Hg.
  apply list_elem_of_fmap in Hg as ([name g'] & -> & Hin). cbn [snd] in Hthrows.
  rewrite teacherNames_safe in Hthrows; [done|..].
  - rewrite (Hth name g' Hin). apply groupTeachersBySections_safe.
    intros e [(Hc & _) He]%list_elem_of_filter. by apply Hsafe.
  - rewrite (Hpr name g' Hin). apply groupTeachersBySections_safe.
    intros e [(Hc & _) He]%list_elem_of_filter. by apply Hsafe.
Qed.

(** C10.  The table of the sections of a batch is made when no entry that
    is no extra class has, as the cleaned name of its subject or as its
    teacher, a name that every object has as a property.  Whenever the
    table is made, it is the one the entries that are no extra class would
    give alone.  It has one row for every subject name among those
    entries, and the credit-hours cell of a row is [T+1] when the subject
    has theory and practical entries, [T+0] when it has theory entries only
    and [0+1] when it has practical entries only, where [T] is the
    [credits] of the first theory entry, or 3 when that field is absent.
    (The subject form keeps credits of zero out; the cell would show 3 for
    them as well.) *)
Theorem credit_hours_cells sections :
  let entries := concat sections in
  ((∀ e, e ∈ entries → counted e = true →
      (name_of e ∉ inherited) ∧ (or_else (teacher e) "--" ∉ inherited)) →
   is_Some (teacherData sections))
  ∧ ∀ rows, teacherData sections = Some rows →
      teacherData (filter (λ e, counted e = true) <$> sections) = Some rows
      ∧ NoDup ((subjectName ∘ row_group) <$> rows)
      ∧ (∀ name, name ∈ (subjectName ∘ row_group) <$> rows
                 ↔ ∃ e, e ∈ entries ∧ counted e = true ∧ name_of e = name)
      ∧ ∀ row, row ∈ rows →
          let name := subjectName (row_group row) in
          (theory_of name entries ≠ [] ∨ practical_of name entries ≠ [])
          ∧ row_creditHours row
            = cell_of positive_credits_or_3 (theory_of name entries)
                (practical_of name entries)
          ∧ ((∀ e, e ∈ theory_of name entries → credits e ≠ Some 0) →
             row_creditHours row
             = cell_of credits_or_3 (theory_of name entries)
                 (practical_of name entries)).
Proof.
  intros entries. split; [apply teacherData_made|]. intros rows Hrows.
  pose proof Hrows as (o & Hgroups & Heq)%teacherData_Some.
  destruct (groupEntries_grouped _ _ Hgroups) as [[Hnd Hkeys Hname Hth Hpr] _].
  split.
  { revert Hrows. unfold teacherData.
    rewrite <-filter_concat, groupEntries_counted, length_fmap. done. }
  split; [by rewrite (teacherData_names sections rows o)|].
  split; [intros name; by rewrite (teacherData_names sections rows o)|].
  intros row Hrow name.
  destruct (elem_of_teacherData _ _ _ Hrows Hrow) as (o' & key & Ho' & Hin & Hcell).
  assert (o' = o) as -> by congruence.
  assert (key = name) as -> by (symmetry; by apply Hname).
  assert (row_creditHours row
          = cell_of positive_credits_or_3 (theory_of name entries)
              (practical_of name entries)) as Hshown.
  { rewrite Hcell. apply creditHours_cell_of; [by apply Hth|by apply Hpr]. }
  split; [|split; [done|]].
  - assert (name ∈ o.*1) as (e & ? & ? & ?)%Hkeys.
    { apply list_elem_of_fmap. by exists (name, row_group row). }
    by eapply theory_of_nil_practical_of_nil.
  - intros Hcredits. by rewrite Hshown, cell_of_positive.
Qed.

(** The three shapes of the cell on a small batch of one section, an
    extra class left out. *)
Lemma credit_hours_cells_witness :
  ∃ rows,
    teacherData [[lecture "DBS" (Some 4); lab "DBS (PR)"; lecture "SRE" None;
                  lab "OS"; extra (lecture "AI" (Some 2))]] = Some rows
    ∧ (λ row, (row_number row, row_subject row, row_creditHours row)) <$> rows
      = [(1, "DBS", "4+1"); (2, "SRE", "3+0"); (3, "OS", "0+1")]
    ∧ teacherData [[lecture "DBS" (Some 4); lab "DBS (PR)"; lecture "SRE" None;
                    lab "OS"]] = Some rows.
Proof.
  eexists. split; [by vm_compute|]. split; [by vm_compute|].
  refine (proj1 (proj2 (credit_hours_cells
                   [[lecture "DBS" (Some 4); lab "DBS (PR)"; lecture "SRE" None;
                     lab "OS"; extra (lecture "AI" (Some 2))]]) _ _)).
  by vm_compute.
Defined.

(** No table is made for a batch with a subject, or with a teacher, whose
    name every object has as a property. *)
Example no_table_for_a_subject_named_constructor :
  teacherData [[lecture "DBS" (Some 4); lecture "constructor" (Some 3)]] = None
  ∧ teacherData [[lecture "toString (PR)" None]] = None.
Proof. split; by vm_compute. Qed.

(** A theory entry whose [credits] are zero shows 3 like one without the
    field. *)
Example zero_credits_shown_as_three :
  fmap (M := option) (fmap (M := list) row_creditHours)
       (teacherData [[lecture "DBS" (Some 0)]])
  = Some ["3+0"].
Proof. by vm_compute. Qed.
End PdfGeneratorFacts.

(** ** The scheduling engine *)

Module EngineFacts.
Import Engine.

(** *** Lists *)

Lemma NoDup_bind_shared {A B} (f : A → list B) (l : list A) x y k :
  NoDup (l ≫= f) → x ∈ l → y ∈ l → k ∈ f x → k ∈ f y → x = y.
Proof.
  induction l as [|z l IH]; [by intros _ ?%elem_of_nil|].
  rewrite bind_cons. intros (Hz & Hdisj & Hl)%NoDup_app.
  intros [->|Hx]%elem_of_cons [->|Hy]%elem_of_cons Hkx Hky; [done|..].
  - destruct (Hdisj k Hkx). apply list_elem_of_bind. eauto.
  - destruct (Hdisj k Hky). apply list_elem_of_bind. eauto.
  - by apply IH.
Qed.

Lemma NoDup_bind_nonempty {A B} (f : A → list B) (l : list A) :
  (∀ x, f x ≠ []) → NoDup (l ≫= f) → NoDup l.
Proof.
  intros Hf. induction l as [|z l IH]; [intros; apply NoDup_nil_2|].
  rewrite bind_cons. intros (Hz & Hdisj & Hl)%NoDup_app.
  apply NoDup_cons. split; [|by apply IH].
  intros Hin. destruct (f z) as [|k ks] eqn:Hfz; [by destruct (Hf z)|].
  destruct (Hdisj k); [apply elem_of_cons; by left|].
  apply list_elem_of_bind. exists z. by rewrite Hfz, elem_of_cons; eauto.
Qed.

Lemma sublist_bind {A B} (f g : A → list B) (l : list A) :
  (∀ x, f x `sublist_of` g x) → (l ≫= f) `sublist_of` (l ≫= g).
Proof.
  intros Hfg. induction l as [|x l IH]; [done|].
  rewrite !bind_cons. by apply sublist_app.
Qed.

(** *** What a session occupies *)

Lemma session_length_pos s : 0 < session_length s.
Proof. unfold session_length. destruct (session_practical s); lia. Qed.

Lemma keys_of_nonempty s slot : keys_of s slot ≠ [].
Proof.
  unfold keys_of, session_periods. pose proof (session_length_pos s).
  destruct (session_length s); [lia|]. done.
Qed.

Lemma elem_of_keys_of s slot k :
  k ∈ keys_of s slot
  ↔ ∃ q, q ∈ session_periods s slot
         ∧ (k = (OfTeacher (session_teacher s), slot_day slot, q)
            ∨ k = (OfRoom (slot_room slot), slot_day slot, q)
            ∨ k = (OfSection (session_section s), slot_day slot, q)).
Proof.
  unfold keys_of. rewrite list_elem_of_bind. split.
  - intros (q & Hk & Hq). exists q. split; [done|].
    rewrite !elem_of_cons, elem_of_nil in Hk. tauto.
  - intros (q & Hq & Hk). exists q. split; [|done].
    rewrite !elem_of_cons, elem_of_nil. tauto.
Qed.

Lemma keys_of_NoDup s slot : NoDup (keys_of s slot).
Proof.
  unfold keys_of. apply NoDup_bind.
  - intros q1 q2 k _ _ Hk1 Hk2.
    rewrite !elem_of_cons, elem_of_nil in Hk1, Hk2.
    destruct Hk1 as [->|[->|[->|[]]]], Hk2 as [?|[?|[?|[]]]]; congruence.
  - intros q _. repeat (apply NoDup_cons; split;
      [rewrite ?elem_of_cons, elem_of_nil; intros H; intuition congruence|]).
    apply NoDup_nil_2.
  - apply NoDup_seq.
Qed.

Lemma elem_of_all_keys placements k :
  k ∈ all_keys placements
  ↔ ∃ s slot, (s, slot) ∈ placements ∧ k ∈ keys_of s slot.
Proof.
  unfold all_keys. rewrite list_elem_of_bind. split.
  - intros ([s slot] & ? & ?). eauto.
  - intros (s & slot & ? & ?). by exists (s, slot).
Qed.

Lemma all_keys_NoDup_placements placements :
  NoDup (all_keys placements) → NoDup placements.
Proof. apply NoDup_bind_nonempty. intros [s slot]. apply keys_of_nonempty. Qed.

(** *** Commit and undo keep the index consistent *)

Lemma initial_consistent input budget : consistent input (initial budget).
Proof.
  split; simpl.
  - by intros ?? ?%elem_of_nil.
  - apply NoDup_nil_2.
  - done.
Qed.

Lemma free_spec st s slot :
  free st s slot = true ↔ ∀ k, k ∈ keys_of s slot → k ∉ busy st.
Proof.
  unfold free. rewrite forallb_forall. split.
  - intros H k Hk. eapply bool_decide_eq_true, H. by apply list_elem_of_In.
  - intros H k Hk. apply bool_decide_eq_true, H. by apply list_elem_of_In.
Qed.

Lemma commit_consistent input st s slot :
  consistent input st → legal input st s slot = true →
  consistent input (commit st s slot).
Proof.
  intros [Hfit Hnd Hbusy] [Hfits Hfree]%andb_true_iff.
  rewrite free_spec in Hfree. unfold commit. split; cbn [placed busy].
  - intros s' slot' [[= -> ->]|?]%elem_of_cons; [done|by apply Hfit].
  - unfold all_keys. rewrite bind_cons. apply NoDup_app.
    split; [apply keys_of_NoDup|]. split; [|done].
    intros k Hk Hin. apply (Hfree k Hk). rewrite Hbusy.
    by apply elem_of_list_to_set.
  - unfold all_keys. rewrite bind_cons, list_to_set_app_L. by rewrite Hbusy.
Qed.

Lemma undo_consistent input st placement :
  consistent input st → consistent input (undo st placement).
Proof.
  intros [Hfit Hnd Hbusy]. unfold undo. case_decide as Hin; [|done].
  split; cbn [placed busy].
  - intros s slot [_ ?]%list_elem_of_filter. by apply Hfit.
  - apply (sublist_NoDup _ (all_keys (placed st))); [done|].
    unfold all_keys. apply bind_sublist, sublist_filter.
  - apply set_eq. intros k.
    rewrite elem_of_difference, Hbusy, !elem_of_list_to_set, !elem_of_all_keys.
    split.
    + intros [(s & slot & Hs & Hk) Hnot]. exists s, slot. split; [|done].
      apply list_elem_of_filter. split; [|done]. intros Heq. by subst placement.
    + intros (s & slot & [Hne Hs]%list_elem_of_filter & Hk).
      split; [by eauto|]. intros Hk'. apply Hne.
      destruct placement as [s' slot'].
      by apply (NoDup_bind_shared (λ p, keys_of p.1 p.2) (placed st) _ _ k).
Qed.


(** *** The Placement Engine commits legal candidates only *)

Lemma best_from_elem rank current rest :
  best_from rank current rest = current ∨ best_from rank current rest ∈ rest.
Proof.
  revert current. induction rest as [|c rest IH]; intros current; simpl; [by left|].
  destruct (above _ _).
  - destruct (IH c) as [-> | ?]; right; apply elem_of_cons; eauto.
  - destruct (IH current) as [-> | ?]; [by left|]. right. apply elem_of_cons. eauto.
Qed.

Lemma best_elem rank cands slot : best rank cands = Some slot → slot ∈ cands.
Proof.
  destruct cands as [|c rest]; [done|]. simpl. intros [= <-].
  destruct (best_from_elem rank c rest) as [-> | ?]; apply elem_of_cons; eauto.
Qed.

Lemma candidates_legal input st s slot :
  slot ∈ candidates input st s → legal input st s slot = true.
Proof. unfold candidates. by intros [? _]%list_elem_of_filter. Qed.


Lemma step_refl input st : consistent input st → step input st st [].
Proof. by split. Qed.

Lemma step_trans input st1 st2 st3 added1 added2 :
  step input st1 st2 added1 → step input st2 st3 added2 →
  step input st1 st3 (added2 ++ added1).
Proof.
  intros [_ Hp1 Hf1] [Hc Hp2 Hf2]. split; [done| |congruence].
  by rewrite Hp2, Hp1, app_assoc.
Qed.

Lemma step_after input st1 st2 st3 added :
  step input st1 st2 [] → step input st2 st3 added → step input st1 st3 added.
Proof.
  intros H1 H2. rewrite <-(app_nil_r added). by eapply step_trans.
Qed.

Lemma place_directly_step strategy seed input st s st' :
  consistent input st → place_directly strategy seed input st s = Some st' →
  step input st st' [s].
Proof.
  intros Hc. unfold place_directly.
  destruct (best _ _) as [slot|] eqn:Hbest; [|done]. simpl. intros [= <-].
  apply best_elem, candidates_legal in Hbest. split.
  - by apply commit_consistent.
  - done.
  - done.
Qed.

Lemma replace_all_step strategy seed input st victims st' :
  consistent input st → replace_all strategy seed input st victims = Some st' →
  step input st st' (fst <$> victims).
Proof.
  revert st. induction victims as [|v victims IH]; intros st Hc; simpl.
  - intros [= <-]. by apply step_refl.
  - destruct (place_directly _ _ _ st v.1) as [st1|] eqn:H1; [|done]. simpl.
    intros H2. apply (place_directly_step _ _ _ _ _ _ Hc) in H1.
    apply IH in H2; [|by destruct H1].
    destruct H1 as [_ Hp1 Hf1], H2 as [Hc2 Hp2 Hf2].
    split; [done| |congruence].
    rewrite Hp2, Hp1. simpl. by rewrite <-Permutation_middle.
Qed.

Lemma NoDup_filter_ne {A} `{EqDecision A} (l : list A) x :
  NoDup l → x ∈ l → l ≡ₚ x :: filter (λ y, y ≠ x) l.
Proof.
  induction 1 as [|y l Hy Hnd IH]; [by intros ?%elem_of_nil|].
  intros [->|Hx]%elem_of_cons.
  - rewrite filter_cons_False by (by intros []). f_equiv.
    clear IH Hnd. induction l as [|z l IH]; [done|].
    apply not_elem_of_cons in Hy as [??].
    rewrite filter_cons_True by done. f_equiv. by apply IH.
  - rewrite filter_cons_True by (by intros ->).
    rewrite (IH Hx) at 1. apply Permutation_swap.
Qed.

Lemma undo_placed input st placement :
  consistent input st → placement ∈ placed st →
  placed st ≡ₚ placement :: placed (undo st placement)
  ∧ failed (undo st placement) = failed st.
Proof.
  intros [_ Hnd _] Hin. unfold undo. rewrite decide_True by done.
  cbn [placed failed]. split; [|done].
  apply NoDup_filter_ne; [|done]. by apply all_keys_NoDup_placements.
Qed.

Lemma undo_all input st victims :
  consistent input st → NoDup victims → victims ⊆ placed st →
  consistent input (foldl undo st victims)
  ∧ placed st ≡ₚ victims ++ placed (foldl undo st victims)
  ∧ failed (foldl undo st victims) = failed st.
Proof.
  revert st. induction victims as [|v victims IH]; intros st Hc Hnd Hsub; [done|].
  apply NoDup_cons in Hnd as [Hv Hnd]. cbn [foldl].
  assert (v ∈ placed st) as Hin by (apply Hsub, elem_of_cons; by left).
  destruct (undo_placed input st v Hc Hin) as [Hp Hf].
  destruct (IH (undo st v)) as (Hc' & Hp' & Hf'); [by apply undo_consistent|done|..].
  { intros x Hx. assert (x ∈ placed st) as Hx' by (apply Hsub, elem_of_cons; by right).
    rewrite Hp in Hx'. apply elem_of_cons in Hx' as [->|?]; done. }
  split; [done|]. split; [|congruence].
  by rewrite Hp, Hp' at 1.
Qed.

Lemma choose_sublist {A} k (l victims : list A) :
  victims ∈ choose k l → victims `sublist_of` l.
Proof.
  revert k victims. induction l as [|x l IH]; intros [|k] victims; simpl.
  - intros ->%list_elem_of_singleton. done.
  - by intros ?%elem_of_nil.
  - intros ->%list_elem_of_singleton. apply sublist_nil_l.
  - intros [(c & -> & Hc)%list_elem_of_fmap|Hc]%elem_of_app.
    + apply sublist_skip. by eapply IH.
    + apply sublist_cons. by eapply IH.
Qed.

Lemma victim_sets_sublist st victims :
  victims ∈ victim_sets st → victims `sublist_of` placed st.
Proof.
  unfold victim_sets. intros (k & Hin & _)%list_elem_of_bind.
  by eapply choose_sublist.
Qed.

Lemma attempt_step strategy seed input st s victims st' :
  consistent input st → victims `sublist_of` placed st →
  attempt strategy seed input st s victims = Some st' →
  step input st st' [s].
Proof.
  intros Hc Hsub. unfold attempt.
  destruct (undo_all input st victims) as (Hc0 & Hp0 & Hf0); [done|..].
  { eapply sublist_NoDup; [|done]. apply all_keys_NoDup_placements. by destruct Hc. }
  { by apply sublist_subseteq. }
  destruct (place_directly _ _ _ _ s) as [st1|] eqn:H1; [|done]. simpl.
  intros H2. apply (place_directly_step _ _ _ _ _ _ Hc0) in H1.
  apply replace_all_step in H2; [|by destruct H1].
  destruct H1 as [_ Hp1 Hf1], H2 as [Hc2 Hp2 Hf2].
  split; [done| |congruence].
  rewrite Hp2, Hp1, Hp0, fmap_app. simpl.
  by rewrite <-Permutation_middle.
Qed.


Lemma step_placed_or_failed input st st' s :
  step input st st' [s] → placed_or_failed input st st' s.
Proof.
  intros [Hc Hp Hf]. split; [done|]. unfold sessions_of. by rewrite Hp, Hf.
Qed.

Lemma spend_consistent input st : consistent input st → consistent input (spend st).
Proof. by intros []. Qed.

Lemma backtrack_placed_or_failed strategy seed input st s sets :
  consistent input st → (∀ victims, victims ∈ sets → victims `sublist_of` placed st) →
  placed_or_failed input st (backtrack strategy seed input st s sets) s.
Proof.
  revert st. induction sets as [|victims sets IH]; intros st Hc Hsets; simpl.
  - split; [by destruct Hc|]. unfold sessions_of, mark_failed. simpl.
    by rewrite <-Permutation_middle.
  - destruct (retries st) as [|n] eqn:Hn.
    { split; [by destruct Hc|]. unfold sessions_of, mark_failed. simpl.
      by rewrite <-Permutation_middle. }
    destruct (attempt _ _ _ (spend st) s victims) as [st'|] eqn:Hattempt.
    + apply attempt_step in Hattempt; [|by apply spend_consistent|].
      * by apply step_placed_or_failed in Hattempt as [??].
      * apply Hsets, elem_of_cons. by left.
    + destruct (IH (spend st)) as [??]; [by apply spend_consistent|..|done].
      intros V HV. apply Hsets, elem_of_cons. by right.
Qed.

Lemma place_placed_or_failed strategy seed input st s :
  consistent input st →
  placed_or_failed input st (place strategy seed input st s) s.
Proof.
  intros Hc. unfold place.
  destruct (place_directly _ _ _ st s) as [st'|] eqn:Hdirect.
  - by eapply step_placed_or_failed, place_directly_step.
  - apply backtrack_placed_or_failed; [done|]. apply victim_sets_sublist.
Qed.

Lemma place_all strategy seed input st sessions :
  consistent input st →
  consistent input (foldl (place strategy seed input) st sessions)
  ∧ sessions_of (foldl (place strategy seed input) st sessions)
    ≡ₚ sessions ++ sessions_of st.
Proof.
  revert st. induction sessions as [|s sessions IH]; intros st Hc; [done|].
  cbn [foldl]. destruct (place_placed_or_failed strategy seed input st s Hc) as [Hc' Hs'].
  destruct (IH _ Hc') as [Hc'' Hs'']. split; [done|].
  by rewrite Hs'', Hs', <-Permutation_middle.
Qed.

(** *** The Compactor moves sessions to legal slots only *)

Lemma shift_step input st placement :
  consistent input st → step input st (shift input st placement) [].
Proof.
  intros Hc. unfold shift. case_decide as Hin; [|by apply step_refl].
  destruct (earlier_slots _ _ _ _) as [|earliest rest] eqn:Hslots;
    [by apply step_refl|].
  assert (earliest ∈ earlier_slots input (undo st placement) placement.1 placement.2)
    as [_ Hcand%candidates_legal]%list_elem_of_filter
    by (rewrite Hslots; apply elem_of_cons; by left).
  destruct (undo_placed input st placement Hc Hin) as [Hp Hf].
  split.
  - apply commit_consistent; [by apply undo_consistent|done].
  - cbn [commit placed]. rewrite Hp. by destruct placement.
  - done.
Qed.

Lemma shift_all input st placements :
  consistent input st → step input st (foldl (shift input) st placements) [].
Proof.
  revert st. induction placements as [|x placements IH]; intros st Hc;
    [by apply step_refl|].
  cbn [foldl]. pose proof (shift_step input st x Hc) as Hstep.
  apply (step_after _ _ _ _ _ Hstep), IH. by destruct Hstep.
Qed.

Lemma compact_step input rounds st :
  consistent input st → step input st (compact input rounds st) [].
Proof.
  revert st. induction rounds as [|rounds IH]; intros st Hc; simpl;
    [by apply step_refl|].
  case_decide; [by apply step_refl|].
  pose proof (shift_all input st (merge_sort reads_before (placed st)) Hc) as Hstep.
  apply (step_after _ _ _ _ _ Hstep), IH. by destruct Hstep.
Qed.

(** *** A whole run *)

(** Every run ends in a consistent state that accounts for each of the
    expanded sessions once, placed or failed. *)
Lemma run_sound strategy seed input :
  consistent input (run strategy seed input)
  ∧ sessions_of (run strategy seed input) ≡ₚ expand input.
Proof.
  unfold run.
  set (sessions := order input (expand input)).
  destruct (place_all strategy seed input
              (initial (retry_budget strategy (length sessions))) sessions)
    as [Hc Hs]; [apply initial_consistent|].
  destruct (compact_step input (periods_per_day (calendar input)) _ Hc)
    as [Hc' Hp Hf].
  split; [done|]. unfold sessions_of in *. rewrite Hp, Hf. simpl.
  rewrite Hs. simpl. rewrite app_nil_r. apply merge_sort_Permutation.
Qed.

Lemma generate_run strategy input regenerate fresh out :
  generate strategy input regenerate fresh = inr out →
  config_errors input = []
  ∧ ∃ seed, seed = (if regenerate then fresh else default_seed)
      ∧ entries out = entries_of_state (run strategy seed input)
      ∧ failedSessions out = failed (run strategy seed input).
Proof.
  unfold generate. destruct (config_errors input); [|done].
  intros [= <-]. split; [done|]. by eexists.
Qed.

(** *** The entries of a run *)

Lemma teacher_keys_sublist placement :
  (teacher_key <$> entries_of placement)
    `sublist_of` keys_of placement.1 placement.2.
Proof.
  unfold entries_of, keys_of. rewrite <-list_fmap_compose.
  induction (session_periods placement.1 placement.2) as [|q periods IH]; [done|].
  rewrite fmap_cons, bind_cons. cbn [app]. by apply sublist_skip, sublist_cons, sublist_cons.
Qed.

Lemma room_keys_sublist placement :
  (room_key <$> entries_of placement)
    `sublist_of` keys_of placement.1 placement.2.
Proof.
  unfold entries_of, keys_of. rewrite <-list_fmap_compose.
  induction (session_periods placement.1 placement.2) as [|q periods IH]; [done|].
  rewrite fmap_cons, bind_cons. cbn [app]. by apply sublist_cons, sublist_skip, sublist_cons.
Qed.

Lemma section_keys_sublist placement :
  (section_key <$> entries_of placement)
    `sublist_of` keys_of placement.1 placement.2.
Proof.
  unfold entries_of, keys_of. rewrite <-list_fmap_compose.
  induction (session_periods placement.1 placement.2) as [|q periods IH]; [done|].
  rewrite fmap_cons, bind_cons. cbn [app]. by apply sublist_cons, sublist_cons, sublist_skip.
Qed.

Lemma fmap_bind_list {A B C} (f : B → C) (g : A → list B) (l : list A) :
  f <$> (l ≫= g) = l ≫= λ x, f <$> g x.
Proof.
  induction l as [|x l IH]; [done|].
  by rewrite !bind_cons, fmap_app, IH.
Qed.

Lemma entries_keys_NoDup (key : TimetableEntry → Key) placements :
  (∀ placement, (key <$> entries_of placement)
                  `sublist_of` keys_of placement.1 placement.2) →
  NoDup (all_keys placements) →
  NoDup (key <$> (placements ≫= entries_of)).
Proof.
  intros Hsub Hnd. apply (sublist_NoDup _ (all_keys placements)); [done|].
  rewrite fmap_bind_list. unfold all_keys. by apply sublist_bind.
Qed.

Lemma NoDup_no_two_share {K} (key : TimetableEntry → K) timetable :
  NoDup (key <$> timetable) → no_two_share key timetable.
Proof.
  intros Hnd i j e1 e2 Hi Hj Hkey.
  apply (NoDup_lookup _ i j (key e1) Hnd); rewrite list_lookup_fmap.
  - by rewrite Hi.
  - by rewrite Hj, Hkey.
Qed.

(** The placements of a run, in the order in which they were committed
    last. *)
Lemma generate_placements strategy input regenerate fresh out :
  generate strategy input regenerate fresh = inr out →
  ∃ placements,
    entries out = placements ≫= entries_of
    ∧ (∀ s slot, (s, slot) ∈ placements → fits input s slot = true)
    ∧ NoDup (all_keys placements)
    ∧ (fst <$> placements) ++ failedSessions out ≡ₚ expand input.
Proof.
  intros (_ & seed & _ & Hentries & Hfailed)%generate_run.
  destruct (run_sound strategy seed input) as [[Hfit Hnd _] Hsessions].
  exists (reverse (placed (run strategy seed input))).
  split; [done|]. split; [|split].
  - intros s slot Hin. apply Hfit. by rewrite elem_of_reverse in Hin.
  - unfold all_keys. by rewrite reverse_Permutation.
  - rewrite Hfailed, fmap_reverse, reverse_Permutation. done.
Qed.

(** *** The conflict reports *)

Lemma filter_two {A} (P : A → Prop) `{!∀ x, Decision (P x)} (l : list A) i j x y :
  i ≠ j → l !! i = Some x → l !! j = Some y → P x → P y →
  2 ≤ length (filter P l).
Proof.
  revert i j. induction l as [|z l IH]; intros i j Hij Hi Hj Hx Hy; [done|].
  assert (∀ u k, l !! k = Some u → P u → 1 ≤ length (filter P l)) as Hone.
  { intros u k Hk Hu.
    assert (u ∈ filter P l) as Hin.
    { apply list_elem_of_filter. split; [done|]. by eapply list_elem_of_lookup_2. }
    destruct (filter P l); [by apply elem_of_nil in Hin|cbn; lia]. }
  destruct i as [|i], j as [|j]; [done| | |].
  - cbn in Hi, Hj. injection Hi as ->.
    rewrite filter_cons_True by done. cbn. specialize (Hone y j Hj Hy). lia.
  - cbn in Hi, Hj. injection Hj as ->.
    rewrite filter_cons_True by done. cbn. specialize (Hone x i Hi Hx). lia.
  - cbn in Hi, Hj. assert (2 ≤ length (filter P l)) by (apply (IH i j); [lia|done..]).
    rewrite filter_cons. destruct (decide (P z)); cbn; lia.
Qed.

Lemma filter_at_most_one {A B} `{!EqDecision B} (f : A → B) (k : B) (l : list A) :
  NoDup (f <$> l) → length (filter (λ x, f x = k) l) ≤ 1.
Proof.
  induction l as [|x l IH]; [cbn; lia|].
  rewrite fmap_cons, NoDup_cons. intros [Hx Hl].
  rewrite filter_cons. destruct (decide (f x = k)) as [<-|]; [|by apply IH].
  replace (filter (λ y, f y = f x) l) with (@nil A); [cbn; lia|].
  symmetry. apply elem_of_nil_inv. intros y [Heq Hy]%list_elem_of_filter.
  apply Hx. rewrite <-Heq. by apply list_elem_of_fmap_2.
Qed.

Lemma report_status {V C} (violated : list V) (kept : list C) :
  status (report violated kept) = PASS ↔ violated = [].
Proof. unfold report. cbn. by destruct violated. Qed.

Lemma holders_triple who name day period timetable :
  holders who name day period timetable
  = filter (λ e, (who e, entry_day e, entry_period e) = (name, day, period)) timetable.
Proof.
  unfold holders. apply list_filter_iff. intros e. split.
  - by intros (-> & -> & ->).
  - by intros [= -> -> ->].
Qed.

Lemma conflicts_listed who timetable i j e1 e2 :
  i ≠ j → timetable !! i = Some e1 → timetable !! j = Some e2 →
  who e1 = who e2 → entry_day e1 = entry_day e2 →
  entry_period e1 = entry_period e2 →
  listed_together who (conflicts who timetable) e1 e2.
Proof.
  intros Hij Hi Hj Hwho Hday Hperiod.
  set (group := holders who (who e1) (entry_day e1) (entry_period e1) timetable).
  assert (2 ≤ length group) as Htwo.
  { by apply (filter_two _ timetable i j e1 e2). }
  assert (e1 ∈ group ∧ e2 ∈ group) as [Hin1 Hin2].
  { split; apply list_elem_of_filter; (split; [done|by eapply list_elem_of_lookup_2]). }
  exists {| conflict_name := who e1; conflict_day := entry_day e1;
            conflict_period := entry_period e1; conflict_count := length group;
            conflicting_assignments := assignment_of <$> group |}.
  split.
  - unfold conflicts, report. cbn [violations]. apply list_elem_of_omap.
    exists (who e1, entry_day e1, entry_period e1). split.
    + unfold held_slots. apply elem_of_remove_dups.
      apply (list_elem_of_fmap_2 (λ e, (who e, entry_day e, entry_period e))).
      by eapply list_elem_of_lookup_2.
    + cbn. fold group. by rewrite bool_decide_eq_true_2.
  - cbn. rewrite length_fmap. repeat split; try done; by apply list_elem_of_fmap_2.
Qed.

Lemma conflicts_pass who timetable :
  status (conflicts who timetable) = PASS
  ↔ no_two_share (λ e, (who e, entry_day e, entry_period e)) timetable.
Proof.
  split.
  - intros Hpass i j e1 e2 Hi Hj [= Hwho Hday Hperiod].
    destruct (decide (i = j)) as [|Hij]; [done|exfalso].
    destruct (conflicts_listed who timetable i j e1 e2) as (c & Hc & _); [done..|].
    unfold conflicts in Hpass, Hc. apply report_status in Hpass.
    unfold report in Hc. cbn [violations] in Hc.
    rewrite Hpass in Hc. by apply elem_of_nil in Hc.
  - intros Hshare. apply report_status.
    assert (NoDup ((λ e, (who e, entry_day e, entry_period e)) <$> timetable)) as Hnd.
    { apply NoDup_alt. intros i j k. rewrite !list_lookup_fmap.
      destruct (timetable !! i) as [e1|] eqn:Hi; [|done].
      destruct (timetable !! j) as [e2|] eqn:Hj; [|done].
      cbn. intros [= <-] [= Hw Hd Hp].
      apply (Hshare i j e1 e2); [done..|]. cbn. congruence. }
    apply elem_of_nil_inv. intros c ([[name day] period] & _ & Hc)%list_elem_of_omap.
    cbn in Hc. rewrite bool_decide_eq_false_2 in Hc; [done|].
    rewrite holders_triple.
    pose proof (filter_at_most_one _ (name, day, period) timetable Hnd). lia.
Qed.

Lemma conflicts_fail who timetable i j e1 e2 :
  i ≠ j → timetable !! i = Some e1 → timetable !! j = Some e2 →
  who e1 = who e2 → entry_day e1 = entry_day e2 →
  entry_period e1 = entry_period e2 →
  status (conflicts who timetable) = FAIL
  ∧ listed_together who (conflicts who timetable) e1 e2.
Proof.
  intros Hij Hi Hj Hwho Hday Hperiod. split; [|by eapply conflicts_listed].
  destruct (status (conflicts who timetable)) eqn:Hstatus; [exfalso|done].
  apply conflicts_pass in Hstatus. apply Hij, (Hstatus i j e1 e2); [done..|].
  cbn. congruence.
Qed.

Lemma generated_no_two_share strategy input regenerate fresh out who key :
  (∀ placement, (key <$> entries_of placement)
                  `sublist_of` keys_of placement.1 placement.2) →
  (∀ e1 e2, who e1 = who e2 → entry_day e1 = entry_day e2 →
            entry_period e1 = entry_period e2 → key e1 = key e2) →
  generate strategy input regenerate fresh = inr out →
  no_two_share (λ e, (who e : string, entry_day e, entry_period e)) (entries out).
Proof.
  intros Hsub Hkey (placements & -> & _ & Hnd & _)%generate_placements.
  pose proof (NoDup_no_two_share key _ (entries_keys_NoDup key _ Hsub Hnd)) as Hshare.
  intros i j e1 e2 Hi Hj [= Hwho Hday Hperiod].
  apply (Hshare i j e1 e2); [done..|]. by apply Hkey.
Qed.


(** *** Practical blocks *)









(** *** Weekly counts *)







Lemma elem_of_nonempty {A} (l : list A) : 0 < length l → ∃ x, x ∈ l.
Proof. destruct l as [|x l]; cbn; [lia|]. exists x. left. Qed.



(** *** One record for a subject and section *)







(** *** The entries of a placed session *)












(** *** Counting the sessions of a timetable *)





(** *** Moving an entry *)

Lemma violated_Some checks constraint :
  violated checks = Some constraint → (constraint, true) ∈ checks.
Proof.
  unfold violated. intros Hviolated.
  destruct (filter (λ c, c.2 = true) checks) as [|[n b] rest] eqn:Hfilter; [done|].
  injection Hviolated as <-.
  assert ((n, b) ∈ filter (λ c, c.2 = true) checks) as Hin
    by (rewrite Hfilter; left).
  apply list_elem_of_filter in Hin as [Hb Hin]. cbn in Hb. by subst b.
Qed.

Lemma violated_None checks :
  violated checks = None → Forall (λ c, c.2 = false) checks.
Proof.
  unfold violated. intros Hviolated. apply Forall_forall. intros [n b] Hin.
  destruct b; [exfalso|done].
  assert ((n, true) ∈ filter (λ c, c.2 = true) checks) as Hfiltered
    by (by apply list_elem_of_filter).
  destruct (filter (λ c, c.2 = true) checks); [by apply elem_of_nil in Hfiltered|done].
Qed.

Lemma local_checks_names input others e :
  (local_checks input others e).*1 = check_names.
Proof. done. Qed.

Lemma clashes_spec {K} `{EqDecision K} (key : TimetableEntry → K) others e :
  clashes key others e = true
  ↔ ∃ o, o ∈ others ∧ key o = key e ∧ entry_day o = entry_day e
         ∧ entry_period o = entry_period e.
Proof. unfold clashes. by rewrite bool_decide_eq_true, Exists_exists. Qed.

Lemma moveEntry_rejected input stored entryId newDay newPeriod reason :
  moveEntry input stored entryId newDay newPeriod = Rejected reason →
  (stored !! entryId = None ∧ reason = "unknown_entry")
  ∨ ∃ e, stored !! entryId = Some e
         ∧ reason ∈ check_names
         ∧ (reason, true)
             ∈ local_checks input (delete entryId stored) (moved e newDay newPeriod).
Proof.
  unfold moveEntry. destruct (stored !! entryId) as [e|]; [|intros [= <-]; by left].
  cbv zeta. destruct (violated _) as [constraint|] eqn:Hviolated; [|done].
  intros [= <-]. right. exists e. split; [done|].
  apply violated_Some in Hviolated. split; [|done].
  rewrite <-(local_checks_names input (delete entryId stored)
               (moved e newDay newPeriod)).
  by apply (list_elem_of_fmap_2 fst) in Hviolated.
Qed.

Lemma moveEntry_moved input stored entryId newDay newPeriod stored' :
  moveEntry input stored entryId newDay newPeriod = Moved stored' →
  ∃ e, stored !! entryId = Some e
       ∧ stored' = <[entryId := moved e newDay newPeriod]> stored
       ∧ Forall (λ c, c.2 = false)
                (local_checks input (delete entryId stored)
                              (moved e newDay newPeriod)).
Proof.
  unfold moveEntry. destruct (stored !! entryId) as [e|]; [|done].
  cbv zeta. destruct (violated _) as [constraint|] eqn:Hviolated; [done|].
  intros [= <-]. exists e. split; [done|]. split; [done|].
  by apply violated_None.
Qed.

Lemma check_names_nonempty reason :
  reason ∈ "unknown_entry" :: check_names → reason ≠ "".
Proof.
  unfold check_names. intros Hin.
  repeat (apply elem_of_cons in Hin as [->|Hin]); [done..|by apply elem_of_nil in Hin].
Qed.

(** The example of §8: the class of Thursday cannot go where its teacher
    has the class of Tuesday. *)
Lemma move_to_busy_teacher :
  moveEntry department (entries department_timetable) 3 Tue 1
  = Rejected "teacher_conflict".
Proof. vm_compute. reflexivity. Qed.

Lemma move_to_free_slot :
  ∃ stored, moveEntry department (entries department_timetable) 3 Thu 2 = Moved stored.
Proof. eexists. vm_compute. reflexivity. Qed.
End EngineFacts.

(** ** The page of the constraints *)

Module ConstraintTestingFacts.
Import Js ConstraintTesting.

Lemma constraintTypes_length : length constraintTypes = 11.
Proof. reflexivity. Qed.

Lemma is_text_spec s v : is_text s v = true ↔ v = text s.
Proof.
  destruct v; cbn; try (split; [done|discriminate]).
  rewrite bool_decide_eq_true. split; [by intros ->|by intros [= ->]].
Qed.

Lemma getStatusIcon_pass status :
  getStatusIcon status = "✅" ↔ status = text "PASS".
Proof.
  unfold getStatusIcon. rewrite <-is_text_spec.
  destruct (is_text "PASS" status); split; done.
Qed.

Lemma or_truthy a b : truthy a = true → or_ a b = a.
Proof. unfold or_. by intros ->. Qed.

Lemma or_falsy a b : truthy a = false → or_ a b = b.
Proof. unfold or_. by intros ->. Qed.

(** A child that is falsy shows nothing, or [0]. *)
Lemma child_falsy v :
  truthy v = false → child v = Some (if is_zero v then "0" else "").
Proof.
  destruct v as [| |[]|[|n]|s| |]; cbn; try done.
  case_bool_decide as Hs; [done|]. intros _.
  destruct (decide (s = "")) as [->|]; [done|]. by destruct Hs.
Qed.

Lemma when_truthy {A} c (element : option A) :
  truthy c = true → when c element = inl <$> element.
Proof. unfold when. by intros ->. Qed.

Lemma when_falsy {A} c (element : option A) :
  truthy c = false → when c element = Some (inr (if is_zero c then "0" else "")).
Proof. unfold when. intros Hc. by rewrite Hc, child_falsy. Qed.

(** [mapM] over the image of a list, when every element gives a result. *)
Lemma mapM_fmap_Some {A B C} (f : B → option C) (g : A → B) (h : A → C) l :
  (∀ x, x ∈ l → f (g x) = Some (h x)) → mapM f (g <$> l) = Some (h <$> l).
Proof.
  induction l as [|x l IH]; intros Hall; [done|].
  cbn. rewrite (Hall x) by left. cbn.
  rewrite IH by (intros ??; apply Hall; by right). done.
Qed.

End ConstraintTestingFacts.

(** ** The report as the page shows it *)

Module ReportJsonFacts.
Import Js Engine ConstraintTesting ReportJson ConstraintTestingFacts.

Lemma field_here k v rest : field k (object ((k, v) :: rest)) = v.
Proof. unfold field, get. by rewrite filter_cons_True. Qed.

Lemma field_next k k' v rest :
  k' ≠ k → field k (object ((k', v) :: rest)) = field k (object rest).
Proof. intros Hk. unfold field, get. by rewrite filter_cons_False. Qed.

Lemma field_none k : field k (object []) = undefined.
Proof. done. Qed.

Ltac read_fields :=
  repeat first [ rewrite field_here | rewrite field_next by done
               | rewrite field_none ].

Lemma child_or_text s v : child v = Some "" → child (or_ (text s) v) = Some s.
Proof.
  intros Hv. unfold or_. cbn [truthy]. case_bool_decide as Hs; [done|].
  rewrite Hv. destruct (decide (s = "")) as [->|]; [done|]. by destruct Hs.
Qed.


Section lines.
Variable stringify : Json → string.
Variable excerpt : Json → string.

Lemma render_conflict kind c :
  renderViolationDetails stringify (kind_id kind) (conflict_json kind c)
  = Some (conflict_lines kind c).
Proof.
  unfold renderViolationDetails, conflict_json, conflict_lines.
  destruct kind; cbn [kind_id].
  - rewrite !decide_False, decide_True, decide_True by (done || by left).
    cbn [record mbind option_bind]. read_fields.
    rewrite (child_or_text (conflict_name c) undefined) by done.
    cbn [child mbind option_bind map_opt map_].
    rewrite (mapM_fmap_Some _ _ (assignment_line of_teachers)); [done|].
    intros a _. unfold assignment_json, assignment_line.
    cbn [record mbind option_bind]. read_fields.
    rewrite child_or_text by done. done.
  - rewrite !decide_False, decide_True, decide_False by (done || by right).
    cbn [record mbind option_bind]. read_fields.
    unfold or_ at 1. cbn [truthy child mbind option_bind map_opt map_].
    rewrite (mapM_fmap_Some _ _ (assignment_line of_rooms)); [done|].
    intros a _. unfold assignment_json, assignment_line.
    cbn [record mbind option_bind]. read_fields.
    unfold or_. by cbn [truthy child mbind option_bind].
Qed.



(** The summary of a compliant item that is an object. *)
Lemma renderCompliantItemSummary_object constraintType fields :
  is_Some (renderCompliantItemSummary excerpt constraintType (object fields)).
Proof.
  unfold renderCompliantItemSummary. by repeat case_decide.
Qed.

(** *** The panel of a report *)

Lemma or_number n v : truthy v = false → or_ (or_ (number n) v) (number 0) = number n.
Proof.
  intros Hv. unfold or_. cbn [truthy]. case_bool_decide as Hn.
  - cbn [truthy]. by rewrite bool_decide_eq_true_2.
  - rewrite Hv. by rewrite Hn.
Qed.

Lemma or_undefined v : or_ undefined v = v.
Proof. done. Qed.

Lemma or_array l v : or_ (array l) v = array l.
Proof. done. Qed.

Lemma or_number_S n v : or_ (number (S n)) v = number (S n).
Proof. done. Qed.

Lemma status_line_json st :
  child (status_json st) = Some (toString (status_json st))
  ∧ getStatusIcon (status_json st) +:+ " " +:+ toString (status_json st)
    = status_line st.
Proof. by destruct st. Qed.

Lemma compliantData_report {V C} (violation : V → Json) cname (item : C → Json)
    (r : Report V C) :
  cname ∈ compliant_fields →
  compliantData (analysis_json violation cname item r)
  = array (item <$> compliant r)
  ∧ compliantCount (analysis_json violation cname item r)
    = number (length (compliant r))
  ∧ field "conflicts" (analysis_json violation cname item r) = undefined
  ∧ field "total_conflicts" (analysis_json violation cname item r) = undefined.
Proof.
  intros Hin. unfold compliant_fields in Hin.
  repeat (apply elem_of_cons in Hin as [->|Hin]); [..|by apply elem_of_nil in Hin];
    unfold compliantData, compliantCount, analysis_json; read_fields;
    (split; [by rewrite ?or_undefined, ?or_array|]);
    (split; [|done]);
    (destruct (compliant r) as [|x l]; [done|]);
    cbn [fmap list_fmap length_ length];
    by rewrite ?or_undefined, ?or_number_S, ?length_fmap.
Qed.

Lemma panel_of_report {V C} constraintType (violation : V → Json)
    cname (item : C → Json) (r : Report V C) (lines : V → list string) :
  cname ∈ compliant_fields →
  (∀ v, renderViolationDetails stringify constraintType (violation v)
        = Some (lines v)) →
  (∀ x, ∃ fields, item x = object fields) →
  ∃ d, renderDetailedAnalysis stringify excerpt constraintType
         (analysis_json violation cname item r) = Some (Some d)
       ∧ detail_status d = status_line (status r)
       ∧ detail_total_issues d = pretty (total_violations r)
       ∧ detail_compliant_count d = pretty (length (compliant r))
       ∧ detail_violations d
         = (if violations r is [] then inr "" else inl (lines <$> violations r))
       ∧ (detail_compliant d = None ↔ compliant r = [])
       ∧ ∀ items, detail_compliant d = Some items →
           mapM (renderCompliantItemSummary excerpt constraintType)
                (item <$> take 12 (compliant r))
           = Some (compliant_shown items).
Proof.
  intros Hin Hlines Hitem.
  destruct (compliantData_report violation cname item r Hin)
    as (Hdata & Hcount & Hconflicts & Htotal).
  unfold renderDetailedAnalysis.
  assert (truthy (analysis_json violation cname item r) = true) as -> by done.
  assert (field "status" (analysis_json violation cname item r)
          = status_json (status r)) as ->
    by (unfold analysis_json; by read_fields).
  destruct (status_line_json (status r)) as [-> Hstatus].
  cbn [mbind option_bind].
  assert (totalIssues (analysis_json violation cname item r)
          = number (total_violations r)) as ->.
  { unfold totalIssues. rewrite Htotal. unfold analysis_json at 1. read_fields.
    by rewrite or_number. }
  rewrite Hcount. cbn [child mbind option_bind].
  assert (violationsShown stringify constraintType
            (analysis_json violation cname item r)
          = Some (if violations r is [] then inr "" else inl (lines <$> violations r)))
    as ->.
  { unfold violationsShown. rewrite Hconflicts. unfold analysis_json.
    read_fields. destruct (violations r) as [|v l]; [done|].
    rewrite !or_array.
    cbn [fmap list_fmap length_ length positive truthy map_ orb].
    rewrite bool_decide_eq_true_2 by lia.
    change (violation v :: (violation <$> l)) with (violation <$> (v :: l)).
    rewrite (mapM_fmap_Some _ _ lines) by (intros ??; apply Hlines). done. }
  cbn [mbind option_bind].
  unfold renderCompliantItems. rewrite Hdata.
  destruct (compliant r) as [|x l] eqn:Hcompliant.
  { cbn [fmap list_fmap].
    assert (is_zero (length_ (array [])) = true) as -> by done.
    cbn [mbind option_bind]. eexists. split; [reflexivity|].
    cbn [detail_status detail_total_issues detail_compliant_count
         detail_violations detail_compliant].
    repeat split; try done. }
  assert (is_zero (length_ (array (item <$> x :: l))) = false) as -> by done.
  rewrite <-fmap_take.
  destruct (mapM (renderCompliantItemSummary excerpt constraintType)
                 (item <$> take 12 (x :: l))) as [shown|] eqn:Hshown.
  - cbn [mbind option_bind]. eexists. split; [reflexivity|].
    cbn [detail_status detail_total_issues detail_compliant_count
         detail_violations detail_compliant].
    repeat split; try done. by intros items [= <-].
  - exfalso. apply eq_None_not_Some in Hshown. apply Hshown, mapM_is_Some.
    apply Forall_fmap, Forall_forall. intros y _. cbn [compose].
    destruct (Hitem y) as [fields ->]. apply renderCompliantItemSummary_object.
Qed.

(** *** The panels of the validator's reports *)

Lemma panel_shows {V C} constraintType (violation : V → Json) cname
    (item : C → Json) (r : Report V C) (lines : V → list string) analysis :
  cname ∈ compliant_fields →
  analysis = analysis_json violation cname item r →
  (∀ v, renderViolationDetails stringify constraintType (violation v)
        = Some (lines v)) →
  (∀ x, ∃ fields, item x = object fields) →
  ∃ d, renderDetailedAnalysis stringify excerpt constraintType analysis
       = Some (Some d)
       ∧ shows d r lines.
Proof.
  intros Hin -> Hlines Hitem.
  destruct (panel_of_report constraintType violation cname item r lines Hin Hlines Hitem)
    as (d & Hd & Hstatus & Hissues & Hcount & Hviolations & _).
  exists d. split; [done|]. by unfold shows.
Qed.

End lines.

Lemma validator_analysis input timetable :
  let data := constraintData input timetable in
  field "validation_results" data = undefined
  ∧ field "subject_frequency" (field "constraint_analysis" data)
    = analysis_json frequency_json "compliant_subjects" frequency_json
                    (subject_frequency input timetable)
  ∧ field "teacher_conflicts" (field "constraint_analysis" data)
    = analysis_json (conflict_json of_teachers) "compliant_entries" entry_json
                    (teacher_conflicts timetable)
  ∧ field "room_conflicts" (field "constraint_analysis" data)
    = analysis_json (conflict_json of_rooms) "compliant_entries" entry_json
                    (room_conflicts timetable)
  ∧ field "practical_blocks" (field "constraint_analysis" data)
    = analysis_json block_json "compliant_blocks" block_json
                    (practical_blocks timetable).
Proof.
  cbv zeta. unfold constraintData, constraint_analysis, validate.
  cbn [report_subject_frequency report_teacher_conflicts report_room_conflicts
       report_practical_blocks].
  repeat split; by read_fields.
Qed.

Lemma conflicts_panel stringify excerpt input timetable kind :
  ∃ d, renderDetailedAnalysis stringify excerpt (kind_id kind)
         (field (kind_id kind)
                (field "constraint_analysis" (constraintData input timetable)))
       = Some (Some d)
       ∧ shows d (conflicts_of kind timetable) (conflict_lines kind).
Proof.
  destruct (validator_analysis input timetable) as (_ & _ & Hteachers & Hrooms & _).
  apply (panel_shows _ _ _ (conflict_json kind) "compliant_entries" entry_json).
  - unfold compliant_fields. set_solver.
  - by destruct kind.
  - intros c. apply render_conflict.
  - intros e. by eexists.
Qed.



End ReportJsonFacts.

(** ** Dropping an entry on a cell *)

Module TimetableFacts.
Import Js Handler Api Timetable.


Lemma onDrop_idle srv day index s :
  editMode s = false ∨ draggingEntry s = None →
  onDrop srv day index s = (tt, s).
Proof.
  intros Hidle. unfold onDrop, rendered, mbind, M_bind.
  destruct (draggingEntry s) as [dragging|]; [|done].
  by destruct Hidle as [->|?].
Qed.

Lemma onDrop_rejected srv day index s dragging err :
  editMode s = true → draggingEntry s = Some dragging →
  move_answer srv dragging day index = inl err →
  exec (onDrop srv day index) s
  = {| timetableData := timetableData s;
       selectedClassGroup := selectedClassGroup s;
       editMode := true;
       draggingEntry := None;
       message := message_after err (message s);
       sent := sent s ++ [move_request dragging day index];
       timers := S (timers s) |}.
Proof.
  unfold move_answer, move_request, message_after.
  intros Hedit Hdragging Hmove. unfold exec, onDrop, rendered, mbind, M_bind.
  rewrite Hdragging, Hedit, Hmove. unfold caught.
  destruct s as [data group edit dragging' msg log t]. cbn in Hedit. subst edit.
  by destruct (decide (status err = Some 401)).
Qed.

Lemma onDrop_moved srv day index s dragging data :
  editMode s = true → draggingEntry s = Some dragging →
  move_answer srv dragging day index = inr tt →
  latest srv (latestUrl (selectedClassGroup s)) = inr data →
  exec (onDrop srv day index) s
  = {| timetableData := data;
       selectedClassGroup := selectedClassGroup s;
       editMode := true;
       draggingEntry := None;
       message := Some {| message_type := "success";
                          message_text := "Slot moved successfully" |};
       sent := sent s ++ [move_request dragging day index;
                          Get (latestUrl (selectedClassGroup s))];
       timers := S (timers s) |}.
Proof.
  unfold move_answer, move_request.
  intros Hedit Hdragging Hmove Hlatest. unfold exec, onDrop, rendered, mbind, M_bind.
  rewrite Hdragging, Hedit, Hmove.
  destruct s as [old group edit dragging' msg log t]. cbn in Hedit, Hlatest.
  subst edit. cbn. rewrite Hlatest. cbn. by rewrite <-app_assoc.
Qed.

Lemma onDrop_moved_not_refreshed srv day index s dragging err :
  editMode s = true → draggingEntry s = Some dragging →
  move_answer srv dragging day index = inr tt →
  latest srv (latestUrl (selectedClassGroup s)) = inl err →
  exec (onDrop srv day index) s
  = {| timetableData := optimistic dragging day index (timetableData s);
       selectedClassGroup := selectedClassGroup s;
       editMode := true;
       draggingEntry := None;
       message := message_after err (message s);
       sent := sent s ++ [move_request dragging day index;
                          Get (latestUrl (selectedClassGroup s))];
       timers := S (timers s) |}.
Proof.
  unfold move_answer, move_request, message_after.
  intros Hedit Hdragging Hmove Hlatest. unfold exec, onDrop, rendered, mbind, M_bind.
  rewrite Hdragging, Hedit, Hmove.
  destruct s as [old group edit dragging' msg log t]. cbn in Hedit, Hlatest.
  subst edit. cbn. rewrite Hlatest. unfold caught.
  destruct (decide (status err = Some 401)); cbn; by rewrite <-app_assoc.
Qed.

(** The data of the page change only once the move has been accepted. *)
Lemma onDrop_changes_after_success srv day index s :
  timetableData (exec (onDrop srv day index) s) ≠ timetableData s →
  ∃ dragging, draggingEntry s = Some dragging ∧ editMode s = true
              ∧ succeeded (move_answer srv dragging day index) = true.
Proof.
  intros Hchanged.
  destruct (draggingEntry s) as [dragging|] eqn:Hdragging;
    [|unfold exec in Hchanged;
      by rewrite (onDrop_idle srv day index s) in Hchanged by (by right)].
  destruct (editMode s) eqn:Hedit;
    [|unfold exec in Hchanged;
      by rewrite (onDrop_idle srv day index s) in Hchanged by (by left)].
  exists dragging. split; [done|]. split; [done|].
  destruct (move_answer srv dragging day index) as [err|u] eqn:Hmove; [|done].
  by rewrite (onDrop_rejected srv day index s dragging err) in Hchanged.
Qed.

(** The optimistic update: the first entry with the id of the dragged one
    is given the day and the period of the cell, the others stay. *)
Lemma optimistic_entry dragging day index prev entries i :
  data_entries prev = Some entries →
  findIndex (same_id dragging) entries = Some i →
  optimistic dragging day index (Some prev)
  = Some {| data_days := data_days prev; data_timeSlots := data_timeSlots prev;
            data_entries := Some (alter (dropped day (index + 1)) i entries) |}.
Proof.
  intros Hentries Hfound. unfold optimistic. rewrite Hentries.
  unfold default, from_option, Datatypes.id. by rewrite Hfound.
Qed.

Lemma optimistic_others dragging day index prev entries i j :
  data_entries prev = Some entries →
  findIndex (same_id dragging) entries = Some i →
  j ≠ i →
  (data_entries <$> optimistic dragging day index (Some prev))
  ≫= (λ after, after ≫= (.!! j))
  = entries !! j.
Proof.
  intros Hentries Hfound Hj.
  rewrite (optimistic_entry _ _ _ _ entries i) by done. cbn.
  by rewrite list_lookup_alter_ne.
Qed.

(** The sample: the refused drop of the Thursday class on Tuesday. *)
Lemma refused_drop_example :
  exec (onDrop (refusing "teacher_conflict") "Tue" 0) dragging_thursday
  = {| timetableData := timetableData dragging_thursday;
       selectedClassGroup := "24SW-A";
       editMode := true;
       draggingEntry := None;
       message := Some {| message_type := "error";
                          message_text := "teacher_conflict" |};
       sent := [Post "/api/timetable/slots/4/move/"
                     {| body_day := "Tue"; body_period := 1 |}];
       timers := 1 |}.
Proof. reflexivity. Qed.

End TimetableFacts.

(** ** The timetable, its reports and the page *)

Module ValidatorFacts.
Import Engine ConstraintTesting ReportJson EngineFacts ReportJsonFacts.

(** C1: in the timetable that [generate] returns, no two entries share a
    (teacher, day, period) and no two share a (room, day, period), so the
    teacher_conflicts and room_conflicts reports on it PASS.  On any
    timetable where two entries do share a teacher (or a room) at a (day,
    period), the report FAILs with a violation record that names the
    teacher (room), the day and the period, counts the entries in conflict
    and lists the assignments of both.  The panel of the page shows the
    status of the report and, for each of its violations, the teacher
    (room), the day, the period, the count and a line for each of the
    conflicting assignments. *)
Theorem no_double_booking strategy input regenerate fresh out :
  generate strategy input regenerate fresh = inr out →
  no_two_share (λ e, (entry_teacher e, entry_day e, entry_period e)) (entries out)
  ∧ no_two_share (λ e, (entry_room e, entry_day e, entry_period e)) (entries out)
  ∧ status (teacher_conflicts (entries out)) = PASS
  ∧ status (room_conflicts (entries out)) = PASS
  ∧ (∀ timetable i j e1 e2,
      i ≠ j → timetable !! i = Some e1 → timetable !! j = Some e2 →
      entry_day e1 = entry_day e2 → entry_period e1 = entry_period e2 →
      (entry_teacher e1 = entry_teacher e2 →
         status (teacher_conflicts timetable) = FAIL
         ∧ listed_together entry_teacher (teacher_conflicts timetable) e1 e2)
      ∧ (entry_room e1 = entry_room e2 →
           status (room_conflicts timetable) = FAIL
           ∧ listed_together entry_room (room_conflicts timetable) e1 e2))
  ∧ ∀ stringify excerpt kind timetable,
      ∃ d, renderDetailedAnalysis stringify excerpt (kind_id kind)
             (field (kind_id kind)
                    (field "constraint_analysis" (constraintData input timetable)))
           = Some (Some d)
           ∧ shows d (conflicts_of kind timetable) (conflict_lines kind).
Proof.
  intros Hrun.
  assert (no_two_share (λ e, (entry_teacher e, entry_day e, entry_period e))
                       (entries out)) as Hteacher.
  { apply (generated_no_two_share _ _ _ _ _ entry_teacher teacher_key
             teacher_keys_sublist) in Hrun; [done|].
    unfold teacher_key. intros e1 e2 ???. congruence. }
  assert (no_two_share (λ e, (entry_room e, entry_day e, entry_period e))
                       (entries out)) as Hroom.
  { apply (generated_no_two_share _ _ _ _ _ entry_room room_key
             room_keys_sublist) in Hrun; [done|].
    unfold room_key. intros e1 e2 ???. congruence. }
  split; [done|]. split; [done|].
  split; [by apply conflicts_pass|]. split; [by apply conflicts_pass|].
  split; [|intros stringify excerpt kind timetable; apply conflicts_panel].
  intros timetable i j e1 e2 Hij Hi Hj Hday Hperiod.
  split; intros Hwho; by apply (conflicts_fail _ timetable i j).
Qed.

Lemma no_double_booking_witness :
  generate early_first department false 0 = inr department_timetable
  ∧ no_two_share (λ e, (entry_teacher e, entry_day e, entry_period e))
                 (entries department_timetable).
Proof.
  assert (generate early_first department false 0 = inr department_timetable)
    as Hrun by (vm_compute; reflexivity).
  split; [exact Hrun|].
  exact (proj1 (no_double_booking early_first department false 0
                  department_timetable Hrun)).
Defined.




(** A practical demanded twice for a section can come out as one block of
    six periods, which the report does not pass: the two sessions on the
    first free periods of Monday. *)
Example practical_demanded_twice :
  let first_fit :=
    {| score := λ _ _ _, 0; hash := λ _ _ _ _ _, 0; retry_budget := λ n, n |} in
  let input :=
    {| calendar := week; teachers := teachers department; rooms := rooms department;
       demands := [dbs_practical; dbs_practical];
       final_year_batches := []; labs_for_theory := false |} in
  ¬ demanded_once input
  ∧ match generate first_fit input false 0 with
    | inr out => status (practical_blocks (entries out)) = FAIL
    | inl _ => False
    end.
Proof.
  cbv zeta. split.
  - apply (bool_decide_eq_false_1 (demanded_once _)). by vm_compute.
  - by vm_compute.
Qed.



(** A week with four classes of a subject of three credit hours is a
    violation of the report. *)
Example four_classes_of_three :
  let class_on day :=
    {| entry_session :=
         {| session_subject := "DBS"; session_teacher := "Dr. Naeem";
            session_section := section_24SW_A; occurrence := 1;
            session_practical := false; session_thesis := false |};
       entry_day := day; entry_period := 2; entry_room := "Room-1" |} in
  let timetable := [class_on Mon; class_on Tue; class_on Wed; class_on Thu] in
  actual_count (frequency_of timetable dbs_theory) = 4
  ∧ frequency_violation_type (frequency_of timetable dbs_theory) = "too_many_classes"
  ∧ status (subject_frequency department timetable) = FAIL.
Proof. by vm_compute. Qed.

End ValidatorFacts.

(** ** A move, from the engine to the page *)

Module MoveFacts.
Import Js Handler Api Timetable EngineFacts TimetableFacts.

(** C8: when [moveEntry] rejects a move and the page gets the reason as
    the detail of the refused request, the stored entries are the ones
    there were, the reason is the name of a local check that the moved
    entry violates (or says that there is no such entry), the entries of
    the page are the ones there were, and the page shows the reason as an
    error.  The stored entries change only by a legal move, which changes
    the day and the period of the one entry; and the entries of the page
    change only once the move request has succeeded. *)
Theorem rejected_move_changes_nothing input stored entryId newDay newPeriod reason
    srv day index s dragging :
  Engine.moveEntry input stored entryId newDay newPeriod = Engine.Rejected reason →
  editMode s = true → draggingEntry s = Some dragging →
  move_answer srv dragging day index = inl (rejection reason) →
  Engine.store_after stored (Engine.moveEntry input stored entryId newDay newPeriod)
  = stored
  ∧ ((stored !! entryId = None ∧ reason = "unknown_entry")
     ∨ ∃ e, stored !! entryId = Some e
            ∧ reason ∈ Engine.check_names
            ∧ (reason, true)
                ∈ Engine.local_checks input (delete entryId stored)
                                      (Engine.moved e newDay newPeriod))
  ∧ timetableData (exec (onDrop srv day index) s) = timetableData s
  ∧ message (exec (onDrop srv day index) s)
    = Some {| message_type := "error"; message_text := reason |}
  ∧ sent (exec (onDrop srv day index) s)
    = sent s ++ [move_request dragging day index]
  ∧ (∀ stored0 entryId' day' period',
       Engine.store_after stored0
         (Engine.moveEntry input stored0 entryId' day' period') ≠ stored0 →
       ∃ e stored',
         Engine.moveEntry input stored0 entryId' day' period' = Engine.Moved stored'
         ∧ stored0 !! entryId' = Some e
         ∧ stored' = <[entryId' := Engine.moved e day' period']> stored0)
  ∧ (∀ srv' day' index' s',
       timetableData (exec (onDrop srv' day' index') s') ≠ timetableData s' →
       ∃ dragging', draggingEntry s' = Some dragging' ∧ editMode s' = true
                    ∧ succeeded (move_answer srv' dragging' day' index') = true).
Proof.
  intros Hrejected Hedit Hdragging Hanswer.
  pose proof (moveEntry_rejected _ _ _ _ _ _ Hrejected) as Hreason.
  assert (reason ≠ "") as Hnamed.
  { apply check_names_nonempty.
    destruct Hreason as [[_ ->]|(e & _ & Hin & _)]; [left|by right]. }
  rewrite (onDrop_rejected srv day index s dragging (rejection reason)) by done.
  cbn [timetableData message sent]. unfold message_after, or_else.
  rewrite decide_False by done. cbn [data_detail rejection].
  rewrite decide_False by done.
  split; [by rewrite Hrejected|]. split; [done|]. split; [done|].
  split; [done|]. split; [done|]. split.
  - intros stored0 entryId' day' period' Hchanged.
    destruct (Engine.moveEntry input stored0 entryId' day' period')
      as [stored'|reason'] eqn:Hmove; [|done].
    apply moveEntry_moved in Hmove as (e & He & -> & _).
    by exists e, (<[entryId' := Engine.moved e day' period']> stored0).
  - intros srv' day' index' s'. apply onDrop_changes_after_success.
Qed.

Lemma rejected_move_changes_nothing_witness :
  Engine.moveEntry Engine.department (Engine.entries Engine.department_timetable)
                   3 Engine.Tue 1
  = Engine.Rejected "teacher_conflict"
  ∧ timetableData (exec (onDrop (refusing "teacher_conflict") "Tue" 0)
                        dragging_thursday)
    = timetableData dragging_thursday
  ∧ message (exec (onDrop (refusing "teacher_conflict") "Tue" 0) dragging_thursday)
    = Some {| message_type := "error"; message_text := "teacher_conflict" |}.
Proof.
  assert (Engine.moveEntry Engine.department
            (Engine.entries Engine.department_timetable) 3 Engine.Tue 1
          = Engine.Rejected "teacher_conflict") as Hrejected
    by (vm_compute; reflexivity).
  split; [exact Hrejected|].
  destruct (rejected_move_changes_nothing Engine.department
              (Engine.entries Engine.department_timetable) 3 Engine.Tue 1
              "teacher_conflict" (refusing "teacher_conflict") "Tue" 0
              dragging_thursday dbs_on_thursday Hrejected)
    as (_ & _ & Hdata & Hmessage & _); [reflexivity..|].
  split; [exact Hdata|exact Hmessage].
Defined.

(** A legal move changes the day and the period of the one entry. *)
Lemma legal_move_changes_one_entry input stored entryId newDay newPeriod stored' :
  Engine.moveEntry input stored entryId newDay newPeriod = Engine.Moved stored' →
  Engine.store_after stored (Engine.moveEntry input stored entryId newDay newPeriod)
  = stored'
  ∧ length stored' = length stored
  ∧ (∀ j, j ≠ entryId → stored' !! j = stored !! j)
  ∧ ∃ e, stored !! entryId = Some e
         ∧ stored' !! entryId = Some (Engine.moved e newDay newPeriod).
Proof.
  intros Hmoved. rewrite Hmoved. split; [done|].
  apply moveEntry_moved in Hmoved as (e & He & -> & _).
  split; [by rewrite length_insert|]. split.
  - intros j Hj. by rewrite list_lookup_insert_ne.
  - exists e. split; [done|].
    apply list_lookup_insert_eq. by eapply lookup_lt_Some.
Qed.

End MoveFacts.

(** ** DepartmentConfig.js: editing and saving a configuration *)

Module ConfigFormFacts.
Import Js JsText Handler Api DepartmentConfig ConfigForm JsFacts DepartmentConfigFacts.

(** *** Splitting a label at the dash *)






(** *** Facts checked on each of the 1440 minutes of a day *)






(** *** The periods of a day, one more *)

Lemma dayPeriods_snoc n t d :
  dayPeriods (S n) (hhmm t) d
  = dayPeriods n (hhmm t) d ++ [range (t + n * d) (t + (n + 1) * d)].
Proof.
  revert t. induction n as [|n IH]; intros t.
  - simpl. rewrite formatTimeRange_hhmm. do 3 f_equal; lia.
  - change (dayPeriods (S (S n)) (hhmm t) d)
      with (formatTimeRange (hhmm t) d
              :: dayPeriods (S n) (incrementTime (hhmm t) d) d).
    rewrite incrementTime_hhmm, IH. simpl. rewrite incrementTime_hhmm.
    do 4 f_equal; lia.
Qed.

Lemma dayPeriods_last n t d :
  last (dayPeriods (S n) (hhmm t) d) = Some (range (t + n * d) (t + (n + 1) * d)).
Proof. by rewrite dayPeriods_snoc, last_snoc. Qed.



Lemma startTime_setPeriods p s : startTime (exec (setPeriods p) s) = startTime s.
Proof. by destruct s. Qed.












(** *** Saving the form *)

(** The form as [clearForm] leaves it. *)
Lemma clearForm_run name n start d p e gl ge gs log r l cs ed del ok cl t :
  exec clearForm
    (Build_Form (Build_State name n start d p e gl ge gs log r) l cs ed del ok cl t)
  = Build_Form (Build_State "" (whole 0) "08:00" 60 ∅ None gl ge gs log r)
      l cs None del "" cl t.
Proof. done. Qed.

Lemma handleSubmit_refused name n start d p e gl ge gs log r l cs ed del ok cl t srv :
  ¬ acceptable (Build_State name n start d p e gl ge gs log r) →
  ∃ msg,
    exec (handleSubmit srv)
      (Build_Form (Build_State name n start d p e gl ge gs log r) l cs ed del ok cl t)
    = Build_Form (Build_State name n start d p (Some msg) gl ge gs log r)
        l cs ed del ok cl t.
Proof.
  unfold acceptable. cbn [departmentName numPeriods classDuration]. intros Hno.
  unfold exec, handleSubmit, mbind, M_bind, zoom, validateConfiguration.
  cbn [departmentName numPeriods classDuration].
  case_bool_decide; [by eexists|].
  destruct (below n 1) eqn:Hn; [by eexists|].
  case_bool_decide; [by eexists|].
  exfalso. apply Hno. repeat split; [done|lia].
Qed.

Lemma handleSubmit_no_periods name n start d e gl ge gs log r l cs ed del ok cl t srv :
  acceptable (Build_State name n start d ∅ e gl ge gs log r) →
  exec (handleSubmit srv)
    (Build_Form (Build_State name n start d ∅ e gl ge gs log r) l cs ed del ok cl t)
  = Build_Form (Build_State name n start d ∅
                  (Some "Please generate periods before saving.") gl ge gs log r)
      false cs ed del ok cl t.
Proof.
  unfold acceptable. cbn [departmentName numPeriods classDuration].
  intros (Hname & Hn & Hd).
  unfold exec, handleSubmit, mbind, M_bind, zoom, validateConfiguration.
  cbn [departmentName numPeriods classDuration].
  rewrite (bool_decide_eq_false_2 (trim _ = "")) by done.
  rewrite Hn.
  rewrite (bool_decide_eq_false_2 (d < 30)) by lia.
  done.
Qed.

Lemma handleSubmit_run name n start d p e gl ge gs log r l cs ed del ok cl t srv :
  let s := Build_State name n start d p e gl ge gs log r in
  let f := Build_Form s l cs ed del ok cl t in
  acceptable s → p ≠ ∅ →
  exec (handleSubmit srv) f
  = match answer_of srv f with
    | inr data =>
        Build_Form (Build_State "" (whole 0) "08:00" 60 ∅ None gl ge gs log r) false
          (match ed with
           | Some editing =>
               (λ config, if bool_decide (config_id config = config_id editing)
                          then data else config) <$> cs
           | None => cs ++ [data]
           end)
          None del "" (cl ++ [request_of f]) (S t)
    | inl err =>
        Build_Form (Build_State name n start d p (Some (failureMessage err))
                      gl ge gs log r)
          false cs ed del ok (cl ++ [request_of f]) t
    end.
Proof.
  intros s f. unfold acceptable. subst s f.
  cbn [departmentName numPeriods classDuration].
  intros (Hname & Hn & Hd) Hp.
  unfold answer_of, request_of.
  unfold exec, handleSubmit, mbind, M_bind, zoom, validateConfiguration.
  cbn [departmentName numPeriods classDuration].
  rewrite (bool_decide_eq_false_2 (trim _ = "")) by done.
  rewrite Hn.
  rewrite (bool_decide_eq_false_2 (d < 30)) by lia.
  cbn [negb setLoading setError modify fields periods_ editingConfig existingConfigs].
  rewrite bool_decide_eq_false_2 by (by rewrite map_size_empty_iff).
  destruct ed as [editing|]; cbn [editingConfig fields].
  - by destruct (put srv _ _).
  - by destruct (post srv _).
Qed.

(** X4: [handleSubmit] sends nothing while the form is not ready.  When
    the form fails validation (blank department name, no period, class
    duration under 30 minutes) or no periods have been generated, no
    request is added to the log, the stored configurations and the
    configuration being edited stay the same, the fields keep their
    contents, and an error is shown. *)
Theorem handleSubmit_sends_nothing srv f :
  ¬ acceptable (fields f) ∨ periods_ (fields f) = ∅ →
  let f' := exec (handleSubmit srv) f in
  calls f' = calls f
  ∧ is_Some (error (fields f'))
  ∧ existingConfigs f' = existingConfigs f
  ∧ editingConfig f' = editingConfig f
  ∧ success f' = success f
  ∧ departmentName (fields f') = departmentName (fields f)
  ∧ numPeriods (fields f') = numPeriods (fields f)
  ∧ startTime (fields f') = startTime (fields f)
  ∧ classDuration (fields f') = classDuration (fields f)
  ∧ periods_ (fields f') = periods_ (fields f).
Proof.
  destruct f as [[name n start d p e gl ge gs log r] l cs ed del ok cl t].
  intros Hno. cbv zeta. cbn [fields periods_] in Hno.
  destruct (decide (acceptable (Build_State name n start d p e gl ge gs log r)))
    as [Hacc|Hnacc].
  - destruct Hno as [?| ->]; [done|].
    rewrite handleSubmit_no_periods by done. cbn. eauto 12.
  - destruct (handleSubmit_refused name n start d p e gl ge gs log r
                l cs ed del ok cl t srv Hnacc) as [msg ->].
    cbn. eauto 12.
Qed.

Lemma handleSubmit_sends_nothing_witness :
  let f' := exec (handleSubmit keeping) blank in
  calls f' = calls blank
  ∧ is_Some (error (fields f'))
  ∧ existingConfigs f' = existingConfigs blank
  ∧ editingConfig f' = editingConfig blank
  ∧ success f' = success blank
  ∧ departmentName (fields f') = departmentName (fields blank)
  ∧ numPeriods (fields f') = numPeriods (fields blank)
  ∧ startTime (fields f') = startTime (fields blank)
  ∧ classDuration (fields f') = classDuration (fields blank)
  ∧ periods_ (fields f') = periods_ (fields blank).
Proof. apply (handleSubmit_sends_nothing keeping blank). by right. Defined.

(** *** Edits made by hand leave the form fields alone *)




Lemma handleSubmit_calls srv f :
  acceptable (fields f) → periods_ (fields f) ≠ ∅ →
  calls (exec (handleSubmit srv) f) = calls f ++ [request_of f].
Proof.
  destruct f as [[name n start d p e gl ge gs log r] l cs ed del ok cl t].
  cbn [fields periods_ calls]. intros Hacc Hp.
  rewrite handleSubmit_run by done. by destruct (answer_of _ _).
Qed.







(** *** Opening a stored configuration *)

Lemma loadConfigForEditing_run c ps name n start d p e gl ge gs log r l cs ed del ok cl t :
  periods c = Some ps → start_time c ≠ "" →
  loadConfigForEditing c
    (Build_Form (Build_State name n start d p e gl ge gs log r) l cs ed del ok cl t)
  = (Done,
     Build_Form
       (Build_State (config_name c) (whole (length ps)) (substring_to 5 (start_time c))
          (class_duration c)
          (newPeriods (length ps) (substring_to 5 (start_time c)) (class_duration c))
          e gl ge gs log r)
       l cs (Some c) del ok cl t).
Proof.
  intros Hps Hstart. unfold loadConfigForEditing, mbind, M_bind.
  cbn [setEditingConfig modify zoom setDepartmentName]. rewrite Hps.
  cbn [setNumPeriods modify zoom].
  by rewrite bool_decide_eq_false_2 by done.
Qed.

Lemma newPeriods_nonempty n start d : newPeriods n start d ≠ ∅.
Proof.
  intros Heq. assert ("Mon" ∈ days_) as Hin by (unfold days_; set_solver).
  apply (newPeriods_lookup n start d) in Hin. by rewrite Heq in Hin.
Qed.



(** *** Deleting a stored configuration *)

Lemma handleDeleteConfig_run srv id s l cs ed del ok cl t :
  delete_ srv id = inr tt →
  exec (handleDeleteConfig srv id) (Build_Form s l cs ed del ok cl t)
  = Build_Form s l (filter (λ config, config_id config ≠ id) cs) ed None
      "Configuration deleted successfully!" (cl ++ [Delete id]) (S t).
Proof.
  intros Hdel. unfold exec, handleDeleteConfig, mbind, M_bind.
  cbn [call modify]. by rewrite Hdel.
Qed.

(** X9: deleting the configuration that is being edited does not leave edit
    mode.  After [loadConfigForEditing] opened a stored configuration and
    [handleDeleteConfig] deleted it, no stored configuration has its id any
    more, yet the form still edits it: the next [handleSubmit] sends a PUT
    to the deleted id, not a POST. *)
Theorem deleted_configuration_is_still_edited srv c ps f :
  trim (config_name c) ≠ "" → periods c = Some ps → 1 ≤ length ps →
  start_time c ≠ "" → 30 ≤ class_duration c →
  delete_ srv (config_id c) = inr tt →
  let f1 := exec (loadConfigForEditing c) f in
  let f2 := exec (handleDeleteConfig srv (config_id c)) f1 in
  let f3 := exec (handleSubmit srv) f2 in
  (∀ c', c' ∈ existingConfigs f2 → config_id c' ≠ config_id c)
  ∧ (∀ c', c' ∈ existingConfigs f → config_id c' ≠ config_id c →
       c' ∈ existingConfigs f2)
  ∧ editingConfig f2 = Some c
  ∧ calls f3
    = calls f ++ [Delete (config_id c); Put (config_id c) (payload (fields f1))].
Proof.
  intros Hname Hps Hn Hstart Hd Hdel.
  destruct f as [[name n start d p e gl ge gs log r] l cs ed del ok cl t].
  cbv zeta.
  assert (∀ g, exec (loadConfigForEditing c) g = (loadConfigForEditing c g).2) as Hexec
    by done.
  rewrite Hexec. erewrite loadConfigForEditing_run by done. cbn [snd].
  rewrite handleDeleteConfig_run by done.
  cbn [existingConfigs editingConfig calls fields].
  split; [|split; [|split; [done|]]].
  - by intros c' [? _]%list_elem_of_filter.
  - intros c' Hin Hne. by apply list_elem_of_filter.
  - rewrite handleSubmit_calls.
    + cbn [calls]. unfold request_of. cbn [editingConfig fields].
      by rewrite <-app_assoc.
    + cbn [fields]. unfold acceptable.
      cbn [departmentName numPeriods classDuration below].
      split; [done|]. split; [|done]. apply bool_decide_eq_false. lia.
    + cbn [fields periods_]. apply newPeriods_nonempty.
Qed.

Lemma deleted_configuration_is_still_edited_witness :
  let c := kept 7 (payload morning) in
  let f := exec (handleSubmit keeping) (exec (zoom generatePeriods) blank) in
  let f1 := exec (loadConfigForEditing c) f in
  let f2 := exec (handleDeleteConfig keeping 7) f1 in
  let f3 := exec (handleSubmit keeping) f2 in
  (∀ c', c' ∈ existingConfigs f2 → config_id c' ≠ 7)
  ∧ (∀ c', c' ∈ existingConfigs f → config_id c' ≠ 7 → c' ∈ existingConfigs f2)
  ∧ editingConfig f2 = Some c
  ∧ calls f3 = calls f ++ [Delete 7; Put 7 (payload (fields f1))].
Proof.
  apply (deleted_configuration_is_still_edited keeping (kept 7 (payload morning))
           (payload_periods (payload morning))
           (exec (handleSubmit keeping) (exec (zoom generatePeriods) blank)));
    try done; vm_compute; lia.
Defined.

(** *** The prerequisite check and the generation *)

Lemma handleCheckPrerequisites_run srv name n start d p e gl ge gs log r :
  exec (handleCheckPrerequisites srv) (Build_State name n start d p e gl ge gs log r)
  = if bool_decide (length (found_issues srv) = 0) then
      Build_State name n start d p e false ""
        "✅ All prerequisites are met! You can now generate the timetable."
        (log ++ six_requests) r
    else
      Build_State name n start d p e false (issuesMessage (found_issues srv)) ""
        (log ++ six_requests) r.
Proof.
  unfold exec, handleCheckPrerequisites.
  unfold mbind at 1 2 3 4.
  unfold M_bind, setGenLoading, setGenError, setGenSuccess, modify.
  cbv beta iota. rewrite validatePrerequisites_run. cbv beta iota.
  by case_bool_decide.
Qed.

Lemma issuesMessage_nonempty issues : issuesMessage issues ≠ "".
Proof. done. Qed.

Lemma six_requests_read_only : POST url_generate ∉ six_requests.
Proof.
  intros Hin. unfold six_requests in Hin.
  repeat (apply elem_of_cons in Hin as [?|Hin]; [done|]).
  by apply elem_of_nil in Hin.
Qed.

(** X10: the prerequisite check predicts what the generation does.  On the
    same form and the same server answers, [handleCheckPrerequisites]
    sends the six read requests only, never the generate request, and
    schedules no redirect; it shows its success message exactly when
    [handleGenerateTimetable] goes on to send the generate request, and an
    error exactly when the generation stops after the six reads, in which
    case both show the same error. *)
Theorem check_predicts_generation srv s :
  let c := exec (handleCheckPrerequisites srv) s in
  let g := exec (handleGenerateTimetable srv) s in
  sent c = sent s ++ six_requests
  ∧ (POST url_generate ∉ six_requests)
  ∧ redirect c = redirect s
  ∧ genLoading c = false
  ∧ (genSuccess c ≠ "" ↔ sent g = sent s ++ six_requests ++ [POST url_generate])
  ∧ (genError c ≠ "" ↔ sent g = sent s ++ six_requests)
  ∧ (genError c ≠ "" → genError g = genError c).
Proof.
  cbv zeta.
  destruct (decide (found_issues srv = [])) as [Hnone|Hsome].
  - rewrite handleGenerateTimetable_sends by done.
    destruct s as [name n start d p e gl ge gs log r].
    rewrite handleCheckPrerequisites_run, Hnone. cbn.
    split; [done|]. split; [apply six_requests_read_only|]. do 2 (split; [done|]).
    split; [done|]. split; [|done]. split; [done|].
    intros Heq. apply app_inv_head in Heq. by apply (f_equal length) in Heq.
  - destruct s as [name n start d p e gl ge gs log r].
    rewrite handleGenerateTimetable_blocked by done.
    rewrite handleCheckPrerequisites_run.
    rewrite bool_decide_eq_false_2
      by (destruct (found_issues srv); [done|cbn [length]; lia]).
    cbn [sent redirect genLoading genSuccess genError].
    split; [done|]. split; [apply six_requests_read_only|]. do 2 (split; [done|]).
    split; [|split; [|done]].
    + split; [done|]. intros Heq. apply app_inv_head in Heq.
      by apply (f_equal length) in Heq.
    + split; [done|]. intros _. apply issuesMessage_nonempty.
Qed.

End ConfigFormFacts.

(** ** Facts about the text and list primitives *)

Module JsTextFacts.
Import Js JsText JsFacts.

(** *** [find] *)

Lemma find_Some {A} (p : A → bool) l x :
  find p l = Some x
  ↔ ∃ i, l !! i = Some x ∧ p x = true
         ∧ ∀ j y, j < i → l !! j = Some y → p y = false.
Proof.
  unfold find. induction l as [|a l IH].
  - split; [done|]. by intros (i & ? & _).
  - rewrite filter_cons. destruct (decide (p a = true)) as [Ha|Ha].
    + cbn [head]. split.
      * intros [= <-]. exists 0. split; [done|]. split; [done|]. intros; lia.
      * intros ([|i] & Hi & Hx & Hfirst); [by injection Hi as ->|].
        specialize (Hfirst 0 a). rewrite Hfirst in Ha; [done|lia|done].
    + rewrite IH. split.
      * intros (i & Hi & Hx & Hfirst). exists (S i). split; [done|]. split; [done|].
        intros [|j] y Hj Hy; [injection Hy as <-; by destruct (p a)|].
        apply (Hfirst j); [lia|done].
      * intros ([|i] & Hi & Hx & Hfirst); [injection Hi as ->; done|].
        exists i. split; [done|]. split; [done|].
        intros j y Hj Hy. apply (Hfirst (S j)); [lia|done].
Qed.

Lemma find_None {A} (p : A → bool) l :
  find p l = None ↔ ∀ x, x ∈ l → p x = false.
Proof.
  unfold find. induction l as [|a l IH].
  - split; [|done]. by intros _ x ?%elem_of_nil.
  - rewrite filter_cons. destruct (decide (p a = true)) as [Ha|Ha].
    + cbn [head]. split; [done|]. intros H. rewrite (H a) in Ha; [done|by left].
    + rewrite IH. split.
      * intros H x [->|Hx]%elem_of_cons; [by destruct (p a)|by apply H].
      * intros H x Hx. apply H. by right.
Qed.

Lemma find_elem_of {A} (p : A → bool) l x :
  find p l = Some x → x ∈ l ∧ p x = true.
Proof.
  intros (i & Hi & Hx & _)%find_Some. split; [|done].
  by eapply list_elem_of_lookup_2.
Qed.

Lemma fmap_NoDup_inj {A B} (f : A → B) (l : list A) x y :
  NoDup (f <$> l) → x ∈ l → y ∈ l → f x = f y → x = y.
Proof.
  induction l as [|a l IH]; [by intros _ ?%elem_of_nil|].
  rewrite fmap_cons, NoDup_cons.
  intros [Ha Hl] [->|Hx]%elem_of_cons [->|Hy]%elem_of_cons Heq; try done.
  - exfalso. apply Ha. rewrite Heq. by apply list_elem_of_fmap_2.
  - exfalso. apply Ha. rewrite <-Heq. by apply list_elem_of_fmap_2.
  - by apply IH.
Qed.

(** *** The characters of a text *)

Lemma occurs_app c a b : occurs c (a +:+ b) ↔ occurs c a ∨ occurs c b.
Proof.
  induction a as [|x a IH].
  - change ("" +:+ b) with b. cbn [occurs]. tauto.
  - change (String x a +:+ b) with (String x (a +:+ b)). cbn [occurs].
    rewrite IH. tauto.
Qed.

Lemma includes_occurs c x hay : includes (String c x) hay = true → occurs c hay.
Proof.
  induction hay as [|a hay IH]; cbn [includes occurs].
  - by rewrite orb_false_r.
  - rewrite orb_true_iff. intros [Hpre|Hin]; [|right; by apply IH].
    left. rewrite prefix_cons in Hpre. by case_decide.
Qed.

Lemma pretty_N_char_digit c d :
  occurs c "0123456789" ∨ pretty_N_char d ≠ c.
Proof.
  destruct (decide (occurs c "0123456789")) as [?|Hno]; [by left|right].
  intros <-. apply Hno. unfold pretty_N_char. repeat case_match; cbn; tauto.
Qed.

Lemma pretty_N_go_occurs c x s :
  ¬ occurs c "0123456789" → ¬ occurs c s → ¬ occurs c (pretty_N_go x s).
Proof.
  intros Hc. revert s. induction (N.lt_wf_0 x) as [x _ IH]. intros s Hs.
  destruct (decide (x = 0)%N) as [->|Hx]; [by rewrite pretty_N_go_0|].
  rewrite pretty_N_go_step by lia. apply IH.
  - apply N.div_lt; lia.
  - cbn [occurs]. intros [Heq|?]; [|done].
    by destruct (pretty_N_char_digit c (x `mod` 10)).
Qed.

Lemma pretty_nat_occurs c (n : nat) :
  ¬ occurs c "0123456789" → ¬ occurs c (pretty n).
Proof.
  intros Hc. unfold pretty, pretty_nat, pretty, pretty_N.
  case_decide.
  - intros Hin. apply Hc. cbn in *. tauto.
  - apply pretty_N_go_occurs; [done|]. by intros [].
Qed.

Lemma not_occurs c s : bool_decide (occurs c s) = false → ¬ occurs c s.
Proof. apply bool_decide_eq_false_1. Qed.

End JsTextFacts.

(** ** The teacher form: the grid, the configuration and the save *)

Module TeacherFormFacts.
Import Js JsText Handler Api AddTeacher TeacherForm.
Import ConfigForm(Outcome, Done, TypeError).
Import JsFacts DepartmentConfigFacts AddTeacherFacts.

(** *** The grid of the teacher form and the grid of the configuration *)








(** *** Marking cells *)

Lemma cell_toggle_same st day i :
  cell (toggleTimeSlot day i st) day i
  = match cell st day i with
    | Some _ => None
    | None => Some mandatory
    end.
Proof.
  unfold cell, toggleTimeSlot, activeMode. rewrite lookup_insert_eq. cbn.
  destruct (st !! day) as [dayState|]; cbn.
  - case_bool_decide as Hc.
    + by rewrite Hc, lookup_delete_eq.
    + rewrite lookup_insert_eq. destruct (dayState !! i) as [[]|]; done.
  - by rewrite bool_decide_eq_false_2, lookup_insert_eq by done.
Qed.

Lemma cell_toggle_other st day i day' i' :
  (day', i') ≠ (day, i) →
  cell (toggleTimeSlot day i st) day' i' = cell st day' i'.
Proof.
  intros Hne. unfold cell, toggleTimeSlot, activeMode.
  destruct (decide (day' = day)) as [->|Hday].
  - assert (i' ≠ i) by congruence.
    rewrite lookup_insert_eq. cbn.
    destruct (st !! day) as [dayState|]; cbn.
    + case_bool_decide; [by rewrite lookup_delete_ne|by rewrite lookup_insert_ne].
    + rewrite bool_decide_eq_false_2 by done. by rewrite lookup_insert_ne.
  - by rewrite lookup_insert_ne.
Qed.

(** X12: a click on a cell of the availability grid flips that cell and no
    other.  [toggleTimeSlot(day, periodIndex)] marks the cell when it is
    not marked and clears it when it is; every other cell of the grid
    shows what it showed before; the cell is drawn red exactly when it is
    marked; and a second click on the same cell gives back the grid as it
    was shown. *)
Theorem toggleTimeSlot_flips_one_cell st day i :
  let st' := toggleTimeSlot day i st in
  (cell st day i = None → cell st' day i = Some mandatory)
  ∧ (cell st day i = Some mandatory → cell st' day i = None)
  ∧ (∀ day' i', (day', i') ≠ (day, i) → cell st' day' i' = cell st day' i')
  ∧ (getTimeSlotClass st' day i = "bg-red-500/20 border border-red-500/30 text-red-500"
     ↔ cell st day i = None)
  ∧ (∀ day' i', cell (toggleTimeSlot day i st') day' i' = cell st day' i').
Proof.
  cbv zeta. split; [|split; [|split; [|split]]].
  - intros H. by rewrite cell_toggle_same, H.
  - intros H. by rewrite cell_toggle_same, H.
  - intros. by apply cell_toggle_other.
  - unfold getTimeSlotClass. rewrite cell_toggle_same.
    destruct (cell st day i) as [[]|]; done.
  - intros day' i'. destruct (decide ((day', i') = (day, i))) as [[= -> ->]|Hne].
    + rewrite !cell_toggle_same. by destruct (cell st day i) as [[]|].
    + by rewrite !cell_toggle_other.
Qed.

(** *** The configuration the form works with *)

Lemma head_insertBy x l :
  head (insertBy newest_first x l)
  = match head l with
    | Some y => if bool_decide (config_id y ≤ config_id x) then Some x else Some y
    | None => Some x
    end.
Proof.
  destruct l as [|y l]; [done|]. cbn [insertBy head].
  unfold newest_first at 1.
  case_bool_decide as H1; case_bool_decide as H2; try done; lia.
Qed.

Lemma elem_of_insertBy {A} (cmp : A → A → Z) x y l :
  y ∈ insertBy cmp x l ↔ y = x ∨ y ∈ l.
Proof.
  induction l as [|z l IH]; cbn [insertBy].
  - rewrite list_elem_of_singleton. split; [by left|]. by intros [?|?%elem_of_nil].
  - case_bool_decide; [by rewrite elem_of_cons|].
    rewrite !elem_of_cons, IH. tauto.
Qed.

Lemma elem_of_sortBy {A} (cmp : A → A → Z) y l : y ∈ sortBy cmp l ↔ y ∈ l.
Proof.
  induction l as [|x l IH]; [done|].
  unfold sortBy. cbn [foldr]. fold (sortBy cmp l).
  by rewrite elem_of_insertBy, elem_of_cons, IH.
Qed.

Lemma latestConfig_spec data :
  match latestConfig data with
  | Some c => c ∈ data ∧ ∀ c', c' ∈ data → config_id c' ≤ config_id c
  | None => data = []
  end.
Proof.
  unfold latestConfig.
  induction data as [|x data IH]; [done|].
  unfold sortBy. cbn [foldr]. fold (sortBy newest_first data).
  rewrite head_insertBy.
  destruct (head (sortBy newest_first data)) as [y|].
  - destruct IH as [Hin Hmax]. case_bool_decide as Hle.
    + split; [by left|]. intros c' [->|Hc']%elem_of_cons; [done|].
      specialize (Hmax _ Hc'). lia.
    + split; [by right|]. intros c' [->|Hc']%elem_of_cons; [lia|by apply Hmax].
  - subst data. split; [by left|]. by intros c' ->%list_elem_of_singleton.
Qed.

(** X13: the teacher form works with the newest configuration.  When the
    list of configurations arrives, [fetchConfig] takes the one with the
    highest id, whatever its place in the list, and shows no error; when
    the list is empty it keeps the configuration it had and tells the user
    to complete the department configuration.  In both cases the loading
    flag is cleared. *)
Theorem fetchConfig_takes_the_highest_id srv f data :
  TeacherForm.schedule_configs srv = inr data →
  let f' := exec (fetchConfig srv) f in
  configLoading f' = false
  ∧ (data = [] →
     timetableConfig f' = timetableConfig f ∧ error f' = no_configuration)
  ∧ (data ≠ [] →
     error f' = error f
     ∧ ∃ c, timetableConfig f' = Some c ∧ c ∈ data
            ∧ ∀ c', c' ∈ data → config_id c' ≤ config_id c).
Proof.
  intros Hdata. destruct f as [i n m a c cl tl e fe log r sc].
  cbv zeta. unfold exec, fetchConfig, mbind, M_bind. rewrite Hdata.
  pose proof (latestConfig_spec data) as Hspec.
  destruct data as [|x data].
  - cbn. done.
  - rewrite bool_decide_eq_true_2 by (cbn [length]; lia).
    destruct (latestConfig (x :: data)) as [latest|]; [|done].
    cbn. split; [done|]. split; [done|]. intros _. split; [done|].
    by exists latest.
Qed.

Lemma fetchConfig_takes_the_highest_id_witness :
  let f' := exec (fetchConfig accepting) new_teacher in
  configLoading f' = false
  ∧ timetableConfig f' = Some round_the_clock.
Proof.
  destruct (fetchConfig_takes_the_highest_id accepting new_teacher
              [round_the_clock; six_hours]) as (H1 & _ & H2); [done|].
  split; [exact H1|]. by vm_compute.
Defined.

(** *** Saving the teacher *)

Lemma handleSubmit_invalid srv i n m a c cl tl e fe log r sc :
  trim n = "" ∨ m < 1 →
  handleSubmit srv (Build_Form i n m a c cl tl e fe log r sc)
  = (Done,
     Build_Form i n m a c cl tl ""
       {| errors_name := if bool_decide (trim n = "")
                         then Some "Teacher name is required" else None;
          errors_maxClasses := if bool_decide (m < 1)
                               then Some "Must be at least 1 class per day"
                               else None |}
       log r (S sc)).
Proof.
  intros Hbad. unfold handleSubmit, mbind, M_bind, validateForm.
  cbn [TeacherForm.setError modify name maxClasses exec snd setFormErrors
       errors_name errors_maxClasses].
  rewrite bool_decide_eq_false_2; [done|].
  intros [H1 H2]. destruct Hbad as [Hn|Hm].
  - by rewrite bool_decide_eq_true_2 in H1.
  - by rewrite bool_decide_eq_true_2 in H2.
Qed.

Lemma handleSubmit_valid srv i n m a c cl tl e fe log r sc :
  trim n ≠ "" → 1 ≤ m →
  let f0 := Build_Form i n m a c cl true ""
              {| errors_name := None; errors_maxClasses := None |} log r sc in
  handleSubmit srv (Build_Form i n m a c cl tl e fe log r sc)
  = match save srv (request_of f0) with
    | inr _ =>
        (Done,
         Build_Form i n m a c cl false ""
           {| errors_name := None; errors_maxClasses := None |}
           (log ++ [request_of f0]) (Some "/components/Teachers") sc)
    | inl err =>
        match errorMessage err with
        | Some msg =>
            (Done,
             Build_Form i n m a c cl false msg
               {| errors_name := None; errors_maxClasses := None |}
               (log ++ [request_of f0]) r (S sc))
        | None =>
            (TypeError,
             Build_Form i n m a c cl false ""
               {| errors_name := None; errors_maxClasses := None |}
               (log ++ [request_of f0]) r sc)
        end
    end.
Proof.
  intros Hn Hm. cbv zeta. unfold handleSubmit, mbind, M_bind, validateForm.
  cbn [TeacherForm.setError modify name maxClasses exec snd setFormErrors
       errors_name errors_maxClasses].
  rewrite (bool_decide_eq_false_2 (trim n = "")) by done.
  rewrite (bool_decide_eq_false_2 (m < 1)) by lia.
  rewrite bool_decide_eq_true_2 by done.
  cbn [negb setTeacherLoading modify call].
  destruct (save srv _) as [err|[]]; [|done].
  by destruct (errorMessage err).
Qed.

(** X14: the teacher form sends nothing while it is not valid.  With a
    blank name or fewer than one class a day, [handleSubmit] issues no
    request and opens no page; it puts the message of each failing input
    under that input and of no other, clears the general error, scrolls to
    the top and leaves what the user entered as it is. *)
Theorem teacher_handleSubmit_sends_nothing srv f :
  trim (name f) = "" ∨ maxClasses f < 1 →
  let f' := exec (handleSubmit srv) f in
  eval (handleSubmit srv) f = Done
  ∧ calls f' = calls f ∧ redirect f' = redirect f
  ∧ teacherLoading f' = teacherLoading f ∧ error f' = ""
  ∧ scrolled f' = S (scrolled f)
  ∧ (errors_name (formErrors f') = Some "Teacher name is required"
     ↔ trim (name f) = "")
  ∧ (errors_maxClasses (formErrors f') = Some "Must be at least 1 class per day"
     ↔ maxClasses f < 1)
  ∧ name f' = name f ∧ maxClasses f' = maxClasses f
  ∧ availabilityState f' = availabilityState f.
Proof.
  destruct f as [i n m a c cl tl e fe log r sc]. cbn [name maxClasses].
  intros Hbad. cbv zeta. unfold eval, exec. rewrite handleSubmit_invalid by done.
  cbn. repeat (split; [done|]).
  split; [|split; [|done]]; case_bool_decide; naive_solver.
Qed.

Lemma teacher_handleSubmit_sends_nothing_witness :
  let f' := exec (handleSubmit accepting) nameless in
  eval (handleSubmit accepting) nameless = Done
  ∧ calls f' = calls nameless ∧ redirect f' = redirect nameless
  ∧ teacherLoading f' = teacherLoading nameless ∧ error f' = ""
  ∧ scrolled f' = S (scrolled nameless)
  ∧ (errors_name (formErrors f') = Some "Teacher name is required"
     ↔ trim (name nameless) = "")
  ∧ (errors_maxClasses (formErrors f') = Some "Must be at least 1 class per day"
     ↔ maxClasses nameless < 1)
  ∧ name f' = name nameless ∧ maxClasses f' = maxClasses nameless
  ∧ availabilityState f' = availabilityState nameless.
Proof. apply (teacher_handleSubmit_sends_nothing accepting nameless). by left. Defined.

(** X15: what saving a valid teacher form does.  [handleSubmit] sends one
    request: a POST to the collection when the page was opened without an
    id, a PUT to the teacher's address otherwise; its body carries the
    name, the classes a day and, under ["mandatory"], the times
    [convertAvailability] makes of the marked cells.  The teachers page is
    opened when the server accepts, and only then.  When it refuses, the
    form shows the message read off the answer, and a name the answer
    complains about gives ["Teacher name already exists"] whatever else
    the answer holds.  What the user entered is kept and the loading flag
    is cleared in every case. *)
Theorem teacher_handleSubmit_request srv f :
  trim (name f) ≠ "" → 1 ≤ maxClasses f →
  let f' := exec (handleSubmit srv) f in
  let body :=
    {| body_name := name f;
       body_max_classes_per_day := maxClasses f;
       body_unavailable_periods :=
         {[ "mandatory" := convertAvailability (timetableConfig f)
                             (availabilityState f) ]} |} in
  let q := if bool_decide (id f = "") then Post "/api/timetable/teachers/" body
           else Put ("/api/timetable/teachers/" +:+ id f +:+ "/") body in
  calls f' = calls f ++ [q]
  ∧ teacherLoading f' = false
  ∧ name f' = name f ∧ maxClasses f' = maxClasses f
  ∧ availabilityState f' = availabilityState f
  ∧ (∀ u, save srv q = inr u →
       redirect f' = Some "/components/Teachers" ∧ error f' = "")
  ∧ (∀ err, save srv q = inl err →
       redirect f' = redirect f
       ∧ (∀ msg, errorMessage err = Some msg → error f' = msg)
       ∧ (∀ d s, failure_data err = Some d → data_name d = NameString s → s ≠ "" →
            error f' = "Teacher name already exists")).
Proof.
  destruct f as [i n m a c cl tl e fe log r sc]. cbn [name maxClasses].
  intros Hn Hm. cbv zeta. unfold exec. rewrite handleSubmit_valid by done.
  unfold request_of, saved.
  cbn [id name maxClasses timetableConfig availabilityState].
  set (q := if bool_decide (i = "") then _ else _).
  destruct (save srv q) as [err|u] eqn:Hsave.
  - assert (∀ msg, errorMessage err = Some msg →
              ∀ d s, failure_data err = Some d → data_name d = NameString s →
                     s ≠ "" → msg = "Teacher name already exists") as Hname.
    { intros msg Hmsg d s Hd Hs Hne. unfold errorMessage in Hmsg.
      rewrite Hd, Hs in Hmsg. cbn in Hmsg.
      rewrite (bool_decide_eq_false_2 (s = "")) in Hmsg by done.
      cbn in Hmsg. congruence. }
    destruct (errorMessage err) as [msg|] eqn:Hmsg; cbn.
    + do 5 (split; [done|]). split; [done|].
      intros err' [= <-]. split; [done|]. split.
      * intros msg' Hmsg'. congruence.
      * intros d s Hd Hs Hne. by apply (Hname msg eq_refl d s).
    + do 5 (split; [done|]). split; [done|].
      intros err' [= <-]. split; [done|]. split.
      * intros msg' Hmsg'. congruence.
      * intros d s Hd Hs Hne. unfold errorMessage in Hmsg.
        rewrite Hd, Hs in Hmsg. cbn in Hmsg. done.
  - cbn. do 5 (split; [done|]). split; [done|]. done.
Qed.

Lemma teacher_handleSubmit_request_witness :
  let f' := exec (handleSubmit accepting) new_teacher in
  calls f'
  = [Post "/api/timetable/teachers/"
       {| body_name := "Dr. Naeem"; body_max_classes_per_day := 3;
          body_unavailable_periods :=
            {[ "mandatory" := convertAvailability (Some six_hours) two_days ]} |}]
  ∧ redirect f' = Some "/components/Teachers".
Proof.
  destruct (teacher_handleSubmit_request accepting new_teacher)
    as (H1 & _ & _ & _ & _ & H2 & _); [by vm_compute|simpl; lia|].
  split; [exact H1|]. by apply (H2 tt).
Defined.

End TeacherFormFacts.

(** ** Timetable.js: the cells of the grid, the screens and the slots *)

Module TimetablePageFacts.
Import Js JsText Handler Api TimetablePage JsFacts JsTextFacts.
Import ConfigForm(Outcome, Done, TypeError).

Lemma in_cell_slot day index e :
  in_cell day index e = true ↔ slot e = (normalizeDay day, index + 1).
Proof.
  unfold in_cell, slot. rewrite andb_true_iff, !bool_decide_eq_true.
  split; [by intros [-> ->]|by intros [= -> ->]].
Qed.

(** X16: a timetable without clashes is shown whole, each entry in one
    cell.  When the days of the grid stay different once normalized, no
    two entries share a normalized day and a period, and every entry
    falls on a day of the grid and on one of its [n] time slots, then
    every entry is the one shown in the cell of its day and period, and in
    no other cell of the grid. *)
Theorem grid_shows_each_entry_once entries days n e :
  NoDup (normalizeDay <$> days) → NoDup (slot <$> entries) →
  (∀ e', e' ∈ entries →
     normalizeDay (Api.day e') ∈ normalizeDay <$> days ∧ 1 ≤ period e' ≤ n) →
  e ∈ entries →
  ∃ day index,
    day ∈ days ∧ index < n ∧ index + 1 = period e
    ∧ normalizeDay day = normalizeDay (Api.day e)
    ∧ cellEntry entries day index = Some e
    ∧ ∀ day' index', day' ∈ days →
        cellEntry entries day' index' = Some e → day' = day ∧ index' = index.
Proof.
  intros Hdays Hslots Hgrid He.
  destruct (Hgrid e He) as [Hday Hperiod].
  apply list_elem_of_fmap in Hday as (day & Hnorm & Hday).
  exists day, (period e - 1).
  split; [done|]. split; [lia|]. split; [lia|]. split; [done|].
  assert (in_cell day (period e - 1) e = true) as Hcell.
  { apply in_cell_slot. unfold slot. rewrite Hnorm. f_equal. lia. }
  split.
  - unfold cellEntry.
    destruct (find (in_cell day (period e - 1)) entries) as [e'|] eqn:Hfind.
    + apply find_elem_of in Hfind as [He' Hcell'].
      f_equal. apply (fmap_NoDup_inj slot entries); try done.
      apply in_cell_slot in Hcell, Hcell'. congruence.
    + rewrite find_None in Hfind. by rewrite (Hfind e He) in Hcell.
  - intros day' index' Hday' Hfind.
    apply find_elem_of in Hfind as [_ Hcell'].
    apply in_cell_slot in Hcell, Hcell'.
    rewrite Hcell in Hcell'. injection Hcell' as Hd Hi.
    split; [|lia]. symmetry. by apply (fmap_NoDup_inj normalizeDay days).
Qed.

Lemma grid_shows_each_entry_once_witness :
  ∃ day index,
    day ∈ ["Mon"; "Tue"; "Wed"; "Thu"; "Fri"] ∧ index < 2
    ∧ index + 1 = period monday_first
    ∧ normalizeDay day = normalizeDay (Api.day monday_first)
    ∧ cellEntry [monday_first; tuesday_second] day index = Some monday_first
    ∧ ∀ day' index', day' ∈ ["Mon"; "Tue"; "Wed"; "Thu"; "Fri"] →
        cellEntry [monday_first; tuesday_second] day' index' = Some monday_first →
        day' = day ∧ index' = index.
Proof.
  apply (grid_shows_each_entry_once [monday_first; tuesday_second]
           ["Mon"; "Tue"; "Wed"; "Thu"; "Fri"] 2 monday_first).
  - by apply (bool_decide_unpack _).
  - by apply (bool_decide_unpack _).
  - intros e' [->|[->|[]%elem_of_nil]%elem_of_cons]%elem_of_cons;
      (split; [by apply (bool_decide_unpack _)|cbn; lia]).
  - by left.
Defined.

(** X17: of two entries on the same normalized day and period the grid
    shows the earlier one only.  In a list without repeated entries, an
    entry that comes after another entry of the same day and period is
    shown in no cell, whatever the day of the column and the time
    slot. *)
Theorem clashing_entry_is_hidden entries i j e1 e2 :
  NoDup entries → i < j →
  entries !! i = Some e1 → entries !! j = Some e2 → slot e1 = slot e2 →
  ∀ day index, cellEntry entries day index ≠ Some e2.
Proof.
  intros Hnodup Hij Hi Hj Hslot day index Hfind.
  apply find_Some in Hfind as (k & Hk & Hcell & Hfirst).
  assert (k = j) as -> by by eapply NoDup_lookup.
  apply in_cell_slot in Hcell. rewrite <-Hslot in Hcell.
  apply in_cell_slot in Hcell. by rewrite (Hfirst i e1 Hij Hi) in Hcell.
Qed.

Lemma clashing_entry_is_hidden_witness :
  slot monday_first = slot monday_again
  ∧ ∀ day index,
      cellEntry [monday_first; tuesday_second; monday_again] day index
      ≠ Some monday_again.
Proof.
  split; [done|].
  apply (clashing_entry_is_hidden [monday_first; tuesday_second; monday_again]
           0 2 monday_first monday_again); try done; [|lia].
  by apply (bool_decide_unpack _).
Defined.

(** *** A dropped entry and the grid *)

Lemma findIndex_None {A} (p : A → bool) l :
  findIndex p l = None → ∀ x, x ∈ l → p x = false.
Proof.
  induction l as [|y l IH]; cbn [findIndex]; [by intros _ x ?%elem_of_nil|].
  destruct (p y) eqn:Hy; [done|].
  destruct (findIndex p l); [done|]. intros _ x [->|Hx]%elem_of_cons; [done|].
  by apply IH.
Qed.

Lemma dropped_in_cell day index e :
  in_cell day index (Timetable.dropped day (index + 1) e) = true.
Proof.
  unfold in_cell, Timetable.dropped. cbn [Api.day period].
  by rewrite !bool_decide_eq_true_2.
Qed.

(** X18: an accepted move whose refresh fails leaves the moved entry in
    its new cell.  Let the entries of the page carry different ids, let
    the dragged entry be one of them and the cell of the drop be empty.
    When the server accepts the move and the refresh that follows fails,
    the page keeps as many entries as before; the cell of the drop shows
    the dragged entry with its day and period changed and nothing else
    changed; every other entry is still there; and no cell but that of
    the drop shows an entry with the id of the dragged one. *)
Theorem accepted_drop_fills_the_target_cell srv day index s dragging prev entries err :
  Timetable.editMode s = true → Timetable.draggingEntry s = Some dragging →
  Timetable.timetableData s = Some prev →
  Timetable.data_entries prev = Some entries →
  dragging ∈ entries → NoDup (entry_id <$> entries) →
  cellEntry entries day index = None →
  Timetable.move_answer srv dragging day index = inr tt →
  Timetable.latest srv (Timetable.latestUrl (Timetable.selectedClassGroup s))
  = inl err →
  let s' := exec (Timetable.onDrop srv day index) s in
  ∃ after entries',
    Timetable.timetableData s' = Some after
    ∧ Timetable.data_entries after = Some entries'
    ∧ length entries' = length entries
    ∧ cellEntry entries' day index = Some (Timetable.dropped day (index + 1) dragging)
    ∧ (∀ e, e ∈ entries → e ≠ dragging → e ∈ entries')
    ∧ (∀ day' index' e', cellEntry entries' day' index' = Some e' →
         entry_id e' = entry_id dragging →
         e' = Timetable.dropped day (index + 1) dragging
         ∧ normalizeDay day' = normalizeDay day ∧ index' = index).
Proof.
  intros Hedit Hdrag Hdata Hentries Hin Hids Hfree Hmove Hlatest. cbv zeta.
  rewrite (TimetableFacts.onDrop_moved_not_refreshed srv day index s dragging err)
    by done.
  cbn [Timetable.timetableData]. rewrite Hdata.
  destruct (findIndex (Timetable.same_id dragging) entries) as [i|] eqn:Hidx.
  2:{ apply findIndex_None with (x := dragging) in Hidx; [|done].
      unfold Timetable.same_id in Hidx. by rewrite bool_decide_eq_true_2 in Hidx. }
  pose proof Hidx as (x & Hi & Hx)%AddTeacherFacts.findIndex_Some.
  assert (x = dragging) as ->.
  { apply (fmap_NoDup_inj entry_id entries); try done.
    - by eapply list_elem_of_lookup_2.
    - unfold Timetable.same_id in Hx. by apply bool_decide_eq_true in Hx. }
  rewrite (TimetableFacts.optimistic_entry _ _ _ _ entries i) by done.
  set (moved := Timetable.dropped day (index + 1) dragging).
  assert (∀ j e, alter (Timetable.dropped day (index + 1)) i entries !! j = Some e →
                 (j = i ∧ e = moved) ∨ (j ≠ i ∧ entries !! j = Some e)) as Hafter.
  { intros j e Hj. destruct (decide (j = i)) as [->|Hne].
    - left. rewrite list_lookup_alter_eq, Hi in Hj. by injection Hj as <-.
    - right. by rewrite list_lookup_alter_ne in Hj. }
  assert (cellEntry (alter (Timetable.dropped day (index + 1)) i entries) day index
          = Some moved) as Hcell.
  { apply find_Some. exists i. split; [by rewrite list_lookup_alter_eq, Hi|].
    split; [apply dropped_in_cell|].
    intros j y Hj Hy. apply Hafter in Hy as [[-> _]|[_ Hy]]; [lia|].
    unfold cellEntry in Hfree. rewrite find_None in Hfree.
    apply Hfree. by eapply list_elem_of_lookup_2. }
  eexists _, _. split; [done|]. split; [done|].
  split; [by rewrite length_alter|]. split; [done|]. split.
  - intros e [j Hj]%list_elem_of_lookup_1 Hne.
    apply (list_elem_of_lookup_2 _ j). rewrite list_lookup_alter_ne; [done|].
    intros ->. congruence.
  - intros day' index' e' Hfind Hid.
    apply find_Some in Hfind as (j & Hj & Hcell' & _).
    apply Hafter in Hj as [[-> ->]|[Hne Hj]].
    + split; [done|]. apply in_cell_slot in Hcell'.
      unfold slot, moved, Timetable.dropped in Hcell'. cbn in Hcell'.
      injection Hcell' as Hd Hp. split; [done|lia].
    + exfalso. apply Hne.
      assert (e' = dragging) as ->.
      { apply (fmap_NoDup_inj entry_id entries); try done.
        by eapply list_elem_of_lookup_2. }
      by eapply NoDup_lookup; [apply (NoDup_fmap_1 entry_id)|..].
Qed.

Lemma accepted_drop_fills_the_target_cell_witness :
  let s' := exec (Timetable.onDrop gone_after_the_move "Mon" 0)
              Timetable.dragging_thursday in
  ∃ after entries',
    Timetable.timetableData s' = Some after
    ∧ Timetable.data_entries after = Some entries'
    ∧ length entries' = 2
    ∧ cellEntry entries' "Mon" 0
      = Some (Timetable.dropped "Mon" 1 Timetable.dbs_on_thursday).
Proof.
  destruct (accepted_drop_fills_the_target_cell gone_after_the_move "Mon" 0
              Timetable.dragging_thursday Timetable.dbs_on_thursday
              {| Timetable.data_days := ["Mon"; "Tue"; "Wed"; "Thu"; "Fri"];
                 Timetable.data_timeSlots := ["8:00 AM - 9:00 AM"; "9:00 AM - 10:00 AM"];
                 Timetable.data_entries :=
                   Some [Timetable.dbs_on_thursday; Timetable.dbs_on_tuesday] |}
              [Timetable.dbs_on_thursday; Timetable.dbs_on_tuesday]
              {| Api.status := None; Api.data_error := ""; Api.data_detail := "";
                 code := "ERR_NETWORK"; Api.message := "Network Error" |})
    as (after & entries' & H1 & H2 & H3 & H4 & _); try done.
  - by left.
  - by apply (bool_decide_unpack _).
  - by exists after, entries'.
Defined.

(** *** The messages of a failed load *)

Lemma other_status_message (n : nat) :
  isNoConfig ("Server returned error " +:+ pretty n +:+ ". Please try again.") = false.
Proof.
  unfold isNoConfig. apply orb_false_iff. split.
  - apply not_true_is_false. intros H%includes_occurs.
    apply occurs_app in H as [H|H]; [by apply not_occurs in H|].
    apply occurs_app in H as [H|H]; [|by apply not_occurs in H].
    revert H. apply pretty_nat_occurs. by apply not_occurs.
  - apply not_true_is_false. intros H%includes_occurs.
    apply occurs_app in H as [H|H]; [by apply not_occurs in H|].
    apply occurs_app in H as [H|H]; [|by apply not_occurs in H].
    revert H. apply pretty_nat_occurs. by apply not_occurs.
Qed.

Lemma loadErrorMessage_nonempty err : loadErrorMessage err ≠ "".
Proof.
  destruct err as [a| |msg]; cbn [loadErrorMessage]; [| done|].
  - repeat case_bool_decide; try done. by destruct (_ || _).
  - case_bool_decide; [done|]. by destruct (_ || _).
Qed.

(** What a screen is chosen for each status of a refused load. *)
Lemma isNoConfig_response a :
  isNoConfig (loadErrorMessage (Response a)) = true ↔ status a = 400 ∨ status a = 404.
Proof.
  cbn [loadErrorMessage].
  case_bool_decide as H400.
  { split; [by left|]. intros _. by destruct (_ || _). }
  case_bool_decide as H404; [split; [by right|done]|].
  case_bool_decide as H500; [split; [done|by intros [?|?]]|].
  rewrite other_status_message. split; [done|by intros [?|?]].
Qed.

(** *** Loading the timetable *)

Lemma fetchTimetable_run srv d l e g m log t :
  exec (fetchTimetable srv) (Build_Page d l e g m log t)
  = match received (latest srv (Timetable.latestUrl g)) with
    | inr data =>
        Build_Page (Some data) false "" g m (log ++ [Get (Timetable.latestUrl g)]) t
    | inl err =>
        if unauthorized err then
          Build_Page d false "" g m (log ++ [Get (Timetable.latestUrl g)]) t
        else
          Build_Page None false (loadErrorMessage err) g m
            (log ++ [Get (Timetable.latestUrl g)]) t
    end.
Proof.
  unfold exec, fetchTimetable, mbind, M_bind.
  cbn [setLoading TimetablePage.setError modify selectedClassGroup send].
  destruct (received _) as [err|data]; [|done].
  by destruct (unauthorized err).
Qed.

(** X19: which screen a refused load ends on depends on the status of the
    answer alone.  When the server answers the load with an error status
    other than 401, the timetable is cleared and the page shows the
    "No Timetable Configuration Found" screen exactly when the status is
    400 or 404, whatever the answer says; for every other status it shows
    the error screen with the message and the retry button.  A 400 gives
    one of two fixed messages: the text of the answer is not shown. *)
Theorem error_screen_depends_on_status srv p a :
  latest srv (Timetable.latestUrl (selectedClassGroup p)) = inl (Response a) →
  status a ≠ 401 →
  let p' := exec (fetchTimetable srv) p in
  timetableData p' = None ∧ loading p' = false
  ∧ (screen p' = NoConfigurationScreen ↔ status a = 400 ∨ status a = 404)
  ∧ (status a ≠ 400 → status a ≠ 404 → screen p' = ErrorScreen (error p'))
  ∧ (status a = 400 →
     error p' = "No schedule configuration found. Please set up Department Configuration first."
     ∨ error p' = "Configuration error. Please check your Department Configuration settings.").
Proof.
  destruct p as [d l e g m log t]. cbn [selectedClassGroup].
  intros Hans H401. cbv zeta. rewrite fetchTimetable_run, Hans.
  cbn [received unauthorized]. rewrite bool_decide_eq_false_2 by done.
  cbn [timetableData loading error]. split; [done|]. split; [done|].
  pose proof (isNoConfig_response a) as Hscreen.
  pose proof (loadErrorMessage_nonempty (Response a)) as Hne.
  unfold screen. cbn [loading error timetableData].
  rewrite (bool_decide_eq_false_2 (_ = "")) by done. cbn [negb].
  destruct (isNoConfig (loadErrorMessage (Response a))) eqn:Hno.
  - split; [by rewrite <-Hscreen|]. split.
    + intros ??. destruct Hscreen as [Hs _]. by destruct Hs.
    + intros H400. cbn [loadErrorMessage].
      rewrite bool_decide_eq_true_2 by done. destruct (_ || _); eauto.
  - split; [|split; [done|]].
    + split; [done|]. intros Hs. apply Hscreen in Hs. done.
    + intros H400. cbn [loadErrorMessage].
      rewrite bool_decide_eq_true_2 by done. destruct (_ || _); eauto.
Qed.

Lemma error_screen_depends_on_status_witness :
  let p' := exec (fetchTimetable (answering (inl bad_request))) showing_week in
  timetableData p' = None
  ∧ screen p' = NoConfigurationScreen
  ∧ error p'
    = "Configuration error. Please check your Department Configuration settings.".
Proof.
  destruct (error_screen_depends_on_status (answering (inl bad_request))
              showing_week {| status := 400;
                              data_error := "Teacher matching query does not exist";
                              data_detail := ""; data_message := "" |})
    as (H1 & _ & H2 & _ & _); [done|done|].
  split; [exact H1|]. split; [apply H2; by left|]. by vm_compute.
Defined.

(** X20: a load never ends on the blank page or on the incomplete-data
    screen.  Unless the server answers 401, [fetchTimetable] sends one
    GET for the selected class group and, when it is over, the page is no
    longer loading and shows either the grid or the empty-timetable
    screen, with the data received and no error, or one of the two error
    screens, with the timetable cleared.  The grid and the empty screen
    come up only for data that hold an array of entries, the days and the
    time slots. *)
Theorem load_ends_on_grid_or_error srv p :
  (∀ a, latest srv (Timetable.latestUrl (selectedClassGroup p)) = inl (Response a) →
        status a ≠ 401) →
  let p' := exec (fetchTimetable srv) p in
  loading p' = false
  ∧ requests p' = requests p ++ [Get (Timetable.latestUrl (selectedClassGroup p))]
  ∧ screen p' ≠ Blank ∧ screen p' ≠ IncompleteScreen ∧ screen p' ≠ LoadingScreen
  ∧ match received (latest srv (Timetable.latestUrl (selectedClassGroup p))) with
    | inr data =>
        timetableData p' = Some data ∧ error p' = ""
        ∧ (∃ l days slots, grid_entries data = Array l
             ∧ grid_days data = Some days ∧ grid_timeSlots data = Some slots
             ∧ screen p' = if bool_decide (l = []) then EmptyScreen else GridScreen)
    | inl err =>
        timetableData p' = None ∧ error p' = loadErrorMessage err
        ∧ (screen p' = NoConfigurationScreen ∨ screen p' = ErrorScreen (error p'))
    end.
Proof.
  destruct p as [d l e g m log t]. cbn [selectedClassGroup requests].
  intros H401. cbv zeta. rewrite fetchTimetable_run.
  destruct (received (latest srv (Timetable.latestUrl g))) as [err|data] eqn:Hrec.
  - assert (unauthorized err = false) as ->.
    { destruct err as [a| |]; try done. cbn. apply bool_decide_eq_false_2.
      apply H401. unfold received in Hrec.
      destruct (latest srv _) as [err'|data]; [congruence|].
      exfalso. unfold validated in Hrec. destruct data as [d0|]; [|done].
      destruct (grid_entries d0), (grid_days d0), (grid_timeSlots d0); done. }
    pose proof (loadErrorMessage_nonempty err) as Hne.
    unfold screen. cbn [loading error timetableData requests].
    rewrite (bool_decide_eq_false_2 (_ = "")) by done. cbn [negb].
    destruct (isNoConfig _); repeat split; try done; eauto.
  - assert (∃ l days slots, grid_entries data = Array l
              ∧ grid_days data = Some days ∧ grid_timeSlots data = Some slots)
      as (l' & days & slots & Hl & Hdays & Hslots).
    { unfold received in Hrec. destruct (latest srv _) as [?|[data'|]]; try done.
      unfold validated in Hrec.
      destruct (grid_entries data') as [| |l0] eqn:?; try done.
      destruct (grid_days data') as [days0|] eqn:?; [|done].
      destruct (grid_timeSlots data') as [slots0|] eqn:?; [|done].
      injection Hrec as <-. by exists l0, days0, slots0. }
    unfold screen. cbn [loading error timetableData requests bool_decide negb].
    rewrite (bool_decide_eq_true_2 ("" = "")) by done. cbn [negb].
    rewrite Hl, Hdays, Hslots.
    destruct l' as [|x l']; repeat split; try done; eauto 10.
Qed.

Lemma load_ends_on_grid_or_error_witness :
  let p' := exec (fetchTimetable (answering (inr (Some week)))) showing_week in
  loading p' = false ∧ screen p' = GridScreen ∧ timetableData p' = Some week.
Proof.
  destruct (load_ends_on_grid_or_error (answering (inr (Some week))) showing_week)
    as (H1 & _ & _ & _ & _ & H2); [done|].
  split; [exact H1|]. split; [by vm_compute|]. apply H2.
Defined.

(** *** Deleting a slot *)

(** X21: deleting a slot takes the entry out of the grid once the server
    has deleted it.  After the user confirmed and the server accepted,
    the entries of the page are those it had, in the same order, without
    the entries that carry the id of the deleted one; no cell of the grid
    shows an entry with that id any more; the days and the time slots are
    kept, "Slot deleted" is shown and one timer is set to clear it.
    Without the confirmation nothing is sent and nothing changes. *)
Theorem deleteSlot_removes_the_entry srv p d l entry :
  timetableData p = Some d → grid_entries d = Array l →
  delete_ srv (slotUrl entry) = inr tt →
  let p' := exec (deleteSlot srv true entry) p in
  eval (deleteSlot srv true entry) p = Done
  ∧ requests p' = requests p ++ [Delete (slotUrl entry)]
  ∧ shown_entries p' = filter (λ en, entry_id en ≠ entry_id entry) l
  ∧ (∀ en, en ∈ shown_entries p' ↔ en ∈ l ∧ entry_id en ≠ entry_id entry)
  ∧ (∀ day index e, cellEntry (shown_entries p') day index = Some e →
       entry_id e ≠ entry_id entry)
  ∧ (∃ d', timetableData p' = Some d' ∧ grid_days d' = grid_days d
           ∧ grid_timeSlots d' = grid_timeSlots d)
  ∧ message p' = Some {| Timetable.message_type := "success";
                         Timetable.message_text := "Slot deleted" |}
  ∧ timers p' = S (timers p)
  ∧ deleteSlot srv false entry p = (Done, p).
Proof.
  destruct p as [d0 lo e g m log t]. cbn [timetableData].
  intros -> Hl Hdel. cbv zeta.
  unfold eval, exec, deleteSlot, mbind, M_bind. cbn [negb send modify].
  rewrite Hdel. cbn [timetableData]. rewrite Hl.
  cbn [fst snd setTimetableData setMessage setTimeout modify requests
       timetableData message timers].
  unfold shown_entries. cbn [timetableData grid_entries].
  split; [done|]. split; [done|]. split; [done|]. split.
  { intros en. split.
    - by intros [??]%list_elem_of_filter.
    - intros [??]. by apply list_elem_of_filter. }
  split.
  { intros day index e0 [Hin _]%find_elem_of.
    by apply list_elem_of_filter in Hin as [? _]. }
  split; [by eexists|]. done.
Qed.

Lemma deleteSlot_removes_the_entry_witness :
  let p' := exec (deleteSlot (answering (inr None)) true monday_first) showing_week in
  shown_entries p' = [tuesday_second]
  ∧ requests p' = [Delete "/api/timetable/slots/1/"]
  ∧ timers p' = 1.
Proof.
  destruct (deleteSlot_removes_the_entry (answering (inr None)) showing_week week
              [monday_first; tuesday_second] monday_first)
    as (_ & H1 & H2 & _ & _ & _ & _ & H3 & _); [done|done|done|].
  split; [exact H2|]. split; [exact H1|exact H3].
Defined.

(** X22: a slot the server did not delete stays in the grid.  When the
    delete request fails, the timetable of the page is what it was; unless
    the status is 401, an error message is shown: the [detail] of the
    answer, or "Delete failed" when there is none; and one timer is set
    to clear it. *)
Theorem deleteSlot_failure_keeps_the_grid srv p entry err :
  delete_ srv (slotUrl entry) = inl err →
  let p' := exec (deleteSlot srv true entry) p in
  eval (deleteSlot srv true entry) p = Done
  ∧ requests p' = requests p ++ [Delete (slotUrl entry)]
  ∧ timetableData p' = timetableData p
  ∧ timers p' = S (timers p)
  ∧ (unauthorized err = true → message p' = message p)
  ∧ (unauthorized err = false →
     ∃ text, message p' = Some {| Timetable.message_type := "error";
                                  Timetable.message_text := text |}
             ∧ text ≠ ""
             ∧ (∀ a, err = Response a → data_detail a ≠ "" → text = data_detail a)
             ∧ ((∀ a, err = Response a → data_detail a = "") → text = "Delete failed")).
Proof.
  destruct p as [d0 lo e g m log t]. intros Hdel. cbv zeta.
  unfold eval, exec, deleteSlot, mbind, M_bind. cbn [negb send modify].
  rewrite Hdel. destruct (unauthorized err) eqn:Hun.
  - cbn. by repeat split.
  - cbn [fst snd setMessage setTimeout modify requests timetableData message timers].
    do 4 (split; [done|]). split; [done|]. intros _.
    eexists. split; [done|]. unfold or_else. split; [by case_decide; [|]|].
    split.
    + intros a -> Hne. by rewrite decide_False.
    + intros Hnone. destruct err as [a| |]; [|done..].
      by rewrite decide_True by by apply Hnone.
Qed.

Lemma deleteSlot_failure_keeps_the_grid_witness :
  let srv := {| latest := λ _, inr None; delete_ := λ _, inl NoResponse |} in
  let p' := exec (deleteSlot srv true monday_first) showing_week in
  timetableData p' = Some week
  ∧ message p' = Some {| Timetable.message_type := "error";
                         Timetable.message_text := "Delete failed" |}.
Proof.
  destruct (deleteSlot_failure_keeps_the_grid
              {| latest := λ _, inr None; delete_ := λ _, inl NoResponse |}
              showing_week monday_first NoResponse)
    as (_ & _ & H1 & _ & _ & H2); [done|].
  split; [exact H1|].
  destruct (H2 eq_refl) as (text & -> & _ & _ & ->); done.
Defined.

End TimetablePageFacts.

(** ** Timetable.js: regenerating and deleting the timetable *)

Module TimetableManageFacts.
Import Js JsText Handler Api TimetablePage TimetableManage JsFacts JsTextFacts.
Import TimetablePageFacts.

Lemma regenerateErrorMessage_nonempty err : regenerateErrorMessage err ≠ "".
Proof.
  destruct err as [a| |msg]; cbn [regenerateErrorMessage]; [| done|].
  - repeat case_bool_decide; try done. by destruct (_ || _).
  - case_bool_decide; [done|]. by destruct (includes _ _).
Qed.

Lemma handleRegenerateTimetable_run srv d l e g m log t r dl c :
  exec (handleRegenerateTimetable srv)
    (Build_State (Build_Page d l e g m log t) r dl c)
  = match regenerate srv with
    | inl err =>
        if unauthorized err then
          Build_State (Build_Page d l "" g m (log ++ [Post url_regenerate]) t) false dl c
        else
          Build_State (Build_Page d false (regenerateErrorMessage err) g m
                         (log ++ [Post url_regenerate]) t) false dl c
    | inr _ =>
        let log' := log ++ [Post url_regenerate; Get (Timetable.latestUrl g)] in
        match regenerated (latest srv (Timetable.latestUrl g)) with
        | inr data => Build_State (Build_Page (Some data) false "" g m log' t) false dl c
        | inl err =>
            if unauthorized err then
              Build_State (Build_Page None true "" g m log' t) false dl c
            else
              Build_State (Build_Page None false (regenerateErrorMessage err) g m log' t)
                false dl c
        end
    end.
Proof.
  unfold exec, handleRegenerateTimetable, regenerate_caught, mbind, M_bind.
  cbn [setRegenerating zoom TimetablePage.setError send modify].
  destruct (regenerate srv) as [err|[]].
  - by destruct (unauthorized err).
  - cbn [zoom setTimetableData setLoading modify page selectedClassGroup send].
    rewrite <-app_assoc. cbn [app].
    destruct (regenerated _) as [err|data]; [|done].
    by destruct (unauthorized err).
Qed.

(** X23: a regeneration the server refuses keeps the timetable of the
    page, one that cannot be read back clears it.  Unless a request is
    answered with 401: when the regenerate request fails, the timetable
    data stay as they were and only that request was sent; when it
    succeeds, the timetable is fetched again and the page holds the data
    received if they carry an array of entries, and no data otherwise.
    An error message is set exactly in the failing cases, which puts one
    of the two error screens in front of the timetable; the page is never
    left loading or regenerating. *)
Theorem regeneration_outcome srv s :
  let url := Timetable.latestUrl (selectedClassGroup (page s)) in
  (∀ err, regenerate srv = inl err → unauthorized err = false) →
  (∀ err, regenerated (latest srv url) = inl err → unauthorized err = false) →
  let s' := exec (handleRegenerateTimetable srv) s in
  regenerating s' = false ∧ loading (page s') = false
  ∧ match regenerate srv with
    | inl err =>
        timetableData (page s') = timetableData (page s)
        ∧ requests (page s') = requests (page s) ++ [Post url_regenerate]
        ∧ error (page s') = regenerateErrorMessage err
        ∧ (screen (page s') = NoConfigurationScreen
           ∨ screen (page s') = ErrorScreen (error (page s')))
    | inr _ =>
        requests (page s') = requests (page s) ++ [Post url_regenerate; Get url]
        ∧ match regenerated (latest srv url) with
          | inr data =>
              timetableData (page s') = Some data ∧ error (page s') = ""
              ∧ ∃ l, grid_entries data = Array l
          | inl err =>
              timetableData (page s') = None
              ∧ error (page s') = regenerateErrorMessage err
              ∧ (screen (page s') = NoConfigurationScreen
                 ∨ screen (page s') = ErrorScreen (error (page s')))
          end
    end.
Proof.
  destruct s as [[d l e g m log t] r dl c]. cbv zeta. cbn [page selectedClassGroup].
  intros H1 H2. rewrite handleRegenerateTimetable_run.
  assert (∀ err d' log', 
            let p := Build_Page d' false (regenerateErrorMessage err) g m log' t in
            screen p = NoConfigurationScreen ∨ screen p = ErrorScreen (error p))
    as Hscreen.
  { intros err d' log'. cbv zeta. unfold screen. cbn [loading error].
    rewrite (bool_decide_eq_false_2 (_ = ""))
      by apply regenerateErrorMessage_nonempty.
    cbn [negb]. destruct (isNoConfig _); eauto. }
  destruct (regenerate srv) as [err|[]].
  - rewrite (H1 err eq_refl). cbn [regenerating page loading timetableData requests error].
    do 5 (split; [done|]). apply Hscreen.
  - cbv zeta. destruct (regenerated _) as [err|data] eqn:Hreg.
    + rewrite (H2 err eq_refl).
      cbn [regenerating page loading timetableData requests error].
      do 5 (split; [done|]). apply Hscreen.
    + cbn [regenerating page loading timetableData requests error].
      do 5 (split; [done|]).
      unfold regenerated in Hreg. destruct (latest srv _) as [?|[d0|]]; try done.
      destruct (grid_entries d0) as [| |l0] eqn:Hl0; try done.
      injection Hreg as <-. by exists l0.
Qed.

Lemma regeneration_outcome_witness :
  let s' := exec (handleRegenerateTimetable failing) confirming in
  regenerating s' = false ∧ loading (page s') = false
  ∧ timetableData (page s') = Some week
  ∧ error (page s')
    = "Server error occurred during timetable generation. Please try again later.".
Proof.
  destruct (regeneration_outcome failing confirming) as (H1 & H2 & H3 & _ & H4 & _).
  - by intros err [= <-].
  - by intros err [= <-].
  - split; [exact H1|]. split; [exact H2|]. split; [exact H3|exact H4].
Defined.

Lemma handleDeleteTimetable_failed srv d l e g m log t r dl c :
  match delete_timetable srv with
  | inr (Some answer) => success answer = false
  | inr None => True
  | inl err => unauthorized err = false
  end →
  exec (handleDeleteTimetable srv) (Build_State (Build_Page d l e g m log t) r dl c)
  = Build_State (Build_Page d l "Failed to delete timetable" g m
                   (log ++ [Delete url_delete_timetable]) t) r false c.
Proof.
  intros Hfail. unfold exec, handleDeleteTimetable, mbind, M_bind.
  cbn [setDeleteTimetableLoading zoom send modify].
  destruct (delete_timetable srv) as [err|[answer|]].
  - by rewrite Hfail.
  - by rewrite Hfail.
  - done.
Qed.

(** X24: a timetable that could not be deleted is hidden behind the error
    screen.  When the delete request fails with a status other than 401,
    or is answered without [success], the timetable data of the page are
    untouched and only that request was sent; but the error
    "Failed to delete timetable" is set, so that a page that was not
    loading shows the error screen with that text in place of the
    grid. *)
Theorem failed_delete_hides_the_timetable srv s :
  match delete_timetable srv with
  | inr (Some answer) => success answer = false
  | inr None => True
  | inl err => unauthorized err = false
  end →
  loading (page s) = false →
  let s' := exec (handleDeleteTimetable srv) s in
  timetableData (page s') = timetableData (page s)
  ∧ requests (page s') = requests (page s) ++ [Delete url_delete_timetable]
  ∧ error (page s') = "Failed to delete timetable"
  ∧ screen (page s') = ErrorScreen "Failed to delete timetable"
  ∧ message (page s') = message (page s) ∧ timers (page s') = timers (page s)
  ∧ deleteTimetableLoading s' = false
  ∧ showDeleteTimetableConfirm s' = showDeleteTimetableConfirm s.
Proof.
  destruct s as [[d l e g m log t] r dl c]. cbn [page loading].
  intros Hfail ->. cbv zeta. rewrite handleDeleteTimetable_failed by done.
  by repeat split.
Qed.

Lemma failed_delete_hides_the_timetable_witness :
  let s' := exec (handleDeleteTimetable failing) confirming in
  timetableData (page s') = Some week
  ∧ screen (page s') = ErrorScreen "Failed to delete timetable".
Proof.
  destruct (failed_delete_hides_the_timetable failing confirming)
    as (H1 & _ & _ & H2 & _); [done|done|].
  split; [exact H1|exact H2].
Defined.

(** X25: a deleted timetable leaves the empty grid of the same days.  When
    the server reports [success] and the timetable cannot be fetched again
    (the request fails, or the answer holds no array of entries), the page
    holds no entries under the days and the time slots it showed before,
    so that a page that was not loading shows the empty-timetable screen;
    the error is cleared, the dialogue is closed, the number of deleted
    entries is announced and one timer is set to clear the message. *)
Theorem deleted_timetable_shows_empty srv s answer :
  delete_timetable srv = inr (Some answer) → success answer = true →
  match latest srv (Timetable.latestUrl (selectedClassGroup (page s))) with
  | inl _ | inr None => True
  | inr (Some data) => ∀ l, grid_entries data ≠ Array l
  end →
  loading (page s) = false →
  let s' := exec (handleDeleteTimetable srv) s in
  timetableData (page s') = Some (emptied (timetableData (page s)))
  ∧ shown_entries (page s') = []
  ∧ screen (page s') = EmptyScreen
  ∧ error (page s') = ""
  ∧ message (page s') = Some (deletedMessage answer)
  ∧ timers (page s') = S (timers (page s))
  ∧ requests (page s')
    = requests (page s)
      ++ [Delete url_delete_timetable;
          Get (Timetable.latestUrl (selectedClassGroup (page s)))]
  ∧ showDeleteTimetableConfirm s' = false ∧ deleteTimetableLoading s' = false.
Proof.
  destruct s as [[d l e g m log t] r dl c]. cbn [page loading selectedClassGroup].
  intros Hdel Hok Hlatest ->. cbv zeta.
  unfold exec, handleDeleteTimetable, refetch, mbind, M_bind.
  cbn [setDeleteTimetableLoading zoom send modify].
  rewrite Hdel, Hok.
  cbn [zoom setTimetableData TimetablePage.setError setMessage setTimeout
       setShowDeleteTimetableConfirm modify page timetableData selectedClassGroup send].
  rewrite <-app_assoc. cbn [app].
  destruct (latest srv _) as [?|[d0|]].
  - cbn. by repeat split.
  - destruct (grid_entries d0) as [| |l0] eqn:Hd0;
      [| |by destruct (Hlatest l0)]; cbn; by repeat split.
  - cbn. by repeat split.
Qed.

Lemma deleted_timetable_shows_empty_witness :
  let s' := exec (handleDeleteTimetable deleting) confirming in
  timetableData (page s')
  = Some {| grid_days := Some ["Mon"; "Tue"; "Wed"; "Thu"; "Fri"];
            grid_timeSlots := Some ["8:00 AM - 9:00 AM"; "9:00 AM - 10:00 AM"];
            grid_entries := Array [] |}
  ∧ screen (page s') = EmptyScreen
  ∧ message (page s')
    = Some {| Timetable.message_type := "success";
              Timetable.message_text := "Successfully deleted 2 timetable entries." |}.
Proof.
  destruct (deleted_timetable_shows_empty deleting confirming
              {| success := true; deleted_count := Some 2 |})
    as (H1 & _ & H2 & _ & H3 & _); [done|done|done|done|].
  split; [exact H1|]. split; [exact H2|exact H3].
Defined.

End TimetableManageFacts.

(** ** pdfGenerator.js: the grid of a section *)

Module PdfTableFacts.
Import Js JsText Api TimetablePage PdfTable JsTextFacts TimetablePageFacts.

Lemma exact_in_cell day index e :
  exact_cell day index e = true → in_cell day index e = true.
Proof.
  unfold exact_cell, in_cell. rewrite !andb_true_iff, !bool_decide_eq_true.
  by intros [-> ->].
Qed.

(** X26: the PDF and the page fill the same cells.  For the same list of
    entries, a cell of the PDF grid holds an entry exactly when the cell
    of the page does, and the entry of the PDF cell falls on the
    normalized day and the period of the cell.  When no two entries share
    a normalized day and a period, both show the same entry in every
    cell, and the row of a time slot in the PDF has one cell for each
    day. *)
Theorem pdf_grid_matches_the_page entries days :
  NoDup (slot <$> entries) →
  ∀ index,
    length (dayCells entries days index) = length days
    ∧ ∀ day,
        pdfEntry entries day index = cellEntry entries day index
        ∧ (∀ i, days !! i = Some day →
             dayCells entries days index !! i
             = Some (from_option cellContent "" (cellEntry entries day index))).
Proof.
  intros Hslots index. split; [unfold dayCells; by rewrite length_fmap|].
  intros day.
  assert (pdfEntry entries day index = cellEntry entries day index) as Heq.
  { unfold pdfEntry, cellEntry.
    destruct (find (exact_cell day index) entries) as [e|] eqn:Hexact; [|done].
    apply find_elem_of in Hexact as [He Hcell%exact_in_cell].
    destruct (find (in_cell day index) entries) as [e'|] eqn:Hnorm.
    - apply find_elem_of in Hnorm as [He' Hcell'].
      f_equal. apply (fmap_NoDup_inj slot entries); try done.
      apply in_cell_slot in Hcell, Hcell'. congruence.
    - rewrite find_None in Hnorm. by rewrite (Hnorm e He) in Hcell. }
  split; [done|]. intros i Hi. unfold dayCells.
  rewrite list_lookup_fmap, Hi. cbn. rewrite Heq.
  by destruct (cellEntry entries day index).
Qed.

Lemma pdf_grid_matches_the_page_witness :
  pdfEntry [monday_first; tuesday_second] "Mon" 0
  = cellEntry [monday_first; tuesday_second] "Mon" 0
  ∧ dayCells [monday_first; tuesday_second] ["Mon"; "Tue"] 0 !! 0
    = Some "DS [Room 1]".
Proof.
  destruct (pdf_grid_matches_the_page [monday_first; tuesday_second] ["Mon"; "Tue"])
    with (index := 0) as [_ H]; [by apply (bool_decide_unpack _)|].
  destruct (H "Mon") as [H1 H2]. split; [exact H1|].
  by rewrite (H2 0 eq_refl).
Defined.

End PdfTableFacts.

(** ** pdfGenerator.js: the rows of the Subject and Teacher Details table *)

Module PdfRowsFacts.
Import Js JsText Api PdfGenerator JsFacts JsTextFacts PdfGeneratorFacts.

(** *** Cleaning a subject name *)

Lemma prefix_paren_false pat s :
  ¬ occurs "("%char s → String.prefix (String "(" pat) s = false.
Proof.
  destruct s as [|a s]; [done|]. cbn [occurs]. intros Hno.
  rewrite prefix_cons. case_decide; [|done]. subst a. tauto.
Qed.

Lemma prefix_space_paren_false pat s :
  ¬ occurs "("%char s → String.prefix (String " " (String "(" pat)) s = false.
Proof.
  destruct s as [|a s]; [done|]. cbn [occurs]. intros Hno.
  rewrite prefix_cons. case_decide; [|done].
  apply prefix_paren_false. tauto.
Qed.

Lemma replace_paren_none pat rep s :
  ¬ occurs "("%char s → replace (String "(" pat) rep s = s.
Proof.
  induction s as [|a s IH]; [done|]. intros Hno. cbn [replace].
  rewrite prefix_paren_false by done. cbn [occurs] in Hno.
  rewrite IH by tauto. done.
Qed.

Lemma replace_space_paren_none pat rep s :
  ¬ occurs "("%char s → replace (String " " (String "(" pat)) rep s = s.
Proof.
  induction s as [|a s IH]; [done|]. intros Hno. cbn [replace].
  rewrite prefix_space_paren_false by done. cbn [occurs] in Hno.
  rewrite IH by tauto. done.
Qed.

Lemma replace_PR_suffix s :
  ¬ occurs "("%char s → replace " (PR)" "" (s +:+ " (PR)") = s.
Proof.
  induction s as [|a s IH]; [done|]. intros Hno. cbn [occurs] in Hno.
  change (String a s +:+ " (PR)") with (String a (s +:+ " (PR)")).
  cbn [replace].
  assert (String.prefix " (PR)" (String a (s +:+ " (PR)")) = false) as ->.
  { rewrite prefix_cons. case_decide; [|done].
    destruct s as [|b s]; [done|].
    change (String b s +:+ " (PR)") with (String b (s +:+ " (PR)")).
    rewrite prefix_cons. cbn [occurs] in Hno. case_decide; [|done]. subst b. tauto. }
  rewrite IH by tauto. done.
Qed.

Lemma cleanSubjectName_plain s :
  ¬ occurs "("%char s → trim s = s → cleanSubjectName s = s.
Proof.
  intros Hno Htrim. unfold cleanSubjectName.
  by rewrite replace_space_paren_none, replace_paren_none.
Qed.

Lemma cleanSubjectName_PR s :
  ¬ occurs "("%char s → trim s = s → cleanSubjectName (s +:+ " (PR)") = s.
Proof.
  intros Hno Htrim. unfold cleanSubjectName.
  by rewrite replace_PR_suffix, replace_paren_none.
Qed.

Lemma or_else_empty s : or_else s "" = s.
Proof. unfold or_else. by case_decide. Qed.

(** *** The row of a group *)

Lemma teacherData_row sections rows o name g :
  teacherData sections = Some rows → groupEntries (concat sections) = Some o →
  (name, g) ∈ o →
  ∃ row, row ∈ rows ∧ row_group row = g ∧ row_creditHours row = creditHours g.
Proof.
  intros (o' & Hgroups & ->)%teacherData_Some Ho Hin.
  assert (o' = o) as -> by congruence.
  assert (g ∈ values o) as (i & Hi)%list_elem_of_lookup_1.
  { rewrite values_Permutation. apply list_elem_of_fmap. by exists (name, g). }
  exists {| row_number := i + 1; row_subject := formattedSubjectName g;
            row_creditHours := creditHours g; row_group := g |}.
  split; [|done]. apply elem_of_lookup_imap. by exists i, g.
Qed.

(** X27: a practical class is listed with its subject.  Let the entries
    of the sections of a batch hold a theory class of the subject [name]
    and a practical class whose subject is [name] followed by [" (PR)"],
    neither of them an extra class, where [name] holds no parenthesis and
    no white space at either end.  The table is made when no entry that
    counts has, as the cleaned name of its subject or as its teacher, a
    name that every object has as a property; and whenever it is made, it
    has exactly one row under the name [name], both classes are counted in
    it, and its credit hours read [T+1], where [T] is the credits of the
    first theory entry of the subject, or 3 when that field is absent or
    zero. *)
Theorem practical_is_listed_with_its_subject sections th pr name :
  ¬ occurs "("%char name → trim name = name →
  th ∈ concat sections → pr ∈ concat sections →
  is_extra_class th = false → is_extra_class pr = false →
  is_practical th = false → is_practical pr = true →
  subject th = name → subject pr = name +:+ " (PR)" →
  ((∀ e, e ∈ concat sections → counted e = true →
      (name_of e ∉ inherited) ∧ (or_else (teacher e) "--" ∉ inherited)) →
   is_Some (teacherData sections))
  ∧ ∀ rows, teacherData sections = Some rows →
      (name ∉ inherited)
      ∧ ∃ row,
          row ∈ rows
          ∧ subjectName (row_group row) = name
          ∧ (∀ row', row' ∈ rows → subjectName (row_group row') = name → row' = row)
          ∧ with_section th ∈ theory (row_group row)
          ∧ with_section pr ∈ practical (row_group row)
          ∧ ∃ first, head (theory_of name (concat sections)) = Some first
                     ∧ row_creditHours row
                       = pretty (positive_credits_or_3 first) +:+ "+1".
Proof.
  intros Hno Htrim Hth Hpr Heth Hepr Hpth Hppr Hsth Hspr.
  split; [apply teacherData_made|]. intros rows Hrows.
  pose proof Hrows as (o & Hgroups & _)%teacherData_Some.
  destruct (groupEntries_grouped _ _ Hgroups)
    as [[Hnd Hkeys Hname Htheory Hpractical] Hsafe].
  assert (name_of th = name) as Hnth.
  { unfold name_of. by rewrite or_else_empty, Hsth, cleanSubjectName_plain. }
  assert (name_of pr = name) as Hnpr.
  { unfold name_of. by rewrite or_else_empty, Hspr, cleanSubjectName_PR. }
  assert (counted th = true ∧ counted pr = true) as [Hcth Hcpr].
  { unfold counted. by rewrite Heth, Hepr. }
  assert (name ∈ o.*1) as Hkey.
  { apply Hkeys. by exists th. }
  split; [by apply Hsafe|].
  apply list_elem_of_fmap in Hkey as ([name' g] & Heq & Hin).
  cbn in Heq. subst name'.
  destruct (teacherData_row sections rows o name g Hrows Hgroups Hin)
    as (row & Hrow & Hg & Hcredits).
  exists row. split; [done|].
  assert (subjectName (row_group row) = name) as Hrowname.
  { rewrite Hg. by apply (Hname name g). }
  split; [done|]. split.
  { intros row' Hrow' Hname'.
    apply (fmap_NoDup_inj (subjectName ∘ row_group) rows); try done.
    - by rewrite (teacherData_names sections rows o).
    - cbn. congruence. }
  assert (th ∈ theory_of name (concat sections)) as Hin_th.
  { unfold theory_of. by apply list_elem_of_filter. }
  assert (pr ∈ practical_of name (concat sections)) as Hin_pr.
  { unfold practical_of. by apply list_elem_of_filter. }
  rewrite Hg, (Htheory name g Hin), (Hpractical name g Hin).
  split; [by apply list_elem_of_fmap_2|].
  split; [by apply list_elem_of_fmap_2|].
  rewrite Hcredits. unfold creditHours.
  rewrite (Htheory name g Hin), (Hpractical name g Hin).
  destruct (theory_of name (concat sections)) as [|t ts];
    [by apply elem_of_nil in Hin_th|].
  destruct (practical_of name (concat sections)) as [|q qs];
    [by apply elem_of_nil in Hin_pr|].
  exists t. done.
Qed.

Lemma practical_is_listed_with_its_subject_witness :
  ∃ rows row,
    teacherData [[lecture "DBS" (Some 3); lab "DBS (PR)"]] = Some rows
    ∧ row ∈ rows
    ∧ subjectName (row_group row) = "DBS"
    ∧ row_creditHours row = "3+1".
Proof.
  destruct (practical_is_listed_with_its_subject
              [[lecture "DBS" (Some 3); lab "DBS (PR)"]]
              (lecture "DBS" (Some 3)) (lab "DBS (PR)") "DBS")
    as [_ Hrows]; try done.
  - by apply not_occurs.
  - by left.
  - right. by left.
  - eexists. 
    assert (teacherData [[lecture "DBS" (Some 3); lab "DBS (PR)"]] = Some _)
      as Hmade by (by vm_compute).
    destruct (Hrows _ Hmade)
      as (_ & row & H1 & H2 & _ & _ & _ & first & Hfirst & H3).
    exists row. split; [exact Hmade|]. split; [done|]. split; [done|].
    injection Hfirst as <-. exact H3.
Defined.

(** A subject called [toString] meets what is asked of the name, and no
    table is made for it. *)
Example no_row_for_a_subject_named_toString :
  teacherData [[lecture "toString" (Some 3); lab "toString (PR)"]] = None.
Proof. by vm_compute. Qed.

End PdfRowsFacts.

(** ** ConstraintTesting.js: what the page shows after a request *)

Module ConstraintPageFacts.
Import Js Handler ConstraintTesting ConstraintPage.

Lemma or_else_nonempty a b : b ≠ "" → or_else a b ≠ "".
Proof. unfold or_else. by case_decide. Qed.

Lemma fetchConstraintData_run srv l d sel a e log :
  exec (fetchConstraintData srv) (Build_State l d sel a e log)
  = match overview srv with
    | inr data => Build_State false data sel a "" (log ++ [Get])
    | inl err =>
        if bool_decide (status err = Some 401) then
          Build_State false d sel a "" (log ++ [Get])
        else
          Build_State false d sel a
            (or_else (data_error err) "Failed to fetch constraint data") (log ++ [Get])
    end.
Proof.
  unfold exec, fetchConstraintData, mbind, M_bind.
  cbn [setLoading setError send modify].
  destruct (overview srv) as [err|data]; [|done].
  by case_bool_decide.
Qed.

Lemma fetchDetailedAnalysis_failed srv c l d sel a e log :
  detail_fails srv c →
  ∃ msg, msg ≠ ""
    ∧ exec (fetchDetailedAnalysis srv c) (Build_State l d sel a e log)
      = Build_State false d sel a msg (log ++ [Post c]).
Proof.
  unfold detail_fails, exec, fetchDetailedAnalysis, mbind, M_bind.
  cbn [setLoading setError send modify].
  destruct (analysis srv c) as [err|[]]; try done; intros _.
  - exists (or_else (data_error err) "Failed to fetch detailed analysis").
    split; [by apply or_else_nonempty|done].
  - by exists "Failed to fetch detailed analysis".
  - by exists "Failed to fetch detailed analysis".
Qed.

Lemma fetchDetailedAnalysis_answered srv c data l d sel a e log :
  analysis srv c = inr data → data ≠ null → data ≠ undefined →
  exec (fetchDetailedAnalysis srv c) (Build_State l d sel a e log)
  = Build_State false d (Some c) (field "analysis" data) "" (log ++ [Post c]).
Proof.
  unfold exec, fetchDetailedAnalysis, mbind, M_bind.
  cbn [setLoading setError send modify]. intros -> ??.
  by destruct data.
Qed.

Lemma detail_fails_or_answers srv c :
  detail_fails srv c
  ∨ ∃ data, analysis srv c = inr data ∧ data ≠ null ∧ data ≠ undefined.
Proof.
  unfold detail_fails. destruct (analysis srv c) as [err|data]; [by left|].
  destruct data; try (by left); right; by eexists.
Qed.

(** *** Reports that show *)







(** The page once a report is there and no request under way. *)
Lemma view_report stringify excerpt d sel a e log :
  truthy d = true →
  view stringify excerpt (Build_State false d sel a e log)
  = default Crashed
      (summary ← when d (summary_of d);
       grid ← cards d;
       panel ← panel_of stringify excerpt sel a;
       Some (Main summary grid false panel)).
Proof.
  intros Hd. unfold view. cbn [loading constraintData error selectedConstraint
                              detailedAnalysis].
  rewrite Hd. cbn [negb andb]. by rewrite andb_false_r.
Qed.

(** X28: once a report is on the page, a request that fails is not
    shown.  With a report loaded and no request under way, a refresh the
    server refuses and a detail request that fails both leave the page
    exactly as it was: the old summary and cards, the panel as it stood,
    and no error, although the detail request (and the refresh, unless it
    was answered with 401) does set an error message. *)
Theorem failed_request_is_not_shown stringify excerpt srv s c :
  truthy (constraintData s) = true → loading s = false →
  (∀ err, overview srv = inl err →
     view stringify excerpt (exec (fetchConstraintData srv) s)
     = view stringify excerpt s
     ∧ (status err ≠ Some 401 → error (exec (fetchConstraintData srv) s) ≠ ""))
  ∧ (detail_fails srv c →
     view stringify excerpt (exec (fetchDetailedAnalysis srv c) s)
     = view stringify excerpt s
     ∧ error (exec (fetchDetailedAnalysis srv c) s) ≠ "").
Proof.
  destruct s as [l d sel a e log]. cbn [constraintData loading].
  intros Hd ->. split.
  - intros err Herr. rewrite fetchConstraintData_run, Herr.
    case_bool_decide as H401.
    + by rewrite !view_report.
    + rewrite !view_report by done. split; [done|].
      intros _. by apply or_else_nonempty.
  - intros (msg & Hmsg & ->)%(fetchDetailedAnalysis_failed _ _ false d sel a e log).
    by rewrite !view_report.
Qed.

Lemma failed_request_is_not_shown_witness :
  view (λ _, "") (λ _, "")
       (exec (fetchDetailedAnalysis unreachable "room_conflicts") loaded)
  = view (λ _, "") (λ _, "") loaded
  ∧ error (exec (fetchDetailedAnalysis unreachable "room_conflicts") loaded)
    = "Analysis failed".
Proof.
  destruct (failed_request_is_not_shown (λ _, "") (λ _, "") unreachable loaded
              "room_conflicts") as [_ H]; [done|done|].
  destruct H as [H _]; [done|].
  split; [exact H|done].
Defined.

(** X29: opening the details of a constraint and closing the panel gives
    the page back.  Take a page with a report loaded, no request under way
    and the panel closed, and a click on a card after which the page is
    still there: no render has thrown on the answer.  Then a click on the
    closing button leaves the page as it was before the two clicks; in
    between, the panel is open exactly when the request was answered with
    an analysis that holds something, and then under the name of the
    constraint of the card, with that analysis as
    [renderDetailedAnalysis] draws it. *)
Theorem details_open_and_close stringify excerpt srv s c :
  truthy (constraintData s) = true → loading s = false → c ≠ "" →
  panel_of stringify excerpt (selectedConstraint s) (detailedAnalysis s)
  = Some (inr "") →
  let opened := exec (fetchDetailedAnalysis srv c) s in
  view stringify excerpt opened ≠ Crashed →
  view stringify excerpt (exec closePanel opened) = view stringify excerpt s
  ∧ ∃ summary grid panel,
      view stringify excerpt opened = Main summary grid false panel
      ∧ ((∃ p, panel = inl p)
         ↔ ∃ data, analysis srv c = inr data ∧ truthy (field "analysis" data) = true)
      ∧ ∀ p, panel = inl p →
          panel_heading p = name (getConstraintInfo c) +:+ " - Detailed Analysis"
          ∧ ∃ data, analysis srv c = inr data
              ∧ renderDetailedAnalysis stringify excerpt c (field "analysis" data)
                = Some (panel_body p).
Proof.
  destruct s as [l d sel a e log].
  cbn [constraintData loading selectedConstraint detailedAnalysis].
  intros Hd -> Hc Hclosed. cbv zeta.
  destruct (detail_fails_or_answers srv c) as [Hfail|(data & Hdata & Hnull & Hundef)].
  - destruct (fetchDetailedAnalysis_failed srv c false d sel a e log Hfail)
      as (msg & Hmsg & ->).
    unfold exec at 1, closePanel, mbind, M_bind.
    cbn [setSelectedConstraint setDetailedAnalysis modify snd].
    rewrite !view_report by done. rewrite Hclosed.
    destruct (when d (summary_of d)) as [summary|]; [|done].
    destruct (cards d) as [grid|]; [|done].
    cbn [mbind option_bind default].
    change (panel_of stringify excerpt None null) with (Some (inr "" : Panel + string)).
    cbn [mbind option_bind default]. intros _.
    split; [done|].
    exists summary, grid, (inr ""). split; [done|]. split; [|done].
    split; [by intros []|].
    intros (data & Hdata & Htruthy). exfalso.
    unfold detail_fails in Hfail. rewrite Hdata in Hfail.
    by destruct data.
  - rewrite (fetchDetailedAnalysis_answered srv c data) by done.
    unfold exec at 1, closePanel, mbind, M_bind.
    cbn [setSelectedConstraint setDetailedAnalysis modify snd].
    rewrite !view_report by done. rewrite Hclosed.
    destruct (when d (summary_of d)) as [summary|]; [|done].
    destruct (cards d) as [grid|]; [|done].
    cbn [mbind option_bind default].
    change (panel_of stringify excerpt None null) with (Some (inr "" : Panel + string)).
    assert (panel_of stringify excerpt (Some c) (field "analysis" data)
            = when (field "analysis" data)
                (body ← renderDetailedAnalysis stringify excerpt c
                          (field "analysis" data);
                 Some {| panel_heading :=
                           name (getConstraintInfo c) +:+ " - Detailed Analysis";
                         panel_body := body |})) as ->.
    { unfold panel_of. by rewrite (bool_decide_eq_false_2 (c = "")) by done. }
    destruct (truthy (field "analysis" data)) eqn:Htruthy.
    + rewrite ConstraintTestingFacts.when_truthy by done.
      destruct (renderDetailedAnalysis stringify excerpt c (field "analysis" data))
        as [body|] eqn:Hbody; [|done].
      cbn [mbind option_bind fmap option_fmap option_map default]. intros _.
      split; [done|]. eexists summary, grid, _. split; [done|]. split.
      * split; [by exists data|by eexists].
      * intros p [= <-]. split; [done|]. by exists data.
    + rewrite ConstraintTestingFacts.when_falsy by done.
      cbn [mbind option_bind default]. intros _.
      split; [done|]. eexists summary, grid, _. split; [done|]. split; [|done].
      split; [by intros []|].
      intros (data' & Hdata' & Htruthy'). congruence.
Qed.

Lemma details_open_and_close_witness :
  view (λ _, "") (λ _, "")
    (exec closePanel (exec (fetchDetailedAnalysis answering "room_conflicts") loaded))
  = view (λ _, "") (λ _, "") loaded
  ∧ ∃ summary grid panel,
      view (λ _, "") (λ _, "")
           (exec (fetchDetailedAnalysis answering "room_conflicts") loaded)
      = Main summary grid false (inl panel)
      ∧ panel_heading panel = "Room Conflicts - Detailed Analysis".
Proof.
  destruct (details_open_and_close (λ _, "") (λ _, "") answering loaded
              "room_conflicts")
    as (H & summary & grid & panel & Hview & Hsome & Hpanel);
    [done|done|done|done|by vm_compute|].
  split; [exact H|].
  destruct Hsome as [_ Hsome].
  destruct Hsome as [p ->]; [by eexists|].
  exists summary, grid, p. split; [exact Hview|].
  by destruct (Hpanel p eq_refl) as [-> _].
Defined.

(** An analysis whose compliant items are no array takes the page down:
    the panel throws on [slice]. *)
Example compliant_items_that_are_no_array :
  let srv :=
    {| overview := inr working_hours_report;
       analysis := λ _, inr (object [ ("analysis",
                                       object [ ("status", text "PASS");
                                                ("compliant_entries", number 3) ]) ]) |} in
  view (λ _, "") (λ _, "") (exec (fetchDetailedAnalysis srv "room_conflicts") loaded)
  = Crashed.
Proof. by vm_compute. Qed.



(** A report whose count of entries is an object takes the page down:
    React takes no object as a child. *)
Example total_entries_that_is_an_object :
  let srv :=
    {| overview := inr (object [ ("total_entries", object []) ]);
       analysis := λ _, inl {| status := None; data_error := "" |} |} in
  ¬ plain_report (object [ ("total_entries", object []) ])
  ∧ view (λ _, "") (λ _, "") (exec (fetchConstraintData srv) mounted) = Crashed.
Proof.
  cbv zeta. split; [|by vm_compute].
  apply (bool_decide_eq_false_1 (plain_report _)). by vm_compute.
Qed.

End ConstraintPageFacts.

